(* ===== verification/_CoqProject ===== *)
-Q . S2P
Prelude.v
Bytes.v
ByteOrder.v
Wire.v
Socket.v
Sender.v
Packetize.v
PacketizeFast.v
SendBuffer.v
Assemble.v
AssembleRecover.v
AssembleTyped.v
EndToEnd.v
AssembleAlloc.v
AssemblePart.v
Sequencer.v
Release.v
Supplier.v
MultiProducer.v
BoundedQueue.v
GrpcSim.v
GrpcOrder.v
EtSystem.v
EtFifo.v
EtFill.v
EvioSwap.v
EvioUtil.v
EvioStrings.v
EvioTree.v
EvioStruct.v
EvioTransform.v
EvioFinder.v
EvioComposite.v
EvioBuffer.v
EvioLeaf.v
EvioBlock.v
EvioVersion.v
EvioDict.v
EvioParser.v
EvioFileName.v
EvioFileSplit.v
Processors.v
RingPublish.v
Wiring.v
EvioCloser.v
EvioWriteThread.v
EvioFiles.v
Helpers.v
