(* ===== verification/Prelude.v ===== *)
(** dift: a verification library for the EJFAT data path and its evio support code.

    The repository is an installation tree.  Its own program text are the header
    files that implement routines: under src/installation/include the packetizers
    (ejfat_packetize.hpp, ersap_grpc_packetize.hpp), the reassemblers
    (ejfat_assemble_ersap.hpp, ersap_grpc_assemble.hpp), the suppliers of reusable
    items (Supplier.h, SupplierN.h), the filler of an ET fifo
    (ejfat_assemble_ersap_et.hpp) and ByteOrder.h; under
    src/installation/common/include the evio headers that have bodies, such as
    Util.h, EvioSwap.h and BlockHeaderV4.h.  A sender cuts a buffer into UDP packets
    with two headers, for the load balancer and for the reassembly; a receiver puts
    the packets of one tick together again; threads of a receiver hand buffers on
    through a ring or a queue; the contents are evio data, of either byte order.

    * Conventions

    An integer is a [Z], wrapped where C wraps it ([u8] ... [i64], this file);
    memory is a list of bytes (of 32-bit words in EvioSwap.v) and an access outside
    it, a division by zero or a signed overflow is undefined behaviour: [None] of
    an option, [UB] of a [result], [Stuck] of an [outcome].  A loop is a step
    function on a record of its locals; [run] iterates it on its own, [feed] gives
    it one event (a datagram or an error of recvfrom) per step.  [Next] is not an
    answer: a routine that returns is shown to reach [Halt] ([returns],
    [terminates_total]), with no bound on the fuel in the statement.  Names are the
    source's; the manifest gives the lines of each definition.

    * Files

    - Prelude.v: machine integers, results, outcomes, loops ([run_invariant],
      [terminates_total], simulation between two loops).
    - Bytes.v: loads and stores, [field]s of a memory, integers as byte strings.
    - ByteOrder.v: bswap_16/32/64, the SWAP macros, class ByteOrder, htons ...
      htonll, on a host of either byte order ([Host]).
    - Wire.v: every writer and parser of the packet headers; each writer writes the
      diagram of its comment, each parser reads it back between any two hosts.
    - Socket.v: send and its kind as a parameter ([Socket]); events of recvfrom.
    - Sender.v: the abstract sender, with payload reduction on EMSGSIZE; it ends and
      delivers everything a path takes.  Packetize.v: sendPacketizedBufferSendNew,
      Send, Sendto and Sendmsg, each in lockstep with the abstract sender.
      PacketizeFast.v: the in-place routines, equivalent to the copying ones when
      pieces are longer than the headers.  SendBuffer.v: sendBuffer, getMTU, setMTU.
    - Assemble.v: getCompletePacketizedBuffer: reassembly in any order after the
      first packet, safety, the statistics and where their estimate is undefined,
      what duplicates do.  AssembleRecover.v: ticks that are lost before one is
      complete, described by themselves, and what of them is counted.
      AssembleTyped.v: the locals keep values of their C++ types on any input.
      AssembleAlloc.v: getCompleteAllocatedBuffer, with a heap of named blocks.
      AssemblePart.v: getPacketizedBuffer, which reads a buffer in parts with state
      kept by the caller, and getBuffer.  EndToEnd.v: packetizer and reassembler.
    - Sequencer.v, MultiProducer.v, Release.v, Supplier.v: the ring.  MultiProducer.v
      cuts the calls of the multi-producer sequencer, and the scan of a consumer, into
      their accesses to shared fields; in any interleaving claims are exclusive, consumers see what is
      published, and next returns when there is room.  Release.v computes the gate of a
      consumer from releases in any order; Supplier.v is a world of producer and
      consumer steps: an item is handed out only when every consumer is done with
      it, and each consumer gets each item once, in order.  The classes
      [SequenceUtil] and [SupplyItem] state what is asked of code that is only
      declared, with laws the clients' theorems use.
    - Processors.v: the loops of EventPoller, BatchEventProcessor and WorkProcessor
      that give events to handlers: once each, in order, by one worker of a pool,
      whatever the handlers of the workers throw and when they release their event.
    - RingPublish.v: RingBuffer's publishing of events and batches, on any sequencer.
      Wiring.v: how consumers are chained, started and halted; what start runs is what
      the calls asked for, and the producer waits for all of it.  Helpers.v: the queue with a mutex, handlers in sequence,
      and the processor that follows the cursor.
    - BoundedQueue.v: the blocking queue, a method being one step under the mutex.
    - EtSystem.v, EtFifo.v, EtFill.v: getBuffers, which fills the events of an ET
      system with the packets of several sources and ticks.  EtSystem.v has the calls
      of the ET library as a class with laws; EtFifo.v the routine, and that it keeps
      every entry at one place; EtFill.v that the packets of a tick fill an entry,
      and that a tick which is interrupted by another starts again from nothing.
    - GrpcSim.v, GrpcOrder.v: the simulated sender and receiver, and the order of
      arrival that the receiver recovers from what the sender sent.
    - EvioSwap.v: swapping of nested evio structures on words of memory, in place
      or into a destination; [enc] is the reference, a structure's words in either
      byte order.  EvioUtil.v: padding, types, integers and bytes, powers of two.
      EvioStrings.v: arrays of strings, packed and unpacked.
    - EvioTree.v: the iterators over the tree of an event, on a store of nodes; both
      are one machine with a stack or a queue, and visit in preorder or by levels.
      EvioStruct.v: swapData on such a tree, in place, held against the bytes of the
      elements.  EvioTransform.v: banks and
      segments made into each other.  EvioFinder.v: searches in an event.
      EvioComposite.v: the values a composite item is built of.  EvioBuffer.v: the
      accesses of a ByteBuffer, on arrays that buffers share, and the class of its
      methods; EvioLeaf.v: swapLeafData on two of them, also within one array.
      EvioBlock.v: block headers, their bits, and how they are written; EvioVersion.v:
      they are recognised by findEvioVersion.  EvioParser.v: headers of structures,
      created from bytes and swapped.  EvioDict.v: entries of a dictionary.
    - EvioFileName.v, EvioFileSplit.v: names of files from a template with variables and
      integer specifiers, through both routines of Util.h, that they differ, and where
      they are those of the comment ([documented_slots]).
      EvioFiles.v: buffers written to files and read back.
    - EvioWriteThread.v: the threads that write records to disk, interleaved with
      those that ask for forced writes, publish records, and wait for the last one.  EvioCloser.v: the threads that close files,
      and the trailer they write.

    * Bounds and fuel

    [run] takes the number of iterations; statements quantify over all numbers that
    are large enough.  swapData recurses into nested structures: fuel as large as
    the number of nested structures ([nodes]) is enough, and that is proved.
    Buffers of packets have the sizes of the source's arrays (65536, 10000, 9100).
    The signed 64-bit counters of the reassembler are undefined when they overflow;
    its theorems ask for room in them ([room_for], or 2^30 datagrams in a call).

    * Not modelled

    Printing, CPU numbers and clocks; the socket calls themselves, malloc, the
    methods of SupplyItem, of the Disruptor's sequences and of ByteBuffer, and the
    array routines of ByteOrder, which are declared and not defined in the tree:
    they are parameters with the laws their documentation states.  Null pointers of
    the evio swap routines (they do nothing then).  RecordSupply, and the readers and
    writers of evio but for their threads, are declared only.  sprintf with other
    conversions than %d and %x, and the environment, are parameters of EvioFileName.v
    and EvioFileSplit.v.  The ET library is declared only and is a class (EtSystem.v);
    what its other clients do meanwhile is not
    modelled.  Atomic variables are sequentially consistent in MultiProducer.v and
    Processors.v - also the array of published places, which is not atomic in the
    code - and the set of gating sequences is fixed there.  Abseil, protobuf, gRPC,
    zlib and the other installed libraries are not code of this project. *)
From stdpp Require Export base list numbers option strings.
From Stdlib Require Export ZArith Lia.

#[export] Set Default Proof Using "Type".

Declare Scope dift_scope.
Delimit Scope dift_scope with dift.
#[global] Open Scope Z_scope.
#[global] Open Scope dift_scope.

(** Length of a list as an integer: C sizes are integers, not naturals. *)
Notation "'zlen' l" := (Z.of_nat (length l)) (at level 9, l at level 9) : dift_scope.

(** ** Machine integers: a w-bit value is an integer, wrapped where C wraps. *)

Definition u8 (z : Z) : Z := z mod 256.
Definition u16 (z : Z) : Z := z mod 65536.
Definition u32 (z : Z) : Z := z mod 4294967296.
Definition u64 (z : Z) : Z := z mod 18446744073709551616.
(** Two's complement reading of the low 8, 32 and 64 bits. *)
Definition i8 (z : Z) : Z := (z + 128) mod 256 - 128.
Definition i32 (z : Z) : Z := (z + 2147483648) mod 4294967296 - 2147483648.
Definition i64 (z : Z) : Z := (z + 9223372036854775808) mod 18446744073709551616 - 9223372036854775808.

(** Values of the unsigned types. *)
Definition is_u64 (v : Z) : Prop := 0 <= v < 18446744073709551616.
Definition is_u32 (v : Z) : Prop := 0 <= v < 4294967296.
Definition is_u16 (v : Z) : Prop := 0 <= v < 65536.

Ltac unfold_wrap := unfold u8, u16, u32, u64, i8, i32, i64 in *.

(** [wrap_lia]: linear arithmetic over wrapped integers. *)
Ltac wrap_lia := unfold_wrap; Z.div_mod_to_equations; lia.

(** Signed 64-bit arithmetic whose overflow is undefined. *)
Definition int64 (z : Z) : option Z :=
  if decide (-9223372036854775808 <= z < 9223372036854775808) then Some z else None.

Definition is_i64 (v : Z) : Prop := -9223372036854775808 <= v < 9223372036854775808.

Lemma int64_ok z : is_i64 z -> int64 z = Some z.
Proof. intros. unfold int64. by rewrite decide_True by done. Qed.
Lemma int64_inv z v : int64 z = Some v -> v = z /\ is_i64 z.
Proof. unfold int64. case_decide; [|done]. by intros [= <-]. Qed.

Lemma u8_small z : 0 <= z < 256 -> u8 z = z.
Proof. apply Z.mod_small. Qed.
Lemma u16_small z : 0 <= z < 65536 -> u16 z = z.
Proof. apply Z.mod_small. Qed.
Lemma u32_small z : 0 <= z < 4294967296 -> u32 z = z.
Proof. apply Z.mod_small. Qed.
Lemma u64_small z : 0 <= z < 18446744073709551616 -> u64 z = z.
Proof. apply Z.mod_small. Qed.
Lemma i32_small z : -2147483648 <= z < 2147483648 -> i32 z = z.
Proof. intros. wrap_lia. Qed.
Lemma i64_small z : -9223372036854775808 <= z < 9223372036854775808 -> i64 z = z.
Proof. intros. wrap_lia. Qed.
Lemma u8_range z : 0 <= u8 z < 256.
Proof. wrap_lia. Qed.
Lemma u16_range z : 0 <= u16 z < 65536.
Proof. wrap_lia. Qed.
Lemma u32_range z : 0 <= u32 z < 4294967296.
Proof. wrap_lia. Qed.
Lemma u64_range z : 0 <= u64 z < 18446744073709551616.
Proof. wrap_lia. Qed.
Lemma u32_idemp z : u32 (u32 z) = u32 z.
Proof. wrap_lia. Qed.
Lemma u32_add_l a b : u32 (u32 a + b) = u32 (a + b).
Proof. unfold u32. apply Zplus_mod_idemp_l. Qed.
Lemma u32_add_r a b : u32 (a + u32 b) = u32 (a + b).
Proof. unfold u32. apply Zplus_mod_idemp_r. Qed.

Create HintDb wrap discriminated.
Create Rewrite HintDb wrap.
#[export] Hint Resolve u8_range u16_range u32_range u64_range : wrap.
#[export] Hint Rewrite u32_idemp u32_add_l u32_add_r : wrap.

(** ** Outcomes of a C++ routine: a value, a thrown exception, or undefined
    behaviour (an access outside an object, a division by zero, ...). *)
Inductive result (A : Type) : Type :=
  | Ok (a : A)
  | Throw (e : string)
  | UB.
Arguments Ok {A} a.
Arguments Throw {A} e.
Arguments UB {A}.

#[export] Instance result_ret : MRet result := fun A a => Ok a.
#[export] Instance result_bind : MBind result := fun A B f m =>
  match m with Ok a => f a | Throw e => Throw e | UB => UB end.
#[export] Instance result_eq_dec {A} `{EqDecision A} : EqDecision (result A).
Proof. solve_decision. Defined.

(** An access that must be in bounds. *)
Definition checked {A} (o : option A) : result A :=
  match o with Some a => Ok a | None => UB end.

(** [bind_inv H]: take a successful monadic computation apart. *)
Lemma result_bind_Ok {A B} (f : A -> result B) m b :
  m ≫= f = Ok b -> exists a, m = Ok a /\ f a = Ok b.
Proof. destruct m; cbn; try done. eauto. Qed.
Lemma option_bind_Some {A B} (f : A -> option B) m b :
  m ≫= f = Some b -> exists a, m = Some a /\ f a = Some b.
Proof. destruct m; cbn; try done. eauto. Qed.

(** ** Loops as step functions

    A loop of the program is a function from its state to the next state, to
    the value it returns, or to undefined behaviour; [run] iterates it.  An
    answer [Next s] of [run n] means that the loop is still running after [n]
    iterations, so no theorem below takes running out of fuel for an answer. *)
Inductive outcome (St R : Type) : Type :=
  | Next (s : St)
  | Halt (r : R)
  | Stuck.
Arguments Next {St R} s.
Arguments Halt {St R} r.
Arguments Stuck {St R}.

Section Machine.
Context {St R : Type} (step : St -> outcome St R).

Fixpoint run (fuel : nat) (s : St) : outcome St R :=
  match fuel with
  | O => Next s
  | S n => match step s with Next s' => run n s' | o => o end
  end.

(** The loop reaches an end, whatever number of iterations it takes. *)
Definition terminates (s : St) (o : outcome St R) : Prop :=
  exists n, run n s = o /\ forall s', o <> Next s'.

Lemma run_add n m s :
  run (n + m) s = match run n s with Next s' => run m s' | o => o end.
Proof.
  revert s. induction n as [|n IH]; intros s; [done|]. cbn. destruct (step s); auto.
Qed.

Lemma run_more n m s o : run n s = o -> (forall s', o <> Next s') -> (n <= m)%nat -> run m s = o.
Proof.
  intros H Ho Hle. replace m with (n + (m - n))%nat by lia. rewrite run_add, H.
  destruct o; [by destruct (Ho s0) | done | done].
Qed.

Lemma terminates_unique s o1 o2 : terminates s o1 -> terminates s o2 -> o1 = o2.
Proof.
  intros (n & Hn & H1) (m & Hm & H2). destruct (decide (n <= m)%nat).
  - rewrite <- Hm. symmetry. by eapply run_more.
  - rewrite <- Hn. eapply run_more; [done|done|lia].
Qed.

Lemma terminates_step s s' o : step s = Next s' -> terminates s' o -> terminates s o.
Proof. intros Hs (n & Hn & Ho). exists (S n). cbn. by rewrite Hs. Qed.

Lemma terminates_now s o : step s = o -> (forall s', o <> Next s') -> terminates s o.
Proof. intros Hs Ho. exists 1%nat. split; [|done]. cbn. rewrite Hs. by destruct o. Qed.

(** An invariant of the iterations holds after any number of them. *)
Lemma run_invariant (P : St -> Prop) (Q : R -> Prop) n s :
  (forall s, P s -> match step s with Next s' => P s' | Halt r => Q r | Stuck => False end) ->
  P s -> match run n s with Next s' => P s' | Halt r => Q r | Stuck => False end.
Proof.
  intros Hstep. revert s. induction n as [|n IH]; intros s Hs; cbn; [done|].
  specialize (Hstep s Hs). destruct (step s); [by apply IH | done | done].
Qed.

(** A loop whose iterations make a measure smaller comes to an end. *)
Lemma terminates_measure (P : St -> Prop) (m : St -> nat) s :
  (forall s s', P s -> step s = Next s' -> P s' /\ (m s' < m s)%nat) ->
  P s -> exists o, terminates s o.
Proof.
  intros Hdec. remember (m s) as k eqn:Hk. revert s Hk.
  induction k as [k IH] using lt_wf_ind. intros s -> HP.
  destruct (step s) as [s'|r|] eqn:Hs.
  - destruct (Hdec s s' HP Hs) as [HP' Hlt]. destruct (IH (m s') Hlt s' eq_refl HP') as [o Ho].
    exists o. by eapply terminates_step.
  - exists (Halt r). by apply terminates_now.
  - exists Stuck. by apply terminates_now.
Qed.

(** Total correctness: an invariant, a measure, and what holds at the end. *)
Lemma terminates_total (P : St -> Prop) (m : St -> nat) (Q : R -> Prop) s :
  (forall s, P s -> match step s with
                    | Next s' => P s' /\ (m s' < m s)%nat | Halt r => Q r | Stuck => False end) ->
  P s -> exists r, terminates s (Halt r) /\ Q r.
Proof.
  intros Hdec. remember (m s) as k eqn:Hk. revert s Hk.
  induction k as [k IH] using lt_wf_ind. intros s -> HP. specialize (Hdec s HP) as Hs.
  destruct (step s) as [s'|r|] eqn:Hst; [|exists r; split; [by apply terminates_now|done]|done].
  destruct Hs as [HP' Hlt]. destruct (IH (m s') Hlt s' eq_refl HP') as (r & Hr & HQ).
  exists r. split; [by eapply terminates_step|done].
Qed.
End Machine.

(** ** Loops that read their input

    The body of a loop that takes one event (a received packet) per iteration;
    [feed] gives it a list of events.  [Next s] means that all were taken and
    the loop, in state [s], waits for more. *)
Section Feed.
Context {St Ev R : Type} (step : St -> Ev -> outcome St R).

Fixpoint feed (s : St) (evs : list Ev) : outcome St R :=
  match evs with
  | [] => Next s
  | e :: evs => match step s e with Next s' => feed s' evs | o => o end
  end.

Lemma feed_app s evs1 evs2 :
  feed s (evs1 ++ evs2) = match feed s evs1 with Next s' => feed s' evs2 | o => o end.
Proof.
  revert s. induction evs1 as [|e evs1 IH]; intros s; [done|]. cbn. destruct (step s e); auto.
Qed.

Lemma feed_invariant (P : St -> Prop) (E : Ev -> Prop) (Q : R -> Prop) s evs :
  (forall s e, P s -> E e -> match step s e with Next s' => P s' | Halt r => Q r | Stuck => False end) ->
  P s -> Forall E evs ->
  match feed s evs with Next s' => P s' | Halt r => Q r | Stuck => False end.
Proof.
  intros Hstep Hs Hevs. revert s Hs. induction Hevs as [|e evs He _ IH]; intros s Hs; cbn; [done|].
  specialize (Hstep s e Hs He). destruct (step s e); [by apply IH|done|done].
Qed.

(** What holds whenever the loop waits, whether or not it can get stuck. *)
Lemma feed_waiting (P : St -> Prop) s evs s' :
  (forall s e s', P s -> step s e = Next s' -> P s') -> P s -> feed s evs = Next s' -> P s'.
Proof.
  intros Hstep. revert s. induction evs as [|e evs IH]; intros s Hs; cbn; [by intros [= <-]|].
  destruct (step s e) as [s1| |] eqn:He; [|done..]. by apply IH, (Hstep s e).
Qed.

(** The same, with what is left of the list when the loop ends. *)
Fixpoint feed_rest (s : St) (evs : list Ev) : outcome St R * list Ev :=
  match evs with
  | [] => (Next s, [])
  | e :: evs => match step s e with Next s' => feed_rest s' evs | o => (o, evs) end
  end.

Lemma feed_rest_invariant (P : St -> Prop) (E : Ev -> Prop) (Q : R -> Prop) s evs :
  (forall s e, P s -> E e -> match step s e with Next s' => P s' | Halt r => Q r | Stuck => False end) ->
  P s -> Forall E evs ->
  match (feed_rest s evs).1 with Next s' => P s' | Halt r => Q r | Stuck => False end.
Proof.
  intros Hstep Hs Hevs. revert s Hs. induction Hevs as [|e evs He _ IH]; intros s Hs; cbn; [done|].
  specialize (Hstep s e Hs He). destruct (step s e); [by apply IH|done|done].
Qed.
End Feed.

(** A routine whose body is a loop, as a function of the number of iterations it
    is given: it returns [r] when enough of them give [r]. *)
Definition returns {St R} (f : nat -> outcome St R) (r : R) : Prop :=
  exists n, forall m, (n <= m)%nat -> f m = Halt r.

Lemma returns_run {St R} (step : St -> outcome St R) s r :
  terminates step s (Halt r) <-> returns (fun fuel => run step fuel s) r.
Proof.
  split.
  - intros (n & Hn & Ho). exists n. intros m Hm. by eapply run_more.
  - intros (n & Hn). exists n. split; [by apply Hn|done].
Qed.

Lemma returns_unique {St R} (f : nat -> outcome St R) r1 r2 : returns f r1 -> returns f r2 -> r1 = r2.
Proof.
  intros [n Hn] [m Hm]. specialize (Hn (n + m)%nat ltac:(lia)).
  specialize (Hm (n + m)%nat ltac:(lia)). congruence.
Qed.

(** Lockstep simulation of one loop by another. *)
Section Simulation.
Context {A C RA RC : Type} (astep : A -> outcome A RA) (cstep : C -> outcome C RC).
Context (rel : A -> C -> Prop) (relR : RA -> RC -> Prop).

(** The outcomes correspond: both go on in related states, or both return
    related values, or both are undefined. *)
Definition rel_outcome (oa : outcome A RA) (oc : outcome C RC) : Prop :=
  match oa, oc with
  | Next a, Next c => rel a c
  | Halt ra, Halt rc => relR ra rc
  | Stuck, Stuck => True
  | _, _ => False
  end.

Context (Hsim : forall a c, rel a c -> rel_outcome (astep a) (cstep c)).

Lemma run_simulation n a c : rel a c -> rel_outcome (run astep n a) (run cstep n c).
Proof using Hsim.
  revert a c. induction n as [|n IH]; intros a c Hac; [done|]. cbn.
  specialize (Hsim a c Hac). destruct (astep a), (cstep c); cbn in Hsim; try done. by apply IH.
Qed.

Lemma simulation_terminates a c ra : rel a c -> terminates astep a (Halt ra) ->
  exists rc, terminates cstep c (Halt rc) /\ relR ra rc.
Proof using Hsim.
  intros Hac (n & Hn & Ho). pose proof (run_simulation n a c Hac) as Hs. rewrite Hn in Hs.
  destruct (run cstep n c) as [|rc|] eqn:Hc; cbn in Hs; try done. exists rc. split; [|done].
  exists n. split; [done|done].
Qed.
End Simulation.

(** The same, for loops that return the same values. *)
Abbreviation same_outcome rel := (rel_outcome rel eq).

Lemma simulation_halt {A C R} (astep : A -> outcome A R) (cstep : C -> outcome C R) rel :
  (forall a c, rel a c -> same_outcome rel (astep a) (cstep c)) ->
  forall a c r, rel a c -> (terminates astep a (Halt r) <-> terminates cstep c (Halt r)).
Proof.
  intros Hsim a c r Hac. split; intros (n & Hn & Ho); exists n; split; try done;
    pose proof (run_simulation astep cstep rel eq Hsim n a c Hac) as Hs; rewrite Hn in Hs.
  - by destruct (run cstep n c); cbn in Hs; subst.
  - by destruct (run astep n a); cbn in Hs; subst.
Qed.
