(* ===== verification/Bytes.v ===== *)
(** Byte memory: bounded loads and stores into C arrays, host byte order, and
    the byte swaps the headers are written with.  A byte is an integer in
    [0, 256); an array is the list of its bytes; an access outside the array is
    undefined behaviour in C and is [None] here. *)
From S2P Require Import Prelude.

(** ** Arrays *)

(** Replace the bytes of [buf] from [off] on by [bs]. *)
Definition splice (off : nat) (bs buf : list Z) : list Z :=
  take off buf ++ bs ++ drop (off + length bs) buf.

(** Read [n] bytes at [off]. *)
Definition load (buf : list Z) (off n : Z) : option (list Z) :=
  if decide (0 <= off /\ 0 <= n /\ off + n <= zlen buf)
  then Some (take (Z.to_nat n) (drop (Z.to_nat off) buf)) else None.

(** Write the bytes [bs] at [off]. *)
Definition store (buf : list Z) (off : Z) (bs : list Z) : option (list Z) :=
  if decide (0 <= off /\ off + zlen bs <= zlen buf)
  then Some (splice (Z.to_nat off) bs buf) else None.

(** A list all of whose members are bytes. *)
Definition bytes_ok (bs : list Z) : Prop := Forall (fun b => 0 <= b < 256) bs.

Lemma length_splice off bs buf :
  (off + length bs <= length buf)%nat -> length (splice off bs buf) = length buf.
Proof. intros. unfold splice. rewrite !length_app, length_take, length_drop. lia. Qed.

Lemma lookup_splice off bs buf i :
  (off + length bs <= length buf)%nat ->
  splice off bs buf !! i =
    if decide ((off <= i)%nat /\ (i < off + length bs)%nat) then bs !! (i - off)%nat else buf !! i.
Proof.
  intros Hle. unfold splice. case_decide as Hd.
  - rewrite lookup_app_r by (rewrite length_take; lia).
    rewrite lookup_app_l by (rewrite length_take; lia).
    rewrite length_take. f_equal. lia.
  - destruct (decide (i < off)%nat).
    + rewrite lookup_app_l by (rewrite length_take; lia). by rewrite lookup_take_lt by lia.
    + rewrite lookup_app_r by (rewrite length_take; lia).
      rewrite lookup_app_r by (rewrite length_take; lia).
      rewrite lookup_drop, length_take. f_equal. lia.
Qed.

(** Two writes to adjacent places are one write. *)
Lemma splice_adjacent off a b buf :
  (off + length a + length b <= length buf)%nat ->
  splice (off + length a) b (splice off a buf) = splice off (a ++ b) buf.
Proof.
  intros. apply list_eq. intros i.
  rewrite !lookup_splice; rewrite ?length_splice, ?length_app; try lia.
  repeat case_decide; try lia; try done.
  - rewrite lookup_app_r by lia. f_equal. lia.
  - by rewrite lookup_app_l by lia.
Qed.

(** A later write that covers an earlier one hides it. *)
Lemma splice_overwrite off a b buf :
  length a = length b -> (off + length a <= length buf)%nat ->
  splice off b (splice off a buf) = splice off b buf.
Proof.
  intros. apply list_eq. intros i.
  rewrite !lookup_splice; rewrite ?length_splice; try lia.
  by repeat case_decide; try lia.
Qed.

Lemma splice_nil off buf : (off <= length buf)%nat -> splice off [] buf = buf.
Proof. intros. unfold splice. cbn. rewrite Nat.add_0_r. by rewrite take_drop. Qed.

Lemma store_spec buf off bs :
  0 <= off -> off + zlen bs <= zlen buf ->
  store buf off bs = Some (splice (Z.to_nat off) bs buf).
Proof. intros. unfold store. by rewrite decide_True by lia. Qed.

Lemma store_None buf off bs :
  off < 0 \/ zlen buf < off + zlen bs -> store buf off bs = None.
Proof. intros. unfold store. by rewrite decide_False by lia. Qed.

Lemma load_spec buf off n :
  0 <= off -> 0 <= n -> off + n <= zlen buf ->
  load buf off n = Some (take (Z.to_nat n) (drop (Z.to_nat off) buf)).
Proof. intros. unfold load. by rewrite decide_True by lia. Qed.

Lemma load_Some_length buf off n bs : load buf off n = Some bs -> zlen bs = n.
Proof.
  unfold load. case_decide; [|done]. intros [= <-].
  rewrite length_take, length_drop. lia.
Qed.

(** Reading a place that has just been written gives the bytes written. *)
Lemma load_splice_at off bs buf k n :
  (off + length bs <= length buf)%nat ->
  (off <= k)%nat -> (k + n <= off + length bs)%nat ->
  take n (drop k (splice off bs buf)) = take n (drop (k - off) bs).
Proof.
  intros. apply list_eq. intros i.
  destruct (decide (i < n)%nat).
  - rewrite !lookup_take_lt, !lookup_drop by lia.
    rewrite lookup_splice by lia. rewrite decide_True by lia. f_equal. lia.
  - rewrite !lookup_take_ge by lia. done.
Qed.

(** Reading elsewhere is not affected. *)
Lemma load_splice_other off bs buf k n :
  (off + length bs <= length buf)%nat ->
  (k + n <= off \/ off + length bs <= k)%nat ->
  take n (drop k (splice off bs buf)) = take n (drop k buf).
Proof.
  intros. apply list_eq. intros i.
  destruct (decide (i < n)%nat).
  - rewrite !lookup_take_lt, !lookup_drop by lia.
    rewrite lookup_splice by lia. by rewrite decide_False by lia.
  - rewrite !lookup_take_ge by lia. done.
Qed.

Lemma bytes_ok_app a b : bytes_ok (a ++ b) <-> bytes_ok a /\ bytes_ok b.
Proof. apply Forall_app. Qed.
Lemma bytes_ok_splice off bs buf : bytes_ok bs -> bytes_ok buf -> bytes_ok (splice off bs buf).
Proof.
  intros. unfold splice. apply bytes_ok_app. split; [by apply Forall_take|].
  apply bytes_ok_app. split; [done|]. by apply Forall_drop.
Qed.

Lemma load_bytes_ok buf off n bs : bytes_ok buf -> load buf off n = Some bs -> bytes_ok bs.
Proof.
  intros Hok. unfold load. case_decide; [|done]. intros [= <-]. by apply Forall_take, Forall_drop.
Qed.

Lemma store_bytes_ok buf off bs buf' : bytes_ok buf -> bytes_ok bs -> store buf off bs = Some buf' ->
  bytes_ok buf'.
Proof.
  intros Hb Hbs. unfold store. case_decide; [|done]. intros [= <-]. by apply bytes_ok_splice.
Qed.

(** ** Integers as byte strings *)

Fixpoint le_bytes (n : nat) (v : Z) : list Z :=
  match n with O => [] | S n => v mod 256 :: le_bytes n (v / 256) end.
Fixpoint le_val (bs : list Z) : Z :=
  match bs with [] => 0 | b :: bs => b + 256 * le_val bs end.

(** Network byte order: most significant byte first. *)
Definition be_bytes (n : nat) (v : Z) : list Z := rev (le_bytes n v).
Definition be_val (bs : list Z) : Z := le_val (rev bs).

Lemma length_le_bytes n v : length (le_bytes n v) = n.
Proof. revert v. induction n; intros; cbn; auto. Qed.
Lemma length_be_bytes n v : length (be_bytes n v) = n.
Proof. unfold be_bytes. by rewrite length_rev, length_le_bytes. Qed.

Lemma le_bytes_ok n v : bytes_ok (le_bytes n v).
Proof.
  revert v. induction n; intros; constructor; [apply Z.mod_pos_bound; lia | apply IHn].
Qed.
Lemma be_bytes_ok n v : bytes_ok (be_bytes n v).
Proof. apply Forall_rev. apply le_bytes_ok. Qed.

Lemma le_val_bytes n v : le_val (le_bytes n v) = v mod 256 ^ Z.of_nat n.
Proof.
  revert v. induction n; intros; cbn [le_bytes le_val].
  - by rewrite Z.mod_1_r.
  - rewrite IHn, Nat2Z.inj_succ, Z.pow_succ_r by lia.
    rewrite Z.rem_mul_r by (try apply Z.pow_nonzero; lia). done.
Qed.
Lemma be_val_bytes n v : be_val (be_bytes n v) = v mod 256 ^ Z.of_nat n.
Proof. unfold be_val, be_bytes. rewrite rev_involutive. apply le_val_bytes. Qed.

Lemma le_bytes_val bs : bytes_ok bs -> le_bytes (length bs) (le_val bs) = bs.
Proof.
  induction 1 as [|b bs Hb _ IH]; [done|]. cbn [length le_bytes le_val].
  rewrite (Z.mul_comm 256), Z.mod_add, Z.div_add, Z.mod_small, Z.div_small, Z.add_0_l by lia.
  by rewrite IH.
Qed.
Lemma be_bytes_val bs : bytes_ok bs -> be_bytes (length bs) (be_val bs) = bs.
Proof.
  intros. unfold be_bytes, be_val. rewrite <- (length_rev bs), le_bytes_val.
  - apply rev_involutive.
  - by apply Forall_rev.
Qed.

Lemma le_val_bound bs : bytes_ok bs -> 0 <= le_val bs < 256 ^ zlen bs.
Proof.
  induction 1 as [|b bs Hb _ IH]; cbn [le_val length]; [lia|].
  rewrite Nat2Z.inj_succ, Z.pow_succ_r by lia. lia.
Qed.
Lemma be_val_bound bs : bytes_ok bs -> 0 <= be_val bs < 256 ^ zlen bs.
Proof.
  intros. unfold be_val. rewrite <- (length_rev bs). apply le_val_bound. by apply Forall_rev.
Qed.

(** A write right after the bytes written so far extends them. *)
Lemma store_adjacent off a b buf k :
  0 <= off -> k = off + zlen a -> k + zlen b <= zlen buf ->
  store (splice (Z.to_nat off) a buf) k b = Some (splice (Z.to_nat off) (a ++ b) buf).
Proof.
  intros H0 -> Hle. rewrite store_spec; rewrite ?length_splice; try lia.
  replace (Z.to_nat (off + zlen a)) with (Z.to_nat off + length a)%nat by lia.
  f_equal. apply splice_adjacent. lia.
Qed.

Lemma store_Some_inv buf off bs buf' :
  store buf off bs = Some buf' ->
  0 <= off /\ off + zlen bs <= zlen buf /\ buf' = splice (Z.to_nat off) bs buf.
Proof. unfold store. case_decide as Hd; [|done]. intros [= <-]. by destruct Hd. Qed.

Lemma store_length buf off bs buf' : store buf off bs = Some buf' -> length buf' = length buf.
Proof. intros (?&?&->)%store_Some_inv. apply length_splice. lia. Qed.

(** Reading part of what [bs ++ rest] holds. *)
Lemma load_app_l bs rest off n :
  0 <= off -> 0 <= n -> off + n <= zlen bs -> load (bs ++ rest) off n = load bs off n.
Proof.
  intros. rewrite !load_spec by (rewrite ?length_app; lia). f_equal.
  rewrite drop_app_le by lia. rewrite take_app_le; [done|]. rewrite length_drop. lia.
Qed.

(** A write that leaves a gap of [g] bytes after the bytes written so far keeps
    what was in the gap. *)
Lemma store_gap off a b buf k g :
  0 <= off -> k = off + zlen a + Z.of_nat g -> k + zlen b <= zlen buf ->
  store (splice (Z.to_nat off) a buf) k b
    = Some (splice (Z.to_nat off) (a ++ take g (drop (Z.to_nat off + length a) buf) ++ b) buf).
Proof.
  intros H0 -> Hle. rewrite store_spec; rewrite ?length_splice; try lia. f_equal.
  apply list_eq. intros i.
  assert (Hg : length (take g (drop (Z.to_nat off + length a) buf)) = g)
    by (rewrite length_take, length_drop; lia).
  rewrite !lookup_splice; rewrite ?length_splice, ?length_app, ?Hg; try lia.
  repeat case_decide; try lia; try done.
  - rewrite lookup_app_r by lia. rewrite lookup_app_r by lia. f_equal. lia.
  - by rewrite lookup_app_l by lia.
  - rewrite lookup_app_r by lia. rewrite lookup_app_l by lia.
    rewrite lookup_take_lt by lia. rewrite lookup_drop. f_equal. lia.
Qed.

(** A write over the middle part of a concatenation. *)
Lemma splice_mid off a b b' c : off = length a -> length b = length b' ->
  splice off b' (a ++ b ++ c) = a ++ b' ++ c.
Proof.
  intros -> Hl. unfold splice. rewrite take_app_length. do 2 f_equal.
  rewrite <- Hl, <- drop_drop, drop_app_length, drop_app_length. done.
Qed.

Lemma store_mid a b b' c off : off = zlen a -> length b = length b' ->
  store (a ++ b ++ c) off b' = Some (a ++ b' ++ c).
Proof.
  intros -> Hl. rewrite store_spec by (rewrite ?length_app; lia).
  by rewrite splice_mid by (done || lia).
Qed.

(** ** Fields of a memory *)

(** The bytes [bs] lie at [off]. *)
Definition field (m : list Z) (off : Z) (bs : list Z) : Prop := load m off (zlen bs) = Some bs.

Lemma field_inv m off bs : field m off bs ->
  0 <= off /\ off + zlen bs <= zlen m /\ take (length bs) (drop (Z.to_nat off) m) = bs.
Proof.
  unfold field, load. case_decide as Hd; [|done]. intros [= Ht]. rewrite Nat2Z.id in Ht.
  by destruct Hd as (? & _ & ?).
Qed.

Lemma field_intro m off bs : 0 <= off -> off + zlen bs <= zlen m ->
  take (length bs) (drop (Z.to_nat off) m) = bs -> field m off bs.
Proof. intros. unfold field. rewrite load_spec, Nat2Z.id by lia. by f_equal. Qed.

Lemma field_stored m off bs m' : store m off bs = Some m' -> field m' off bs.
Proof.
  intros H. pose proof (store_length _ _ _ _ H) as Hl. apply store_Some_inv in H as (? & ? & ->).
  apply field_intro; [lia..|]. rewrite load_splice_at by lia.
  by rewrite Nat.sub_diag, drop_0, take_ge.
Qed.

Lemma field_kept m off bs off' bs' m' : field m off bs -> store m off' bs' = Some m' ->
  off + zlen bs <= off' \/ off' + zlen bs' <= off -> field m' off bs.
Proof.
  intros (? & ? & Hf)%field_inv Hst Hd. pose proof (store_length _ _ _ _ Hst) as Hl.
  apply store_Some_inv in Hst as (? & ? & ->). apply field_intro; [lia..|].
  by rewrite load_splice_other by lia.
Qed.

Lemma field_app m off a b : field m off (a ++ b) <-> field m off a /\ field m (off + zlen a) b.
Proof.
  split.
  - intros (? & Hl & Ht)%field_inv. rewrite length_app in *.
    replace (Z.to_nat off) with (Z.to_nat off + 0)%nat in Ht by lia.
    assert (H1 : take (length a) (drop (Z.to_nat off) m) = a).
    { apply (f_equal (take (length a))) in Ht. rewrite take_take, Nat.add_0_r in Ht.
      rewrite take_app_length, Nat.min_l in Ht by lia. done. }
    assert (H2 : take (length b) (drop (Z.to_nat (off + zlen a)) m) = b).
    { apply (f_equal (drop (length a))) in Ht. rewrite drop_app_length, Nat.add_0_r in Ht.
      rewrite skipn_firstn_comm, drop_drop in Ht. rewrite <- Ht at 2. f_equal; [lia|f_equal; lia]. }
    split; apply field_intro; try done; lia.
  - intros [(? & ? & H1)%field_inv (? & ? & H2)%field_inv]. apply field_intro; rewrite ?length_app; [lia..|].
    rewrite <- (take_take_drop _ (length a) (length b)), H1, drop_drop.
    f_equal. rewrite <- H2 at 2. do 2 f_equal. lia.
Qed.
