(* ===== verification/ByteOrder.v ===== *)
(** Byte order: the [bswap_*] inline functions and the [SWAP_*] macros, the
    [ByteOrder] class, and the libc conversions [htons], [htonl] and the
    [htonll] macro, on a host of either endianness.  The lemmas at the end say
    that storing a converted integer writes it most significant byte first, and
    that loading and converting back is its inverse. *)
From S2P Require Import Prelude Bytes.

(** ** Endianness of the host and of data *)

(** The two byte orders, with [ENDIAN_UNKNOWN] of the class left out: no
    operation modelled here returns it. *)
Inductive endian := ENDIAN_LITTLE | ENDIAN_BIG.

#[export] Instance endian_eq_dec : EqDecision endian.
Proof. solve_decision. Defined.

(** The byte order of the machine the program runs on. *)
Class Host := host_order : endian.

(** The memory representation of an n-byte integer in a given byte order. *)
Definition order_bytes (e : endian) (n : nat) (v : Z) : list Z :=
  match e with ENDIAN_LITTLE => le_bytes n v | ENDIAN_BIG => be_bytes n v end.
Definition order_val (e : endian) (bs : list Z) : Z :=
  match e with ENDIAN_LITTLE => le_val bs | ENDIAN_BIG => be_val bs end.

Lemma length_order_bytes e n v : length (order_bytes e n v) = n.
Proof. destruct e; [apply length_le_bytes | apply length_be_bytes]. Qed.

(** ** Swaps *)

Definition bswap_16 (x : Z) : Z := u16 (Z.lor (Z.shiftr x 8) (Z.shiftl x 8)).
Definition bswap_32 (x : Z) : Z :=
  u32 (Z.lor (Z.shiftl (bswap_16 (Z.land x 0xffff)) 16) (bswap_16 (u16 (Z.shiftr x 16)))).
Definition bswap_64 (x : Z) : Z :=
  u64 (Z.lor (Z.shiftl (bswap_32 (Z.land x 0xffffffff)) 32) (bswap_32 (u32 (Z.shiftr x 32)))).

Definition SWAP_16 (x : Z) : Z :=
  let x := u16 x in u16 (Z.lor (Z.shiftr x 8) (Z.shiftl x 8)).
Definition SWAP_32 (x : Z) : Z :=
  let x := u32 x in
  u32 (Z.lor (Z.lor (Z.lor (Z.shiftr x 24) (Z.shiftr (Z.land x 0x00ff0000) 8))
                    (u32 (Z.shiftl (Z.land x 0x0000ff00) 8)))
             (u32 (Z.shiftl x 24))).
Definition SWAP_64 (x : Z) : Z :=
  let x := u64 x in
  u64 (Z.lor (Z.lor (Z.lor (Z.lor (Z.lor (Z.lor (Z.lor
        (Z.shiftr x 56)
        (Z.shiftr (Z.land x 0x00ff000000000000) 40))
        (Z.shiftr (Z.land x 0x0000ff0000000000) 24))
        (Z.shiftr (Z.land x 0x000000ff00000000) 8))
        (u64 (Z.shiftl (Z.land x 0x00000000ff000000) 8)))
        (u64 (Z.shiftl (Z.land x 0x0000000000ff0000) 24)))
        (u64 (Z.shiftl (Z.land x 0x000000000000ff00) 40)))
        (u64 (Z.shiftl x 56))).

(** ** The [ByteOrder] class *)

Definition isBigEndian (o : endian) : bool := bool_decide (o = ENDIAN_BIG).
Definition isLittleEndian (o : endian) : bool := bool_decide (o = ENDIAN_LITTLE).
Definition getOppositeEndian (o : endian) : endian :=
  if isBigEndian o then ENDIAN_LITTLE else ENDIAN_BIG.
Section Local.
Context {host : Host}.
(** [true] when the byte at the lowest address of the int 1 is zero. *)
Definition isLocalHostBigEndian : bool :=
  bool_decide (hd 0 (order_bytes host_order 4 1) = 0).
Definition getLocalByteOrder : endian :=
  if isLocalHostBigEndian then ENDIAN_BIG else ENDIAN_LITTLE.
Definition nativeOrder : endian := getLocalByteOrder.
Definition needToSwap (o : endian) : bool := negb (bool_decide (o = getLocalByteOrder)).
End Local.

(** ** Network byte order conversions *)

Section Network.
Context {host : Host}.

(** libc: the identity on a big endian host, a swap on a little endian one;
    the parameter is converted to the unsigned type of the width. *)
Definition htons (v : Z) : Z :=
  match host_order with ENDIAN_LITTLE => bswap_16 (u16 v) | ENDIAN_BIG => u16 v end.
Definition htonl (v : Z) : Z :=
  match host_order with ENDIAN_LITTLE => bswap_32 (u32 v) | ENDIAN_BIG => u32 v end.
Definition ntohs := htons.
Definition ntohl := htonl.

(** The macro, for an argument of type uint64_t. *)
Definition htonll (x : Z) : Z :=
  if decide (1 = htonl 1) then x
  else Z.lor (u64 (Z.shiftl (htonl (Z.land x 0xFFFFFFFF)) 32)) (htonl (u32 (Z.shiftr x 32))).
Definition ntohll (x : Z) : Z :=
  if decide (1 = ntohl 1) then x
  else Z.lor (u64 (Z.shiftl (ntohl (Z.land x 0xFFFFFFFF)) 32)) (ntohl (u32 (Z.shiftr x 32))).

(** [*((uint16_t * )(buffer + off)) = v] and the like. *)
Definition put16 (buf : list Z) (off v : Z) := store buf off (order_bytes host_order 2 v).
Definition put32 (buf : list Z) (off v : Z) := store buf off (order_bytes host_order 4 v).
Definition put64 (buf : list Z) (off v : Z) := store buf off (order_bytes host_order 8 v).
(** [*((uint16_t * )(buffer + off))] and the like. *)
Definition get16 (buf : list Z) (off : Z) := order_val host_order <$> load buf off 2.
Definition get32 (buf : list Z) (off : Z) := order_val host_order <$> load buf off 4.
Definition get64 (buf : list Z) (off : Z) := order_val host_order <$> load buf off 8.
End Network.

(** ** Lemmas: a swap reverses the bytes *)

Lemma lor_shiftl_add a b k : 0 <= k -> 0 <= a < 2 ^ k -> Z.lor a (Z.shiftl b k) = a + b * 2 ^ k.
Proof.
  intros Hk Ha.
  assert (Hland : Z.land a (Z.shiftl b k) = 0).
  { apply Z.bits_inj'. intros i Hi. rewrite Z.land_spec, Z.bits_0, Z.shiftl_spec by lia.
    destruct (decide (i < k)).
    - rewrite (Z.testbit_neg_r b) by lia. apply andb_false_r.
    - rewrite <- (Z.mod_small a (2 ^ k)) by lia.
      rewrite Z.mod_pow2_bits_high by lia. done. }
  rewrite <- Z.shiftl_mul_pow2 by lia.
  rewrite Z.add_nocarry_lxor by done. by rewrite Z.lxor_lor.
Qed.

Lemma lor_shiftl_add' a b k : 0 <= k -> 0 <= a < 2 ^ k -> Z.lor (Z.shiftl b k) a = a + b * 2 ^ k.
Proof. intros. rewrite Z.lor_comm. by apply lor_shiftl_add. Qed.

Lemma htonl_range `{host : Host} v : 0 <= htonl v < 4294967296.
Proof. unfold htonl. destruct host_order; apply u32_range. Qed.

Lemma bswap_16_val x : 0 <= x < 65536 -> bswap_16 x = x / 256 + 256 * (x mod 256).
Proof.
  intros. unfold bswap_16. rewrite Z.shiftr_div_pow2 by lia. change (2 ^ 8) with 256.
  rewrite lor_shiftl_add by (change (2 ^ 8) with 256; Z.div_mod_to_equations; lia).
  change (2 ^ 8) with 256. wrap_lia.
Qed.

Lemma bswap_32_val x : 0 <= x < 4294967296 ->
  bswap_32 x = bswap_16 (x / 65536) + 65536 * bswap_16 (x mod 65536).
Proof.
  intros. unfold bswap_32. rewrite Z.shiftr_div_pow2 by lia. change (2 ^ 16) with 65536.
  change 0xffff with (Z.ones 16). rewrite Z.land_ones by lia. change (2 ^ 16) with 65536.
  rewrite (u16_small (x / 65536)) by (Z.div_mod_to_equations; lia).
  assert (0 <= bswap_16 (x / 65536) < 65536) by apply u16_range.
  assert (0 <= bswap_16 (x mod 65536) < 65536) by apply u16_range.
  rewrite lor_shiftl_add' by lia. change (2 ^ 16) with 65536.
  rewrite u32_small; lia.
Qed.

Lemma bswap_64_val x : 0 <= x < 18446744073709551616 ->
  bswap_64 x = bswap_32 (x / 4294967296) + 4294967296 * bswap_32 (x mod 4294967296).
Proof.
  intros. unfold bswap_64. rewrite Z.shiftr_div_pow2 by lia. change (2 ^ 32) with 4294967296.
  change 0xffffffff with (Z.ones 32). rewrite Z.land_ones by lia. change (2 ^ 32) with 4294967296.
  rewrite (u32_small (x / 4294967296)) by (Z.div_mod_to_equations; lia).
  assert (0 <= bswap_32 (x / 4294967296) < 4294967296) by apply u32_range.
  assert (0 <= bswap_32 (x mod 4294967296) < 4294967296) by apply u32_range.
  rewrite lor_shiftl_add' by lia. change (2 ^ 32) with 4294967296.
  rewrite u64_small; lia.
Qed.

(** Splitting the bytes of a double-width integer. *)
Lemma le_bytes_split n m v :
  le_bytes (n + m) v = le_bytes n v ++ le_bytes m (v / 256 ^ Z.of_nat n).
Proof.
  revert v. induction n; intros; cbn [le_bytes Nat.add app].
  - by rewrite Z.div_1_r.
  - rewrite IHn, Nat2Z.inj_succ, Z.pow_succ_r, Z.div_div by (try apply Z.pow_pos_nonneg; lia).
    done.
Qed.
Lemma be_bytes_split n m v :
  be_bytes (n + m) v = be_bytes m (v / 256 ^ Z.of_nat n) ++ be_bytes n v.
Proof. unfold be_bytes. rewrite le_bytes_split. apply rev_app_distr. Qed.

Lemma le_bytes_mod n v : le_bytes n (v mod 256 ^ Z.of_nat n) = le_bytes n v.
Proof.
  rewrite <- le_val_bytes.
  rewrite <- (length_le_bytes n v) at 1. apply le_bytes_val, le_bytes_ok.
Qed.
Lemma be_bytes_mod n v : be_bytes n (v mod 256 ^ Z.of_nat n) = be_bytes n v.
Proof. unfold be_bytes. by rewrite le_bytes_mod. Qed.

Lemma le_bytes_pair n m a b :
  0 <= a < 256 ^ Z.of_nat n ->
  le_bytes (n + m) (a + 256 ^ Z.of_nat n * b) = le_bytes n a ++ le_bytes m b.
Proof.
  intros. rewrite le_bytes_split, (Z.mul_comm _ b). f_equal.
  - by rewrite <- (le_bytes_mod n), Z.mod_add, Z.mod_small by lia.
  - by rewrite Z.div_add, Z.div_small, Z.add_0_l by lia.
Qed.

Lemma le_bytes_bswap_16 x : 0 <= x < 65536 -> le_bytes 2 (bswap_16 x) = be_bytes 2 x.
Proof.
  intros. rewrite bswap_16_val by done. unfold be_bytes. cbn [le_bytes rev app].
  f_equal; [|f_equal]; Z.div_mod_to_equations; lia.
Qed.

Lemma le_bytes_bswap_32 x : 0 <= x < 4294967296 -> le_bytes 4 (bswap_32 x) = be_bytes 4 x.
Proof.
  intros. rewrite bswap_32_val by done. rewrite (be_bytes_split 2 2).
  change 65536 with (256 ^ Z.of_nat 2).
  rewrite (le_bytes_pair 2 2) by apply u16_range. change (256 ^ Z.of_nat 2) with 65536.
  rewrite !le_bytes_bswap_16 by (Z.div_mod_to_equations; lia).
  f_equal. apply (be_bytes_mod 2).
Qed.

Lemma le_bytes_bswap_64 x : 0 <= x < 18446744073709551616 -> le_bytes 8 (bswap_64 x) = be_bytes 8 x.
Proof.
  intros. rewrite bswap_64_val by done. rewrite (be_bytes_split 4 4).
  change 4294967296 with (256 ^ Z.of_nat 4).
  rewrite (le_bytes_pair 4 4) by apply u32_range. change (256 ^ Z.of_nat 4) with 4294967296.
  rewrite !le_bytes_bswap_32 by (Z.div_mod_to_equations; lia).
  f_equal. apply (be_bytes_mod 4).
Qed.

(** [htonll] on a little endian host is the 64-bit swap. *)
Lemma htonll_spec `{host : Host} x : 0 <= x < 18446744073709551616 ->
  htonll x = match host_order with ENDIAN_LITTLE => bswap_64 x | ENDIAN_BIG => x end.
Proof.
  intros. unfold htonll, htonl. destruct host_order; [|by rewrite decide_True].
  rewrite decide_False by (vm_compute; discriminate).
  assert (Hl : 0 <= Z.land x 0xffffffff < 4294967296).
  { change 0xffffffff with (Z.ones 32). rewrite Z.land_ones by lia. apply Z.mod_pos_bound. lia. }
  unfold bswap_64. rewrite (u32_small (Z.land _ _)), u32_idemp by done.
  assert (0 <= bswap_32 (Z.land x 0xffffffff) < 4294967296) by apply u32_range.
  assert (0 <= bswap_32 (u32 (Z.shiftr x 32)) < 4294967296) by apply u32_range.
  rewrite (u64_small (Z.shiftl _ _)) by (rewrite Z.shiftl_mul_pow2 by lia; lia).
  rewrite lor_shiftl_add' by lia. change (2 ^ 32) with 4294967296.
  by rewrite u64_small by lia.
Qed.

(** Storing a converted integer writes it most significant byte first, on
    either kind of host: this is what "network byte order" means. *)
Lemma order_bytes_htons `{host : Host} v : order_bytes host_order 2 (htons v) = be_bytes 2 (u16 v).
Proof.
  unfold htons. destruct host_order; cbn [order_bytes]; [|done].
  apply le_bytes_bswap_16, u16_range.
Qed.
Lemma order_bytes_htonl `{host : Host} v : order_bytes host_order 4 (htonl v) = be_bytes 4 (u32 v).
Proof.
  unfold htonl. destruct host_order; cbn [order_bytes]; [|done].
  apply le_bytes_bswap_32, u32_range.
Qed.
Lemma order_bytes_htonll `{host : Host} v : 0 <= v < 18446744073709551616 ->
  order_bytes host_order 8 (htonll v) = be_bytes 8 v.
Proof.
  intros. rewrite htonll_spec by done. destruct host_order; cbn [order_bytes]; [|done].
  by apply le_bytes_bswap_64.
Qed.

(** Loading and converting back reads a big endian integer. *)
Lemma le_val_le_bytes n v : 0 <= v < 256 ^ Z.of_nat n -> le_val (le_bytes n v) = v.
Proof. intros. rewrite le_val_bytes. by apply Z.mod_small. Qed.
Lemma be_val_be_bytes n v : 0 <= v < 256 ^ Z.of_nat n -> be_val (be_bytes n v) = v.
Proof. intros. rewrite be_val_bytes. by apply Z.mod_small. Qed.

(** If [f] turns the little endian bytes of an n-byte integer into its big
    endian bytes, it turns a loaded little endian value into the big endian one. *)
Lemma swap_of_le_val n (f : Z -> Z) bs :
  (forall x, 0 <= x < 256 ^ Z.of_nat n -> le_bytes n (f x) = be_bytes n x) ->
  (forall x, 0 <= f x < 256 ^ Z.of_nat n) ->
  length bs = n -> bytes_ok bs -> f (le_val bs) = be_val bs.
Proof.
  intros Hf Hr <- Hok. rewrite <- (le_val_le_bytes (length bs) (f (le_val bs))) by apply Hr.
  rewrite Hf by by apply le_val_bound.
  unfold be_bytes, be_val. by rewrite le_bytes_val.
Qed.

Section NetworkLoads.
Context {host : Host}.

Lemma ntohs_order_val bs : length bs = 2%nat -> bytes_ok bs ->
  ntohs (order_val host_order bs) = be_val bs.
Proof.
  intros Hl Hok. pose proof (be_val_bound bs Hok) as Hbe. pose proof (le_val_bound bs Hok) as Hle.
  rewrite Hl in Hbe, Hle. change (256 ^ Z.of_nat 2) with 65536 in *.
  unfold ntohs, htons. destruct host_order; cbn [order_val]; rewrite u16_small by done; [|done].
  apply (swap_of_le_val 2 bswap_16); try done; [exact le_bytes_bswap_16 | intros; apply u16_range].
Qed.

Lemma ntohl_order_val bs : length bs = 4%nat -> bytes_ok bs ->
  ntohl (order_val host_order bs) = be_val bs.
Proof.
  intros Hl Hok. pose proof (be_val_bound bs Hok) as Hbe. pose proof (le_val_bound bs Hok) as Hle.
  rewrite Hl in Hbe, Hle. change (256 ^ Z.of_nat 4) with 4294967296 in *.
  unfold ntohl, htonl. destruct host_order; cbn [order_val]; rewrite u32_small by done; [|done].
  apply (swap_of_le_val 4 bswap_32); try done; [exact le_bytes_bswap_32 | intros; apply u32_range].
Qed.

Lemma ntohll_order_val bs : length bs = 8%nat -> bytes_ok bs ->
  ntohll (order_val host_order bs) = be_val bs.
Proof.
  intros Hl Hok. pose proof (le_val_bound bs Hok) as Hle. pose proof (be_val_bound bs Hok) as Hbe.
  rewrite Hl in Hle, Hbe. change (256 ^ Z.of_nat 8) with 18446744073709551616 in *.
  change ntohll with htonll. rewrite htonll_spec.
  - destruct host_order; cbn [order_val]; [|done].
    apply (swap_of_le_val 8 bswap_64); try done; [exact le_bytes_bswap_64 | intros; apply u64_range].
  - by destruct host_order.
Qed.
End NetworkLoads.

(** The macros are the same swap as the inline functions. *)
Lemma land_byte_field x k : 0 <= k ->
  Z.land x (Z.shiftl 255 k) = Z.shiftl ((x / 2 ^ k) mod 256) k.
Proof.
  intros. apply Z.bits_inj'. intros i Hi. rewrite Z.land_spec, !Z.shiftl_spec by lia.
  change 256 with (2 ^ 8). change 255 with (Z.ones 8).
  destruct (decide (i < k)).
  - rewrite !(Z.testbit_neg_r _ (i - k)) by lia. apply andb_false_r.
  - rewrite Z.testbit_ones by lia. destruct (decide (i - k < 8)).
    + rewrite Z.mod_pow2_bits_low, Z.div_pow2_bits by lia.
      replace (i - k + k) with i by lia.
      destruct (Z.testbit x i); [|done].
      cbn. lia.
    + rewrite Z.mod_pow2_bits_high by lia. destruct (Z.testbit x i); [|done]. cbn. lia.
Qed.

(** A byte moved right: the field at bit [k], put at bit [k - j]. *)
Lemma field_shiftr x k j : 0 <= j <= k ->
  Z.shiftr (Z.land x (Z.shiftl 255 k)) j = Z.shiftl ((x / 2 ^ k) mod 256) (k - j).
Proof.
  intros. rewrite land_byte_field by lia.
  rewrite Z.shiftr_shiftl_l by lia. f_equal.
Qed.
(** A byte moved left: the field at bit [k], put at bit [k + j]. *)
Lemma field_shiftl x k j : 0 <= j -> 0 <= k ->
  Z.shiftl (Z.land x (Z.shiftl 255 k)) j = Z.shiftl ((x / 2 ^ k) mod 256) (k + j).
Proof. intros. rewrite land_byte_field, Z.shiftl_shiftl by lia. done. Qed.

Lemma shiftl_mod x k w : 0 <= k <= w -> (Z.shiftl x k) mod 2 ^ w = Z.shiftl (x mod 2 ^ (w - k)) k.
Proof.
  intros. rewrite !Z.shiftl_mul_pow2 by lia.
  replace (2 ^ w) with (2 ^ (w - k) * 2 ^ k) by (rewrite <- Z.pow_add_r by lia; f_equal; lia).
  rewrite Z.mul_mod_distr_r; [done| |]; apply Z.pow_nonzero; lia.
Qed.

(** Appending a byte above the bytes collected so far. *)
Lemma lor_byte_above acc b k : 0 <= k -> 0 <= acc < 2 ^ k -> 0 <= b < 256 ->
  Z.lor acc (Z.shiftl b k) = acc + b * 2 ^ k /\ 0 <= acc + b * 2 ^ k < 2 ^ (k + 8).
Proof.
  intros. split; [by apply lor_shiftl_add|].
  rewrite Z.pow_add_r by lia. change (2 ^ 8) with 256. nia.
Qed.

Ltac byte_bound := first [apply Z.mod_pos_bound; lia | lia].
(** Turn a chain of ors of ascending byte fields into a sum. *)
Ltac collect_bytes H0 :=
  repeat match goal with
  | |- context [Z.lor ?a (Z.shiftl ?b ?k)] =>
    lazymatch a with context [Z.lor _ _] => fail | _ => idtac end;
    let H := fresh "Hb" in
    destruct (lor_byte_above a b k) as [-> H];
      [lia | first [exact H0 | match goal with Hp : _ <= _ < _ |- _ => exact Hp end]
       | byte_bound |]
  end.

Lemma SWAP_16_bswap x : SWAP_16 x = bswap_16 (u16 x).
Proof. done. Qed.

Lemma SWAP_32_val x : SWAP_32 x = le_val (be_bytes 4 (u32 x)).
Proof.
  unfold SWAP_32. set (y := u32 x). assert (Hy : 0 <= y < 4294967296) by apply u32_range.
  clearbody y. clear x.
  change 0x00ff0000 with (Z.shiftl 255 16). change 0x0000ff00 with (Z.shiftl 255 8).
  rewrite field_shiftr, field_shiftl by lia. unfold u32. change 4294967296 with (2 ^ 32).
  rewrite !shiftl_mod by lia. rewrite Z.shiftr_div_pow2 by lia.
  change (16 - 8) with 8. change (32 - 24) with 8. change (8 + 8) with 16. change (32 - 16) with 16.
  rewrite (Z.mod_small (_ mod _)) by (change (2 ^ 16) with 65536; Z.div_mod_to_equations; lia).
  assert (H0 : 0 <= y / 2 ^ 24 < 2 ^ 8)
    by (change (2 ^ 24) with 16777216; change (2 ^ 8) with 256; Z.div_mod_to_equations; lia).
  change (y mod 2 ^ 8) with (y mod 256). collect_bytes H0.
  rewrite Z.mod_small by exact Hb1.
  change (2 ^ 8) with 256. change (2 ^ 24) with 16777216. change (2 ^ 16) with 65536.
  cbn [be_bytes rev app le_bytes le_val]. Z.div_mod_to_equations. lia.
Qed.

Lemma SWAP_64_val x : SWAP_64 x = le_val (be_bytes 8 (u64 x)).
Proof.
  unfold SWAP_64. set (y := u64 x). assert (Hy : 0 <= y < 18446744073709551616) by apply u64_range.
  clearbody y. clear x.
  change 0x00ff000000000000 with (Z.shiftl 255 48). change 0x0000ff0000000000 with (Z.shiftl 255 40).
  change 0x000000ff00000000 with (Z.shiftl 255 32). change 0x00000000ff000000 with (Z.shiftl 255 24).
  change 0x0000000000ff0000 with (Z.shiftl 255 16). change 0x000000000000ff00 with (Z.shiftl 255 8).
  rewrite !field_shiftr, !field_shiftl by lia. unfold u64. change 18446744073709551616 with (2 ^ 64).
  rewrite !shiftl_mod by lia. rewrite Z.shiftr_div_pow2 by lia.
  change (48 - 40) with 8. change (40 - 24) with 16. change (32 - 8) with 24.
  change (24 + 8) with 32. change (16 + 24) with 40. change (8 + 40) with 48. change (64 - 56) with 8.
  change (64 - 32) with 32. change (64 - 40) with 24. change (64 - 48) with 16.
  assert (Hsm : forall z k, 8 <= k -> (z mod 256) mod 2 ^ k = z mod 256).
  { intros z k Hk. apply Z.mod_small. pose proof (Z.pow_le_mono_r 2 8 k).
    pose proof (Z.mod_pos_bound z 256). lia. }
  rewrite !Hsm by lia.
  assert (H0 : 0 <= y / 2 ^ 56 < 2 ^ 8).
  { change (2 ^ 56) with 72057594037927936. change (2 ^ 8) with 256. Z.div_mod_to_equations. lia. }
  change (y mod 2 ^ 8) with (y mod 256). collect_bytes H0.
  rewrite Z.mod_small by exact Hb5.
  unfold be_bytes. cbn [rev app le_bytes le_val].
  rewrite !Z.div_div by lia.
  change (256 * (256 * (256 * (256 * (256 * (256 * 256)))))) with 72057594037927936.
  change (256 * (256 * (256 * (256 * (256 * 256))))) with 281474976710656.
  change (256 * (256 * (256 * (256 * 256)))) with 1099511627776.
  change (256 * (256 * (256 * 256))) with 4294967296.
  change (256 * (256 * 256)) with 16777216. change (256 * 256) with 65536.
  change (2 ^ 56) with 72057594037927936 in *. change (2 ^ 48) with 281474976710656.
  change (2 ^ 40) with 1099511627776. change (2 ^ 32) with 4294967296.
  change (2 ^ 24) with 16777216. change (2 ^ 16) with 65536. change (2 ^ 8) with 256.
  rewrite (Z.mod_small (y / 72057594037927936) 256) by exact H0. lia.
Qed.

(** Swapping twice is the identity. *)
Lemma le_val_be_bytes_involutive n x : 0 <= x < 256 ^ Z.of_nat n ->
  le_val (be_bytes n (le_val (be_bytes n x))) = x.
Proof.
  intros. rewrite <- (length_be_bytes n x) at 1. unfold be_bytes at 1.
  rewrite le_bytes_val by apply be_bytes_ok.
  unfold be_bytes. rewrite rev_involutive. by apply le_val_le_bytes.
Qed.
