(* ===== verification/Wire.v ===== *)
(** The packet headers: the writers of ejfat_packetize.hpp and
    ersap_grpc_packetize.hpp and the parsers of ejfat_assemble_ersap.hpp and
    ersap_grpc_assemble.hpp.  A writer is given the array it writes into and
    the index its [char *] argument points at; a parser reads the bytes of a
    packet.  Each writer is shown to write the bytes of the header diagram of
    its comment (the [_bytes] functions), each parser to read them back. *)
From S2P Require Import Prelude Bytes ByteOrder.

Definition LB_HEADER_BYTES : Z := 16.
Definition HEADER_BYTES : Z := 36.
Definition RE_HEADER_BYTES : Z := 20.
Definition LB_HEADER_BYTES_OLD : Z := 16.
Definition HEADER_BYTES_OLD : Z := 34.
Definition RE_HEADER_BYTES_OLD : Z := 18.
(** Max MTU that the network cards can handle. *)
Definition MAX_EJFAT_MTU : Z := 9978.

(** [buffer[i] = v]: the int is converted to a char. *)
Definition put8 (buf : list Z) (off v : Z) : option (list Z) := store buf off [u8 v].
(** [buffer[i]] promoted to int: char is signed on the platforms built for. *)
Definition get8 (buf : list Z) (off : Z) : option Z := (fun bs => i8 (hd 0 bs)) <$> load buf off 1.

(** ** The layouts of the header diagrams *)

Definition lb_bytes (tick version protocol entropy : Z) : list Z :=
  [76; 66; u8 version; u8 protocol; 0; 0] ++ be_bytes 2 (u16 entropy) ++ be_bytes 8 tick.

Definition re_bytes (offset length tick version dataId reserved : Z) : list Z :=
  [u8 (Z.shiftl version 4); u8 reserved] ++ be_bytes 2 dataId ++ be_bytes 4 offset
    ++ be_bytes 4 length ++ be_bytes 8 tick.

Definition re_old_bytes (first last : bool) (tick offset version dataId : Z) : list Z :=
  [u8 (Z.shiftl version 4); 2 * Z.b2z first + Z.b2z last] ++ be_bytes 2 dataId
    ++ be_bytes 4 offset ++ be_bytes 8 tick ++ [0; 0].

Definition sync_bytes (version srcId evtNum evtRate nanos : Z) : list Z :=
  [76; 67; u8 version; 0] ++ be_bytes 4 srcId ++ be_bytes 8 evtNum
    ++ be_bytes 4 evtRate ++ be_bytes 8 nanos.

Section Wire.
Context {host : Host}.

(** ** Writers of ejfat_packetize.hpp *)

Definition setLbMetadata (buffer : list Z) (p tick version protocol entropy : Z) : option (list Z) :=
  b ← put8 buffer p 76;
  b ← put8 b (p + 1) 66;
  b ← put8 b (p + 2) version;
  b ← put8 b (p + 3) protocol;
  b ← put8 b (p + 4) 0;
  b ← put8 b (p + 5) 0;
  b ← put16 b (p + 6) (htons entropy);
  put64 b (p + 8) (htonll tick).

(** [buffer[16] = buffer[17] = 0] assigns the right one first. *)
Definition setReMetadataOld (buffer : list Z) (p : Z) (first last : bool)
    (tick offset version dataId : Z) : option (list Z) :=
  b ← put8 buffer p (Z.shiftl version 4);
  b ← put8 b (p + 1) (Z.shiftl (Z.b2z first) 1 + Z.b2z last);
  b ← put16 b (p + 2) (htons dataId);
  b ← put32 b (p + 4) (htonl offset);
  b ← put64 b (p + 8) (htonll tick);
  b ← put8 b (p + 17) 0;
  put8 b (p + 16) 0.

Definition setReMetadata (buffer : list Z) (p offset length tick version dataId : Z)
    : option (list Z) :=
  b ← put8 buffer p (Z.shiftl version 4);
  b ← put8 b (p + 1) 0;
  b ← put16 b (p + 2) (htons dataId);
  b ← put32 b (p + 4) (htonl offset);
  b ← put32 b (p + 8) (htonl length);
  put64 b (p + 12) (htonll tick).

(** The overload with the reserved byte. *)
Definition setReMetadata_reserved (buffer : list Z) (p offset length tick version dataId reserved : Z)
    : option (list Z) :=
  b ← put8 buffer p (Z.shiftl version 4);
  b ← put8 b (p + 1) (Z.land reserved 0xff);
  b ← put16 b (p + 2) (htons dataId);
  b ← put32 b (p + 4) (htonl offset);
  b ← put32 b (p + 8) (htonl length);
  put64 b (p + 12) (htonll tick).

Definition setSyncData (buffer : list Z) (p version srcId evtNum evtRate nanos : Z)
    : option (list Z) :=
  b ← put8 buffer p 76;
  b ← put8 b (p + 1) 67;
  b ← put8 b (p + 2) version;
  b ← put8 b (p + 3) 0;
  b ← put32 b (p + 4) (htonl srcId);
  b ← put64 b (p + 8) (htonll evtNum);
  b ← put32 b (p + 16) (htonl evtRate);
  put64 b (p + 20) (htonll nanos).

(** ** Writers of ersap_grpc_packetize.hpp: the reserved bytes are not written. *)

Definition grpc_setLbMetadata (buffer : list Z) (p tick version protocol entropy : Z)
    : option (list Z) :=
  b ← put8 buffer p 76;
  b ← put8 b (p + 1) 66;
  b ← put8 b (p + 2) version;
  b ← put8 b (p + 3) protocol;
  b ← put16 b (p + 6) (htons entropy);
  put64 b (p + 8) (htonll tick).

Definition grpc_setReMetadata (buffer : list Z) (p offset length tick version dataId : Z)
    : option (list Z) :=
  b ← put8 buffer p (Z.shiftl version 4);
  b ← put16 b (p + 2) (htons dataId);
  b ← put32 b (p + 4) (htonl offset);
  b ← put32 b (p + 8) (htonl length);
  put64 b (p + 12) (htonll tick).

Definition grpc_setSyncData (buffer : list Z) (p version srcId evtNum evtRate nanos : Z)
    : option (list Z) :=
  b ← put8 buffer p 76;
  b ← put8 b (p + 1) 67;
  b ← put8 b (p + 2) version;
  b ← put32 b (p + 4) (htonl srcId);
  b ← put64 b (p + 8) (htonll evtNum);
  b ← put32 b (p + 16) (htonl evtRate);
  put64 b (p + 20) (htonll nanos).

(** ** Parsers of ejfat_assemble_ersap.hpp *)

Record lb_header := mk_lb { lb_ll : Z; lb_bb : Z; lb_version : Z; lb_protocol : Z;
                            lb_entropy : Z; lb_tick : Z }.

(** The struct [reHeader]. *)
Record reHeader := mk_re { re_version : Z; re_reserved : Z; re_dataId : Z;
                           re_offset : Z; re_length : Z; re_tick : Z }.

Definition clearHeader (hdr : reHeader) : reHeader := mk_re 2 0 0 0 0 0.

Definition parseLbHeader (buffer : list Z) : result lb_header :=
  ll ← checked (get8 buffer 0);
  bb ← checked (get8 buffer 1);
  if decide (ll <> 76 \/ bb <> 66) then Throw "ersap pkt does not start with 'LB'"
  else
    version ← checked (get8 buffer 2);
    protocol ← checked (get8 buffer 3);
    entropy ← checked (get16 buffer 6);
    tick ← checked (get64 buffer 8);
    Ok (mk_lb ll bb (Z.land (u32 version) 0xff) (Z.land (u32 protocol) 0xff)
              (Z.land (ntohs entropy) 0xffff) (ntohll tick)).

(** Like [parseLbHeader], for debugging: the first two bytes are not checked. *)
Definition readLbHeader (buffer : list Z) : result lb_header :=
  ll ← checked (get8 buffer 0);
  bb ← checked (get8 buffer 1);
  version ← checked (get8 buffer 2);
  protocol ← checked (get8 buffer 3);
  entropy ← checked (get16 buffer 6);
  tick ← checked (get64 buffer 8);
  Ok (mk_lb ll bb (Z.land (u32 version) 0xff) (Z.land (u32 protocol) 0xff)
            (Z.land (ntohs entropy) 0xffff) (ntohll tick)).

(** The version 1 header: (version, first, last, dataId, sequence, tick). *)
Definition parseReHeaderOld (buffer : list Z) : option (Z * bool * bool * Z * Z * Z) :=
  b0 ← get8 buffer 0;
  b1 ← get8 buffer 1;
  id ← get16 buffer 2;
  sequence ← get32 buffer 4;
  tick ← get64 buffer 8;
  Some (Z.land (Z.shiftr b0 4) 0xf,
        bool_decide (Z.shiftr (Z.land b1 0x02) 1 <> 0), bool_decide (Z.land b1 0x01 <> 0),
        ntohs id, ntohl sequence, ntohll tick).

(** (version, dataId, offset, length, tick). *)
Definition parseReHeader (buffer : list Z) : option (Z * Z * Z * Z * Z) :=
  b0 ← get8 buffer 0;
  id ← get16 buffer 2;
  offset ← get32 buffer 4;
  length ← get32 buffer 8;
  tick ← get64 buffer 12;
  Some (Z.land (Z.shiftr b0 4) 0xf, ntohs id, ntohl offset, ntohl length, ntohll tick).

(** The overload that fills a struct; a null pointer ([None]) is left alone. *)
Definition parseReHeader_struct (buffer : list Z) (header : option reHeader)
    : option (option reHeader) :=
  match header with
  | None => Some None
  | Some _ =>
    b0 ← get8 buffer 0;
    b1 ← get8 buffer 1;
    id ← get16 buffer 2;
    offset ← get32 buffer 4;
    length ← get32 buffer 8;
    tick ← get64 buffer 12;
    Some (Some (mk_re (Z.land (Z.shiftr b0 4) 0xf) (Z.land b1 0xff)
                      (ntohs id) (ntohl offset) (ntohl length) (ntohll tick)))
  end.

(** The overload that returns (offset, length, tick) only. *)
Definition parseReHeader_olt (buffer : list Z) : option (Z * Z * Z) :=
  offset ← get32 buffer 4;
  length ← get32 buffer 8;
  tick ← get64 buffer 12;
  Some (ntohl offset, ntohl length, ntohll tick).

(** Assignment to an element of an array of integers. *)
Definition set_elem (a : list Z) (i : Z) (v : Z) : option (list Z) :=
  if decide (0 <= i < zlen a) then Some (<[Z.to_nat i := v]> a) else None.

(** The overload that fills an int array (null is [None]) of the size given. *)
Definition parseReHeader_array (buffer : list Z) (intArray : option (list Z)) (arraySize : Z)
    : option (option (list Z) * Z) :=
  a ← match intArray with
      | Some a =>
        if decide (4 < arraySize) then
          b0 ← get8 buffer 0;
          a ← set_elem a 0 (Z.land (Z.shiftr b0 4) 0xf);
          id ← get16 buffer 2;
          a ← set_elem a 1 (ntohs id);
          offset ← get32 buffer 4;
          a ← set_elem a 2 (ntohl offset);
          length ← get32 buffer 8;
          a ← set_elem a 3 (ntohl length);
          Some (Some a)
        else Some intArray
      | None => Some None
      end;
  tick ← get64 buffer 12;
  Some (a, ntohll tick).

(** The two array elements a 64-bit integer occupies, in memory order. *)
Definition words_of_u64 (v : Z) : Z * Z :=
  match host_order with
  | ENDIAN_LITTLE => (v mod 4294967296, v / 4294967296)
  | ENDIAN_BIG => (v / 4294967296, v mod 4294967296)
  end.

Definition parseReHeaderFast (buffer : list Z) (intArray : list Z) (index : Z)
    : option (list Z * Z) :=
  offset ← get32 buffer 4;
  a ← set_elem intArray index (ntohl offset);
  length ← get32 buffer 8;
  a ← set_elem a (index + 1) (ntohl length);
  tick ← get64 buffer 12;
  let tick := ntohll tick in
  a ← set_elem a (index + 2) (words_of_u64 tick).1;
  a ← set_elem a (index + 3) (words_of_u64 tick).2;
  Some (a, tick).

(** ** Parsers of ersap_grpc_assemble.hpp *)

(** (version, srcId, evtNum, evtRate, nanos). *)
Definition parseSyncData (buffer : list Z) : option (Z * Z * Z * Z * Z) :=
  b2 ← get8 buffer 2;
  srcId ← get32 buffer 4;
  evtNum ← get64 buffer 8;
  evtRate ← get32 buffer 16;
  nanos ← get64 buffer 20;
  Some (Z.land b2 0xff, ntohl srcId, ntohll evtNum, ntohl evtRate, ntohll nanos).

(** (delay, totalPkts, pktSequence). *)
Definition parsePacketData (buffer : list Z) : option (Z * Z * Z) :=
  delay ← get32 buffer 0;
  totalPkts ← get32 buffer 4;
  pktSequence ← get32 buffer 8;
  Some (ntohl delay, ntohl totalPkts, ntohl pktSequence).
End Wire.

(** ** Writers write the diagrams *)

Ltac len_lia :=
  cbn [mbind option_bind]; repeat rewrite ?length_app, ?length_order_bytes, ?length_be_bytes,
    ?length_take, ?length_drop;
  cbn [length]; lia.

(** Perform the consecutive stores of a header writer as one splice. *)
Ltac write_header :=
  unfold put8, put16, put32, put64;
  rewrite store_spec by len_lia; cbn [mbind option_bind];
  repeat (rewrite store_adjacent by len_lia; cbn [mbind option_bind]).

Ltac header_bytes :=
  rewrite ?order_bytes_htons, ?order_bytes_htonl, ?order_bytes_htonll by done;
  rewrite ?(be_bytes_mod 4), ?(be_bytes_mod 2).


Lemma be_bytes_u32 v : be_bytes 4 (u32 v) = be_bytes 4 v.
Proof. apply (be_bytes_mod 4). Qed.
Lemma be_bytes_u16 v : be_bytes 2 (u16 v) = be_bytes 2 v.
Proof. apply (be_bytes_mod 2). Qed.

Section WriterSpecs.
Context {host : Host}.

Lemma setLbMetadata_spec buffer p tick version protocol entropy :
  is_u64 tick -> 0 <= p -> p + 16 <= zlen buffer ->
  setLbMetadata buffer p tick version protocol entropy =
    Some (splice (Z.to_nat p) (lb_bytes tick version protocol entropy) buffer).
Proof.
  intros Ht Hp Hl. unfold setLbMetadata. write_header.
  rewrite order_bytes_htons, order_bytes_htonll by done. done.
Qed.

Lemma setReMetadata_reserved_spec buffer p offset length tick version dataId reserved :
  is_u64 tick -> 0 <= p -> p + 20 <= zlen buffer ->
  setReMetadata_reserved buffer p offset length tick version dataId reserved =
    Some (splice (Z.to_nat p) (re_bytes offset length tick version dataId (Z.land reserved 0xff)) buffer).
Proof.
  intros Ht Hp Hl. unfold setReMetadata_reserved. write_header.
  rewrite order_bytes_htons, !order_bytes_htonl, order_bytes_htonll by done.
  by rewrite !be_bytes_u32, be_bytes_u16.
Qed.

Lemma setReMetadata_spec buffer p offset length tick version dataId :
  is_u64 tick -> 0 <= p -> p + 20 <= zlen buffer ->
  setReMetadata buffer p offset length tick version dataId =
    Some (splice (Z.to_nat p) (re_bytes offset length tick version dataId 0) buffer).
Proof. intros. by apply (setReMetadata_reserved_spec _ _ _ _ _ _ _ 0). Qed.

Lemma setSyncData_spec buffer p version srcId evtNum evtRate nanos :
  is_u64 evtNum -> is_u64 nanos -> 0 <= p -> p + 28 <= zlen buffer ->
  setSyncData buffer p version srcId evtNum evtRate nanos =
    Some (splice (Z.to_nat p) (sync_bytes version srcId evtNum evtRate nanos) buffer).
Proof.
  intros He Hn Hp Hl. unfold setSyncData. write_header.
  rewrite !order_bytes_htonl, !order_bytes_htonll by done. by rewrite !be_bytes_u32.
Qed.

(** Two one-byte stores after the bytes written so far, the later place first. *)
Lemma store_two_backwards p a x y buf :
  0 <= p -> p + zlen a + 2 <= zlen buf ->
  (store (splice (Z.to_nat p) a buf) (p + zlen a + 1) [x] ≫=
     fun b => store b (p + zlen a) [y])
  = Some (splice (Z.to_nat p) (a ++ [y; x]) buf).
Proof.
  intros. rewrite store_spec by (rewrite ?length_splice; len_lia). cbn [mbind option_bind].
  rewrite store_spec by (rewrite ?length_splice; rewrite ?length_splice; len_lia).
  f_equal. apply list_eq. intros i.
  rewrite !lookup_splice; rewrite ?length_splice; rewrite ?length_splice; try len_lia.
  cbn [length]. rewrite length_app. cbn [length].
  repeat case_decide; try lia; try done.
  - rewrite lookup_app_r by lia. replace (i - Z.to_nat p - length a)%nat with 0%nat by lia.
    by replace (i - Z.to_nat (p + zlen a))%nat with 0%nat by lia.
  - rewrite lookup_app_r by lia. replace (i - Z.to_nat p - length a)%nat with 1%nat by lia.
    by replace (i - Z.to_nat (p + zlen a + 1))%nat with 0%nat by lia.
  - by rewrite lookup_app_l by lia.
Qed.

Lemma setReMetadataOld_spec buffer p first last tick offset version dataId :
  is_u64 tick -> 0 <= p -> p + 18 <= zlen buffer ->
  setReMetadataOld buffer p first last tick offset version dataId =
    Some (splice (Z.to_nat p) (re_old_bytes first last tick offset version dataId) buffer).
Proof.
  intros Ht Hp Hl. unfold setReMetadataOld. write_header.
  match goal with |- context [splice _ ?a buffer] =>
    replace (p + 17) with (p + zlen a + 1) by len_lia;
    replace (p + 16) with (p + zlen a) by len_lia end.
  rewrite store_two_backwards by len_lia.
  rewrite order_bytes_htons, order_bytes_htonl, order_bytes_htonll by done.
  rewrite be_bytes_u32, be_bytes_u16. by destruct first, last.
Qed.
End WriterSpecs.

(** ** Parsers read the diagrams *)

Lemma land_ff z : Z.land z 0xff = u8 z.
Proof. change 0xff with (Z.ones 8). by apply Z.land_ones. Qed.
Lemma land_f z : Z.land z 0xf = z mod 16.
Proof. change 0xf with (Z.ones 4). by apply Z.land_ones. Qed.
Lemma land_ffff z : Z.land z 0xffff = u16 z.
Proof. change 0xffff with (Z.ones 16). by apply Z.land_ones. Qed.
Lemma u8_i8 z : u8 (i8 z) = u8 z.
Proof. wrap_lia. Qed.
Lemma u8_idemp z : u8 (u8 z) = u8 z.
Proof. wrap_lia. Qed.
Lemma u8_u32 z : u8 (u32 z) = u8 z.
Proof. wrap_lia. Qed.
Lemma i8_u8 z : i8 (u8 z) = i8 z.
Proof. wrap_lia. Qed.

(** The version nibble survives the conversion to a signed char and back. *)
Lemma version_nibble v : Z.land (Z.shiftr (i8 (u8 (Z.shiftl v 4))) 4) 0xf = v mod 16.
Proof.
  rewrite land_f, Z.shiftr_div_pow2, Z.shiftl_mul_pow2 by lia. change (2 ^ 4) with 16.
  wrap_lia.
Qed.

Lemma load_prefix hdr rest off n bs :
  load hdr off n = Some bs -> load (hdr ++ rest) off n = Some bs.
Proof.
  intros H. rewrite <- H. unfold load in H. case_decide; [|done]. apply load_app_l; lia.
Qed.

Lemma length_lb_bytes a b c d : length (lb_bytes a b c d) = 16%nat.
Proof. unfold lb_bytes. by rewrite !length_app, !length_be_bytes. Qed.
Lemma length_re_bytes a b c d e f : length (re_bytes a b c d e f) = 20%nat.
Proof. unfold re_bytes. by rewrite !length_app, !length_be_bytes. Qed.
Lemma length_re_old_bytes a b c d e f : length (re_old_bytes a b c d e f) = 18%nat.
Proof. unfold re_old_bytes. by rewrite !length_app, !length_be_bytes. Qed.
Lemma length_sync_bytes a b c d e : length (sync_bytes a b c d e) = 28%nat.
Proof. unfold sync_bytes. by rewrite !length_app, !length_be_bytes. Qed.

Create Rewrite HintDb hdr_len.
#[export] Hint Rewrite length_lb_bytes length_re_bytes length_re_old_bytes length_sync_bytes
  length_be_bytes length_order_bytes : hdr_len.

Lemma header_ok pre bs : bytes_ok pre -> bytes_ok bs -> bytes_ok (pre ++ bs).
Proof. intros. by apply bytes_ok_app. Qed.
Ltac header_ok :=
  repeat apply header_ok; try apply be_bytes_ok; repeat constructor; try lia; apply u8_range.

Lemma lb_bytes_ok a b c d : bytes_ok (lb_bytes a b c d).
Proof. unfold lb_bytes. header_ok. Qed.
Lemma re_bytes_ok a b c d e f : bytes_ok (re_bytes a b c d e f).
Proof. unfold re_bytes. header_ok. Qed.

(** Replace the loads of a parser by the fields of the header in front. *)
Ltac read_field n v :=
  match goal with
  | |- context [load (?h ++ ?rest) ?off ?m] =>
    rewrite (load_prefix h rest off m (be_bytes n v)) by reflexivity
  end.
Ltac read_byte v :=
  match goal with
  | |- context [load (?h ++ ?rest) ?off 1] =>
    rewrite (load_prefix h rest off 1 [v]) by reflexivity
  end.

Section ParserSpecs.
Context {host : Host}.

Lemma ntohs_be v : is_u16 v -> ntohs (order_val host_order (be_bytes 2 v)) = v.
Proof.
  intros. rewrite ntohs_order_val by (apply length_be_bytes || apply be_bytes_ok).
  apply be_val_be_bytes. assumption.
Qed.
Lemma ntohl_be v : is_u32 v -> ntohl (order_val host_order (be_bytes 4 v)) = v.
Proof.
  intros. rewrite ntohl_order_val by (apply length_be_bytes || apply be_bytes_ok).
  apply be_val_be_bytes. assumption.
Qed.
Lemma ntohll_be v : is_u64 v -> ntohll (order_val host_order (be_bytes 8 v)) = v.
Proof.
  intros. rewrite ntohll_order_val by (apply length_be_bytes || apply be_bytes_ok).
  apply be_val_be_bytes. assumption.
Qed.

Lemma parseReHeader_spec offset length tick version dataId reserved payload :
  is_u32 offset -> is_u32 length -> is_u64 tick -> is_u16 dataId ->
  parseReHeader (re_bytes offset length tick version dataId reserved ++ payload)
    = Some (version mod 16, dataId, offset, length, tick).
Proof.
  intros. unfold parseReHeader, get8, get16, get32, get64.
  read_byte (u8 (Z.shiftl version 4)). read_field 2%nat dataId. read_field 4%nat offset.
  read_field 4%nat length. read_field 8%nat tick. cbn [fmap option_fmap option_map mbind option_bind hd].
  by rewrite version_nibble, ntohs_be, !ntohl_be, ntohll_be.
Qed.
Lemma parseReHeader_struct_spec offset length tick version dataId reserved payload h :
  is_u32 offset -> is_u32 length -> is_u64 tick -> is_u16 dataId ->
  parseReHeader_struct (re_bytes offset length tick version dataId reserved ++ payload) (Some h)
    = Some (Some (mk_re (version mod 16) (u8 reserved) dataId offset length tick)).
Proof.
  intros. unfold parseReHeader_struct, get8, get16, get32, get64.
  read_byte (u8 (Z.shiftl version 4)). read_byte (u8 reserved).
  read_field 2%nat dataId. read_field 4%nat offset. read_field 4%nat length. read_field 8%nat tick.
  cbn [fmap option_fmap option_map mbind option_bind hd].
  by rewrite version_nibble, land_ff, u8_i8, u8_idemp, ntohs_be, !ntohl_be, ntohll_be.
Qed.

Lemma old_flags_first first last :
  bool_decide (Z.shiftr (Z.land (i8 (2 * Z.b2z first + Z.b2z last)) 2) 1 <> 0) = first.
Proof. by destruct first, last. Qed.
Lemma old_flags_last first last :
  bool_decide (Z.land (i8 (2 * Z.b2z first + Z.b2z last)) 1 <> 0) = last.
Proof. by destruct first, last. Qed.

Lemma parseReHeaderOld_spec first last tick offset version dataId payload :
  is_u32 offset -> is_u64 tick -> is_u16 dataId ->
  parseReHeaderOld (re_old_bytes first last tick offset version dataId ++ payload)
    = Some (version mod 16, first, last, dataId, offset, tick).
Proof.
  intros. unfold parseReHeaderOld, get8, get16, get32, get64.
  read_byte (u8 (Z.shiftl version 4)). read_byte (2 * Z.b2z first + Z.b2z last).
  read_field 2%nat dataId. read_field 4%nat offset. read_field 8%nat tick.
  cbn [fmap option_fmap option_map mbind option_bind hd].
  by rewrite version_nibble, old_flags_first, old_flags_last, ntohs_be, ntohl_be, ntohll_be.
Qed.

Lemma parseLbHeader_spec tick version protocol entropy payload :
  is_u64 tick ->
  parseLbHeader (lb_bytes tick version protocol entropy ++ payload)
    = Ok (mk_lb 76 66 (u8 version) (u8 protocol) (u16 entropy) tick).
Proof.
  intros. unfold parseLbHeader, get8, get16, get64.
  read_byte 76. read_byte 66. cbn [fmap option_fmap option_map checked mbind result_bind hd].
  rewrite decide_False by (vm_compute; intuition discriminate).
  read_byte (u8 version). read_byte (u8 protocol). read_field 2%nat (u16 entropy). read_field 8%nat tick.
  cbn [fmap option_fmap option_map checked mbind result_bind hd].
  rewrite !land_ff, !u8_u32, !u8_i8, !u8_idemp, land_ffff, ntohs_be, ntohll_be, u16_small;
    done || apply u16_range.
Qed.

Lemma parseSyncData_spec version srcId evtNum evtRate nanos payload :
  is_u32 srcId -> is_u64 evtNum -> is_u32 evtRate -> is_u64 nanos ->
  parseSyncData (sync_bytes version srcId evtNum evtRate nanos ++ payload)
    = Some (u8 version, srcId, evtNum, evtRate, nanos).
Proof.
  intros. unfold parseSyncData, get8, get16, get32, get64.
  read_byte (u8 version). read_field 4%nat srcId. read_field 8%nat evtNum.
  read_field 4%nat evtRate. read_field 8%nat nanos.
  cbn [fmap option_fmap option_map mbind option_bind hd].
  by rewrite land_ff, u8_i8, u8_idemp, !ntohl_be, !ntohll_be.
Qed.

(** A packet of fewer bytes than the header is read out of bounds. *)
Lemma load_short buf off n : zlen buf < off + n -> load buf off n = None.
Proof. intros. unfold load. by rewrite decide_False by lia. Qed.
End ParserSpecs.

(** What a header writer puts at [p] is in front of what follows. *)
Lemma drop_splice p hdr buf : (p + length hdr <= length buf)%nat ->
  drop p (splice p hdr buf) = hdr ++ drop (p + length hdr) buf.
Proof.
  intros. unfold splice. rewrite drop_app_ge by (rewrite length_take; lia).
  rewrite length_take. by replace (p - _)%nat with 0%nat by lia.
Qed.

(** ** The writers that skip the reserved bytes *)

Section GrpcWriterSpecs.
Context {host : Host}.

(** [grpc_setLbMetadata] keeps the two reserved bytes of the array it writes into. *)
Lemma grpc_setLbMetadata_spec buffer p tick version protocol entropy :
  is_u64 tick -> 0 <= p -> p + 16 <= zlen buffer ->
  grpc_setLbMetadata buffer p tick version protocol entropy =
    Some (splice (Z.to_nat p)
            ([76; 66; u8 version; u8 protocol] ++ take 2 (drop (Z.to_nat p + 4) buffer)
               ++ be_bytes 2 (u16 entropy) ++ be_bytes 8 tick) buffer).
Proof.
  intros Ht Hp Hl. unfold grpc_setLbMetadata, put8, put16, put64.
  rewrite store_spec by len_lia. cbn [mbind option_bind].
  do 3 (rewrite store_adjacent by len_lia; cbn [mbind option_bind]).
  rewrite (store_gap _ _ _ _ _ 2) by len_lia. cbn [mbind option_bind].
  rewrite store_adjacent by len_lia.
  rewrite order_bytes_htons, order_bytes_htonll by done.
  cbn [app length]. by rewrite <- !app_assoc.
Qed.

Lemma grpc_setReMetadata_spec buffer p offset length_ tick version dataId :
  is_u64 tick -> 0 <= p -> p + 20 <= zlen buffer ->
  grpc_setReMetadata buffer p offset length_ tick version dataId =
    Some (splice (Z.to_nat p)
            ([u8 (Z.shiftl version 4)] ++ take 1 (drop (Z.to_nat p + 1) buffer)
               ++ be_bytes 2 dataId ++ be_bytes 4 offset ++ be_bytes 4 length_ ++ be_bytes 8 tick)
            buffer).
Proof.
  intros Ht Hp Hl. unfold grpc_setReMetadata, put8, put16, put32, put64.
  rewrite store_spec by len_lia. cbn [mbind option_bind].
  rewrite (store_gap _ _ _ _ _ 1) by len_lia. cbn [mbind option_bind].
  do 3 (rewrite store_adjacent by len_lia; cbn [mbind option_bind]).
  rewrite order_bytes_htons, !order_bytes_htonl, order_bytes_htonll by done.
  rewrite !be_bytes_u32, be_bytes_u16.
  cbn [app length]. by rewrite <- !app_assoc.
Qed.

Lemma grpc_setSyncData_spec buffer p version srcId evtNum evtRate nanos :
  is_u64 evtNum -> is_u64 nanos -> 0 <= p -> p + 28 <= zlen buffer ->
  grpc_setSyncData buffer p version srcId evtNum evtRate nanos =
    Some (splice (Z.to_nat p)
            ([76; 67; u8 version] ++ take 1 (drop (Z.to_nat p + 3) buffer)
               ++ be_bytes 4 srcId ++ be_bytes 8 evtNum ++ be_bytes 4 evtRate ++ be_bytes 8 nanos)
            buffer).
Proof.
  intros He Hn Hp Hl. unfold grpc_setSyncData, put8, put32, put64.
  rewrite store_spec by len_lia. cbn [mbind option_bind].
  do 2 (rewrite store_adjacent by len_lia; cbn [mbind option_bind]).
  rewrite (store_gap _ _ _ _ _ 1) by len_lia. cbn [mbind option_bind].
  do 3 (rewrite store_adjacent by len_lia; cbn [mbind option_bind]).
  rewrite !order_bytes_htonl, !order_bytes_htonll by done. rewrite !be_bytes_u32.
  cbn [app length]. by rewrite <- !app_assoc.
Qed.
End GrpcWriterSpecs.

(** ** Properties *)

(** C31: the version 2 reassembly header survives the network: what
    [setReMetadata] writes on a host of any byte order, the parser of a host of
    any byte order reads back, with the version cut to its four bits. *)
Theorem re_header_roundtrip (sender receiver : Host)
    buffer p offset length tick version dataId reserved buffer' :
  is_u32 offset -> is_u32 length -> is_u64 tick -> is_u16 dataId ->
  0 <= p -> p + RE_HEADER_BYTES <= zlen buffer ->
  setReMetadata_reserved (host := sender) buffer p offset length tick version dataId reserved
    = Some buffer' ->
  parseReHeader_struct (host := receiver) (drop (Z.to_nat p) buffer') (Some (mk_re 2 0 0 0 0 0))
    = Some (Some (mk_re (version mod 16) (u8 reserved) dataId offset length tick))
  /\ parseReHeader (host := receiver) (drop (Z.to_nat p) buffer')
    = Some (version mod 16, dataId, offset, length, tick).
Proof.
  unfold RE_HEADER_BYTES. intros Ho Hl Ht Hd Hp Hb Hset.
  rewrite setReMetadata_reserved_spec in Hset by done. injection Hset as <-.
  rewrite drop_splice by (rewrite length_re_bytes; lia).
  rewrite parseReHeader_struct_spec, parseReHeader_spec, land_ff, u8_idemp by done. done.
Qed.

Lemma re_header_roundtrip_witness :
  parseReHeader_struct (host := ENDIAN_BIG)
      (drop 16 (default [] (setReMetadata_reserved (host := ENDIAN_LITTLE) (replicate 40 255) 16
        300 70000 99 2 7 5))) (Some (mk_re 2 0 0 0 0 0))
    = Some (Some (mk_re 2 5 7 300 70000 99)).
Proof.
  refine (proj1 (re_header_roundtrip ENDIAN_LITTLE ENDIAN_BIG (replicate 40 255) 16 300 70000
    99 2 7 5 _ _ _ _ _ _ _ _)); vm_compute; intuition congruence.
Defined.

(** The version 1 header round trip: first and last bits, source id, packet
    sequence and tick are read back as written. *)
Theorem re_header_old_roundtrip (sender receiver : Host)
    buffer p first last tick offset version dataId buffer' :
  is_u32 offset -> is_u64 tick -> is_u16 dataId ->
  0 <= p -> p + RE_HEADER_BYTES_OLD <= zlen buffer ->
  setReMetadataOld (host := sender) buffer p first last tick offset version dataId = Some buffer' ->
  parseReHeaderOld (host := receiver) (drop (Z.to_nat p) buffer')
    = Some (version mod 16, first, last, dataId, offset, tick).
Proof.
  unfold RE_HEADER_BYTES_OLD. intros Ho Ht Hd Hp Hb Hset.
  rewrite setReMetadataOld_spec in Hset by done. injection Hset as <-.
  rewrite drop_splice by (rewrite length_re_old_bytes; lia). by apply parseReHeaderOld_spec.
Qed.

Lemma re_header_old_roundtrip_witness :
  parseReHeaderOld (host := ENDIAN_BIG)
      (drop 16 (default [] (setReMetadataOld (host := ENDIAN_LITTLE) (replicate 34 7) 16
        true false 99 300 1 7)))
    = Some (1, true, false, 7, 300, 99).
Proof.
  apply (re_header_old_roundtrip ENDIAN_LITTLE ENDIAN_BIG (replicate 34 7) 16 true false 99 300 1 7);
    vm_compute; intuition congruence.
Defined.

(** The load balancer header round trip; the parser accepts what the writer
    wrote, with version and protocol cut to a byte and the entropy to 16 bits. *)
Theorem lb_header_roundtrip (sender receiver : Host)
    buffer p tick version protocol entropy buffer' :
  is_u64 tick -> 0 <= p -> p + LB_HEADER_BYTES <= zlen buffer ->
  setLbMetadata (host := sender) buffer p tick version protocol entropy = Some buffer' ->
  parseLbHeader (host := receiver) (drop (Z.to_nat p) buffer')
    = Ok (mk_lb 76 66 (u8 version) (u8 protocol) (u16 entropy) tick).
Proof.
  unfold LB_HEADER_BYTES. intros Ht Hp Hb Hset.
  rewrite setLbMetadata_spec in Hset by done. injection Hset as <-.
  rewrite drop_splice by (rewrite length_lb_bytes; lia). by apply parseLbHeader_spec.
Qed.

Lemma lb_header_roundtrip_witness :
  parseLbHeader (host := ENDIAN_LITTLE)
      (default [] (setLbMetadata (host := ENDIAN_LITTLE) (replicate 20 9) 0 1234567890123 2 1 65537))
    = Ok (mk_lb 76 66 2 1 1 1234567890123).
Proof.
  apply (lb_header_roundtrip ENDIAN_LITTLE ENDIAN_LITTLE (replicate 20 9) 0 1234567890123 2 1 65537);
    vm_compute; intuition congruence.
Defined.

(** The synchronization message round trip. *)
Theorem sync_roundtrip (sender receiver : Host)
    buffer p version srcId evtNum evtRate nanos buffer' :
  is_u32 srcId -> is_u64 evtNum -> is_u32 evtRate -> is_u64 nanos ->
  0 <= p -> p + 28 <= zlen buffer ->
  setSyncData (host := sender) buffer p version srcId evtNum evtRate nanos = Some buffer' ->
  parseSyncData (host := receiver) (drop (Z.to_nat p) buffer')
    = Some (u8 version, srcId, evtNum, evtRate, nanos).
Proof.
  intros Hs He Hr Hn Hp Hb Hset.
  rewrite setSyncData_spec in Hset by done. injection Hset as <-.
  rewrite drop_splice by (rewrite length_sync_bytes; lia). by apply parseSyncData_spec.
Qed.

Lemma sync_roundtrip_witness :
  parseSyncData (host := ENDIAN_BIG)
      (default [] (setSyncData (host := ENDIAN_LITTLE) (replicate 28 0) 0 2 17 500 1000 99999999999))
    = Some (2, 17, 500, 1000, 99999999999).
Proof.
  apply (sync_roundtrip ENDIAN_LITTLE ENDIAN_BIG (replicate 28 0) 0 2 17 500 1000 99999999999);
    vm_compute; intuition congruence.
Defined.

(** The overloads of [parseReHeader] agree on every packet, written by this
    program or not: they are defined on the same packets and return the same
    fields, whatever part of them each one returns. *)
Theorem parseReHeader_overloads_agree {host : Host} pkt h a i version dataId offset length tick :
  parseReHeader pkt = Some (version, dataId, offset, length, tick) -> 0 <= i -> i + 4 <= zlen a ->
  parseReHeader_olt pkt = Some (offset, length, tick)
  /\ (exists r, parseReHeader_struct pkt (Some h)
        = Some (Some (mk_re version r dataId offset length tick)))
  /\ parseReHeader_array pkt (Some a) 5
        = (a ← set_elem a 0 version; a ← set_elem a 1 dataId; a ← set_elem a 2 offset;
           a ← set_elem a 3 length; Some (Some a, tick))
  /\ parseReHeaderFast pkt a i
        = Some (<[Z.to_nat (i + 3) := (words_of_u64 tick).2]>
               (<[Z.to_nat (i + 2) := (words_of_u64 tick).1]>
               (<[Z.to_nat (i + 1) := length]> (<[Z.to_nat i := offset]> a))), tick).
Proof.
  intros Hp Hi Hlen. unfold parseReHeader in Hp.
  apply option_bind_Some in Hp as (b0 & Hb0 & Hp). apply option_bind_Some in Hp as (id & Hid & Hp).
  apply option_bind_Some in Hp as (o & Ho & Hp). apply option_bind_Some in Hp as (l & Hl & Hp).
  apply option_bind_Some in Hp as (t & Ht & Hp). injection Hp as <- <- <- <- <-.
  assert (Hb1 : exists b1, get8 pkt 1 = Some b1).
  { revert Ho. unfold get32, get8. unfold load at 1. case_decide; [|done]. intros _.
    rewrite load_spec by lia. eexists. done. }
  destruct Hb1 as [b1 Hb1].
  unfold parseReHeader_olt, parseReHeader_struct, parseReHeader_array, parseReHeaderFast.
  rewrite Hb0, Hb1, Hid, Ho, Hl, Ht. cbn [mbind option_bind]. rewrite decide_True by lia.
  repeat split.
  - eexists. done.
  - by destruct (set_elem a 0 _); cbn; [destruct (set_elem l0 1 _); cbn;
      [destruct (set_elem l1 2 _); cbn; [destruct (set_elem l2 3 _) |] |] |].
  - unfold set_elem. rewrite decide_True by lia. cbn [mbind option_bind].
    rewrite decide_True by (rewrite length_insert; lia). cbn [mbind option_bind].
    rewrite decide_True by (rewrite !length_insert; lia). cbn [mbind option_bind].
    rewrite decide_True by (rewrite !length_insert; lia). done.
Qed.

Lemma parseReHeader_overloads_agree_witness :
  let pkt := re_bytes 300 70000 99 2 7 0 ++ [1; 2; 3] in
  parseReHeader_olt (host := ENDIAN_LITTLE) pkt = Some (300, 70000, 99)
  /\ parseReHeaderFast (host := ENDIAN_LITTLE) pkt [0; 0; 0; 0; 0] 1
       = Some ([0; 300; 70000; 99; 0], 99).
Proof.
  destruct (parseReHeader_overloads_agree (host := ENDIAN_LITTLE)
    (re_bytes 300 70000 99 2 7 0 ++ [1; 2; 3]) (mk_re 2 0 0 0 0 0) [0; 0; 0; 0; 0] 1
    2 7 300 70000 99) as (H1 & _ & _ & H2); [by vm_compute | lia | by vm_compute |].
  split; [exact H1 | exact H2].
Defined.
