(* ===== verification/Socket.v ===== *)
(** What the program relies on of the operating system's sockets.  The kernel
    is not code of the repository: [send] and its kind are parameters, given the
    packet and the number of calls made before, which answer with the number of
    bytes taken or with an errno.  What is received is the list of datagrams
    (or errors) the calls of [recvfrom] return one after the other. *)
From S2P Require Import Prelude.

Inductive syscall := SEND | SENDTO | SENDMSG.

Inductive send_result :=
  | Sent (n : Z)
  | SendErr (errno : Z).

#[export] Instance send_result_eq_dec : EqDecision send_result.
Proof. solve_decision. Defined.

(** errno values of Linux. *)
Definition EMSGSIZE : Z := 90.
Definition EFAULT : Z := 14.

(** The kernel's answers to the calls that send. *)
Class Socket := sock_send : syscall -> nat -> list Z -> send_result.

(** One answer of [recvfrom]: a datagram of the socket's queue, or an error. *)
Inductive recv_event :=
  | Datagram (bytes : list Z)
  | RecvErr (errno : Z).

(** [recvfrom(fd, pkt, size, 0, ...)]: a datagram longer than the buffer is cut
    to the size of the buffer. *)
Definition received (size : Z) (bytes : list Z) : list Z := take (Z.to_nat size) bytes.

Lemma length_received size bytes : 0 <= size -> zlen (received size bytes) = Z.min size (zlen bytes).
Proof. intros. unfold received. rewrite length_take. lia. Qed.

Lemma received_all size bytes : zlen bytes <= size -> received size bytes = bytes.
Proof. intros. apply take_ge. lia. Qed.

(** A path that takes every packet of at most [mtu] bytes and refuses larger
    ones with EMSGSIZE, as a socket with the don't-fragment option does. *)
Definition path_mtu (mtu : Z) : Socket := fun _ _ pkt =>
  if decide (zlen pkt <= mtu) then Sent (zlen pkt) else SendErr EMSGSIZE.
