(* ===== verification/Sender.v ===== *)
(** The abstract specification of the packetizing routines: a sender that
    works on the list of bytes still to be sent, with no packet buffers, no
    pointers and no in-place headers.  Each routine of ejfat_packetize.hpp is
    shown (in Packetize.v and PacketizeFast.v) to run in lockstep with this
    sender for its own header, sequence numbering and delays.  What is proved
    of it here, termination with path-MTU discovery included, holds of each. *)
From S2P Require Import Prelude Socket.

(** ** Cutting a buffer into payloads *)

(** Pieces of [m] bytes, the last one possibly shorter; an empty buffer is one
    empty piece.  [fuel] larger than the length is enough. *)
Fixpoint chunk_list (fuel m : nat) (l : list Z) : list (list Z) :=
  match fuel with
  | O => []
  | S f => if decide (length l <= m)%nat then [l] else take m l :: chunk_list f m (drop m l)
  end.
Definition chunks (m : nat) (l : list Z) : list (list Z) := chunk_list (S (length l)) m l.

Lemma chunk_list_enough f1 f2 m l :
  (0 < m)%nat -> (length l < f1)%nat -> (length l < f2)%nat ->
  chunk_list f1 m l = chunk_list f2 m l.
Proof.
  intros Hm. revert f2 l. induction f1 as [|f1 IH]; intros [|f2] l H1 H2; try lia.
  cbn. case_decide; [done|]. f_equal. apply IH; rewrite length_drop; lia.
Qed.

Lemma chunks_unfold m l : (0 < m)%nat ->
  chunks m l = if decide (length l <= m)%nat then [l] else take m l :: chunks m (drop m l).
Proof.
  intros. unfold chunks at 1. cbn [chunk_list]. case_decide; [done|]. f_equal.
  apply chunk_list_enough; rewrite ?length_drop; lia.
Qed.

Arguments chunks : simpl never.

Lemma chunks_ind m (Hm : (0 < m)%nat) (P : list Z -> Prop) :
  (forall l, (length l <= m)%nat -> P l) ->
  (forall l, (m < length l)%nat -> P (drop m l) -> P l) ->
  forall l, P l.
Proof.
  intros H1 H2 l. remember (length l) as n eqn:Hn. revert l Hn.
  induction n as [n IH] using lt_wf_ind. intros l ->.
  destruct (decide (length l <= m)%nat); [by apply H1|]. apply H2; [lia|].
  eapply IH; [|done]. rewrite length_drop. lia.
Qed.

Lemma concat_chunks m l : (0 < m)%nat -> concat (chunks m l) = l.
Proof.
  intros Hm. induction l as [l Hl|l Hl IH] using (chunks_ind m Hm).
  - rewrite chunks_unfold, decide_True by lia. apply app_nil_r.
  - rewrite chunks_unfold, decide_False by lia. cbn. rewrite IH. apply take_drop.
Qed.

Lemma chunks_size m l : (0 < m)%nat -> Forall (fun c => (length c <= m)%nat) (chunks m l).
Proof.
  intros Hm. induction l as [l Hl|l Hl IH] using (chunks_ind m Hm).
  - rewrite chunks_unfold, decide_True by lia. by repeat constructor.
  - rewrite chunks_unfold, decide_False by lia. constructor; [|done]. rewrite length_take. lia.
Qed.

Lemma chunks_nonempty m l : chunks m l <> [].
Proof. unfold chunks. cbn [chunk_list]. by case_decide. Qed.

(** ** The sender *)

Record sender_out := mk_out {
  o_ret : Z;              (* the return value *)
  o_offset : Z;           (* *offset *)
  o_packetsSent : Z;      (* *packetsSent *)
  o_delayCounter : Z;     (* *delayCounter *)
  o_sent : list (list Z); (* the packets the kernel took, in order *)
  o_sleeps : nat          (* calls of sleep_for *)
}.

(** What one routine differs in from another. *)
Record sender_spec := mk_spec {
  sp_call : syscall;
  sp_header : bool -> bool -> Z -> list Z;  (* first, last, sequence or offset *)
  sp_next : Z -> Z -> Z;                    (* sequence after a packet of so many bytes *)
  sp_bytes : Z -> Z -> Z;                   (* bytes to write, from payload limit and remaining *)
  sp_fits : Z -> bool;                      (* room for so many bytes in the packet buffer *)
  sp_once : bool;     (* the first-loop flag is cleared before the packet is sent *)
  sp_lastBuffer : bool;
  sp_pause : Z -> nat -> Z * nat            (* delay counter and sleeps, after a packet *)
}.

Record sender := mk_sender {
  payload : Z;
  seq : Z;
  rest : list Z;
  first : bool;
  last : bool;
  loop : bool;
  sent : list (list Z);
  counter : Z;
  sleeps : nat;
  calls : nat
}.

(** [maxUdpPayload * 8 / 10]; a product outside the int range is undefined. *)
Definition shrink_payload (m : Z) : option Z :=
  if decide (-2147483648 <= m * 8 < 2147483648) then Some (Z.quot (m * 8) 10) else None.

Section Sender.
Context {sock : Socket} (sp : sender_spec) (offset0 : Z).

Definition finish (ret off : Z) (s : sender) : outcome sender sender_out :=
  Halt (mk_out ret off (zlen s.(sent)) s.(counter) s.(sent) s.(sleeps)).

(** One packet: sent, refused as too big while it is the very first one (try
    again with a payload limit 20% smaller), or failed. *)
Definition sender_step (s : sender) : outcome sender sender_out :=
  if s.(loop) || (0 <? zlen s.(rest)) then
    let n := sp.(sp_bytes) s.(payload) (zlen s.(rest)) in
    let last := if (n =? zlen s.(rest)) && sp.(sp_lastBuffer) then true else s.(last) in
    if (0 <=? n) && (n <=? zlen s.(rest)) && sp.(sp_fits) n then
      let pkt := sp.(sp_header) s.(first) last s.(seq) ++ take (Z.to_nat n) s.(rest) in
      match sock_send sp.(sp_call) s.(calls) pkt with
      | SendErr e =>
        if (e =? EMSGSIZE) && s.(first) then
          match shrink_payload s.(payload) with
          | Some m => Next (mk_sender m s.(seq) s.(rest) s.(first) false
                             (if sp.(sp_once) then false else s.(loop))
                             s.(sent) s.(counter) s.(sleeps) (S s.(calls)))
          | None => Stuck
          end
        else finish (-1) offset0 s
      | Sent _ =>
        let '(dc, sl) := sp.(sp_pause) s.(counter) s.(sleeps) in
        Next (mk_sender s.(payload) (sp.(sp_next) s.(seq) n) (drop (Z.to_nat n) s.(rest))
                        false last false (s.(sent) ++ [pkt]) dc sl (S s.(calls)))
      end
    else Stuck
  else finish 0 s.(seq) s.

(** The packets of a list of pieces. *)
Fixpoint emit (first : bool) (seq : Z) (pieces : list (list Z)) : list (list Z) :=
  match pieces with
  | [] => []
  | c :: cs => (sp.(sp_header) first (match cs with [] => sp.(sp_lastBuffer) | _ => false end) seq ++ c)
                 :: emit false (sp.(sp_next) seq (zlen c)) cs
  end.

(** The sequence number or offset after them. *)
Fixpoint seq_after (seq : Z) (pieces : list (list Z)) : Z :=
  match pieces with
  | [] => seq
  | c :: cs => seq_after (sp.(sp_next) seq (zlen c)) cs
  end.

Definition start (payload seq : Z) (firstBuffer : bool) (data : list Z) (dc : Z) : sender :=
  mk_sender payload seq data firstBuffer false true [] dc 0 0.
End Sender.

Lemma length_emit sp fb q l : length (emit sp fb q l) = length l.
Proof. revert fb q. induction l; intros; cbn; auto. Qed.

(** The payloads of the packets are the pieces. *)
Lemma emit_payloads sp fb q l h :
  (forall f l s, zlen (sp.(sp_header) f l s) = h) ->
  map (drop (Z.to_nat h)) (emit sp fb q l) = l.
Proof.
  intros Hh. revert fb q. induction l as [|c l IH]; intros fb q; cbn [emit map]; [done|].
  rewrite IH. f_equal. rewrite <- (Hh fb (match l with [] => sp.(sp_lastBuffer) | _ => false end) q).
  rewrite Nat2Z.id. apply drop_app_length.
Qed.

Lemma shrink_payload_ok m : 2 <= m < 268435456 ->
  exists m', shrink_payload m = Some m' /\ 1 <= m' < m.
Proof.
  intros. unfold shrink_payload. rewrite decide_True by lia. eexists. split; [done|].
  rewrite Z.quot_div_nonneg by lia. Z.div_mod_to_equations. lia.
Qed.

(** ** Correctness of the sender *)

Section Correct.
Context {sock : Socket} (sp : sender_spec) (offset0 hdr pmax : Z).
Context (Hhdr : forall f l s, zlen (sp.(sp_header) f l s) = hdr).
Context (Hbytes : forall p r, 0 < p <= pmax -> 0 <= r -> sp.(sp_bytes) p r = Z.min p r).
Context (Hfits : forall n, 0 <= n <= pmax -> sp.(sp_fits) n = true).
Context (Hmax : pmax < 268435456).
(** Only packets with at least two bytes of data are refused as too big. *)
Context (Hrefuse : forall k pkt,
  sock_send sp.(sp_call) k pkt = SendErr EMSGSIZE -> hdr + 1 < zlen pkt).

Lemma emit_short fb q m l : (0 < m)%nat -> (length l <= m)%nat ->
  emit sp fb q (chunks m l) = [sp.(sp_header) fb sp.(sp_lastBuffer) q ++ l].
Proof. intros. by rewrite chunks_unfold, decide_True by lia. Qed.

Lemma emit_long fb q m l : (0 < m)%nat -> (m < length l)%nat ->
  emit sp fb q (chunks m l) =
    (sp.(sp_header) fb false q ++ take m l) :: emit sp false (sp.(sp_next) q (Z.of_nat m)) (chunks m (drop m l)).
Proof.
  intros. rewrite (chunks_unfold m l), decide_False by lia. cbn [emit].
  rewrite length_take, Nat.min_l by lia.
  pose proof (chunks_nonempty m (drop m l)). by destruct (chunks m (drop m l)).
Qed.

Lemma seq_after_short q m l : (0 < m)%nat -> (length l <= m)%nat ->
  seq_after sp q (chunks m l) = sp.(sp_next) q (zlen l).
Proof. intros. by rewrite chunks_unfold, decide_True by lia. Qed.

Lemma seq_after_long q m l : (0 < m)%nat -> (m < length l)%nat ->
  seq_after sp q (chunks m l) = seq_after sp (sp.(sp_next) q (Z.of_nat m)) (chunks m (drop m l)).
Proof.
  intros. rewrite (chunks_unfold m l), decide_False by lia. cbn [seq_after].
  by rewrite length_take, Nat.min_l by lia.
Qed.

(** Something is still to be sent. *)
Definition busy (s : sender) : bool := s.(loop) || (0 <? zlen s.(rest)).

(** The packets still to come, and the sequence number at the end. *)
Definition pending (s : sender) : list (list Z) :=
  if busy s then emit sp s.(first) s.(seq) (chunks (Z.to_nat s.(payload)) s.(rest)) else [].
Definition final_seq (s : sender) : Z :=
  if busy s then seq_after sp s.(seq) (chunks (Z.to_nat s.(payload)) s.(rest)) else s.(seq).

Context (fb : bool) (q0 p0 : Z) (data : list Z).

Record sender_inv (s : sender) : Prop := mk_inv {
  inv_payload : 1 <= s.(payload) <= p0;
  inv_first : s.(first) = true -> fb = true /\ s.(sent) = [] /\ s.(rest) = data /\ s.(seq) = q0;
  inv_last : busy s = true -> s.(last) = false;
  inv_same : fb = false -> s.(payload) = p0;
  inv_sent : s.(sent) ++ pending s = emit sp fb q0 (chunks (Z.to_nat s.(payload)) data);
  inv_seq : final_seq s = seq_after sp q0 (chunks (Z.to_nat s.(payload)) data)
}.

Context (Hp0 : 1 <= p0 <= pmax).

(** The bytes and the packet of the next iteration. *)
Definition next_n (s : sender) : Z := Z.min s.(payload) (zlen s.(rest)).
Definition next_pkt (s : sender) : list Z :=
  sp.(sp_header) s.(first) (if next_n s =? zlen s.(rest) then sp.(sp_lastBuffer) else false) s.(seq)
    ++ take (Z.to_nat (next_n s)) s.(rest).

Lemma zlen_next_pkt s : 1 <= s.(payload) -> zlen (next_pkt s) = hdr + next_n s.
Proof using Hhdr.
  intros. unfold next_pkt. rewrite length_app, Nat2Z.inj_add, Hhdr, length_take. unfold next_n. lia.
Qed.

(** The state after the packet has been taken. *)
Definition after_sent (s : sender) : sender :=
  let '(dc, sl) := sp.(sp_pause) s.(counter) s.(sleeps) in
  mk_sender s.(payload) (sp.(sp_next) s.(seq) (next_n s)) (drop (Z.to_nat (next_n s)) s.(rest))
    false (if next_n s =? zlen s.(rest) then sp.(sp_lastBuffer) else false) false
    (s.(sent) ++ [next_pkt s]) dc sl (S s.(calls)).

Definition after_refused (m : Z) (s : sender) : sender :=
  mk_sender m s.(seq) s.(rest) s.(first) false (if sp.(sp_once) then false else s.(loop))
    s.(sent) s.(counter) s.(sleeps) (S s.(calls)).

Lemma step_busy s : sender_inv s -> busy s = true ->
  sender_step sp offset0 s =
    match sock_send sp.(sp_call) s.(calls) (next_pkt s) with
    | Sent _ => Next (after_sent s)
    | SendErr e =>
      if (e =? EMSGSIZE) && s.(first) then
        match shrink_payload s.(payload) with
        | Some m => Next (after_refused m s) | None => Stuck end
      else finish (-1) offset0 s
    end.
Proof using Hbytes Hfits Hp0.
  intros Hinv Hb. unfold sender_step. unfold busy in Hb. rewrite Hb.
  pose proof (inv_payload s Hinv) as Hpl. rewrite Hbytes by lia.
  change (Z.min s.(payload) (zlen s.(rest))) with (next_n s).
  assert (0 <= next_n s <= zlen s.(rest)) by (unfold next_n; lia).
  rewrite (proj2 (Z.leb_le 0 _)), (proj2 (Z.leb_le _ (zlen s.(rest)))), Hfits by (unfold next_n; lia).
  cbn [andb]. rewrite (inv_last s Hinv) by done.
  unfold after_sent, next_pkt.
  destruct (next_n s =? zlen s.(rest)), sp.(sp_lastBuffer); cbn [andb];
    destruct (sp.(sp_pause) s.(counter) s.(sleeps)); done.
Qed.

(** A measure: the data left, the payload limit while it may still shrink, and
    the first iteration of an empty buffer. *)
Definition sender_measure (s : sender) : nat :=
  ((if s.(first) then Z.to_nat s.(payload) else 0) + length s.(rest)
     + (if s.(loop) then 1 else 0))%nat.

Lemma inv_after_sent s : sender_inv s -> busy s = true ->
  sender_inv (after_sent s) /\ (sender_measure (after_sent s) < sender_measure s)%nat.
Proof using Hp0.
  intros [Hpl Hf Hl Hs Hsent Hseq] Hb.
  unfold pending, final_seq in Hsent, Hseq. rewrite Hb in Hsent, Hseq.
  unfold after_sent. destruct (sp.(sp_pause) s.(counter) s.(sleeps)) as [dc sl].
  destruct (decide (length s.(rest) <= Z.to_nat s.(payload))%nat) as [Hle|Hgt].
  - (* the last packet *)
    rewrite emit_short in Hsent by lia. rewrite seq_after_short in Hseq by lia.
    assert (Hn : next_n s = zlen s.(rest)) by (unfold next_n; lia).
    unfold next_pkt. rewrite Hn, Z.eqb_refl, Nat2Z.id, drop_all, firstn_all.
    split; [|unfold sender_measure; cbn [first rest loop payload length];
             apply orb_true_iff in Hb as [->|?%Z.ltb_lt]; lia].
    constructor; unfold pending, final_seq, busy; cbn; try done. by rewrite app_nil_r.
  - rewrite emit_long in Hsent by lia. rewrite seq_after_long in Hseq by lia.
    assert (Hn : next_n s = s.(payload)) by (unfold next_n; lia).
    unfold next_pkt. rewrite Hn, (proj2 (Z.eqb_neq _ _)) by lia.
    rewrite (Z2Nat.id s.(payload)) in Hsent, Hseq by lia.
    assert (Hd : (0 <? zlen (drop (Z.to_nat s.(payload)) s.(rest))) = true)
      by (apply Z.ltb_lt; rewrite length_drop; lia).
    split; [|unfold sender_measure; cbn [first rest loop]; rewrite length_drop; lia].
    constructor; unfold pending, final_seq, busy; cbn [payload seq rest first last loop sent];
      rewrite ?Hd; cbn [orb]; try done.
    by rewrite <- app_assoc.
Qed.

Lemma inv_after_refused s : sender_inv s -> busy s = true -> s.(first) = true ->
  hdr + 1 < zlen (next_pkt s) ->
  exists m, shrink_payload s.(payload) = Some m /\ sender_inv (after_refused m s)
    /\ (sender_measure (after_refused m s) < sender_measure s)%nat.
Proof using Hhdr Hp0 Hmax.
  intros [Hpl Hf Hl Hs Hsent Hseq] Hb Hfirst Hlen.
  rewrite zlen_next_pkt in Hlen by lia. unfold next_n in Hlen.
  destruct (shrink_payload_ok s.(payload)) as (m & Hm & Hlt); [lia|].
  exists m. split; [done|]. destruct (Hf Hfirst) as (Hfb & Hs0 & Hr0 & Hq0).
  split; [|unfold sender_measure, after_refused; cbn [first rest loop payload]; rewrite Hfirst;
           destruct sp.(sp_once), s.(loop); lia].
  constructor; unfold pending, final_seq, busy, after_refused;
    cbn [payload seq rest first last loop sent]; try done.
  - lia.
  - by rewrite Hfb.
  - rewrite Hs0, Hfirst, Hfb, (proj2 (Z.ltb_lt 0 _)), orb_true_r by lia.
    by rewrite Hq0, Hr0.
  - rewrite (proj2 (Z.ltb_lt 0 _)), orb_true_r by lia. by rewrite Hq0, Hr0.
Qed.

(** What a routine that has ended promises: the packets taken by the kernel
    are those of the buffer cut in pieces of some [m] bytes (all of them if it
    returns 0, the first ones otherwise), and the counts agree. *)
Definition sender_post (out : sender_out) (m : Z) : Prop :=
  1 <= m <= p0 /\ (fb = false -> m = p0) /\ out.(o_packetsSent) = zlen out.(o_sent) /\
  let pkts := emit sp fb q0 (chunks (Z.to_nat m) data) in
  (out.(o_ret) = 0 /\ out.(o_sent) = pkts
     /\ out.(o_offset) = seq_after sp q0 (chunks (Z.to_nat m) data))
  \/ (out.(o_ret) = -1 /\ out.(o_sent) `prefix_of` pkts /\ out.(o_offset) = offset0).

Lemma inv_start dc : sender_inv (start p0 q0 fb data dc).
Proof using Hp0.
  constructor; cbn [start payload first last sent rest seq]; try done; try lia.
Qed.

Lemma step_idle s : sender_inv s -> busy s = false ->
  sender_step sp offset0 s = finish 0 s.(seq) s
  /\ s.(sent) = emit sp fb q0 (chunks (Z.to_nat s.(payload)) data)
  /\ s.(seq) = seq_after sp q0 (chunks (Z.to_nat s.(payload)) data).
Proof.
  intros [Hpl Hf Hl Hs Hsent Hseq] Hb. unfold pending, final_seq in *. rewrite Hb in *.
  rewrite app_nil_r in Hsent. unfold sender_step. unfold busy in Hb. rewrite Hb. done.
Qed.

Lemma finish_error_post s : sender_inv s ->
  exists out, finish (-1) offset0 s = Halt out /\ exists m, sender_post out m.
Proof.
  intros Hinv. eexists. split; [done|]. exists s.(payload).
  split; [apply Hinv|]. split; [apply Hinv|]. split; [done|]. right. cbn. split; [done|].
  split; [|done]. rewrite <- (inv_sent s Hinv). by eexists.
Qed.

Lemma finish_ok_post s : sender_inv s -> busy s = false ->
  exists out, sender_step sp offset0 s = Halt out /\ sender_post out s.(payload) /\ out.(o_ret) = 0.
Proof.
  intros Hinv Hb. destruct (step_idle s Hinv Hb) as (-> & Hs & Hq). eexists. split; [done|].
  split; [|done]. split; [apply Hinv|]. split; [apply Hinv|]. split; [done|]. left. by cbn.
Qed.

Lemma sender_correct dc :
  exists out, terminates (sender_step sp offset0) (start p0 q0 fb data dc) (Halt out)
    /\ exists m, sender_post out m.
Proof using All.
  apply terminates_total with (P := sender_inv) (m := sender_measure); [|apply inv_start].
  intros s Hinv. destruct (busy s) eqn:Hb.
  - rewrite step_busy by done. destruct (sock_send _ _ _) as [n|e] eqn:Hsend.
    + by apply inv_after_sent.
    + destruct ((e =? EMSGSIZE) && s.(first)) eqn:Hc.
      * apply andb_true_iff in Hc as [->%Z.eqb_eq Hf].
        destruct (inv_after_refused s Hinv Hb Hf) as (m & -> & ?); [by eapply Hrefuse|done].
      * destruct (finish_error_post s Hinv) as (out & -> & Hout). done.
  - destruct (finish_ok_post s Hinv Hb) as (out & -> & Hout & _). eauto.
Qed.

(** A kernel that takes every packet gets all of them, cut at the payload
    limit the routine was called with. *)
Lemma sender_all_sent dc :
  (forall k pkt, exists n, sock_send sp.(sp_call) k pkt = Sent n) ->
  exists out, terminates (sender_step sp offset0) (start p0 q0 fb data dc) (Halt out)
    /\ out.(o_ret) = 0 /\ sender_post out p0.
Proof using All.
  intros Hall.
  apply terminates_total with (P := fun s => sender_inv s /\ s.(payload) = p0)
    (m := sender_measure); [|split; [apply inv_start|done]].
  intros s [Hinv Hpl]. destruct (busy s) eqn:Hb.
  - rewrite step_busy by done. destruct (Hall s.(calls) (next_pkt s)) as [n ->].
    destruct (inv_after_sent s Hinv Hb) as [H1 H2].
    split; [split; [done|]|done]. unfold after_sent. by destruct (sp.(sp_pause) _ _).
  - destruct (finish_ok_post s Hinv Hb) as (out & -> & Hout & H0). by rewrite Hpl in Hout.
Qed.
End Correct.

(** ** Path-MTU discovery

    On a path that refuses packets of more than [mtu] bytes the first packet
    finds a payload that fits and everything is delivered. *)
Section PathMtu.
Context (sp : sender_spec) (offset0 hdr pmax : Z).
Context (Hhdr : forall f l s, zlen (sp.(sp_header) f l s) = hdr).
Context (Hbytes : forall p r, 0 < p <= pmax -> 0 <= r -> sp.(sp_bytes) p r = Z.min p r).
Context (Hfits : forall n, 0 <= n <= pmax -> sp.(sp_fits) n = true).
Context (Hmax : pmax < 268435456).
Context (mtu : Z) (Hmtu : hdr + 1 <= mtu).
Context (fb : bool) (q0 p0 : Z) (data : list Z) (Hp0 : 1 <= p0 <= pmax).
Context (Hfb : fb = true \/ hdr + p0 <= mtu).

Lemma path_mtu_refuses c k pkt :
  @sock_send (path_mtu mtu) c k pkt = SendErr EMSGSIZE -> hdr + 1 < zlen pkt.
Proof using Hmtu. unfold sock_send, path_mtu. case_decide; [done|]. lia. Qed.

Record mtu_inv (s : sender) : Prop := mk_mtu_inv {
  mtu_base : sender_inv sp fb q0 p0 data s;
  mtu_fits : s.(first) = false -> 0 < zlen s.(rest) \/ s.(loop) = true -> hdr + s.(payload) <= mtu;
  mtu_sent : Forall (fun p => zlen p <= mtu) s.(sent)
}.

Lemma sender_path_mtu dc :
  exists out, terminates (@sender_step (path_mtu mtu) sp offset0) (start p0 q0 fb data dc) (Halt out)
    /\ out.(o_ret) = 0 /\ Forall (fun p => zlen p <= mtu) out.(o_sent)
    /\ exists m, sender_post sp offset0 fb q0 p0 data out m.
Proof using All.
  apply terminates_total with (P := mtu_inv) (m := sender_measure).
  2: { constructor; [by eapply inv_start| |constructor].
       cbn. intros. destruct Hfb; [congruence|lia]. }
  intros s [Hinv Hfits' Hs]. destruct (busy s) eqn:Hb.
  - erewrite step_busy by (done || eapply path_mtu_refuses).
    pose proof (zlen_next_pkt sp hdr Hhdr s (proj1 (inv_payload _ _ _ _ _ s Hinv))) as Hlen.
    unfold sock_send, path_mtu. case_decide as Hd.
    + edestruct (inv_after_sent sp pmax) as [H1 H2]; [done..|]. split; [|done].
      constructor; [done| |]; unfold after_sent; destruct (sp.(sp_pause) _ _); cbn.
      * intros _ [Hr|?]; [|done]. rewrite length_drop in Hr. unfold next_n in *. lia.
      * apply Forall_app. split; [done|]. by repeat constructor.
    + cbn [Z.eqb EMSGSIZE Pos.eqb andb]. destruct s.(first) eqn:Hf.
      * edestruct (inv_after_refused sp hdr pmax) as (m & -> & H1 & H2); [done..|lia|].
        split; [|done]. constructor; [done| |done]. unfold after_refused. cbn. congruence.
      * exfalso. apply Hd. rewrite Hlen. unfold next_n. unfold busy in Hb.
        assert (hdr + s.(payload) <= mtu); [|lia]. apply Hfits'; [done|].
        apply orb_true_iff in Hb as [?|?%Z.ltb_lt]; [by right|by left].
  - edestruct (@finish_ok_post (path_mtu mtu) sp offset0) as (out & -> & Hout & H0); [done..|].
    destruct Hout as (?&?&?&[(?&Ho&?)|(?&?&?)]); [|lia].
    repeat split; try done.
    + rewrite Ho, <- (inv_sent _ _ _ _ _ s Hinv). unfold pending. rewrite Hb, app_nil_r. done.
    + exists s.(payload). unfold sender_post. eauto 8.
Qed.
End PathMtu.

(** On a path that takes headers only, the payload limit shrinks to nothing and
    the sender goes on with empty packets for ever. *)
Lemma sender_endless sp offset0 hdr pmax p q data dc :
  (forall f l s, zlen (sp.(sp_header) f l s) = hdr) ->
  (forall p r, 0 <= p <= pmax -> 0 <= r -> sp.(sp_bytes) p r = Z.min p r) ->
  (forall n, 0 <= n <= pmax -> sp.(sp_fits) n = true) ->
  pmax < 268435456 -> 0 <= p <= pmax -> 0 < zlen data ->
  forall fuel, exists s,
    run (@sender_step (path_mtu hdr) sp offset0) fuel (start p q true data dc) = Next s.
Proof.
  intros Hh Hb Hf Hmax Hp Hd fuel.
  pose (P := fun s => 0 <= s.(payload) <= pmax /\ 0 < zlen s.(rest)
                      /\ (s.(first) = true \/ s.(payload) = 0)).
  pose proof (run_invariant (@sender_step (path_mtu hdr) sp offset0) P (fun _ => False)
                fuel (start p q true data dc)) as H.
  destruct (run _ _ _) as [s|r|]; [by eexists| |]; exfalso; apply H; try (by split; auto).
  all: clear H; intros s (Hpl & Hr & Hfirst); unfold sender_step, sock_send, path_mtu.
  all: rewrite (proj2 (Z.ltb_lt 0 _)), orb_true_r, Hb by lia.
  all: rewrite (proj2 (Z.leb_le 0 _)), (proj2 (Z.leb_le _ (zlen s.(rest)))), Hf by lia; cbn [andb].
  all: set (n := Z.min _ _) in *; rewrite length_app, Nat2Z.inj_add, Hh, length_take.
  all: case_decide; [|cbn [Z.eqb EMSGSIZE Pos.eqb andb]].
  1, 3: destruct (sp.(sp_pause) _ _); unfold P; cbn [payload rest first];
    rewrite length_drop; lia.
  all: destruct Hfirst as [->|H0]; [|exfalso; lia].
  all: unfold shrink_payload; rewrite decide_True by lia; unfold P; cbn [payload rest first].
  all: rewrite Z.quot_div_nonneg by lia; split; [Z.div_mod_to_equations; lia|auto].
Qed.

(** ** Delays

    The delay counter and the sleeps are those of one pause per packet taken. *)
Definition pauses (pause : Z -> nat -> Z * nat) (n : nat) (dc : Z) : Z * nat :=
  Nat.iter n (fun p => pause p.1 p.2) (dc, 0%nat).

Lemma pauses_S pause n dc :
  pauses pause (S n) dc = let '(c, k) := pauses pause n dc in pause c k.
Proof. unfold pauses. rewrite Nat.iter_succ. by destruct (Nat.iter n _ _). Qed.

Lemma sender_pauses {sock : Socket} sp offset0 p q fb data dc out :
  terminates (sender_step sp offset0) (start p q fb data dc) (Halt out) ->
  out.(o_packetsSent) = zlen out.(o_sent)
  /\ (out.(o_delayCounter), out.(o_sleeps)) = pauses sp.(sp_pause) (length out.(o_sent)) dc.
Proof.
  intros (n & Hn & _).
  pose (Q := fun o => o.(o_packetsSent) = zlen o.(o_sent) /\
    (o.(o_delayCounter), o.(o_sleeps)) = pauses sp.(sp_pause) (length o.(o_sent)) dc).
  pose (P := fun s => (s.(counter), s.(sleeps)) = pauses sp.(sp_pause) (length s.(sent)) dc).
  enough (H : match run (sender_step sp offset0) n (start p q fb data dc) with
              | Next s => P s | Halt r => Q r | Stuck => True end) by by rewrite Hn in H.
  assert (H0 : P (start p q fb data dc)) by done. revert H0.
  generalize (start p q fb data dc) as s. clear Hn.
  induction n as [|n IH]; intros s Hs; [done|]. cbn [run].
  unfold sender_step. destruct (s.(loop) || _); [|done].
  destruct (_ && sp.(sp_fits) _); [|done].
  destruct (sock_send _ _ _) as [|e].
  - destruct (sp.(sp_pause) s.(counter) s.(sleeps)) as [dc' sl'] eqn:Hd. apply IH.
    unfold P in *. cbn [counter sleeps sent]. rewrite length_app, Nat.add_1_r.
    by rewrite pauses_S, <- Hs.
  - destruct (_ && s.(first)); [|done]. destruct (shrink_payload _); [|done]. by apply IH.
Qed.

(** ** Same packets

    Two senders that differ in the system call and the delay only send the same
    packets to a network that does not distinguish the calls. *)
Section SamePackets.
Context {sock : Socket} (sp1 sp2 : sender_spec) (offset0 : Z).
Context (Hcall : forall k pkt, sock_send sp1.(sp_call) k pkt = sock_send sp2.(sp_call) k pkt).
Context (Hheader : forall f l q, sp1.(sp_header) f l q = sp2.(sp_header) f l q).
Context (Hnext : forall q n, sp1.(sp_next) q n = sp2.(sp_next) q n).
(** The first-loop flag only matters if an empty packet can be refused. *)
Context (Honce : sp1.(sp_once) = sp2.(sp_once) \/
  forall f l q k, sock_send sp1.(sp_call) k (sp1.(sp_header) f l q ++ []) <> SendErr EMSGSIZE).
Context (Hlast : sp1.(sp_lastBuffer) = sp2.(sp_lastBuffer)).
Context (pmax : Z).
Context (Hbytes : forall p r, 0 <= p <= pmax -> 0 <= r -> sp1.(sp_bytes) p r = sp2.(sp_bytes) p r).
Context (Hsmall : forall p r, 0 <= p <= pmax -> 0 <= r -> sp1.(sp_bytes) p r <= pmax).
Context (Hfits : forall n, n <= pmax -> sp1.(sp_fits) n = sp2.(sp_fits) n).

Record same_sender (a b : sender) : Prop := mk_same {
  ss_payload : a.(payload) = b.(payload);
  ss_range : 0 <= a.(payload) <= pmax;
  ss_seq : a.(seq) = b.(seq);
  ss_rest : a.(rest) = b.(rest);
  ss_first : a.(first) = b.(first);
  ss_last : a.(last) = b.(last);
  ss_loop : a.(loop) = b.(loop) \/ 0 < zlen a.(rest);
  ss_sent : a.(sent) = b.(sent);
  ss_calls : a.(calls) = b.(calls)
}.

Definition same_packets (a b : sender_out) : Prop :=
  a.(o_ret) = b.(o_ret) /\ a.(o_offset) = b.(o_offset)
  /\ a.(o_packetsSent) = b.(o_packetsSent) /\ a.(o_sent) = b.(o_sent).

Lemma shrink_payload_range m m' : 0 <= m -> shrink_payload m = Some m' -> 0 <= m' <= m.
Proof.
  intros Hm. unfold shrink_payload. case_decide; [|done]. intros [= <-].
  rewrite Z.quot_div_nonneg by lia. split; [apply Z.div_pos|]; Z.div_mod_to_equations; lia.
Qed.

Lemma same_packets_step a b : same_sender a b ->
  rel_outcome same_sender same_packets (sender_step sp1 offset0 a) (sender_step sp2 offset0 b).
Proof using All.
  intros []. unfold sender_step.
  assert (Hbusy : b.(loop) || (0 <? zlen b.(rest)) = a.(loop) || (0 <? zlen a.(rest))).
  { rewrite <- ss_rest0. destruct ss_loop0 as [->|?%Z.ltb_lt]; [done|].
    destruct (0 <? _); [by rewrite !orb_true_r|done]. }
  rewrite Hbusy, <- ss_rest0, <- ss_payload0, <- ss_last0,
    <- ss_first0, <- ss_seq0, <- ss_calls0, <- Hlast, <- Hbytes by lia.
  destruct (a.(loop) || _) eqn:Hb; cbn.
  2: { unfold same_packets. cbn. by rewrite ss_sent0. }
  specialize (Hsmall a.(payload) (zlen a.(rest)) ss_range0 ltac:(lia)).
  rewrite <- Hfits by lia. set (n := sp1.(sp_bytes) _ _) in *.
  destruct ((0 <=? n) && (n <=? _)) eqn:Hn; [|done]. cbn [andb].
  destruct (sp1.(sp_fits) n); [|done]. rewrite <- Hheader, <- Hcall, <- Hnext.
  apply andb_true_iff in Hn as [Hn0%Z.leb_le Hn1%Z.leb_le].
  destruct (sock_send _ _ _) as [|e] eqn:Hsend.
  - destruct (sp1.(sp_pause) _ _), (sp2.(sp_pause) _ _). cbn.
    constructor; cbn; try done; try by left. by rewrite ss_sent0.
  - destruct ((e =? EMSGSIZE) && a.(first)) eqn:He; cbn.
    + apply andb_true_iff in He as [->%Z.eqb_eq _].
      destruct (shrink_payload a.(payload)) as [m|] eqn:Hm; [|done]. cbn.
      pose proof (shrink_payload_range _ _ (proj1 ss_range0) Hm).
      constructor; cbn; try done; try lia.
      destruct Honce as [<-|Hempty]; [destruct ss_loop0 as [->|?]; [by left|by right]|].
      right. destruct (decide (n = 0)) as [Hz|]; [|lia]. exfalso.
      rewrite Hz in Hsend. by eapply Hempty.
    + unfold same_packets. cbn. by rewrite ss_sent0.
Qed.

Lemma sender_same_packets p q fb data dc1 dc2 out1 : 0 <= p <= pmax ->
  terminates (sender_step sp1 offset0) (start p q fb data dc1) (Halt out1) ->
  exists out2, terminates (sender_step sp2 offset0) (start p q fb data dc2) (Halt out2)
    /\ same_packets out1 out2.
Proof using All.
  intros Hp. apply (simulation_terminates _ _ same_sender same_packets); [|constructor; try done; by left].
  apply same_packets_step.
Qed.
End SamePackets.
