(* ===== verification/Packetize.v ===== *)
(** The packetizing routines of ejfat_packetize.hpp that copy each payload
    after its headers into a buffer of their own, or send the two pieces with
    sendmsg.  Each is one iteration of the routine's while loop (a [goto
    startAgain] re-evaluates the loop condition too) on the routine's local
    variables, with C's integer types; each is shown to run in lockstep with the
    sender of Sender.v. *)
From S2P Require Import Prelude Bytes ByteOrder Wire Socket Sender.

(** The arguments the routines have in common.  [dataBuffer] has [dataLen]
    bytes; [offset] and [delayCounter] are the values the pointers arrive with. *)
Record job := mk_job {
  dataBuffer : list Z;
  maxUdpPayload : Z;
  tick : Z; protocol : Z; entropy : Z; version : Z; dataId : Z; fullLen : Z;
  offset : Z;
  delay : Z; delayPrescale : Z; delayCounter : Z;
  firstBuffer : bool; lastBuffer : bool
}.

(** The ranges of the C types of the arguments. *)
Definition job_ok (j : job) : Prop :=
  is_u64 j.(tick) /\ is_u32 j.(offset) /\ is_u16 j.(dataId) /\ is_u32 j.(fullLen)
  /\ zlen j.(dataBuffer) < 18446744073709551616.

(** The local variables of a routine that copies.  [offset_now] is
    [localOffset] (version 2 header) or [packetCounter] (version 1); [net],
    [naps] and [call_no] record the packets the kernel has taken, the sleeps
    and the number of calls made. *)
Record copier := mk_copier {
  max_now : Z;
  offset_now : Z;
  getDataFrom : Z;
  remainingBytes : Z;
  veryFirstPacket : bool;
  veryLastPacket : bool;
  firstLoop : bool;
  buffer : list Z;
  sentPackets : Z;
  counter_now : Z;
  net : list (list Z);
  naps : nat;
  call_no : nat
}.

(** [if (delay > 0) if (--( *delayCounter) < 1) { sleep; *delayCounter = delayPrescale; }] *)
Definition delay_prescaled (delay delayPrescale counter : Z) (naps : nat) : Z * nat :=
  if 0 <? delay then
    let c := u32 (counter - 1) in
    if c <? 1 then (delayPrescale, S naps) else (c, naps)
  else (counter, naps).

(** [if (delay > 0) sleep] *)
Definition delay_every (delay counter : Z) (naps : nat) : Z * nat :=
  (counter, if 0 <? delay then S naps else naps).

Section Packetize.
Context {host : Host} {sock : Socket}.

Definition return_ok (s : copier) : outcome copier sender_out :=
  Halt (mk_out 0 s.(offset_now) s.(sentPackets) s.(counter_now) s.(net) s.(naps)).
(** An error return does not store through [offset]. *)
Definition return_error (j : job) (s : copier) : outcome copier sender_out :=
  Halt (mk_out (-1) j.(offset) s.(sentPackets) s.(counter_now) s.(net) s.(naps)).

(** The locals on entry; [storage] is what the uninitialised buffer holds. *)
Definition enter (j : job) (storage : list Z) : copier :=
  mk_copier j.(maxUdpPayload) j.(offset) 0 (zlen j.(dataBuffer)) j.(firstBuffer) false true
    storage 0 j.(delayCounter) [] 0 0.

(** ** sendPacketizedBufferSendNew *)

Definition SendNew_step (j : job) (direct noConnect : bool) (reserved : Z) (s : copier)
    : outcome copier sender_out :=
  let lbHeaderSize := if direct then 0 else LB_HEADER_BYTES in
  let allHeadersSize := if direct then RE_HEADER_BYTES else HEADER_BYTES in
  if s.(firstLoop) || (0 <? s.(remainingBytes)) then
    let bytesToWrite := if u64 s.(max_now) <? s.(remainingBytes) then u64 s.(max_now)
                        else s.(remainingBytes) in
    let veryLast := if (bytesToWrite =? s.(remainingBytes)) && j.(lastBuffer) then true
                    else s.(veryLastPacket) in
    match
      b ← (if direct then Some s.(buffer)
           else setLbMetadata s.(buffer) 0 j.(tick) j.(version) j.(protocol) j.(entropy));
      b ← setReMetadata_reserved b lbHeaderSize s.(offset_now) j.(fullLen) j.(tick) j.(version)
            j.(dataId) reserved;
      d ← load j.(dataBuffer) s.(getDataFrom) bytesToWrite;
      b ← store b allHeadersSize d;
      pkt ← load b 0 (bytesToWrite + allHeadersSize);
      Some (b, pkt)
    with
    | None => Stuck
    | Some (b, pkt) =>
      match sock_send (if noConnect then SENDTO else SEND) s.(call_no) pkt with
      | SendErr errno =>
        if (errno =? EMSGSIZE) && s.(veryFirstPacket) then
          match shrink_payload s.(max_now) with
          | Some m => Next (mk_copier m s.(offset_now) s.(getDataFrom) s.(remainingBytes)
                              s.(veryFirstPacket) false false b s.(sentPackets) s.(counter_now)
                              s.(net) s.(naps) (S s.(call_no)))
          | None => Stuck
          end
        else return_error j s
      | Sent _ =>
        let '(dc, sl) := delay_prescaled j.(delay) j.(delayPrescale) s.(counter_now) s.(naps) in
        Next (mk_copier s.(max_now) (u32 (s.(offset_now) + bytesToWrite))
                (s.(getDataFrom) + bytesToWrite) (s.(remainingBytes) - bytesToWrite)
                false veryLast false b (s.(sentPackets) + 1) dc
                (s.(net) ++ [pkt]) sl (S s.(call_no)))
      end
    end
  else return_ok s.

Definition sendPacketizedBufferSendNew (j : job) (direct noConnect : bool) (reserved : Z)
    (storage : list Z) (fuel : nat) : outcome copier sender_out :=
  run (SendNew_step j direct noConnect reserved) fuel (enter j storage).

(** The overload without the reserved byte and the destination. *)
Definition sendPacketizedBufferSendNew_connected (j : job) (direct : bool)
    (storage : list Z) (fuel : nat) : outcome copier sender_out :=
  sendPacketizedBufferSendNew j direct false 0 storage fuel.

(** ** sendPacketizedBufferSend and sendPacketizedBufferSendto *)

(** The loop body the two routines have in common; they differ in the system
    [call] and in the delay after a packet, [pause].  The packet counter is
    incremented when the header is written, before the packet is sent, and
    decremented again when the packet is refused. *)
Definition copy_old_step (j : job) (call : syscall) (pause : Z -> nat -> Z * nat) (s : copier)
    : outcome copier sender_out :=
  if s.(firstLoop) || (0 <? s.(remainingBytes)) then
    let bytesToWrite := if u64 s.(max_now) <? s.(remainingBytes) then u64 s.(max_now)
                        else s.(remainingBytes) in
    let veryLast := if (bytesToWrite =? s.(remainingBytes)) && j.(lastBuffer) then true
                    else s.(veryLastPacket) in
    let packetCounter := u32 (s.(offset_now) + 1) in
    match
      b ← setLbMetadata s.(buffer) 0 j.(tick) j.(version) j.(protocol) j.(entropy);
      b ← setReMetadataOld b LB_HEADER_BYTES_OLD s.(veryFirstPacket) veryLast j.(tick)
            s.(offset_now) j.(version) j.(dataId);
      d ← load j.(dataBuffer) s.(getDataFrom) bytesToWrite;
      b ← store b HEADER_BYTES_OLD d;
      pkt ← load b 0 (bytesToWrite + HEADER_BYTES_OLD);
      Some (b, pkt)
    with
    | None => Stuck
    | Some (b, pkt) =>
      match sock_send call s.(call_no) pkt with
      | SendErr errno =>
        if (errno =? EMSGSIZE) && s.(veryFirstPacket) then
          match shrink_payload s.(max_now) with
          | Some m => Next (mk_copier m (u32 (packetCounter - 1)) s.(getDataFrom)
                              s.(remainingBytes) s.(veryFirstPacket) false false b s.(sentPackets)
                              s.(counter_now) s.(net) s.(naps) (S s.(call_no)))
          | None => Stuck
          end
        else return_error j s
      | Sent _ =>
        let '(dc, sl) := pause s.(counter_now) s.(naps) in
        Next (mk_copier s.(max_now) packetCounter
                (s.(getDataFrom) + bytesToWrite) (s.(remainingBytes) - bytesToWrite)
                false veryLast false b (s.(sentPackets) + 1) dc
                (s.(net) ++ [pkt]) sl (S s.(call_no)))
      end
    end
  else return_ok s.

Definition Send_step (j : job) : copier -> outcome copier sender_out :=
  copy_old_step j SEND (delay_prescaled j.(delay) j.(delayPrescale)).

Definition sendPacketizedBufferSend (j : job) (storage : list Z) (fuel : nat)
    : outcome copier sender_out :=
  run (Send_step j) fuel (enter j storage).

(** The same with sendto and a delay after every packet. *)
Definition Sendto_step (j : job) : copier -> outcome copier sender_out :=
  copy_old_step j SENDTO (delay_every j.(delay)).

Definition sendPacketizedBufferSendto (j : job) (storage : list Z) (fuel : nat)
    : outcome copier sender_out :=
  run (Sendto_step j) fuel (enter j storage).

(** ** sendPacketizedBufferSendmsg *)

(** [buffer] holds the headers only; the packet is gathered by the kernel from
    it and from the data.  Lengths are ints here, so the payload limit is
    compared as a signed number; a negative length handed to the kernel as
    [iov_len] is outside any object. *)
Definition Sendmsg_step (j : job) (s : copier) : outcome copier sender_out :=
  if s.(firstLoop) || (0 <? s.(remainingBytes)) then
    let bytesToWrite := if s.(max_now) <? s.(remainingBytes) then s.(max_now)
                        else s.(remainingBytes) in
    let veryLast := if (bytesToWrite =? s.(remainingBytes)) && j.(lastBuffer) then true
                    else s.(veryLastPacket) in
    let packetCounter := u32 (s.(offset_now) + 1) in
    match
      b ← setLbMetadata s.(buffer) 0 j.(tick) j.(version) j.(protocol) j.(entropy);
      b ← setReMetadataOld b LB_HEADER_BYTES_OLD s.(veryFirstPacket) veryLast j.(tick)
            s.(offset_now) j.(version) j.(dataId);
      iov0 ← load b 0 HEADER_BYTES_OLD;
      iov1 ← load j.(dataBuffer) s.(getDataFrom) bytesToWrite;
      Some (b, iov0 ++ iov1)
    with
    | None => Stuck
    | Some (b, pkt) =>
      match sock_send SENDMSG s.(call_no) pkt with
      | SendErr errno =>
        if (errno =? EMSGSIZE) && s.(veryFirstPacket) then
          match shrink_payload s.(max_now) with
          | Some m => Next (mk_copier m (u32 (packetCounter - 1)) s.(getDataFrom)
                              s.(remainingBytes) s.(veryFirstPacket) false false b s.(sentPackets)
                              s.(counter_now) s.(net) s.(naps) (S s.(call_no)))
          | None => Stuck
          end
        else return_error j s
      | Sent _ =>
        let '(dc, sl) := delay_every j.(delay) s.(counter_now) s.(naps) in
        Next (mk_copier s.(max_now) packetCounter
                (s.(getDataFrom) + bytesToWrite) (s.(remainingBytes) - bytesToWrite)
                false veryLast false b (s.(sentPackets) + 1) dc
                (s.(net) ++ [pkt]) sl (S s.(call_no)))
      end
    end
  else return_ok s.

(** [int remainingBytes = dataLen] *)
Definition enter_msg (j : job) (storage : list Z) : copier :=
  mk_copier j.(maxUdpPayload) j.(offset) 0 (i32 (zlen j.(dataBuffer))) j.(firstBuffer) false true
    storage 0 j.(delayCounter) [] 0 0.

Definition sendPacketizedBufferSendmsg (j : job) (storage : list Z) (fuel : nat)
    : outcome copier sender_out :=
  run (Sendmsg_step j) fuel (enter_msg j storage).
End Packetize.

(** ** What each routine refines *)

Definition new_header (j : job) (direct : bool) (reserved off : Z) : list Z :=
  (if direct then [] else lb_bytes j.(tick) j.(version) j.(protocol) j.(entropy))
    ++ re_bytes off j.(fullLen) j.(tick) j.(version) j.(dataId) (Z.land reserved 0xff).

Definition old_header (j : job) (first last : bool) (seq : Z) : list Z :=
  lb_bytes j.(tick) j.(version) j.(protocol) j.(entropy)
    ++ re_old_bytes first last j.(tick) seq j.(version) j.(dataId).

(** [bytesToWrite] computed with size_t and with int. *)
Definition bytes_unsigned (p r : Z) : Z := if u64 p <? r then u64 p else r.
Definition bytes_signed (p r : Z) : Z := if p <? r then p else r.

Definition SendNew_spec (j : job) (direct noConnect : bool) (reserved : Z) : sender_spec :=
  mk_spec (if noConnect then SENDTO else SEND) (fun _ _ => new_header j direct reserved)
    (fun q n => u32 (q + n)) bytes_unsigned
    (fun n => n <=? 65536 - (if direct then RE_HEADER_BYTES else HEADER_BYTES)) true j.(lastBuffer)
    (delay_prescaled j.(delay) j.(delayPrescale)).

Definition copy_old_spec (j : job) (call : syscall) (pause : Z -> nat -> Z * nat) : sender_spec :=
  mk_spec call (old_header j) (fun q _ => u32 (q + 1)) bytes_unsigned
    (fun n => n <=? 65536 - HEADER_BYTES_OLD) true j.(lastBuffer) pause.

Definition Send_spec (j : job) : sender_spec :=
  copy_old_spec j SEND (delay_prescaled j.(delay) j.(delayPrescale)).
Definition Sendto_spec (j : job) : sender_spec := copy_old_spec j SENDTO (delay_every j.(delay)).

Definition Sendmsg_spec (j : job) : sender_spec :=
  mk_spec SENDMSG (old_header j) (fun q _ => u32 (q + 1)) bytes_signed
    (fun n => true) true j.(lastBuffer) (delay_every j.(delay)).

Lemma length_new_header j direct reserved off :
  zlen (new_header j direct reserved off) = if direct then RE_HEADER_BYTES else HEADER_BYTES.
Proof. unfold new_header. rewrite length_app, length_re_bytes. by destruct direct. Qed.

Lemma length_old_header j f l q : zlen (old_header j f l q) = HEADER_BYTES_OLD.
Proof. unfold old_header. by rewrite length_app, length_lb_bytes, length_re_old_bytes. Qed.

(** Copying the payload after the headers and reading the packet back. *)
Lemma copy_packet hdr buf data pos n h :
  h = zlen hdr -> h <= zlen buf -> 0 <= pos -> 0 <= n -> pos + n <= zlen data ->
  (d ← load data pos n;
   b ← store (splice 0 hdr buf) h d;
   pkt ← load b 0 (n + h);
   Some (b, pkt))
  = let pkt := hdr ++ take (Z.to_nat n) (drop (Z.to_nat pos) data) in
    if n <=? zlen buf - h then Some (splice 0 pkt buf, pkt) else None.
Proof.
  intros -> Hh Hp Hn Hd. rewrite load_spec by lia. cbn [mbind option_bind].
  set (d := take _ _). assert (Hl : zlen d = n) by (unfold d; rewrite length_take, length_drop; lia).
  destruct (Z.leb_spec n (zlen buf - zlen hdr)).
  - rewrite (store_adjacent 0) by lia. cbn [mbind option_bind].
    rewrite load_spec by (rewrite ?length_splice, ?length_app; rewrite ?length_app; lia).
    cbn [mbind option_bind]. do 2 f_equal.
    rewrite load_splice_at by (rewrite ?length_app; lia).
    change (Z.to_nat 0 - 0)%nat with 0%nat. rewrite drop_0.
    apply firstn_all2. rewrite length_app. lia.
  - rewrite store_None; [done|]. right. rewrite length_splice by lia. lia.
Qed.

Lemma new_header_store_at {host : Host} j off reserved buf w :
  is_u64 j.(tick) -> 0 <= w -> w + 36 <= zlen buf ->
  (b ← setLbMetadata buf w j.(tick) j.(version) j.(protocol) j.(entropy);
   setReMetadata_reserved b (w + LB_HEADER_BYTES) off j.(fullLen) j.(tick) j.(version) j.(dataId)
     reserved)
  = Some (splice (Z.to_nat w) (new_header j false reserved off) buf).
Proof.
  intros Ht Hw Hb. unfold new_header. rewrite setLbMetadata_spec by (done || lia).
  cbn [mbind option_bind].
  pose proof (length_lb_bytes j.(tick) j.(version) j.(protocol) j.(entropy)) as Hl.
  unfold LB_HEADER_BYTES.
  rewrite setReMetadata_reserved_spec by (done || (rewrite ?length_splice; lia)).
  f_equal. replace (Z.to_nat (w + 16)) with (Z.to_nat w + 16)%nat by lia. rewrite <- Hl at 1.
  rewrite splice_adjacent; [done|]. rewrite length_re_bytes. lia.
Qed.

Lemma new_header_store_plain {host : Host} j off buf w :
  is_u64 j.(tick) -> 0 <= w -> w + 36 <= zlen buf ->
  (b ← setLbMetadata buf w j.(tick) j.(version) j.(protocol) j.(entropy);
   setReMetadata b (w + LB_HEADER_BYTES) off j.(fullLen) j.(tick) j.(version) j.(dataId))
  = Some (splice (Z.to_nat w) (new_header j false 0 off) buf).
Proof. exact (new_header_store_at j off 0 buf w). Qed.

Lemma new_header_store {host : Host} j (direct : bool) reserved off buf :
  is_u64 j.(tick) -> 36 <= zlen buf ->
  (b ← (if direct then Some buf
        else setLbMetadata buf 0 j.(tick) j.(version) j.(protocol) j.(entropy));
   setReMetadata_reserved b (if direct then 0 else LB_HEADER_BYTES) off j.(fullLen) j.(tick)
     j.(version) j.(dataId) reserved)
  = Some (splice 0 (new_header j direct reserved off) buf).
Proof.
  intros Ht Hb. destruct direct.
  - cbn [mbind option_bind]. by rewrite setReMetadata_reserved_spec by (done || lia).
  - by apply (new_header_store_at j off reserved buf 0).
Qed.

Lemma old_header_store_at {host : Host} j f l q buf w :
  is_u64 j.(tick) -> 0 <= w -> w + 34 <= zlen buf ->
  (b ← setLbMetadata buf w j.(tick) j.(version) j.(protocol) j.(entropy);
   setReMetadataOld b (w + LB_HEADER_BYTES_OLD) f l j.(tick) q j.(version) j.(dataId))
  = Some (splice (Z.to_nat w) (old_header j f l q) buf).
Proof.
  intros Ht Hw Hb. unfold old_header. rewrite setLbMetadata_spec by (done || lia).
  cbn [mbind option_bind].
  pose proof (length_lb_bytes j.(tick) j.(version) j.(protocol) j.(entropy)) as Hl.
  unfold LB_HEADER_BYTES_OLD.
  rewrite setReMetadataOld_spec by (done || (rewrite ?length_splice; lia)).
  f_equal. replace (Z.to_nat (w + 16)) with (Z.to_nat w + 16)%nat by lia. rewrite <- Hl at 1.
  rewrite splice_adjacent; [done|]. rewrite length_re_old_bytes. lia.
Qed.

Lemma old_header_store {host : Host} j f l q buf :
  is_u64 j.(tick) -> 34 <= zlen buf ->
  (b ← setLbMetadata buf 0 j.(tick) j.(version) j.(protocol) j.(entropy);
   setReMetadataOld b LB_HEADER_BYTES_OLD f l j.(tick) q j.(version) j.(dataId))
  = Some (splice 0 (old_header j f l q) buf).
Proof. intros. by apply (old_header_store_at j f l q buf 0). Qed.

(** Consecutive steps of an option computation regrouped. *)
Lemma option_bind_assoc {A B C} (m : option A) (f : A -> option B) (g : B -> option C) :
  (a ← m; b ← f a; g b) = (b ← (a ← m; f a); g b).
Proof. by destruct m. Qed.

(** The relation between the abstract sender and a routine's locals; [size] is
    the size of its packet buffer. *)
Record copier_rel (j : job) (size : Z) (a : sender) (c : copier) : Prop := mk_copier_rel {
  cr_max : a.(payload) = c.(max_now);
  cr_seq : a.(seq) = c.(offset_now);
  cr_seq_range : is_u32 c.(offset_now);
  cr_pos : 0 <= c.(getDataFrom);
  cr_rest : a.(rest) = drop (Z.to_nat c.(getDataFrom)) j.(dataBuffer);
  cr_remaining : c.(remainingBytes) = zlen a.(rest);
  cr_inside : c.(getDataFrom) + zlen a.(rest) = zlen j.(dataBuffer);
  cr_first : a.(first) = c.(veryFirstPacket);
  cr_last : a.(last) = c.(veryLastPacket);
  cr_loop : a.(loop) = c.(firstLoop);
  cr_buffer : zlen c.(buffer) = size;
  cr_sent : a.(sent) = c.(net);
  cr_sentPackets : c.(sentPackets) = zlen a.(sent);
  cr_counter : a.(counter) = c.(counter_now);
  cr_naps : a.(sleeps) = c.(naps);
  cr_calls : a.(calls) = c.(call_no)
}.

Lemma enter_rel j size storage : is_u32 j.(offset) -> zlen storage = size ->
  copier_rel j size (start j.(maxUdpPayload) j.(offset) j.(firstBuffer) j.(dataBuffer) j.(delayCounter))
    (enter j storage).
Proof. intros. by constructor; cbn. Qed.

Lemma enter_msg_rel j size storage :
  is_u32 j.(offset) -> zlen storage = size -> zlen j.(dataBuffer) < 2147483648 ->
  copier_rel j size (start j.(maxUdpPayload) j.(offset) j.(firstBuffer) j.(dataBuffer) j.(delayCounter))
    (enter_msg j storage).
Proof. intros. constructor; cbn; try done. apply i32_small. lia. Qed.

(** The states after a packet taken and after a packet refused correspond. *)
Lemma sent_rel j size a c n q last b pkt dc sl :
  copier_rel j size a c -> 0 <= n <= zlen a.(rest) -> is_u32 q -> zlen b = size ->
  copier_rel j size
    (mk_sender a.(payload) q (drop (Z.to_nat n) a.(rest)) false last false
       (a.(sent) ++ [pkt]) dc sl (S a.(calls)))
    (mk_copier c.(max_now) q (c.(getDataFrom) + n) (c.(remainingBytes) - n) false last false b
       (c.(sentPackets) + 1) dc (c.(net) ++ [pkt]) sl (S c.(call_no))).
Proof.
  intros [] Hn Hq Hb. constructor; cbn -[Z.of_nat]; try done; try lia.
  - rewrite cr_rest0, drop_drop. f_equal. lia.
  - rewrite length_drop. lia.
  - rewrite length_drop. lia.
  - by f_equal.
  - rewrite length_app. cbn [length]. lia.
Qed.

Lemma refused_rel j size a c m q b :
  copier_rel j size a c -> q = c.(offset_now) -> zlen b = size ->
  copier_rel j size
    (mk_sender m a.(seq) a.(rest) a.(first) false false a.(sent) a.(counter) a.(sleeps) (S a.(calls)))
    (mk_copier m q c.(getDataFrom) c.(remainingBytes) c.(veryFirstPacket) false false b
       c.(sentPackets) c.(counter_now) c.(net) c.(naps) (S c.(call_no))).
Proof. intros [] -> Hb. constructor; cbn; try done; by f_equal. Qed.

(** ** Lockstep *)

Lemma bytes_unsigned_range p r : 0 <= r -> 0 <= bytes_unsigned p r <= r.
Proof. intros. unfold bytes_unsigned. pose proof (u64_range p). case_match; lia. Qed.

Section Lockstep.
Context {host : Host} {sock : Socket} (j : job) (Hj : job_ok j).

Lemma return_ok_sim size a c : copier_rel j size a c ->
  same_outcome (copier_rel j size) (finish 0 a.(seq) a) (return_ok c).
Proof. intros []. cbn. by rewrite cr_seq0, cr_sentPackets0, cr_sent0, cr_counter0, cr_naps0. Qed.

(** What the routines do once the packet is built: hand it to the kernel and
    look at the answer. *)
Lemma dispatch_sim sp size a c n lst pkt b q qr :
  copier_rel j size a c -> 0 <= n <= zlen a.(rest) -> sp.(sp_once) = true ->
  q = sp.(sp_next) c.(offset_now) n -> is_u32 q -> qr = c.(offset_now) -> zlen b = size ->
  same_outcome (copier_rel j size)
    match sock_send sp.(sp_call) a.(calls) pkt with
    | SendErr e =>
      if (e =? EMSGSIZE) && c.(veryFirstPacket) then
        match shrink_payload c.(max_now) with
        | Some m => Next (mk_sender m c.(offset_now) a.(rest) c.(veryFirstPacket) false
                           (if sp.(sp_once) then false else c.(firstLoop))
                           a.(sent) a.(counter) a.(sleeps) (S a.(calls)))
        | None => Stuck
        end
      else finish (-1) j.(offset) a
    | Sent _ =>
      let '(dc, sl) := sp.(sp_pause) a.(counter) a.(sleeps) in
      Next (mk_sender c.(max_now) (sp.(sp_next) c.(offset_now) n) (drop (Z.to_nat n) a.(rest))
                      false lst false (a.(sent) ++ [pkt]) dc sl (S a.(calls)))
    end
    match sock_send sp.(sp_call) c.(call_no) pkt with
    | SendErr errno =>
      if (errno =? EMSGSIZE) && c.(veryFirstPacket) then
        match shrink_payload c.(max_now) with
        | Some m => Next (mk_copier m qr c.(getDataFrom) (zlen a.(rest)) c.(veryFirstPacket)
                            false false b c.(sentPackets) c.(counter_now)
                            c.(net) c.(naps) (S c.(call_no)))
        | None => Stuck
        end
      else return_error j c
    | Sent _ =>
      let '(dc, sl) := sp.(sp_pause) c.(counter_now) c.(naps) in
      Next (mk_copier c.(max_now) q (c.(getDataFrom) + n) (zlen a.(rest) - n)
              false lst false b (c.(sentPackets) + 1) dc (c.(net) ++ [pkt]) sl (S c.(call_no)))
    end.
Proof.
  intros Hr Hn -> -> Hqr -> Hb. rewrite (cr_calls _ _ _ _ Hr), (cr_counter _ _ _ _ Hr),
    (cr_naps _ _ _ _ Hr). pose proof (cr_remaining _ _ _ _ Hr) as Hrem.
  rewrite <- Hrem. destruct (sock_send _ _ _) as [|e].
  - destruct (sp.(sp_pause) _ _) as [dc sl]. cbn [same_outcome].
    rewrite <- (cr_calls _ _ _ _ Hr).
    pose proof (sent_rel j size a c n _ lst b pkt dc sl Hr Hn Hqr Hb) as H.
    by rewrite (cr_max _ _ _ _ Hr), <- (cr_calls _ _ _ _ Hr) in H.
  - destruct (_ && _); cbn [same_outcome].
    + destruct (shrink_payload _) as [m|]; [|done]. cbn [same_outcome].
      pose proof (refused_rel j size a c m _ b Hr eq_refl Hb) as H.
      by rewrite (cr_calls _ _ _ _ Hr), (cr_counter _ _ _ _ Hr), (cr_naps _ _ _ _ Hr),
        (cr_seq _ _ _ _ Hr), (cr_first _ _ _ _ Hr) in H.
    + destruct Hr. unfold finish, return_error. cbn. congruence.
Qed.

Lemma SendNew_sim (direct noConnect : bool) (reserved : Z) a c : copier_rel j 65536 a c ->
  same_outcome (copier_rel j 65536)
    (sender_step (SendNew_spec j direct noConnect reserved) j.(offset) a)
    (SendNew_step j direct noConnect reserved c).
Proof using Hj.
  intros Hr. destruct Hj as (Ht & Ho & Hid & Hfl & Hdl). pose proof Hr as [].
  unfold sender_step, SendNew_step. cbn [sp_bytes sp_fits sp_header sp_lastBuffer SendNew_spec].
  rewrite cr_loop0, cr_remaining0, cr_max0, cr_first0, cr_last0.
  destruct (c.(firstLoop) || (0 <? zlen a.(rest))) eqn:Hb; [|by apply return_ok_sim].
  pose proof (bytes_unsigned_range c.(max_now) (zlen a.(rest))) as Hn.
  fold (bytes_unsigned c.(max_now) (zlen a.(rest))). set (n := bytes_unsigned _ _) in *.
  set (lst := if (n =? _) && _ then true else _).
  rewrite (option_bind_assoc (if direct then _ else _)), new_header_store by (done || lia).
  cbn [mbind option_bind].
  pose proof (length_new_header j direct reserved c.(offset_now)) as Hl.
  assert (zlen (new_header j direct reserved c.(offset_now)) <= 36) by (rewrite Hl; by destruct direct).
  rewrite copy_packet by lia.
  rewrite (proj2 (Z.leb_le 0 n)), (proj2 (Z.leb_le n (zlen a.(rest)))) by lia. cbn [andb].
  rewrite cr_buffer0, cr_seq0. destruct (n <=? _) eqn:Hfit; [|done]. cbv zeta.
  rewrite <- cr_rest0.
  apply Z.leb_le in Hfit.
  refine (dispatch_sim (SendNew_spec j direct noConnect reserved) _ _ _ _ lst _ _ _ _ Hr _ _ _ _ _ _);
    try done; try lia; [apply u32_range|].
  rewrite length_splice; [done|]. rewrite length_app, length_take.
  destruct direct; unfold RE_HEADER_BYTES, HEADER_BYTES in *; lia.
Qed.

Lemma counter_back q : is_u32 q -> u32 (u32 (q + 1) - 1) = q.
Proof. unfold is_u32. intros. wrap_lia. Qed.

Lemma copy_old_sim call pause a c : copier_rel j 65536 a c ->
  same_outcome (copier_rel j 65536) (sender_step (copy_old_spec j call pause) j.(offset) a)
    (copy_old_step j call pause c).
Proof using Hj.
  intros Hr. destruct Hj as (Ht & Ho & Hid & Hfl & Hdl). pose proof Hr as [].
  unfold sender_step, copy_old_step. cbn [sp_bytes sp_fits sp_header sp_lastBuffer copy_old_spec].
  rewrite cr_loop0, cr_remaining0, cr_max0, cr_first0, cr_last0.
  destruct (c.(firstLoop) || _) eqn:Hb; [|by apply return_ok_sim].
  pose proof (bytes_unsigned_range c.(max_now) (zlen a.(rest))) as Hn.
  fold (bytes_unsigned c.(max_now) (zlen a.(rest))). set (n := bytes_unsigned _ _) in *.
  set (lst := if (n =? _) && _ then true else _).
  rewrite option_bind_assoc, old_header_store by (done || lia). cbn [mbind option_bind].
  pose proof (length_old_header j c.(veryFirstPacket) lst c.(offset_now)) as Hl.
  unfold HEADER_BYTES_OLD in *. rewrite copy_packet by lia.
  rewrite (proj2 (Z.leb_le 0 n)), (proj2 (Z.leb_le n (zlen a.(rest)))) by lia. cbn [andb].
  rewrite cr_buffer0, cr_seq0. destruct (n <=? _) eqn:Hfit; [|done]. cbv zeta.
  rewrite <- cr_rest0. apply Z.leb_le in Hfit.
  refine (dispatch_sim (copy_old_spec j call pause) _ _ _ n lst _ _ _ _ Hr _ _ _ _ _ _);
    try done; try lia; [apply u32_range|by apply counter_back|].
  rewrite length_splice; [done|]. rewrite length_app, length_take. lia.
Qed.

Lemma Send_sim a c : copier_rel j 65536 a c ->
  same_outcome (copier_rel j 65536) (sender_step (Send_spec j) j.(offset) a) (Send_step j c).
Proof using Hj. apply copy_old_sim. Qed.

Lemma Sendto_sim a c : copier_rel j 65536 a c ->
  same_outcome (copier_rel j 65536) (sender_step (Sendto_spec j) j.(offset) a) (Sendto_step j c).
Proof using Hj. apply copy_old_sim. Qed.

Lemma Sendmsg_sim a c : copier_rel j 34 a c ->
  same_outcome (copier_rel j 34) (sender_step (Sendmsg_spec j) j.(offset) a) (Sendmsg_step j c).
Proof using Hj.
  intros Hr. destruct Hj as (Ht & Ho & Hid & Hfl & Hdl). pose proof Hr as [].
  unfold sender_step, Sendmsg_step. cbn [sp_bytes sp_fits sp_header sp_lastBuffer Sendmsg_spec].
  rewrite cr_loop0, cr_remaining0, cr_max0, cr_first0, cr_last0.
  destruct (c.(firstLoop) || _) eqn:Hb; [|by apply return_ok_sim].
  fold (bytes_signed c.(max_now) (zlen a.(rest))). set (n := bytes_signed _ _) in *.
  assert (Hn : n <= zlen a.(rest)) by (unfold n, bytes_signed; case_match; lia).
  set (lst := if (n =? _) && _ then true else _).
  rewrite option_bind_assoc, old_header_store by (done || lia). cbn [mbind option_bind].
  pose proof (length_old_header j c.(veryFirstPacket) lst c.(offset_now)) as Hl.
  unfold HEADER_BYTES_OLD in *.
  assert (Hbl : zlen (splice 0 (old_header j c.(veryFirstPacket) lst c.(offset_now)) c.(buffer)) = 34)
    by (rewrite length_splice; lia).
  rewrite (load_spec (splice _ _ _)) by lia. rewrite load_splice_at by lia. cbn [mbind option_bind].
  change (Z.to_nat 0 - 0)%nat with 0%nat. rewrite drop_0, (take_ge (old_header _ _ _ _)) by lia.
  rewrite (proj2 (Z.leb_le n (zlen a.(rest)))), cr_seq0, !andb_true_r by lia.
  destruct (Z.leb_spec 0 n).
  2: { unfold load. by rewrite decide_False by lia. }
  rewrite load_spec by lia. cbn [mbind option_bind]. rewrite <- cr_rest0.
  refine (dispatch_sim (Sendmsg_spec j) _ _ _ n lst _ _ _ _ Hr _ _ _ _ _ _);
    try done; [apply u32_range|by apply counter_back].
Qed.
End Lockstep.

(** ** From the sender back to the routines *)

(** Packets of at most [hdr + 1] bytes are never refused as too big. *)
Definition takes_small {sock : Socket} (call : syscall) (hdr : Z) : Prop :=
  forall k pkt, sock_send call k pkt = SendErr EMSGSIZE -> hdr + 1 < zlen pkt.

Lemma routine_returns {sock : Socket} j sp size step a c out :
  (forall a c, copier_rel j size a c ->
     same_outcome (copier_rel j size) (sender_step sp j.(offset) a) (step c)) ->
  copier_rel j size a c ->
  terminates (sender_step sp j.(offset)) a (Halt out) ->
  returns (fun fuel => run step fuel c) out.
Proof.
  intros Hsim Hr Ht. apply returns_run.
  by apply (simulation_halt _ _ (copier_rel j size) Hsim a c out Hr).
Qed.

Lemma bytes_unsigned_min p r : 0 < p <= 65536 -> bytes_unsigned p r = Z.min p r.
Proof.
  intros. unfold bytes_unsigned. rewrite (u64_small p) by lia. destruct (Z.ltb_spec p r); lia.
Qed.
Lemma bytes_signed_min p r : bytes_signed p r = Z.min p r.
Proof. unfold bytes_signed. destruct (Z.ltb_spec p r); lia. Qed.

(** The offset after a whole buffer, and the sequence number after its packets. *)
Lemma seq_after_bytes sp q m l :
  (forall q n, sp.(sp_next) q n = u32 (q + n)) -> (0 < m)%nat -> is_u32 q ->
  seq_after sp q (chunks m l) = u32 (q + zlen l).
Proof.
  intros Hn Hm. revert q. induction l as [l Hl|l Hl IH] using (chunks_ind m Hm); intros q Hq.
  - by rewrite seq_after_short, Hn by lia.
  - rewrite seq_after_long, Hn by lia. rewrite IH by apply u32_range.
    rewrite u32_add_l, length_drop. f_equal. lia.
Qed.

Lemma seq_after_count sp q l :
  (forall q n, sp.(sp_next) q n = u32 (q + 1)) -> is_u32 q ->
  seq_after sp q l = u32 (q + zlen l).
Proof.
  intros Hn. revert q. induction l as [|c l IH]; intros q Hq; cbn [seq_after].
  - rewrite Z.add_0_r. by rewrite u32_small.
  - rewrite Hn, IH by apply u32_range. rewrite u32_add_l. f_equal. cbn [length]. lia.
Qed.

Section Correctness.
Context {host : Host} {sock : Socket} (j : job) (Hj : job_ok j).

(** The payload limit fits after [hdr] bytes of headers in 65536 bytes. *)
Definition payload_fits (hdr : Z) : Prop := 1 <= j.(maxUdpPayload) <= 65536 - hdr.

Lemma SendNew_total (direct noConnect : bool) (reserved : Z) storage :
  let hdr := if direct then RE_HEADER_BYTES else HEADER_BYTES in
  zlen storage = 65536 -> payload_fits hdr ->
  takes_small (if noConnect then SENDTO else SEND) hdr ->
  exists out, returns (sendPacketizedBufferSendNew j direct noConnect reserved storage) out
    /\ exists m, sender_post (SendNew_spec j direct noConnect reserved) j.(offset) j.(firstBuffer)
                   j.(offset) j.(maxUdpPayload) j.(dataBuffer) out m.
Proof using Hj.
  intros hdr Hs Hp Ht.
  destruct (sender_correct (SendNew_spec j direct noConnect reserved) j.(offset) hdr (65536 - hdr))
    with (fb := j.(firstBuffer)) (q0 := j.(offset)) (p0 := j.(maxUdpPayload))
      (data := j.(dataBuffer)) (dc := j.(delayCounter)) as (out & Hout & Hpost); try done.
  - intros. apply length_new_header.
  - intros p r ? ?. apply bytes_unsigned_min. unfold payload_fits, hdr in *.
    unfold RE_HEADER_BYTES, HEADER_BYTES in *. destruct direct; lia.
  - intros n ?. cbn. apply Z.leb_le. subst hdr. lia.
  - subst hdr. by destruct direct.
  - exists out. split; [|done]. eapply routine_returns; [apply (SendNew_sim j Hj)| |done].
    apply enter_rel; [apply Hj|done].
Qed.

Lemma copy_old_total call pause storage :
  zlen storage = 65536 -> payload_fits HEADER_BYTES_OLD -> takes_small call HEADER_BYTES_OLD ->
  exists out, returns (fun fuel => run (copy_old_step j call pause) fuel (enter j storage)) out
    /\ exists m, sender_post (copy_old_spec j call pause) j.(offset) j.(firstBuffer)
                   j.(offset) j.(maxUdpPayload) j.(dataBuffer) out m.
Proof using Hj.
  intros Hs Hp Ht.
  destruct (sender_correct (copy_old_spec j call pause) j.(offset) HEADER_BYTES_OLD
              (65536 - HEADER_BYTES_OLD))
    with (fb := j.(firstBuffer)) (q0 := j.(offset)) (p0 := j.(maxUdpPayload))
      (data := j.(dataBuffer)) (dc := j.(delayCounter)) as (out & Hout & Hpost); try done.
  - intros p r ? ?. apply bytes_unsigned_min. unfold HEADER_BYTES_OLD in *. lia.
  - intros n ?. cbn. apply Z.leb_le. lia.
  - exists out. split; [|done]. eapply routine_returns; [apply (copy_old_sim j Hj)| |done].
    apply enter_rel; [apply Hj|done].
Qed.

Lemma SendNew_terminates_abstract direct noConnect reserved storage out :
  zlen storage = 65536 ->
  returns (sendPacketizedBufferSendNew j direct noConnect reserved storage) out ->
  terminates (sender_step (SendNew_spec j direct noConnect reserved) j.(offset))
    (start j.(maxUdpPayload) j.(offset) j.(firstBuffer) j.(dataBuffer) j.(delayCounter)) (Halt out).
Proof using Hj.
  intros Hs Hout. apply returns_run in Hout.
  apply (simulation_halt _ _ (copier_rel j 65536) (SendNew_sim j Hj direct noConnect reserved)
           _ _ out (enter_rel j 65536 storage (proj1 (proj2 Hj)) Hs)). done.
Qed.
End Correctness.

(** The delay: after [k] packets the counter has run down [k mod d] from [d]
    and the thread has slept [k / d] times. *)
Lemma pauses_prescaled dly d k : 0 < dly -> 0 < d < 4294967296 ->
  pauses (delay_prescaled dly d) k d
    = (d - Z.of_nat k mod d, Z.to_nat (Z.of_nat k / d)).
Proof.
  intros Hd Hp. induction k as [|k IH].
  - cbn. by rewrite Z.mod_0_l, Z.div_0_l, Z.sub_0_r by lia.
  - rewrite pauses_S, IH. unfold delay_prescaled. rewrite (proj2 (Z.ltb_lt 0 dly)) by lia.
    pose proof (Z.mod_pos_bound (Z.of_nat k) d ltac:(lia)).
    pose proof (Z.div_mod (Z.of_nat k) d ltac:(lia)).
    assert (0 <= Z.of_nat k / d) by (apply Z.div_pos; lia).
    rewrite u32_small by lia.
    destruct (Z.ltb_spec (d - Z.of_nat k mod d - 1) 1).
    + rewrite <- (Z.mod_unique (Z.of_nat (S k)) d (Z.of_nat k / d + 1) 0) by lia.
      rewrite <- (Z.div_unique (Z.of_nat (S k)) d (Z.of_nat k / d + 1) 0) by lia.
      f_equal; lia.
    + rewrite <- (Z.mod_unique (Z.of_nat (S k)) d (Z.of_nat k / d) (Z.of_nat k mod d + 1)) by lia.
      rewrite <- (Z.div_unique (Z.of_nat (S k)) d (Z.of_nat k / d) (Z.of_nat k mod d + 1)) by lia.
      f_equal; lia.
Qed.

(** ** Properties *)

(** C3: sendPacketizedBufferSendNew ends, and what it has given to the kernel is
    the buffer: cut into payloads of some size m between 1 and the limit asked
    for (exactly the limit if this is not the first buffer, since only the
    first packet may be resized), each payload after its load balancer header
    (none if direct) and a reassembly header with its offset; all of them if it
    returns 0, and then the offset handed back has moved on by the length of
    the buffer modulo 2^32; a prefix of them if it returns -1, and then the
    offset is untouched.  The packet count is the number of packets taken. *)
Theorem sendPacketizedBufferSendNew_correct {host : Host} {sock : Socket} (j : job)
    (direct noConnect : bool) (reserved : Z) (storage : list Z) :
  let hdr := if direct then RE_HEADER_BYTES else HEADER_BYTES in
  job_ok j -> zlen storage = 65536 -> payload_fits j hdr ->
  takes_small (if noConnect then SENDTO else SEND) hdr ->
  exists out, returns (sendPacketizedBufferSendNew j direct noConnect reserved storage) out
    /\ (out.(o_ret) = 0 -> out.(o_offset) = u32 (j.(offset) + zlen j.(dataBuffer)))
    /\ exists m, sender_post (SendNew_spec j direct noConnect reserved) j.(offset) j.(firstBuffer)
                   j.(offset) j.(maxUdpPayload) j.(dataBuffer) out m.
Proof.
  intros hdr Hj Hs Hp Ht.
  destruct (SendNew_total j Hj direct noConnect reserved storage Hs Hp Ht) as (out & Hout & m & Hm).
  exists out. split; [done|]. split; [|by exists m]. intros Hr.
  destruct Hm as (? & ? & ? & [(_ & _ & ->)|(? & _)]); [|lia].
  apply seq_after_bytes; [done|lia|apply Hj].
Qed.

(** SendPacketizedBufferSend (version 1 header) likewise; the sequence number
    handed back has moved on by the number of packets. *)
Theorem sendPacketizedBufferSend_correct {host : Host} {sock : Socket} (j : job) (storage : list Z) :
  job_ok j -> zlen storage = 65536 -> payload_fits j HEADER_BYTES_OLD ->
  takes_small SEND HEADER_BYTES_OLD ->
  exists out, returns (sendPacketizedBufferSend j storage) out
    /\ (out.(o_ret) = 0 -> out.(o_offset) = u32 (j.(offset) + out.(o_packetsSent)))
    /\ exists m, sender_post (Send_spec j) j.(offset) j.(firstBuffer)
                   j.(offset) j.(maxUdpPayload) j.(dataBuffer) out m.
Proof.
  intros Hj Hs Hp Ht. destruct (copy_old_total j Hj SEND
    (delay_prescaled j.(delay) j.(delayPrescale)) storage Hs Hp Ht) as (out & Hout & m & Hm).
  exists out. split; [done|]. split; [|by exists m]. intros Hr.
  destruct Hm as (? & ? & -> & [(_ & -> & ->)|(? & _)]); [|lia].
  rewrite seq_after_count by (done || apply Hj). by rewrite length_emit.
Qed.

(** The three version 1 routines send the same packets and return the same
    value and the same sequence number, on a network that answers send, sendto
    and sendmsg alike, refusals and errors included. *)
Theorem version1_routines_agree {host : Host} {sock : Socket} (j : job) storage storage34 out :
  job_ok j -> payload_fits j HEADER_BYTES_OLD -> zlen j.(dataBuffer) < 2147483648 ->
  zlen storage = 65536 -> zlen storage34 = 34 ->
  (forall k pkt, sock_send SEND k pkt = sock_send SENDTO k pkt
                 /\ sock_send SEND k pkt = sock_send SENDMSG k pkt) ->
  returns (sendPacketizedBufferSend j storage) out ->
  exists out1 out2,
    returns (sendPacketizedBufferSendto j storage) out1 /\ same_packets out out1
    /\ returns (sendPacketizedBufferSendmsg j storage34) out2 /\ same_packets out out2.
Proof.
  intros Hj Hp Hd Hs Hs' Hk Hout%returns_run. pose proof Hj as (_ & Ho & _).
  apply (simulation_halt _ _ (copier_rel j 65536) (Send_sim j Hj) _ _ out
           (enter_rel j 65536 storage Ho Hs)) in Hout.
  unfold payload_fits, HEADER_BYTES_OLD in Hp.
  destruct (sender_same_packets (Send_spec j) (Sendto_spec j) j.(offset)) with (pmax := 65502)
    (dc2 := j.(delayCounter)) (out1 := out) (p := j.(maxUdpPayload)) (q := j.(offset))
    (fb := j.(firstBuffer)) (data := j.(dataBuffer)) (dc1 := j.(delayCounter))
    as (out1 & Ht1 & Hs1); try done; try lia; try by left.
  { apply Hk. }
  { intros. cbn. unfold bytes_unsigned. rewrite u64_small by lia. case_match; lia. }
  destruct (sender_same_packets (Send_spec j) (Sendmsg_spec j) j.(offset)) with (pmax := 65502)
    (dc2 := j.(delayCounter)) (out1 := out) (p := j.(maxUdpPayload)) (q := j.(offset))
    (fb := j.(firstBuffer)) (data := j.(dataBuffer)) (dc1 := j.(delayCounter))
    as (out2 & Ht2 & Hs2); try done; try lia; try by left.
  { apply Hk. }
  { intros. cbn. unfold bytes_unsigned, bytes_signed. by rewrite u64_small by lia. }
  { intros. cbn. unfold bytes_unsigned. rewrite u64_small by lia. case_match; lia. }
  { intros. cbn. apply Z.leb_le. unfold HEADER_BYTES_OLD. lia. }
  exists out1, out2. split; [|split; [done|]]; [|split; [|done]].
  - eapply routine_returns; [apply (Sendto_sim j Hj)|by apply enter_rel|done].
  - eapply routine_returns; [apply (Sendmsg_sim j Hj)|by apply enter_msg_rel|done].
Qed.

(** C5: path-MTU discovery: if the path refuses packets of more than mtu bytes
    and has room for the headers and one byte of data, the first buffer is sent
    completely, in packets that all fit, and the payloads put together are the
    buffer. *)
Theorem sendPacketizedBufferSendNew_path_mtu {host : Host} (mtu : Z) (j : job)
    (direct noConnect : bool) (reserved : Z) (storage : list Z) :
  let hdr := if direct then RE_HEADER_BYTES else HEADER_BYTES in
  job_ok j -> zlen storage = 65536 -> payload_fits j hdr ->
  j.(firstBuffer) = true -> hdr + 1 <= mtu ->
  exists out,
    returns (sendPacketizedBufferSendNew (sock := path_mtu mtu) j direct noConnect reserved storage) out
    /\ out.(o_ret) = 0
    /\ Forall (fun pkt => zlen pkt <= mtu) out.(o_sent)
    /\ concat (map (drop (Z.to_nat hdr)) out.(o_sent)) = j.(dataBuffer).
Proof.
  intros hdr Hj Hs Hp Hfb Hm.
  assert (Hh : forall f l s, zlen (sp_header (SendNew_spec j direct noConnect reserved) f l s) = hdr)
    by (intros; apply length_new_header).
  destruct (sender_path_mtu (SendNew_spec j direct noConnect reserved) j.(offset) hdr (65536 - hdr))
    with (mtu := mtu) (fb := j.(firstBuffer)) (q0 := j.(offset)) (p0 := j.(maxUdpPayload))
      (data := j.(dataBuffer)) (dc := j.(delayCounter)) as (out & Hout & Hr & Hsent & m & Hpost);
    try done; try by left.
  - intros p r ? ?. apply bytes_unsigned_min. unfold payload_fits, hdr in *.
    unfold RE_HEADER_BYTES, HEADER_BYTES in *. destruct direct; lia.
  - intros n ?. cbn. apply Z.leb_le. subst hdr. lia.
  - subst hdr. by destruct direct.
  - exists out. split; [|split; [done|split; [done|]]].
    + eapply routine_returns; [apply (SendNew_sim j Hj)| |done]. apply enter_rel; [apply Hj|done].
    + destruct Hpost as (? & _ & _ & [(_ & -> & _)|(? & _)]); [|lia].
      rewrite emit_payloads by done. apply concat_chunks. lia.
Qed.

(** If the path has no room for a byte of data after the headers, the payload
    limit reaches 0 (a fifth is taken off it at each refusal) and the routine
    sends empty packets for ever. *)
Theorem sendPacketizedBufferSendNew_endless {host : Host} (j : job)
    (direct noConnect : bool) (reserved : Z) (storage : list Z) :
  let hdr := if direct then RE_HEADER_BYTES else HEADER_BYTES in
  job_ok j -> zlen storage = 65536 -> payload_fits j hdr ->
  j.(firstBuffer) = true -> j.(dataBuffer) <> [] ->
  forall fuel, exists s,
    sendPacketizedBufferSendNew (sock := path_mtu hdr) j direct noConnect reserved storage fuel = Next s.
Proof.
  intros hdr Hj Hs Hp Hfb Hd fuel.
  assert (Hh : forall f l s, zlen (sp_header (SendNew_spec j direct noConnect reserved) f l s) = hdr)
    by (intros; apply length_new_header).
  assert (Hsmall : 20 <= hdr <= 36) by (subst hdr; by destruct direct).
  destruct (sender_endless (SendNew_spec j direct noConnect reserved) j.(offset) hdr (65536 - hdr)
              j.(maxUdpPayload) j.(offset) j.(dataBuffer) j.(delayCounter)) with (fuel := fuel)
    as (a & Ha); try done; unfold payload_fits in *; try lia.
  - intros p r ? ?. cbn. unfold bytes_unsigned. rewrite u64_small by lia.
    destruct (Z.ltb_spec p r); lia.
  - intros n ?. cbn. apply Z.leb_le. subst hdr. lia.
  - destruct j.(dataBuffer); [done|cbn; lia].
  - unfold sendPacketizedBufferSendNew.
    pose proof (run_simulation _ _ (copier_rel j 65536) eq
      (@SendNew_sim _ (path_mtu hdr) j Hj direct noConnect reserved) fuel _ _
      (enter_rel j 65536 storage (proj1 (proj2 Hj)) Hs)) as H.
    rewrite <- Hfb in Ha. rewrite Ha in H.
    destruct (run (SendNew_step _ _ _ _) _ _); [by eexists|done|done].
Qed.

(** A payload limit that does not fit in the 65536-byte packet buffer after
    the headers (a negative limit is converted to a huge size_t) overruns that
    buffer in the first iteration, when there are so many bytes to send. *)
Theorem sendPacketizedBufferSendNew_overrun {host : Host} {sock : Socket} (j : job)
    (direct noConnect : bool) (reserved : Z) (storage : list Z) :
  let hdr := if direct then RE_HEADER_BYTES else HEADER_BYTES in
  job_ok j -> zlen storage = 65536 ->
  65536 - hdr < u64 j.(maxUdpPayload) -> 65536 - hdr < zlen j.(dataBuffer) ->
  sendPacketizedBufferSendNew j direct noConnect reserved storage 1 = Stuck.
Proof.
  intros hdr Hj Hs Hm Hd.
  pose proof (SendNew_sim j Hj direct noConnect reserved _ _
                (enter_rel j 65536 storage (proj1 (proj2 Hj)) Hs)) as H.
  unfold sendPacketizedBufferSendNew. cbn [run]. unfold sender_step in H.
  cbn [start loop rest payload seq last first sp_bytes sp_fits SendNew_spec orb] in H.
  fold hdr in H. rewrite (proj2 (Z.leb_gt _ (65536 - hdr))), andb_false_r in H.
  - by destruct (SendNew_step _ _ _ _ _).
  - unfold bytes_unsigned. clearbody hdr. clear H. case_match; lia.
Qed.

(** With a delay and a prescale of d, the routine sleeps once for every d
    packets taken (the counter having been set to d before). *)
Theorem sendPacketizedBufferSendNew_delay {host : Host} {sock : Socket} (j : job)
    (direct noConnect : bool) (reserved : Z) (storage : list Z) out :
  job_ok j -> zlen storage = 65536 ->
  0 < j.(delay) -> 0 < j.(delayPrescale) < 4294967296 -> j.(delayCounter) = j.(delayPrescale) ->
  returns (sendPacketizedBufferSendNew j direct noConnect reserved storage) out ->
  Z.of_nat out.(o_sleeps) = zlen out.(o_sent) / j.(delayPrescale)
  /\ out.(o_delayCounter) = j.(delayPrescale) - zlen out.(o_sent) mod j.(delayPrescale)
  /\ out.(o_packetsSent) = zlen out.(o_sent).
Proof.
  intros Hj Hs Hd Hp Hc Hout.
  apply SendNew_terminates_abstract in Hout; [|done|done].
  apply sender_pauses in Hout as [Hk Hout]. cbn [sp_pause SendNew_spec] in Hout.
  rewrite Hc, pauses_prescaled in Hout by done. injection Hout as -> ->.
  split; [|done]. rewrite Z2Nat.id; [done|]. apply Z.div_pos; lia.
Qed.

(** ** Witnesses *)

(** Five bytes in payloads of at most [m], a delay after every second packet. *)
Definition job_example (m : Z) : job :=
  mk_job [1; 2; 3; 4; 5] m 99 1 3 2 7 5 0 1 2 2 true true.

Lemma job_example_ok m : job_ok (job_example m).
Proof. repeat split; cbn; lia. Qed.

Lemma path_mtu_takes_small mtu call hdr : hdr + 1 <= mtu -> @takes_small (path_mtu mtu) call hdr.
Proof. intros Hm k pkt. unfold sock_send, path_mtu. case_decide; [done|]. lia. Qed.

Lemma sendPacketizedBufferSendNew_correct_witness :
  exists out, returns (sendPacketizedBufferSendNew (host := ENDIAN_LITTLE) (sock := path_mtu 38)
                         (job_example 4) false false 0 (replicate 65536 0)) out
    /\ (out.(o_ret) = 0 -> out.(o_offset) = 5).
Proof.
  destruct (@sendPacketizedBufferSendNew_correct ENDIAN_LITTLE (path_mtu 38) (job_example 4)
    false false 0 (replicate 65536 0)) as (out & H1 & H2 & _).
  - apply job_example_ok.
  - vm_compute. reflexivity.
  - split; vm_compute; congruence.
  - apply path_mtu_takes_small. vm_compute. congruence.
  - exists out. split; [exact H1|exact H2].
Defined.

Lemma sendPacketizedBufferSend_correct_witness :
  exists out, returns (sendPacketizedBufferSend (host := ENDIAN_LITTLE) (sock := path_mtu 36)
                         (job_example 4) (replicate 65536 0)) out
    /\ (out.(o_ret) = 0 -> out.(o_offset) = u32 (0 + out.(o_packetsSent))).
Proof.
  destruct (@sendPacketizedBufferSend_correct ENDIAN_LITTLE (path_mtu 36) (job_example 4)
    (replicate 65536 0)) as (out & H1 & H2 & _).
  - apply job_example_ok.
  - vm_compute. reflexivity.
  - split; vm_compute; congruence.
  - apply path_mtu_takes_small. vm_compute. congruence.
  - exists out. split; [exact H1|exact H2].
Defined.

Lemma version1_routines_agree_witness :
  exists out out1 out2,
    returns (sendPacketizedBufferSend (host := ENDIAN_LITTLE) (sock := path_mtu 36)
               (job_example 4) (replicate 65536 0)) out
    /\ returns (sendPacketizedBufferSendto (host := ENDIAN_LITTLE) (sock := path_mtu 36)
               (job_example 4) (replicate 65536 0)) out1 /\ same_packets out out1
    /\ returns (sendPacketizedBufferSendmsg (host := ENDIAN_LITTLE) (sock := path_mtu 36)
               (job_example 4) (replicate 34 0)) out2 /\ same_packets out out2.
Proof.
  assert (H : exists out, returns (@sendPacketizedBufferSend ENDIAN_LITTLE (path_mtu 36)
               (job_example 4) (replicate 65536 0)) out).
  { eexists. apply returns_run. exists 10%nat. split; [vm_compute; reflexivity|done]. }
  destruct H as [out H].
  destruct (@version1_routines_agree ENDIAN_LITTLE (path_mtu 36) (job_example 4)
    (replicate 65536 0) (replicate 34 0) out) as (out1 & out2 & ?).
  - apply job_example_ok.
  - split; vm_compute; congruence.
  - vm_compute. reflexivity.
  - vm_compute. reflexivity.
  - vm_compute. reflexivity.
  - intros. split; reflexivity.
  - exact H.
  - exists out, out1, out2. tauto.
Defined.

Lemma sendPacketizedBufferSendNew_path_mtu_witness :
  exists out, returns (sendPacketizedBufferSendNew (host := ENDIAN_LITTLE) (sock := path_mtu 38)
                         (job_example 4) false false 0 (replicate 65536 0)) out
    /\ concat (map (drop 36) out.(o_sent)) = [1; 2; 3; 4; 5].
Proof.
  destruct (@sendPacketizedBufferSendNew_path_mtu ENDIAN_LITTLE 38 (job_example 4)
    false false 0 (replicate 65536 0)) as (out & H1 & _ & _ & H2).
  - apply job_example_ok.
  - vm_compute. reflexivity.
  - split; vm_compute; congruence.
  - reflexivity.
  - vm_compute. congruence.
  - exists out. split; [exact H1|exact H2].
Defined.

Lemma sendPacketizedBufferSendNew_endless_witness :
  exists s, sendPacketizedBufferSendNew (host := ENDIAN_LITTLE) (sock := path_mtu 20)
              (job_example 4) true true 0 (replicate 65536 0) 1000 = Next s.
Proof.
  apply (@sendPacketizedBufferSendNew_endless ENDIAN_LITTLE (job_example 4) true true 0).
  - apply job_example_ok.
  - vm_compute. reflexivity.
  - split; vm_compute; congruence.
  - reflexivity.
  - discriminate.
Defined.

Lemma sendPacketizedBufferSendNew_overrun_witness :
  sendPacketizedBufferSendNew (host := ENDIAN_LITTLE) (sock := path_mtu 1500)
    (mk_job (replicate 70000 1) (-1) 99 1 3 2 7 5 0 1 2 2 true true) false false 0
    (replicate 65536 0) 1 = Stuck.
Proof.
  apply (@sendPacketizedBufferSendNew_overrun ENDIAN_LITTLE (path_mtu 1500)).
  - repeat split; try (vm_compute; congruence).
  - vm_compute. reflexivity.
  - vm_compute. reflexivity.
  - vm_compute. reflexivity.
Defined.

Lemma sendPacketizedBufferSendNew_delay_witness :
  exists out, returns (sendPacketizedBufferSendNew (host := ENDIAN_LITTLE) (sock := path_mtu 38)
                         (job_example 4) false false 0 (replicate 65536 0)) out
    /\ Z.of_nat out.(o_sleeps) = zlen out.(o_sent) / 2.
Proof.
  assert (H : exists out, returns (@sendPacketizedBufferSendNew ENDIAN_LITTLE (path_mtu 38)
               (job_example 4) false false 0 (replicate 65536 0)) out).
  { eexists. apply returns_run. exists 10%nat. split; [vm_compute; reflexivity|done]. }
  destruct H as [out H]. exists out. split; [exact H|].
  apply (@sendPacketizedBufferSendNew_delay ENDIAN_LITTLE (path_mtu 38) (job_example 4)
    false false 0 (replicate 65536 0) out).
  - apply job_example_ok.
  - vm_compute. reflexivity.
  - reflexivity.
  - split; reflexivity.
  - reflexivity.
  - exact H.
Defined.
