(* ===== verification/PacketizeFast.v ===== *)
(** The packetizing routines of ejfat_packetize.hpp that avoid copying:
    sendPacketizedBufferFastNew and sendPacketizedBufferFast.  The first packet
    is built in a local array; the headers of every later one are written into
    the caller's buffer, over data already sent.  The caller's memory is
    modelled as the array [mem] its pointer [dataBuffer] points into, at index
    [base]: a write below index 0 is undefined behaviour. *)
From S2P Require Import Prelude Bytes ByteOrder Wire Socket Sender Packetize.

(** The local variables; [writeHeaderTo] is [None] while it points to the local
    array [packetStorage] and [Some w] when it points to [mem[w]]. *)
Record flyer := mk_flyer {
  fmax : Z;
  foffset : Z;
  dataLen : Z;
  writeHeaderTo : option Z;
  packetStorage : list Z;
  mem : list Z;
  fveryFirst : bool;
  fveryLast : bool;
  ffirstLoop : bool;
  fsentPackets : Z;
  fcounter : Z;
  fnet : list (list Z);
  fnaps : nat;
  fcalls : nat
}.

Section Fast.
Context {host : Host} {sock : Socket}.

(** Writes and reads through [writeHeaderTo]. *)
Definition header_at (s : flyer) (write : list Z -> Z -> option (list Z)) : option flyer :=
  match s.(writeHeaderTo) with
  | None =>
    b ← write s.(packetStorage) 0;
    Some (mk_flyer s.(fmax) s.(foffset) s.(dataLen) s.(writeHeaderTo) b s.(mem) s.(fveryFirst)
            s.(fveryLast) s.(ffirstLoop) s.(fsentPackets) s.(fcounter) s.(fnet) s.(fnaps) s.(fcalls))
  | Some w =>
    b ← write s.(mem) w;
    Some (mk_flyer s.(fmax) s.(foffset) s.(dataLen) s.(writeHeaderTo) s.(packetStorage) b
            s.(fveryFirst) s.(fveryLast) s.(ffirstLoop) s.(fsentPackets) s.(fcounter) s.(fnet)
            s.(fnaps) s.(fcalls))
  end.

Definition packet_at (s : flyer) (n : Z) : option (list Z) :=
  match s.(writeHeaderTo) with
  | None => load s.(packetStorage) 0 n
  | Some w => load s.(mem) w n
  end.

(** The result of a call, and what it leaves in the caller's memory. *)
Definition fast_return (ret off : Z) (s : flyer) : outcome flyer (sender_out * list Z) :=
  Halt (mk_out ret off s.(fsentPackets) s.(fcounter) s.(fnet) s.(fnaps), s.(mem)).

(** ** sendPacketizedBufferFastNew *)

Definition FastNew_step (j : job) (base : Z) (s : flyer) : outcome flyer (sender_out * list Z) :=
  if s.(ffirstLoop) || (0 <? s.(dataLen)) then
    let bytesToWrite := if u64 s.(fmax) <? s.(dataLen) then u64 s.(fmax) else s.(dataLen) in
    let veryLast := if (bytesToWrite =? s.(dataLen)) && j.(lastBuffer) then true
                    else s.(fveryLast) in
    match
      t ← header_at s (fun b w =>
            b ← setLbMetadata b w j.(tick) j.(version) j.(protocol) j.(entropy);
            setReMetadata b (w + LB_HEADER_BYTES) s.(foffset) j.(fullLen) j.(tick) j.(version)
              j.(dataId));
      t ← (if s.(ffirstLoop) then
             header_at t (fun b w => d ← load s.(mem) base bytesToWrite; store b (w + HEADER_BYTES) d)
           else Some t);
      pkt ← packet_at t (bytesToWrite + HEADER_BYTES);
      Some (t, pkt)
    with
    | None => Stuck
    | Some (t, pkt) =>
      match sock_send SEND s.(fcalls) pkt with
      | SendErr errno =>
        if (errno =? EMSGSIZE) && s.(fveryFirst) then
          match shrink_payload s.(fmax) with
          | Some m => Next (mk_flyer m s.(foffset) s.(dataLen) s.(writeHeaderTo) t.(packetStorage)
                              t.(mem) s.(fveryFirst) false s.(ffirstLoop) s.(fsentPackets)
                              s.(fcounter) s.(fnet) s.(fnaps) (S s.(fcalls)))
          | None => Stuck
          end
        else fast_return (-1) j.(offset) t
      | Sent _ =>
        let wh := if s.(ffirstLoop) then Some (base - HEADER_BYTES) else s.(writeHeaderTo) in
        let '(dc, sl) := delay_prescaled j.(delay) j.(delayPrescale) s.(fcounter) s.(fnaps) in
        Next (mk_flyer s.(fmax) (u32 (s.(foffset) + bytesToWrite)) (s.(dataLen) - bytesToWrite)
                ((fun w => w + bytesToWrite) <$> wh) t.(packetStorage) t.(mem) false veryLast false
                (s.(fsentPackets) + 1) dc (s.(fnet) ++ [pkt]) sl (S s.(fcalls)))
      end
    end
  else fast_return 0 s.(foffset) s.

(** ** sendPacketizedBufferFast *)

Definition Fast_step (j : job) (base : Z) (s : flyer) : outcome flyer (sender_out * list Z) :=
  if s.(ffirstLoop) || (0 <? s.(dataLen)) then
    let bytesToWrite := if u64 s.(fmax) <? s.(dataLen) then u64 s.(fmax) else s.(dataLen) in
    let veryLast := if (bytesToWrite =? s.(dataLen)) && j.(lastBuffer) then true
                    else s.(fveryLast) in
    let packetCounter := u32 (s.(foffset) + 1) in
    match
      t ← header_at s (fun b w =>
            b ← setLbMetadata b w j.(tick) j.(version) j.(protocol) j.(entropy);
            setReMetadataOld b (w + LB_HEADER_BYTES_OLD) s.(fveryFirst) veryLast j.(tick)
              s.(foffset) j.(version) j.(dataId));
      t ← (if s.(ffirstLoop) then
             header_at t (fun b w => d ← load s.(mem) base bytesToWrite;
                                     store b (w + HEADER_BYTES_OLD) d)
           else Some t);
      pkt ← packet_at t (bytesToWrite + HEADER_BYTES_OLD);
      Some (t, pkt)
    with
    | None => Stuck
    | Some (t, pkt) =>
      match sock_send SEND s.(fcalls) pkt with
      | SendErr errno =>
        if (errno =? EMSGSIZE) && s.(fveryFirst) then
          match shrink_payload s.(fmax) with
          | Some m => Next (mk_flyer m (u32 (packetCounter - 1)) s.(dataLen) s.(writeHeaderTo)
                              t.(packetStorage) t.(mem) s.(fveryFirst) false s.(ffirstLoop)
                              s.(fsentPackets) s.(fcounter) s.(fnet) s.(fnaps) (S s.(fcalls)))
          | None => Stuck
          end
        else fast_return (-1) j.(offset) t
      | Sent _ =>
        let wh := if s.(ffirstLoop) then Some (base - HEADER_BYTES_OLD) else s.(writeHeaderTo) in
        let '(dc, sl) := delay_prescaled j.(delay) j.(delayPrescale) s.(fcounter) s.(fnaps) in
        Next (mk_flyer s.(fmax) packetCounter (s.(dataLen) - bytesToWrite)
                ((fun w => w + bytesToWrite) <$> wh) t.(packetStorage) t.(mem) false veryLast false
                (s.(fsentPackets) + 1) dc (s.(fnet) ++ [pkt]) sl (S s.(fcalls)))
      end
    end
  else fast_return 0 s.(foffset) s.

(** The locals on entry.  The data is the [zlen j.(dataBuffer)] bytes of
    [memory] at [base]. *)
Definition fast_enter (j : job) (storage memory : list Z) : flyer :=
  mk_flyer j.(maxUdpPayload) j.(offset) (zlen j.(dataBuffer)) None storage memory j.(firstBuffer)
    false true 0 j.(delayCounter) [] 0 0.

Definition sendPacketizedBufferFastNew (j : job) (storage memory : list Z) (base : Z) (fuel : nat)
    : outcome flyer (sender_out * list Z) :=
  run (FastNew_step j base) fuel (fast_enter j storage memory).

Definition sendPacketizedBufferFast (j : job) (storage memory : list Z) (base : Z) (fuel : nat)
    : outcome flyer (sender_out * list Z) :=
  run (Fast_step j base) fuel (fast_enter j storage memory).
End Fast.

(** ** What the routines refine *)

Definition FastNew_spec (j : job) : sender_spec :=
  mk_spec SEND (fun _ _ => new_header j false 0) (fun q n => u32 (q + n)) bytes_unsigned
    (fun n => n <=? 65536) false j.(lastBuffer) (delay_prescaled j.(delay) j.(delayPrescale)).

Definition Fast_spec (j : job) : sender_spec :=
  mk_spec SEND (old_header j) (fun q _ => u32 (q + 1)) bytes_unsigned
    (fun n => n <=? 65536) false j.(lastBuffer) (delay_prescaled j.(delay) j.(delayPrescale)).

(** Where the data not yet sent begins in [mem]. *)
Definition unsent_at (hdr base : Z) (c : flyer) : Z :=
  match c.(writeHeaderTo) with None => base | Some w => w + hdr end.

(** The abstract sender against the routine's locals; [hdr] is the length of the
    headers.  Once the first packet is gone the headers of the next packet end
    where the unsent data begins, and there is room for them below it; that this
    stays so is the second part, room in front of a full payload. *)
Record flyer_core (hdr base : Z) (a : sender) (c : flyer) : Prop := mk_flyer_core {
  fr_max : a.(payload) = c.(fmax);
  fr_payload : 0 <= c.(fmax) <= 65536;
  fr_seq : a.(seq) = c.(foffset);
  fr_seq_range : is_u32 c.(foffset);
  fr_base : 0 <= base;
  fr_pos : base <= unsent_at hdr base c;
  fr_rest : a.(rest) = take (Z.to_nat c.(dataLen))
                         (drop (Z.to_nat (unsent_at hdr base c)) c.(mem));
  fr_dataLen : 0 <= c.(dataLen);
  fr_inside : unsent_at hdr base c + c.(dataLen) <= zlen c.(mem);
  fr_where : if c.(ffirstLoop) then c.(writeHeaderTo) = None
             else is_Some c.(writeHeaderTo)
                  /\ (0 < c.(dataLen) -> hdr <= unsent_at hdr base c);
  fr_storage : zlen c.(packetStorage) = 65536 + hdr;
  fr_first : a.(first) = c.(fveryFirst);
  fr_last : a.(last) = c.(fveryLast);
  fr_loop : a.(loop) = c.(ffirstLoop);
  fr_sent : a.(sent) = c.(fnet);
  fr_sentPackets : c.(fsentPackets) = zlen a.(sent);
  fr_counter : a.(counter) = c.(fcounter);
  fr_naps : a.(sleeps) = c.(fnaps);
  fr_calls : a.(calls) = c.(fcalls)
}.

Definition flyer_rel (hdr base : Z) (a : sender) (c : flyer) : Prop :=
  flyer_core hdr base a c /\ hdr <= base + c.(fmax).

Lemma fr_zlen_rest hdr base a c : flyer_core hdr base a c -> zlen a.(rest) = c.(dataLen).
Proof. intros []. rewrite fr_rest0, length_take, length_drop. lia. Qed.

(** ** Building a packet *)

(** What building a packet may change: the local array, and the caller's memory
    below the data not yet sent. *)
Record built (hdr base : Z) (s t : flyer) : Prop := mk_built {
  bt_locals : t = mk_flyer s.(fmax) s.(foffset) s.(dataLen) s.(writeHeaderTo) t.(packetStorage)
                    t.(mem) s.(fveryFirst) s.(fveryLast) s.(ffirstLoop) s.(fsentPackets)
                    s.(fcounter) s.(fnet) s.(fnaps) s.(fcalls);
  bt_storage : zlen t.(packetStorage) = zlen s.(packetStorage);
  bt_mem : zlen t.(mem) = zlen s.(mem);
  bt_unsent : drop (Z.to_nat (unsent_at hdr base s)) t.(mem)
              = drop (Z.to_nat (unsent_at hdr base s)) s.(mem);
  bt_first : s.(ffirstLoop) = true -> t.(mem) = s.(mem)
}.

Lemma drop_splice_below off bs buf k :
  (off + length bs <= k)%nat -> (off + length bs <= length buf)%nat ->
  drop k (splice off bs buf) = drop k buf.
Proof.
  intros. apply list_eq. intros i. rewrite !lookup_drop, lookup_splice by lia.
  by rewrite decide_False by lia.
Qed.

Lemma load_splice_tail off bs buf n :
  0 <= off -> off + zlen bs + n <= zlen buf -> 0 <= n ->
  load (splice (Z.to_nat off) bs buf) off (n + zlen bs)
    = Some (bs ++ take (Z.to_nat n) (drop (Z.to_nat (off + zlen bs)) buf)).
Proof.
  intros. rewrite load_spec by (rewrite ?length_splice; lia). f_equal. unfold splice.
  rewrite drop_app_length' by (rewrite length_take; lia).
  replace (Z.to_nat (n + zlen bs)) with (length bs + Z.to_nat n)%nat by lia.
  rewrite take_app_add. do 3 f_equal. lia.
Qed.

Section Build.
Context (hdr base : Z) (H : list Z) (write : list Z -> Z -> option (list Z)).
Context (HH : zlen H = hdr).
Context (Hwrite : forall b w, 0 <= w -> w + hdr <= zlen b ->
                    write b w = Some (splice (Z.to_nat w) H b)).

Lemma build_packet a s n : flyer_core hdr base a s ->
  s.(ffirstLoop) || (0 <? s.(dataLen)) = true -> 0 <= n <= s.(dataLen) -> n <= 65536 ->
  exists t,
    (t ← header_at s write;
     t ← (if s.(ffirstLoop) then
            header_at t (fun b w => d ← load s.(mem) base n; store b (w + hdr) d)
          else Some t);
     pkt ← packet_at t (n + hdr);
     Some (t, pkt)) = Some (t, H ++ take (Z.to_nat n) a.(rest))
    /\ built hdr base s t.
Proof using HH Hwrite.
  intros Hr Hb Hn Hn'. pose proof Hr as []. unfold header_at, packet_at.
  assert (Hrest : take (Z.to_nat n) a.(rest)
                  = take (Z.to_nat n) (drop (Z.to_nat (unsent_at hdr base s)) s.(mem))).
  { rewrite fr_rest0, take_take. f_equal. lia. }
  destruct s.(ffirstLoop) eqn:Hfl.
  - rewrite fr_where0. rewrite Hwrite by lia. cbn [mbind option_bind writeHeaderTo packetStorage].
    unfold unsent_at in *. rewrite fr_where0 in *.
    rewrite load_spec by lia. cbn [mbind option_bind].
    rewrite (store_adjacent 0) by (rewrite ?length_take, ?length_drop; lia).
    cbn [mbind option_bind writeHeaderTo packetStorage].
    set (d := take (Z.to_nat n) (drop _ s.(mem))) in *.
    assert (Hd : zlen d = n) by (unfold d; rewrite length_take, length_drop; lia).
    rewrite load_spec by (rewrite ?length_splice; rewrite ?length_app; lia).
    rewrite load_splice_at by (rewrite ?length_app; lia). cbn [mbind option_bind].
    change (Z.to_nat 0 - 0)%nat with 0%nat. rewrite drop_0, (take_ge (H ++ d)) by (rewrite length_app; lia).
    eexists. rewrite Hrest. split; [done|]. constructor; cbn [packetStorage mem]; try done.
    { cbn. by rewrite fr_where0, Hfl. }
    rewrite length_splice; [done|]. rewrite length_app. lia.
  - destruct fr_where0 as [[w Hw] Hroom]. rewrite Hw. cbn [orb] in Hb. apply Z.ltb_lt in Hb.
    specialize (Hroom Hb). unfold unsent_at in *. rewrite Hw in *.
    rewrite Hwrite by lia. cbn [mbind option_bind writeHeaderTo mem].
    replace (n + hdr) with (n + zlen H) by lia.
    rewrite load_splice_tail by lia. cbn [mbind option_bind]. rewrite HH. eexists. rewrite Hrest. split; [done|]. constructor; cbn [packetStorage mem ffirstLoop]; try done.
    + cbn. by rewrite Hw, Hfl.
    + rewrite length_splice; [done|lia].
    + unfold unsent_at. rewrite Hw. apply drop_splice_below; lia.
    + by rewrite Hfl.
Qed.
End Build.

(** ** Lockstep *)

(** A refused packet leaves a payload limit with room for the headers in front
    of the next packet: there is a headroom of [base] bytes below the data, or
    only packets with enough data are refused. *)
Definition refusals_leave_room {sock : Socket} (hdr base : Z) : Prop :=
  forall k pkt, sock_send SEND k pkt = SendErr EMSGSIZE ->
    hdr <= base + (zlen pkt - hdr) * 8 / 10.

Section FastLockstep.
Context {host : Host} {sock : Socket} (j : job) (Hj : job_ok j).
Context (base : Z).

(** The result of the routine is that of the sender; what it leaves in memory is
    the business of the routine. *)
Definition fst_eq (ra : sender_out) (rc : sender_out * list Z) : Prop := ra = rc.1.

Lemma fast_return_sim hdr ret off a c : flyer_core hdr base a c ->
  rel_outcome (flyer_rel hdr base) fst_eq (finish ret off a) (fast_return ret off c).
Proof.
  intros []. unfold fst_eq. cbn. by rewrite fr_sentPackets0, fr_sent0, fr_counter0, fr_naps0.
Qed.

(** A state in which only the memory was built upon. *)
Lemma built_core hdr a s t : flyer_core hdr base a s -> built hdr base s t -> flyer_core hdr base a t.
Proof.
  intros [] [Hl Hst Hm Hu Hf]. rewrite Hl. constructor; cbn -[Z.of_nat]; unfold unsent_at in *;
    cbn -[Z.of_nat]; try done; congruence.
Qed.

Lemma fast_sent_rel hdr a c n q lst pkt dc sl :
  flyer_core hdr base a c -> hdr <= base + c.(fmax) -> 0 <= n <= c.(dataLen) -> n = Z.min c.(fmax) c.(dataLen) -> is_u32 q ->
  flyer_core hdr base
    (mk_sender a.(payload) q (drop (Z.to_nat n) a.(rest)) false lst false
       (a.(sent) ++ [pkt]) dc sl (S a.(calls)))
    (mk_flyer c.(fmax) q (c.(dataLen) - n)
       ((fun w => w + n) <$> (if c.(ffirstLoop) then Some (base - hdr) else c.(writeHeaderTo)))
       c.(packetStorage) c.(mem) false lst false (c.(fsentPackets) + 1) dc
       (c.(fnet) ++ [pkt]) sl (S c.(fcalls))).
Proof.
  intros Hr Hroom Hn Hmin Hq. pose proof (fr_zlen_rest _ _ _ _ Hr) as Hlen. destruct Hr.
  assert (Hw : exists w, (if c.(ffirstLoop) then Some (base - hdr) else c.(writeHeaderTo)) = Some w
                         /\ w + hdr = unsent_at hdr base c).
  { destruct c.(ffirstLoop).
    - unfold unsent_at. rewrite fr_where0. eexists. split; [done|]. lia.
    - destruct fr_where0 as [[w Hw] _]. unfold unsent_at. rewrite Hw. eauto. }
  destruct Hw as (w & -> & Hw). cbn [fmap option_fmap option_map].
  assert (Hu : forall m o r st me f l fl sp k nt np cl, unsent_at hdr base
    (mk_flyer m o r (Some (w + n)) st me f l fl sp k nt np cl) = unsent_at hdr base c + n)
    by (intros; unfold unsent_at at 1; cbn; lia).
  constructor; cbn [payload seq rest first last loop sent counter sleeps calls
    fmax foffset dataLen packetStorage mem fveryFirst fveryLast ffirstLoop fsentPackets fcounter
    fnet fnaps fcalls]; rewrite ?Hu; try done; try lia.
  - rewrite fr_rest0, skipn_firstn_comm, drop_drop. f_equal; [lia|f_equal; lia].
  - split; [by eexists|]. intros. lia.
  - by f_equal.
  - rewrite length_app. cbn [length]. lia.
Qed.

Lemma fast_refused_rel hdr a c m q :
  flyer_core hdr base a c -> q = c.(foffset) -> 0 <= m <= 65536 ->
  flyer_core hdr base
    (mk_sender m a.(seq) a.(rest) a.(first) false a.(loop) a.(sent) a.(counter) a.(sleeps)
       (S a.(calls)))
    (mk_flyer m q c.(dataLen) c.(writeHeaderTo) c.(packetStorage) c.(mem) c.(fveryFirst) false
       c.(ffirstLoop) c.(fsentPackets) c.(fcounter) c.(fnet) c.(fnaps) (S c.(fcalls))).
Proof.
  intros [] -> Hm. constructor; cbn -[Z.of_nat]; unfold unsent_at in *; cbn -[Z.of_nat];
    try done; by f_equal.
Qed.

(** What the routines do once the packet is built. *)
Lemma fast_dispatch hdr sp a c t n lst H q qr :
  flyer_rel hdr base a c -> built hdr base c t -> zlen H = hdr -> refusals_leave_room hdr base ->
  n = Z.min c.(fmax) c.(dataLen) -> sp.(sp_once) = false -> sp.(sp_call) = SEND ->
  q = sp.(sp_next) c.(foffset) n -> is_u32 q -> qr = c.(foffset) ->
  let pkt := H ++ take (Z.to_nat n) a.(rest) in
  rel_outcome (flyer_rel hdr base) fst_eq
    match sock_send sp.(sp_call) a.(calls) pkt with
    | SendErr e =>
      if (e =? EMSGSIZE) && c.(fveryFirst) then
        match shrink_payload c.(fmax) with
        | Some m => Next (mk_sender m c.(foffset) a.(rest) c.(fveryFirst) false
                           (if sp.(sp_once) then false else c.(ffirstLoop))
                           a.(sent) a.(counter) a.(sleeps) (S a.(calls)))
        | None => Stuck
        end
      else finish (-1) j.(offset) a
    | Sent _ =>
      let '(dc, sl) := sp.(sp_pause) a.(counter) a.(sleeps) in
      Next (mk_sender c.(fmax) (sp.(sp_next) c.(foffset) n) (drop (Z.to_nat n) a.(rest))
                      false lst false (a.(sent) ++ [pkt]) dc sl (S a.(calls)))
    end
    match sock_send SEND c.(fcalls) pkt with
    | SendErr errno =>
      if (errno =? EMSGSIZE) && c.(fveryFirst) then
        match shrink_payload c.(fmax) with
        | Some m => Next (mk_flyer m qr c.(dataLen) c.(writeHeaderTo) t.(packetStorage)
                            t.(mem) c.(fveryFirst) false c.(ffirstLoop) c.(fsentPackets)
                            c.(fcounter) c.(fnet) c.(fnaps) (S c.(fcalls)))
        | None => Stuck
        end
      else fast_return (-1) j.(offset) t
    | Sent _ =>
      let wh := if c.(ffirstLoop) then Some (base - hdr) else c.(writeHeaderTo) in
      let '(dc, sl) := sp.(sp_pause) c.(fcounter) c.(fnaps) in
      Next (mk_flyer c.(fmax) q (c.(dataLen) - n)
              ((fun w => w + n) <$> wh) t.(packetStorage) t.(mem) false lst false
              (c.(fsentPackets) + 1) dc (c.(fnet) ++ [pkt]) sl (S c.(fcalls)))
    end.
Proof.
  intros [Hr Hfull] Ht HH Hroom Hn Honce Hcall -> Hq -> pkt.
  pose proof (built_core hdr a c t Hr Ht) as Hrt. apply bt_locals in Ht.
  destruct t as [? ? ? ? st me]. cbn [packetStorage mem] in Ht. injection Ht as -> -> -> -> -> -> -> -> -> -> -> ->.
  cbn [packetStorage mem]. pose proof (fr_zlen_rest _ _ _ _ Hr) as Hlen.
  rewrite Hcall, Honce, (fr_calls _ _ _ _ Hr), (fr_counter _ _ _ _ Hr), (fr_naps _ _ _ _ Hr).
  destruct (fr_payload _ _ _ _ Hr) as [Hp0 Hp1]. pose proof (fr_dataLen _ _ _ _ Hr) as Hd.
  destruct (sock_send _ _ _) as [|e] eqn:Hsend.
  - destruct (sp.(sp_pause) _ _) as [dc sl]. cbn [rel_outcome].
    pose proof (fast_sent_rel hdr a _ n (sp.(sp_next) c.(foffset) n) lst pkt dc sl Hrt) as Hok.
    cbn -[Z.add Z.sub] in Hok. rewrite (fr_max _ _ _ _ Hr), (fr_calls _ _ _ _ Hr) in Hok.
    split; [apply Hok; [done|lia|done|done]|done].
  - destruct ((e =? EMSGSIZE) && _) eqn:He; cbn [rel_outcome].
    + apply andb_true_iff in He as [->%Z.eqb_eq _].
      destruct (shrink_payload c.(fmax)) as [m|] eqn:Hm; [|done]. cbn [rel_outcome].
      pose proof (shrink_payload_range _ _ Hp0 Hm).
      assert (hdr <= base + m).
      { apply Hroom in Hsend. unfold pkt in Hsend.
        rewrite length_app, Nat2Z.inj_add, HH, length_take in Hsend.
        unfold shrink_payload in Hm. case_decide; [|done]. injection Hm as <-.
        rewrite Z.quot_div_nonneg by lia.
        enough ((hdr + Z.of_nat (Z.to_nat n `min` length a.(rest)) - hdr) * 8 / 10
                <= c.(fmax) * 8 / 10) by lia.
        apply Z.div_le_mono; lia. }
      pose proof (fast_refused_rel hdr a _ m _ Hrt eq_refl ltac:(lia)) as Hok.
      cbn in Hok.
      split; [|done].
      by rewrite (fr_seq _ _ _ _ Hr), (fr_calls _ _ _ _ Hr), (fr_counter _ _ _ _ Hr),
        (fr_naps _ _ _ _ Hr), (fr_first _ _ _ _ Hr), (fr_loop _ _ _ _ Hr) in Hok.
    + by apply fast_return_sim.
Qed.

Lemma bytes_unsigned_min0 p r : 0 <= p <= 65536 -> bytes_unsigned p r = Z.min p r.
Proof. intros. unfold bytes_unsigned. rewrite u64_small by lia. destruct (Z.ltb_spec p r); lia. Qed.

Lemma FastNew_sim a c : refusals_leave_room HEADER_BYTES base -> flyer_rel HEADER_BYTES base a c ->
  rel_outcome (flyer_rel HEADER_BYTES base) fst_eq
    (sender_step (FastNew_spec j) j.(offset) a) (FastNew_step j base c).
Proof using Hj.
  intros Hroom Hr. destruct Hj as (Ht & Ho & Hid & Hfl & Hdl).
  pose proof Hr as [Hc Hfull]. pose proof (fr_zlen_rest _ _ _ _ Hc) as Hlen. pose proof Hc as [].
  unfold sender_step, FastNew_step. cbn [sp_bytes sp_fits sp_header sp_lastBuffer FastNew_spec].
  rewrite fr_loop0, Hlen, fr_max0, fr_first0, fr_last0, fr_seq0.
  destruct (c.(ffirstLoop) || (0 <? c.(dataLen))) eqn:Hb; [|by apply fast_return_sim].
  fold (bytes_unsigned c.(fmax) c.(dataLen)).
  assert (Hn : bytes_unsigned c.(fmax) c.(dataLen) = Z.min c.(fmax) c.(dataLen))
    by (by apply bytes_unsigned_min0).
  set (n := bytes_unsigned _ _) in *. set (lst := if (n =? _) && _ then true else _).
  destruct (build_packet HEADER_BYTES base (new_header j false 0 c.(foffset))
    (fun b w => b ← setLbMetadata b w j.(tick) j.(version) j.(protocol) j.(entropy);
            setReMetadata b (w + LB_HEADER_BYTES) c.(foffset) j.(fullLen) j.(tick) j.(version)
              j.(dataId))) with (a := a) (s := c) (n := n) as (t & Hbuild & Hbt); try done; try lia.
  { intros b w Hw Hwb. unfold HEADER_BYTES in Hwb.
    by apply new_header_store_plain. }
  rewrite Hbuild.
  rewrite (proj2 (Z.leb_le 0 n)), (proj2 (Z.leb_le n c.(dataLen))), (proj2 (Z.leb_le n 65536)) by lia.
  cbn [andb]. apply (fast_dispatch HEADER_BYTES (FastNew_spec j)); try done.
  apply u32_range.
Qed.

Lemma Fast_sim a c : refusals_leave_room HEADER_BYTES_OLD base -> flyer_rel HEADER_BYTES_OLD base a c ->
  rel_outcome (flyer_rel HEADER_BYTES_OLD base) fst_eq
    (sender_step (Fast_spec j) j.(offset) a) (Fast_step j base c).
Proof using Hj.
  intros Hroom Hr. destruct Hj as (Ht & Ho & Hid & Hfl & Hdl).
  pose proof Hr as [Hc Hfull]. pose proof (fr_zlen_rest _ _ _ _ Hc) as Hlen. pose proof Hc as [].
  unfold sender_step, Fast_step. cbn [sp_bytes sp_fits sp_header sp_lastBuffer Fast_spec].
  rewrite fr_loop0, Hlen, fr_max0, fr_first0, fr_last0, fr_seq0.
  destruct (c.(ffirstLoop) || (0 <? c.(dataLen))) eqn:Hb; [|by apply fast_return_sim].
  fold (bytes_unsigned c.(fmax) c.(dataLen)).
  assert (Hn : bytes_unsigned c.(fmax) c.(dataLen) = Z.min c.(fmax) c.(dataLen))
    by (by apply bytes_unsigned_min0).
  set (n := bytes_unsigned _ _) in *. set (lst := if (n =? _) && _ then true else _).
  destruct (build_packet HEADER_BYTES_OLD base (old_header j c.(fveryFirst) lst c.(foffset))
    (fun b w => b ← setLbMetadata b w j.(tick) j.(version) j.(protocol) j.(entropy);
            setReMetadataOld b (w + LB_HEADER_BYTES_OLD) c.(fveryFirst) lst j.(tick) c.(foffset)
              j.(version) j.(dataId))) with (a := a) (s := c) (n := n) as (t & Hbuild & Hbt);
    try done; try lia.
  { intros b w Hw Hwb. unfold HEADER_BYTES_OLD in Hwb. by apply old_header_store_at. }
  rewrite Hbuild.
  rewrite (proj2 (Z.leb_le 0 n)), (proj2 (Z.leb_le n c.(dataLen))), (proj2 (Z.leb_le n 65536)) by lia.
  cbn [andb]. apply (fast_dispatch HEADER_BYTES_OLD (Fast_spec j)); try done;
    [apply u32_range|by apply counter_back].
Qed.
End FastLockstep.

Lemma fast_enter_core hdr j storage memory base :
  is_u32 j.(offset) -> zlen storage = 65536 + hdr -> 0 <= base ->
  1 <= j.(maxUdpPayload) <= 65536 ->
  load memory base (zlen j.(dataBuffer)) = Some j.(dataBuffer) ->
  flyer_core hdr base
    (start j.(maxUdpPayload) j.(offset) j.(firstBuffer) j.(dataBuffer) j.(delayCounter))
    (fast_enter j storage memory).
Proof.
  intros Ho Hs Hb Hm Hl. unfold load in Hl. case_decide as Hd; [|done]. injection Hl as Hl.
  constructor; cbn -[Z.of_nat]; unfold unsent_at; cbn -[Z.of_nat]; try done; try lia.
Qed.

Lemma fast_enter_rel hdr j storage memory base :
  is_u32 j.(offset) -> zlen storage = 65536 + hdr -> 0 <= base ->
  1 <= j.(maxUdpPayload) <= 65536 -> hdr <= base + j.(maxUdpPayload) ->
  load memory base (zlen j.(dataBuffer)) = Some j.(dataBuffer) ->
  flyer_rel hdr base
    (start j.(maxUdpPayload) j.(offset) j.(firstBuffer) j.(dataBuffer) j.(delayCounter))
    (fast_enter j storage memory).
Proof. intros. split; [by apply fast_enter_core|done]. Qed.

(** The first packet taken by the kernel: where the next headers will go. *)
Lemma FastNew_first_step {host : Host} {sock : Socket} j base a c :
  is_u64 j.(tick) -> flyer_core HEADER_BYTES base a c -> c.(ffirstLoop) = true ->
  c.(fmax) < c.(dataLen) -> (forall k pkt, exists n, sock_send SEND k pkt = Sent n) ->
  exists c', FastNew_step j base c = Next c'
    /\ c'.(writeHeaderTo) = Some (base - HEADER_BYTES + c.(fmax))
    /\ c'.(dataLen) = c.(dataLen) - c.(fmax).
Proof.
  intros Ht Hr Hf Hn Hacc. pose proof (fr_payload _ _ _ _ Hr) as Hp.
  destruct (build_packet HEADER_BYTES base (new_header j false 0 c.(foffset))
    (fun b w => b ← setLbMetadata b w j.(tick) j.(version) j.(protocol) j.(entropy);
            setReMetadata b (w + LB_HEADER_BYTES) c.(foffset) j.(fullLen) j.(tick) j.(version)
              j.(dataId))) with (a := a) (s := c) (n := c.(fmax)) as (t & Hbuild & Hbt);
    try done; try lia.
  { intros b w Hw Hwb. unfold HEADER_BYTES in Hwb. by apply new_header_store_plain. }
  unfold FastNew_step. rewrite u64_small, (proj2 (Z.ltb_lt c.(fmax) _)), Hbuild by lia.
  rewrite Hf. cbn [orb]. destruct (Hacc c.(fcalls) (new_header j false 0 c.(foffset)
    ++ take (Z.to_nat c.(fmax)) a.(rest))) as [n' ->].
  destruct (delay_prescaled _ _ _ _) as [dc sl]. eexists. split; [done|]. cbn. done.
Qed.

(** What the copying routine sends, the one that works in place sends as well. *)
Lemma FastNew_terminates {host : Host} {sock : Socket} (j : job) storage_fast memory base out :
  job_ok j -> zlen storage_fast = 65536 + HEADER_BYTES -> payload_fits j HEADER_BYTES ->
  0 <= base -> HEADER_BYTES <= base + j.(maxUdpPayload) ->
  load memory base (zlen j.(dataBuffer)) = Some j.(dataBuffer) ->
  takes_small SEND HEADER_BYTES -> refusals_leave_room HEADER_BYTES base ->
  terminates (sender_step (SendNew_spec j false false 0) j.(offset))
    (start j.(maxUdpPayload) j.(offset) j.(firstBuffer) j.(dataBuffer) j.(delayCounter)) (Halt out) ->
  exists out' memory',
    returns (sendPacketizedBufferFastNew j storage_fast memory base) (out', memory')
    /\ same_packets out out'.
Proof.
  intros Hj Hsf Hp Hb Hroom Hl Hsmall Href Hout. pose proof Hj as (_ & Ho & _).
  unfold payload_fits in Hp.
  destruct (sender_same_packets (SendNew_spec j false false 0) (FastNew_spec j) j.(offset))
    with (pmax := 65500) (dc2 := j.(delayCounter)) (out1 := out) (p := j.(maxUdpPayload))
      (q := j.(offset)) (fb := j.(firstBuffer)) (data := j.(dataBuffer)) (dc1 := j.(delayCounter))
    as (out' & Ht & Hsame); try done; unfold HEADER_BYTES in *; try lia.
  - right. intros f l q k Hk%Hsmall. rewrite app_nil_r in Hk.
    cbn [sp_header SendNew_spec] in Hk. rewrite length_new_header in Hk. unfold HEADER_BYTES in Hk. lia.
  - intros. cbn. unfold bytes_unsigned. rewrite u64_small by lia. case_match; lia.
  - intros n Hn. cbn. rewrite (proj2 (Z.leb_le n 65536)) by lia. apply Z.leb_le. unfold HEADER_BYTES. lia.
  - destruct (simulation_terminates _ _ (flyer_rel HEADER_BYTES base) fst_eq
      (fun a c => FastNew_sim j Hj base a c Href)
      (start j.(maxUdpPayload) j.(offset) j.(firstBuffer) j.(dataBuffer) j.(delayCounter))
      (fast_enter j storage_fast memory) out') as ([o m] & Hterm & Heq); [|done|].
    + apply fast_enter_rel; unfold HEADER_BYTES; done || lia.
    + exists out', m. split; [|done]. apply returns_run. unfold fst_eq in Heq. cbn in Heq.
      by rewrite Heq.
Qed.

(** ** Properties *)

(** C8: sendPacketizedBufferFastNew writes its headers into the caller's buffer
    and yet sends the packets sendPacketizedBufferSendNew sends, with the same
    return value and offset, when there is room for the headers in front of
    every packet: bytes below the data, or payloads of at least 36 bytes.  It
    changes the caller's memory, but not its size. *)
Theorem sendPacketizedBufferFastNew_agrees {host : Host} {sock : Socket} (j : job)
    storage storage_fast memory base out :
  job_ok j -> zlen storage = 65536 -> zlen storage_fast = 65536 + HEADER_BYTES ->
  payload_fits j HEADER_BYTES ->
  0 <= base -> HEADER_BYTES <= base + j.(maxUdpPayload) ->
  load memory base (zlen j.(dataBuffer)) = Some j.(dataBuffer) ->
  takes_small SEND HEADER_BYTES -> refusals_leave_room HEADER_BYTES base ->
  returns (sendPacketizedBufferSendNew_connected j false storage) out ->
  exists out' memory',
    returns (sendPacketizedBufferFastNew j storage_fast memory base) (out', memory')
    /\ same_packets out out'.
Proof.
  intros Hj Hs Hsf Hp Hb Hroom Hl Hsmall Href Hout.
  apply (FastNew_terminates j storage_fast memory base out); try done.
  by apply (SendNew_terminates_abstract j Hj false false 0 storage out Hs).
Qed.

(** SendPacketizedBufferFast agrees with sendPacketizedBufferSend in the same
    way; its headers have 34 bytes. *)
Theorem sendPacketizedBufferFast_agrees {host : Host} {sock : Socket} (j : job)
    storage storage_fast memory base out :
  job_ok j -> zlen storage = 65536 -> zlen storage_fast = 65536 + HEADER_BYTES_OLD ->
  payload_fits j HEADER_BYTES_OLD ->
  0 <= base -> HEADER_BYTES_OLD <= base + j.(maxUdpPayload) ->
  load memory base (zlen j.(dataBuffer)) = Some j.(dataBuffer) ->
  takes_small SEND HEADER_BYTES_OLD -> refusals_leave_room HEADER_BYTES_OLD base ->
  returns (sendPacketizedBufferSend j storage) out ->
  exists out' memory',
    returns (sendPacketizedBufferFast j storage_fast memory base) (out', memory')
    /\ same_packets out out'.
Proof.
  intros Hj Hs Hsf Hp Hb Hroom Hl Hsmall Href Hout%returns_run. pose proof Hj as (_ & Ho & _).
  unfold payload_fits in Hp.
  apply (simulation_halt _ _ (copier_rel j 65536) (Send_sim j Hj) _ _ out
           (enter_rel j 65536 storage Ho Hs)) in Hout.
  destruct (sender_same_packets (Send_spec j) (Fast_spec j) j.(offset))
    with (pmax := 65502) (dc2 := j.(delayCounter)) (out1 := out) (p := j.(maxUdpPayload))
      (q := j.(offset)) (fb := j.(firstBuffer)) (data := j.(dataBuffer)) (dc1 := j.(delayCounter))
    as (out' & Ht & Hsame); try done; unfold HEADER_BYTES_OLD in *; try lia.
  - right. intros f l q k Hk%Hsmall. rewrite app_nil_r in Hk.
    cbn [sp_header Send_spec copy_old_spec] in Hk. rewrite length_old_header in Hk.
    unfold HEADER_BYTES_OLD in Hk. lia.
  - intros. cbn. unfold bytes_unsigned. rewrite u64_small by lia. case_match; lia.
  - intros n Hn. cbn. rewrite (proj2 (Z.leb_le n 65536)) by lia. apply Z.leb_le.
    unfold HEADER_BYTES_OLD. lia.
  - destruct (simulation_terminates _ _ (flyer_rel HEADER_BYTES_OLD base) fst_eq
      (fun a c => Fast_sim j Hj base a c Href)
      (start j.(maxUdpPayload) j.(offset) j.(firstBuffer) j.(dataBuffer) j.(delayCounter))
      (fast_enter j storage_fast memory) out') as ([o m] & Hterm & Heq); [|done|].
    + apply fast_enter_rel; unfold HEADER_BYTES_OLD; done || lia.
    + exists out', m. split; [|done]. apply returns_run. unfold fst_eq in Heq. cbn in Heq.
      by rewrite Heq.
Qed.

(** Without that room the second packet's headers are written in front of the
    caller's memory: the routine is undefined for payloads under 36 bytes when
    nothing precedes the data, as soon as two packets are needed. *)
Theorem sendPacketizedBufferFastNew_underrun {host : Host} {sock : Socket} (j : job)
    storage memory base :
  job_ok j -> zlen storage = 65536 + HEADER_BYTES ->
  load memory base (zlen j.(dataBuffer)) = Some j.(dataBuffer) -> 0 <= base ->
  1 <= j.(maxUdpPayload) < HEADER_BYTES - base ->
  j.(maxUdpPayload) < zlen j.(dataBuffer) ->
  (forall k pkt, exists n, sock_send SEND k pkt = Sent n) ->
  sendPacketizedBufferFastNew j storage memory base 2 = Stuck.
Proof.
  intros (Ht & Ho & _ & _ & _) Hs Hl Hb Hp Hd Hacc. unfold HEADER_BYTES in Hp.
  destruct (FastNew_first_step j base _ (fast_enter j storage memory) Ht
    (fast_enter_core HEADER_BYTES j storage memory base Ho Hs Hb ltac:(lia) Hl) eq_refl Hd Hacc)
    as (c' & Hstep & Hw & Hlen).
  unfold sendPacketizedBufferFastNew. cbn [run]. rewrite Hstep. cbn [fmax fast_enter dataLen] in *.
  unfold FastNew_step. rewrite Hlen, (proj2 (Z.ltb_lt 0 _)), orb_true_r by lia.
  unfold header_at. rewrite Hw. cbv beta. unfold setLbMetadata, put8.
  rewrite store_None; [done|left]. unfold HEADER_BYTES. lia.
Qed.

(** ** Witnesses *)

Definition long_example (m : Z) : job :=
  mk_job (replicate 90 7) m 99 1 3 2 7 90 0 1 2 2 true true.

Lemma long_example_ok m : job_ok (long_example m).
Proof. repeat split; cbn; lia. Qed.

Lemma path_mtu_leaves_room mtu hdr base :
  (forall n, mtu < n -> hdr <= base + (n - hdr) * 8 / 10) ->
  @refusals_leave_room (path_mtu mtu) hdr base.
Proof.
  intros H k pkt. unfold sock_send, path_mtu. case_decide; [done|]. intros _. apply H. lia.
Qed.

Lemma sendPacketizedBufferFastNew_agrees_witness :
  exists out out' memory',
    returns (sendPacketizedBufferSendNew_connected (host := ENDIAN_LITTLE) (sock := path_mtu 81)
               (long_example 60) false (replicate 65536 0)) out
    /\ returns (sendPacketizedBufferFastNew (host := ENDIAN_LITTLE) (sock := path_mtu 81)
               (long_example 60) (replicate 65572 0) (replicate 90 7) 0) (out', memory')
    /\ same_packets out out'.
Proof.
  assert (H : exists out, returns (@sendPacketizedBufferSendNew_connected ENDIAN_LITTLE (path_mtu 81)
               (long_example 60) false (replicate 65536 0)) out).
  { eexists. apply returns_run. exists 10%nat. split; [vm_compute; reflexivity|done]. }
  destruct H as [out H].
  destruct (@sendPacketizedBufferFastNew_agrees ENDIAN_LITTLE (path_mtu 81) (long_example 60)
    (replicate 65536 0) (replicate 65572 0) (replicate 90 7) 0 out) as (out' & m' & H1 & H2).
  - apply long_example_ok.
  - vm_compute. reflexivity.
  - vm_compute. reflexivity.
  - split; vm_compute; congruence.
  - lia.
  - vm_compute. congruence.
  - vm_compute. reflexivity.
  - apply path_mtu_takes_small. vm_compute. congruence.
  - apply path_mtu_leaves_room. unfold HEADER_BYTES. intros. Z.div_mod_to_equations. lia.
  - exact H.
  - exists out, out', m'. tauto.
Defined.

Lemma sendPacketizedBufferFast_agrees_witness :
  exists out out' memory',
    returns (sendPacketizedBufferSend (host := ENDIAN_LITTLE) (sock := path_mtu 81)
               (long_example 60) (replicate 65536 0)) out
    /\ returns (sendPacketizedBufferFast (host := ENDIAN_LITTLE) (sock := path_mtu 81)
               (long_example 60) (replicate 65570 0) (replicate 90 7) 0) (out', memory')
    /\ same_packets out out'.
Proof.
  assert (H : exists out, returns (@sendPacketizedBufferSend ENDIAN_LITTLE (path_mtu 81)
               (long_example 60) (replicate 65536 0)) out).
  { eexists. apply returns_run. exists 10%nat. split; [vm_compute; reflexivity|done]. }
  destruct H as [out H].
  destruct (@sendPacketizedBufferFast_agrees ENDIAN_LITTLE (path_mtu 81) (long_example 60)
    (replicate 65536 0) (replicate 65570 0) (replicate 90 7) 0 out) as (out' & m' & H1 & H2).
  - apply long_example_ok.
  - vm_compute. reflexivity.
  - vm_compute. reflexivity.
  - split; vm_compute; congruence.
  - lia.
  - vm_compute. congruence.
  - vm_compute. reflexivity.
  - apply path_mtu_takes_small. vm_compute. congruence.
  - apply path_mtu_leaves_room. unfold HEADER_BYTES_OLD. intros. Z.div_mod_to_equations. lia.
  - exact H.
  - exists out, out', m'. tauto.
Defined.

Lemma sendPacketizedBufferFastNew_underrun_witness :
  sendPacketizedBufferFastNew (host := ENDIAN_LITTLE) (sock := path_mtu 1500)
    (job_example 4) (replicate 65572 0) [1; 2; 3; 4; 5] 0 2 = Stuck
  /\ sendPacketizedBufferFastNew (host := ENDIAN_LITTLE) (sock := fun _ _ p => Sent (zlen p))
    (job_example 4) (replicate 65572 0) [1; 2; 3; 4; 5] 0 2 = Stuck.
Proof.
  split; [vm_compute; reflexivity|].
  apply (@sendPacketizedBufferFastNew_underrun ENDIAN_LITTLE (fun _ _ p => Sent (zlen p))).
  - apply job_example_ok.
  - vm_compute. reflexivity.
  - vm_compute. reflexivity.
  - lia.
  - split; vm_compute; congruence.
  - vm_compute. reflexivity.
  - intros. eexists. reflexivity.
Defined.
