(* ===== verification/SendBuffer.v ===== *)
(** The interface's MTU (getMTU and setMTU of ejfat_packetize.hpp, setMTU of
    ersap_grpc_packetize.hpp) and sendBuffer, which sends a whole buffer to a
    load balancer.  The calls of the operating system are fields of [os]. *)
From S2P Require Import Prelude Bytes ByteOrder Wire Socket Sender Packetize PacketizeFast.

Definition IFNAMSIZ : Z := 16.

(** What the routines ask of the operating system: the MTU ioctls on an
    interface name (an error is [None] or [false]), and the results of socket
    and connect. *)
Record os := mk_os {
  os_siocgifmtu : string -> option Z;
  os_siocsifmtu : string -> Z -> bool;
  os_socket : bool -> Z;            (* useIPv6 *)
  os_connect : bool -> string -> Z -> Z
}.

(** [strcpy(ifr.ifr_name, interfaceName)] *)
Definition copy_ifname (name : string) : result string :=
  if decide (Z.of_nat (String.length name) < IFNAMSIZ) then Ok name else UB.

Definition getMTU (o : os) (interfaceName : string) : result Z :=
  ifr ← copy_ifname interfaceName;
  match o.(os_siocgifmtu) ifr with
  | Some ifr_mtu => Ok ifr_mtu
  | None => Ok 1500
  end.

(** The value set or found, and whether the no-fragment option is set then. *)
Definition setMTU (o : os) (interfaceName : string) (mtu : Z) : result (Z * bool) :=
  let mtu := if mtu <? 500 then 500 else mtu in
  let mtu := if MAX_EJFAT_MTU <? mtu then MAX_EJFAT_MTU else mtu in
  ifr ← copy_ifname interfaceName;
  if o.(os_siocsifmtu) ifr mtu then Ok (mtu, 1500 <? mtu)
  else match o.(os_siocgifmtu) ifr with
       | Some ifr_mtu => Ok (ifr_mtu, 1500 <? ifr_mtu)
       | None => Ok (-1, false)
       end.

(** The same with jumbo frames of 9000 bytes at most. *)
Definition grpc_setMTU (o : os) (interfaceName : string) (mtu : Z) : result (Z * bool) :=
  let mtu := if mtu <? 500 then 500 else mtu in
  let mtu := if 9000 <? mtu then 9000 else mtu in
  ifr ← copy_ifname interfaceName;
  if o.(os_siocsifmtu) ifr mtu then Ok (mtu, 1500 <? mtu)
  else match o.(os_siocgifmtu) ifr with
       | Some ifr_mtu => Ok (ifr_mtu, 1500 <? ifr_mtu)
       | None => Ok (-1, false)
       end.

(** The result of sendBuffer: the return value, the packets the kernel took and
    the host string it leaves (the socket is closed on every path). *)
Record sent_buffer := mk_sent {
  sb_ret : Z;
  sb_packets : list (list Z);
  sb_host : string
}.

Section SendBuffer.
Context {host : Host} {sock : Socket} (o : os).

(** The MTU sendBuffer works with. *)
Definition choose_mtu (interface : string) (mtu : Z) : result Z :=
  mtu ← (if mtu =? 0 then
           if String.eqb interface "" then getMTU o "eth0" else getMTU o interface
         else Ok mtu);
  Ok (if mtu =? 0 then 1400 else mtu).

(** [mtu - 20 - 8 - HEADER_BYTES_OLD] *)
Definition sendBuffer_payload (mtu : Z) : Z := mtu - 20 - 8 - HEADER_BYTES_OLD.

(** The call of the packetizing routine: [buffer] is the whole array the pointer
    points to, so nothing precedes the data. *)
Definition sendBuffer_packets (buffer : list Z) (maxUdpPayload tick protocol entropy version dataId
    delay delayPrescale : Z) (fast : bool) (storage : list Z) (fuel : nat)
    : outcome unit sender_out :=
  let j := mk_job buffer maxUdpPayload tick protocol entropy version dataId
             (u32 (zlen buffer)) 0 delay delayPrescale delayPrescale true true in
  if fast then
    match sendPacketizedBufferFastNew j storage buffer 0 fuel with
    | Next _ => Next tt | Halt (out, _) => Halt out | Stuck => Stuck end
  else
    match sendPacketizedBufferSendNew_connected j false storage fuel with
    | Next _ => Next tt | Halt out => Halt out | Stuck => Stuck end.

(** [storage] is the packet buffer of the routine called. *)
Definition sendBuffer (buffer : list Z) (hostName interface : string) (mtu port : Z)
    (tick protocol entropy version dataId delay delayPrescale : Z) (fast useIPv6 : bool)
    (storage : list Z) (fuel : nat) : outcome unit sent_buffer :=
  let hostName := if String.eqb hostName "" then "127.0.0.1"%string else hostName in
  match choose_mtu interface mtu with
  | Ok mtu =>
    let maxUdpPayload := sendBuffer_payload mtu in
    if decide (o.(os_socket) useIPv6 < 0) then Halt (mk_sent (-1) [] hostName)
    else
      let err := o.(os_connect) useIPv6 hostName port in
      if decide (err < 0) then Halt (mk_sent err [] hostName)
      else
        match setMTU o interface mtu with
        | Ok _ =>
          match sendBuffer_packets buffer maxUdpPayload tick protocol entropy version dataId
                  delay delayPrescale fast storage fuel with
          | Next _ => Next tt
          | Halt out => Halt (mk_sent out.(o_ret) out.(o_sent) hostName)
          | Stuck => Stuck
          end
        | _ => Stuck
        end
  | _ => Stuck
  end.
End SendBuffer.

(** ** Lemmas *)

Lemma copy_ifname_ok name :
  Z.of_nat (String.length name) < 16 -> copy_ifname name = Ok name.
Proof. intros. unfold copy_ifname, IFNAMSIZ. by rewrite decide_True by lia. Qed.

Lemma setMTU_ok o name mtu : Z.of_nat (String.length name) < 16 ->
  exists m b, setMTU o name mtu = Ok (m, b).
Proof.
  intros H. unfold setMTU. rewrite copy_ifname_ok by done. cbn.
  destruct (os_siocsifmtu _ _ _); [eauto|]. destruct (os_siocgifmtu _ _); eauto.
Qed.

Lemma returns_match {St R T} (f : nat -> outcome St R) (g : R -> T) r :
  returns f r ->
  returns (fun fuel => match f fuel with Next _ => Next tt | Halt x => Halt (g x) | Stuck => Stuck end)
    (g r).
Proof. intros [n Hn]. exists n. intros m Hm. by rewrite Hn. Qed.

(** Once the socket is connected and the MTU set, sendBuffer is the packetizing
    routine. *)
Lemma sendBuffer_connected {host : Host} {sock : Socket} o buffer hostName interface mtu0 mtu port
    tick protocol entropy version dataId delay delayPrescale fast useIPv6 storage out :
  choose_mtu o interface mtu0 = Ok mtu -> Z.of_nat (String.length interface) < 16 ->
  0 <= o.(os_socket) useIPv6 -> (forall h, 0 <= o.(os_connect) useIPv6 h port) ->
  returns (sendBuffer_packets buffer (sendBuffer_payload mtu) tick protocol entropy version dataId
             delay delayPrescale fast storage) out ->
  exists h,
  returns (sendBuffer o buffer hostName interface mtu0 port tick protocol entropy version dataId
             delay delayPrescale fast useIPv6 storage) (mk_sent out.(o_ret) out.(o_sent) h).
Proof.
  intros Hm Hn Hs Hc [n Hout].
  exists (if (hostName =? "")%string then "127.0.0.1"%string else hostName), n.
  intros k Hk. unfold sendBuffer. rewrite Hm, decide_False by lia.
  rewrite decide_False; [|by apply Z.le_ngt].
  destruct (setMTU_ok o interface mtu Hn) as (m & b & ->). by rewrite Hout.
Qed.

Lemma sendBuffer_job_ok buffer p tick protocol entropy version dataId delay pre :
  is_u64 tick -> is_u16 dataId -> zlen buffer < 4294967296 ->
  job_ok (mk_job buffer p tick protocol entropy version dataId (u32 (zlen buffer)) 0 delay pre pre
            true true).
Proof. intros. repeat split; cbn; try apply u32_range; try lia; unfold is_u64, is_u16 in *; lia. Qed.

(** The IP header of a packet. *)
Definition ip_header (useIPv6 : bool) : Z := if useIPv6 then 40 else 20.

(** ** Properties *)

(** Whatever packetizing routine is used, its packets on such a path. *)
Lemma sendBuffer_packets_deliver {host : Host} buffer p pmtu tick protocol entropy version dataId
    delay delayPrescale (fast : bool) storage :
  is_u64 tick -> is_u16 dataId -> zlen buffer < 4294967296 ->
  zlen storage = (if fast then 65572 else 65536) -> 1 <= p <= 65500 -> 65 <= pmtu ->
  (fast = true -> 36 <= p /\ 108 <= pmtu) ->
  exists out, returns (@sendBuffer_packets _ (path_mtu (pmtu - 28)) buffer p tick protocol entropy
                version dataId delay delayPrescale fast storage) out
    /\ out.(o_ret) = 0 /\ Forall (fun pkt => zlen pkt <= pmtu - 28) out.(o_sent)
    /\ concat (map (drop 36) out.(o_sent)) = buffer.
Proof.
  intros Ht Hd Hb Hst Hpl Hp Hfast.
  pose proof (sendBuffer_job_ok buffer p tick protocol entropy version dataId delay delayPrescale
                Ht Hd Hb) as Hj.
  set (j := mk_job _ _ _ _ _ _ _ _ _ _ _ _ _ _) in Hj.
  destruct (sender_path_mtu (SendNew_spec j false false 0) j.(offset) 36 65500)
    with (mtu := pmtu - 28) (fb := j.(firstBuffer)) (q0 := j.(offset)) (p0 := j.(maxUdpPayload))
      (data := j.(dataBuffer)) (dc := j.(delayCounter)) as (out & Hout & Hret & Hfit & m & Hpost);
    try done; try (by left); try lia.
  { intros q r ? ?. apply bytes_unsigned_min. lia. }
  { intros n ?. cbn. apply Z.leb_le. unfold HEADER_BYTES. lia. }
  assert (concat (map (drop 36) out.(o_sent)) = buffer) as Hcat.
  { destruct Hpost as (? & _ & _ & [(_ & -> & _)|(? & _)]); [|lia].
    change 36%nat with (Z.to_nat 36). rewrite emit_payloads; [apply concat_chunks; lia|].
    intros. apply (length_new_header j false). }
  destruct fast.
  - destruct Hfast as [Hp1 Hp2]; [done|].
    destruct (@FastNew_terminates _ (path_mtu (pmtu - 28)) j storage buffer 0 out) as (out' & memory & Hrun' & Hsame);
      try done; try (unfold payload_fits, HEADER_BYTES; cbn [j maxUdpPayload]; lia).
    + rewrite load_spec by (cbn [j dataBuffer]; lia). f_equal. cbn [j dataBuffer]. rewrite drop_0, take_ge; [done|lia].
    + intros k pkt. unfold sock_send, path_mtu. case_decide; [done|]. intros _. unfold HEADER_BYTES. lia.
    + intros k pkt. unfold sock_send, path_mtu. case_decide; [done|]. intros _. unfold HEADER_BYTES.
      apply Z.div_le_lower_bound; lia.
    + destruct Hsame as (E1 & _ & _ & E2). exists out'. rewrite <- E1, <- E2. split; [|done].
      unfold sendBuffer_packets. destruct Hrun' as [N HN]. exists N. intros f Hf. by rewrite HN.
  - exists out. split; [|done]. unfold sendBuffer_packets. apply (returns_match _ (fun x => x)).
    eapply routine_returns; [apply (SendNew_sim j Hj)| |done]. by apply enter_rel.
Qed.

(** C33: sendBuffer on an IPv4 socket, over a path whose IP packets are limited to
    pmtu bytes and never fragmented, copying or fast: whatever MTU between 63 and
    65562 it works with, it returns 0 having sent packets that fit and whose payloads
    put together are the buffer.  The fast routine writes its headers over the data in
    front of the payload, so it needs payloads as long as the header, also when they
    are reduced: an MTU of 98 and a path of 108 bytes. *)
Theorem sendBuffer_delivers {host : Host} o buffer hostName interface mtu0 mtu port pmtu
    tick protocol entropy version dataId delay delayPrescale (fast : bool) storage :
  choose_mtu o interface mtu0 = Ok mtu -> Z.of_nat (String.length interface) < 16 ->
  0 <= o.(os_socket) false -> (forall h, 0 <= o.(os_connect) false h port) ->
  is_u64 tick -> is_u16 dataId -> zlen buffer < 4294967296 ->
  zlen storage = (if fast then 65572 else 65536) ->
  63 <= mtu <= 65562 -> 20 + 8 + HEADER_BYTES + 1 <= pmtu -> (fast = true -> 98 <= mtu /\ 108 <= pmtu) ->
  exists r,
    returns (sendBuffer (sock := path_mtu (pmtu - 28)) o buffer hostName interface mtu0 port tick
               protocol entropy version dataId delay delayPrescale fast false storage) r
    /\ r.(sb_ret) = 0
    /\ Forall (fun pkt => ip_header false + 8 + zlen pkt <= pmtu) r.(sb_packets)
    /\ concat (map (drop 36) r.(sb_packets)) = buffer.
Proof.
  intros Hm Hn Hs Hc Ht Hd Hb Hst Hr Hp Hfast. unfold HEADER_BYTES in Hp.
  destruct (sendBuffer_packets_deliver buffer (sendBuffer_payload mtu) pmtu tick protocol entropy version dataId
    delay delayPrescale fast storage) as (out & Hout & Hret & Hfit & Hcat);
    try done; unfold sendBuffer_payload, HEADER_BYTES_OLD; try lia; [intros Hf; specialize (Hfast Hf); lia|].
  destruct (@sendBuffer_connected _ (path_mtu (pmtu - 28)) o buffer hostName interface mtu0 mtu port
    tick protocol entropy version dataId delay delayPrescale fast false storage out Hm Hn Hs Hc Hout) as (h & Hh).
  eexists. split; [done|]. cbn [sb_ret sb_packets]. split; [done|]. split; [|done].
  eapply Forall_impl; [done|]. cbn. intros. unfold ip_header. lia.
Qed.

(** The payload limit is computed from the 34-byte headers of version 1, but
    the routines called write 36 bytes: with the MTU at mtu, a buffer that does
    not fit in one packet is sent in IP packets of mtu + 2 bytes.  The 20 bytes of an
    IPv4 header are taken off for IPv6 as well, where they become mtu + 22 bytes. *)
Theorem sendBuffer_exceeds_mtu {host : Host} {sock : Socket} o buffer hostName interface mtu0 mtu port
    tick protocol entropy version dataId delay delayPrescale useIPv6 storage :
  choose_mtu o interface mtu0 = Ok mtu -> Z.of_nat (String.length interface) < 16 ->
  0 <= o.(os_socket) useIPv6 -> (forall h, 0 <= o.(os_connect) useIPv6 h port) ->
  is_u64 tick -> is_u16 dataId -> zlen buffer < 4294967296 -> zlen storage = 65536 ->
  63 <= mtu <= 65562 -> mtu - 62 < zlen buffer ->
  (forall k pkt, exists n, sock_send SEND k pkt = Sent n) ->
  exists r pkt,
    returns (sendBuffer o buffer hostName interface mtu0 port tick
               protocol entropy version dataId delay delayPrescale false useIPv6 storage) r
    /\ hd_error r.(sb_packets) = Some pkt /\ ip_header useIPv6 + 8 + zlen pkt = mtu + if useIPv6 then 22 else 2.
Proof.
  intros Hm Hn Hs Hc Ht Hd Hb Hst Hr Hlong Hacc.
  set (p := sendBuffer_payload mtu).
  assert (Hpl : p = mtu - 62) by (unfold p, sendBuffer_payload, HEADER_BYTES_OLD; lia).
  pose proof (sendBuffer_job_ok buffer p tick protocol entropy version dataId delay delayPrescale
                Ht Hd Hb) as Hj.
  set (j := mk_job _ _ _ _ _ _ _ _ _ _ _ _ _ _) in Hj.
  destruct (sender_all_sent (SendNew_spec j false false 0) j.(offset) 36 65500)
    with (fb := j.(firstBuffer)) (q0 := j.(offset)) (p0 := j.(maxUdpPayload))
      (data := j.(dataBuffer)) (dc := j.(delayCounter)) as (out & Hout & Hret & Hpost);
    try done; cbn [maxUdpPayload j]; try lia.
  - intros q r ? ?. apply bytes_unsigned_min. lia.
  - intros n ?. cbn. apply Z.leb_le. unfold HEADER_BYTES. lia.
  - intros k pkt Hk. destruct (Hacc k pkt) as [n Hn']. cbn [sp_call SendNew_spec] in Hk. congruence.
  - assert (Hrun : returns (sendBuffer_packets buffer p tick protocol entropy
                     version dataId delay delayPrescale false storage) out).
    { unfold sendBuffer_packets. apply (returns_match _ (fun x => x)).
      eapply routine_returns; [apply (SendNew_sim j Hj)| |done]. by apply enter_rel. }
    destruct (sendBuffer_connected o buffer hostName interface mtu0 mtu port
      tick protocol entropy version dataId delay delayPrescale false useIPv6 storage out Hm Hn Hs Hc Hrun)
      as (h & Hh).
    destruct Hpost as (_ & _ & _ & [(_ & Hsent & _)|(? & _)]); [|lia].
    cbn [dataBuffer j] in Hsent. rewrite emit_long in Hsent by (cbn [maxUdpPayload j]; lia).
    eexists _, _. split; [done|]. cbn [sb_packets]. rewrite Hsent. split; [done|].
    rewrite length_app, Nat2Z.inj_add, length_take. cbn [sp_header SendNew_spec].
    rewrite (length_new_header j false). unfold HEADER_BYTES, ip_header. cbn [maxUdpPayload j]. destruct useIPv6; lia.
Qed.

(** ** Witnesses *)

(** An interface of MTU 100, and a system on which everything succeeds. *)
Definition os_example : os :=
  mk_os (fun _ => Some 100) (fun _ _ => false) (fun _ => 3) (fun _ _ _ => 0).

Lemma sendBuffer_delivers_witness :
  exists r,
    returns (sendBuffer (host := ENDIAN_LITTLE) (sock := path_mtu 92) os_example
               (replicate 150 7) "" "eth1" 120 19522 99 1 3 2 7 0 1 true false (replicate 65572 0)) r
    /\ concat (map (drop 36) r.(sb_packets)) = replicate 150 7.
Proof.
  destruct (@sendBuffer_delivers ENDIAN_LITTLE os_example (replicate 150 7) "" "eth1" 120 120 19522 120
    99 1 3 2 7 0 1 true (replicate 65572 0)) as (r & H1 & _ & _ & H2).
  - reflexivity.
  - reflexivity.
  - vm_compute. congruence.
  - intros. vm_compute. congruence.
  - split; vm_compute; congruence.
  - split; vm_compute; congruence.
  - reflexivity.
  - vm_compute. reflexivity.
  - lia.
  - vm_compute. congruence.
  - lia.
  - exists r. split; [exact H1|exact H2].
Defined.

Lemma sendBuffer_exceeds_mtu_witness :
  exists r pkt,
    returns (sendBuffer (host := ENDIAN_LITTLE) (sock := fun _ _ p => Sent (zlen p)) os_example
               (replicate 50 7) "" "eth1" 0 19522 99 1 3 2 7 0 1 false true (replicate 65536 0)) r
    /\ hd_error r.(sb_packets) = Some pkt /\ 40 + 8 + zlen pkt = 100 + 22.
Proof.
  apply (@sendBuffer_exceeds_mtu ENDIAN_LITTLE (fun _ _ p => Sent (zlen p)) os_example
    (replicate 50 7) "" "eth1" 0 100 19522 99 1 3 2 7 0 1 true (replicate 65536 0)).
  - reflexivity.
  - reflexivity.
  - vm_compute. congruence.
  - intros. vm_compute. congruence.
  - split; vm_compute; congruence.
  - split; vm_compute; congruence.
  - reflexivity.
  - vm_compute. reflexivity.
  - lia.
  - vm_compute. reflexivity.
  - intros. eexists. reflexivity.
Defined.
