(* ===== verification/Assemble.v ===== *)
(** Reassembly: getCompletePacketizedBuffer of ejfat_assemble_ersap.hpp, the
    statistics it keeps, and readPacketRecvFrom.  The loop of the routine is a
    function of its locals and of one answer of recvfrom.  What it does with a
    packet before copying it (reject, dump, restart or accept) is textually the
    same in getCompleteAllocatedBuffer and is shared with AssembleAlloc.v. *)
From S2P Require Import Prelude Bytes ByteOrder Wire Socket.

(** [enum errorCodes] *)
Inductive errorCodes :=
  | RECV_MSG | TRUNCATED_MSG | BUF_TOO_SMALL | OUT_OF_ORDER | BAD_FIRST_LAST_BIT
  | OUT_OF_MEM | BAD_ARG | NO_REASSEMBLY | NETWORK_ERROR | INTERNAL_ERROR.

Definition error_code (e : errorCodes) : Z :=
  match e with
  | RECV_MSG => -1 | TRUNCATED_MSG => -2 | BUF_TOO_SMALL => -3 | OUT_OF_ORDER => -4
  | BAD_FIRST_LAST_BIT => -5 | OUT_OF_MEM => -6 | BAD_ARG => -7 | NO_REASSEMBLY => -8
  | NETWORK_ERROR => -9 | INTERNAL_ERROR => -10
  end.

(** Packets reach the receiver without the load balancer's header, so that
    HEADER_BYTES is 20 in this header file, and HEADER_BYTES_OLD 18. *)
Definition RECV_HEADER : Z := RE_HEADER_BYTES.
Definition RECV_HEADER_OLD : Z := RE_HEADER_BYTES_OLD.

(** The struct [packetRecvStats]. *)
Record packetRecvStats := mk_stats {
  endTime : Z; startTime : Z; readTime : Z;
  droppedPackets : Z; acceptedPackets : Z; discardedPackets : Z; badSrcIdPackets : Z;
  droppedBytes : Z; acceptedBytes : Z; discardedBytes : Z;
  droppedBuffers : Z; discardedBuffers : Z; builtBuffers : Z;
  cpuPkt : Z; cpuBuf : Z
}.

Definition clearStats (stats : packetRecvStats) : packetRecvStats :=
  mk_stats 0 0 0 0 0 0 0 0 0 0 0 0 0 (-1) (-1).

(** The counters are of type int64_t: an overflow is undefined. *)
Definition count_badSrcId (st : packetRecvStats) : option packetRecvStats :=
  bad ← int64 (st.(badSrcIdPackets) + 1);
  Some (mk_stats st.(endTime) st.(startTime) st.(readTime) st.(droppedPackets) st.(acceptedPackets)
    st.(discardedPackets) bad st.(droppedBytes) st.(acceptedBytes)
    st.(discardedBytes) st.(droppedBuffers) st.(discardedBuffers) st.(builtBuffers)
    st.(cpuPkt) st.(cpuBuf)).

(** [if (takeStats) stats->badSrcIdPackets++] *)
Definition reject_source (stats : option packetRecvStats) : option (option packetRecvStats) :=
  match stats with
  | None => Some None
  | Some st => st ← count_badSrcId st; Some (Some st)
  end.

(** ** Sorting packets *)

(** The locals that decide what becomes of a packet; [stats] is [None] for a
    null pointer. *)
Record sorter := mk_sorter {
  prevTick : Z;
  length_ : Z;              (* length of the buffer, of the last packet parsed *)
  pktCount : Z;
  totalPkts : Z;
  dumpTick : bool;
  veryFirstRead : bool;
  srcId : Z;
  totalBytesRead : Z;
  discPackets : Z;
  discBytes : Z;
  discBufs : Z;
  stats : option packetRecvStats
}.

Definition UINT_MAX : Z := 4294967295.

(** The locals on entry ([pktCount] and [srcId] are not initialised; they are
    assigned before they are used). *)
Definition sorter_start (pktCount0 srcId0 : Z) (stats0 : option packetRecvStats) : sorter :=
  mk_sorter UINT_MAX 0 pktCount0 0 false true srcId0 0 0 0 0 stats0.

(** [if (veryFirstRead) { totalBytesRead = 0; pktCount = 0; }] *)
Definition begin_read (s : sorter) : sorter :=
  if s.(veryFirstRead) then
    mk_sorter s.(prevTick) s.(length_) 0 s.(totalPkts) s.(dumpTick) s.(veryFirstRead) s.(srcId)
      0 s.(discPackets) s.(discBytes) s.(discBufs) s.(stats)
  else s.

(** [(length + (dataBytes - 1))/dataBytes]: a packet without data divides by 0. *)
Definition guess_packets (length dataBytes : Z) : option Z :=
  if decide (dataBytes = 0) then None else Some (u32 (Z.quot (length + (dataBytes - 1)) dataBytes)).

(** The three int64_t locals of what is discarded. *)
Definition discard (s : sorter) (packets bytes : Z) : option (Z * Z * Z) :=
  p ← int64 (s.(discPackets) + packets);
  b ← int64 (s.(discBytes) + bytes);
  n ← int64 (s.(discBufs) + 1);
  Some (p, b, n).

(** New tick or not; [true] if the data of the packet is to be copied. *)
Definition sort_tick (s : sorter) (prevLength prevTotalPkts id offset tick : Z)
    : option (sorter * bool) :=
  if negb (tick =? s.(prevTick)) then
    if negb (offset =? 0) then
      (* the first packet of this tick is missing: dump the tick *)
      '(p, b, n) ← discard s s.(totalPkts) s.(length_);
      Some (mk_sorter tick s.(length_) s.(pktCount) s.(totalPkts) true true s.(srcId)
              s.(totalBytesRead) p b n s.(stats), false)
    else if negb s.(veryFirstRead) then
      (* the last tick was not complete: discard it *)
      '(p, b, n) ← discard s prevTotalPkts prevLength;
      Some (mk_sorter s.(prevTick) s.(length_) 0 s.(totalPkts) false s.(veryFirstRead) id 0
              p b n s.(stats), true)
    else
      Some (mk_sorter s.(prevTick) s.(length_) s.(pktCount) s.(totalPkts) false s.(veryFirstRead)
              s.(srcId) s.(totalBytesRead) s.(discPackets) s.(discBytes) s.(discBufs) s.(stats), true)
  else if s.(dumpTick) then
    Some (mk_sorter s.(prevTick) s.(length_) s.(pktCount) s.(totalPkts) s.(dumpTick) true s.(srcId)
            s.(totalBytesRead) s.(discPackets) s.(discBytes) s.(discBufs) s.(stats), false)
  else Some (s, true).

(** From the parsed header on. *)
Definition sort_packet (s : sorter) (dataBytes id offset length tick : Z) : option (sorter * bool) :=
  let prevLength := s.(length_) in
  let prevTotalPkts := s.(totalPkts) in
  if s.(veryFirstRead) then
    n ← guess_packets length dataBytes;
    sort_tick (mk_sorter s.(prevTick) length s.(pktCount) n s.(dumpTick) s.(veryFirstRead) id
                 s.(totalBytesRead) s.(discPackets) s.(discBytes) s.(discBufs) s.(stats))
      prevLength prevTotalPkts id offset tick
  else if negb (id =? s.(srcId)) then
    st ← reject_source s.(stats);
    Some (mk_sorter s.(prevTick) length s.(pktCount) s.(totalPkts) s.(dumpTick) s.(veryFirstRead)
            s.(srcId) s.(totalBytesRead) s.(discPackets) s.(discBytes) s.(discBufs) st, false)
  else
    sort_tick (mk_sorter s.(prevTick) length s.(pktCount) s.(totalPkts) s.(dumpTick)
                 s.(veryFirstRead) s.(srcId) s.(totalBytesRead) s.(discPackets)
                 s.(discBytes) s.(discBufs) s.(stats))
      prevLength prevTotalPkts id offset tick.

(** After the data has been copied. *)
Definition count_packet (s : sorter) (dataBytes tick : Z) : sorter :=
  mk_sorter tick s.(length_) (u32 (s.(pktCount) + 1)) s.(totalPkts) s.(dumpTick) false s.(srcId)
    (s.(totalBytesRead) + dataBytes) s.(discPackets) s.(discBytes) s.(discBufs) s.(stats).

(** [if (takeStats) ...] at the end; [expectedTick] of all ones is "not known". *)
Definition final_stats (s : sorter) (expectedTick tickPrescale packetTick : Z)
    : option (option packetRecvStats) :=
  match s.(stats) with
  | None => Some None
  | Some st =>
    '(dBufs, dPkts) ←
      (if negb (expectedTick =? 18446744073709551615) then
         diff ← Some (i64 (packetTick - expectedTick));
         diff ← int64 (if diff <? 0 then - diff else diff);
         droppedTicks ← (if decide (tickPrescale = 0) then None else Some (Z.quot diff tickPrescale));
         dBufs ← int64 (st.(droppedBuffers) + droppedTicks);
         pkts ← int64 (droppedTicks * s.(pktCount));
         dPkts ← int64 (st.(droppedPackets) + pkts);
         Some (dBufs, dPkts)
       else Some (st.(droppedBuffers), st.(droppedPackets)));
    aBytes ← int64 (st.(acceptedBytes) + s.(totalBytesRead));
    aPkts ← int64 (st.(acceptedPackets) + s.(pktCount));
    dBytes ← int64 (st.(discardedBytes) + s.(discBytes));
    disPkts ← int64 (st.(discardedPackets) + s.(discPackets));
    disBufs ← int64 (st.(discardedBuffers) + s.(discBufs));
    Some (Some (mk_stats st.(endTime) st.(startTime) st.(readTime) dPkts aPkts disPkts
      st.(badSrcIdPackets) st.(droppedBytes) aBytes dBytes dBufs disBufs
      st.(builtBuffers) st.(cpuPkt) st.(cpuBuf)))
  end.

(** ** getCompletePacketizedBuffer *)

(** The arguments that do not change: [bufLen], the tick passed in, the prescale. *)
Record reader := mk_reader {
  bufLen : Z;
  expectedTick : Z;
  tickPrescale : Z
}.

(** What a call leaves: the return value, the caller's buffer, what is stored
    through [tick] and [dataId] (if not null), and the statistics. *)
Record assembled := mk_assembled {
  a_ret : Z;
  a_buf : list Z;
  a_tick : Z;
  a_dataId : option Z;
  a_stats : option packetRecvStats
}.

Section Read.
Context {host : Host}.

Definition asm_error (r : reader) (e : errorCodes) (s : sorter) (dataBuf : list Z)
    : outcome (sorter * list Z) assembled :=
  Halt (mk_assembled (error_code e) dataBuf r.(expectedTick) None s.(stats)).

Definition getCompletePacketizedBuffer_step (r : reader) (st : sorter * list Z) (ev : recv_event)
    : outcome (sorter * list Z) assembled :=
  let '(s, dataBuf) := st in
  let s := begin_read s in
  match ev with
  | RecvErr _ => asm_error r RECV_MSG s dataBuf
  | Datagram bytes =>
    let pkt := received 65536 bytes in
    let bytesRead := zlen pkt in
    if bytesRead <? RECV_HEADER then asm_error r INTERNAL_ERROR s dataBuf
    else
      let dataBytes := bytesRead - RECV_HEADER in
      match
        '(_, id, offset, length, tick) ← parseReHeader pkt;
        '(s, accept) ← sort_packet s dataBytes id offset length tick;
        Some (s, accept, id, offset, length, tick)
      with
      | None => Stuck
      | Some (s, accept, id, offset, length, tick) =>
        if negb accept then Next (s, dataBuf)
        else if r.(bufLen) <? offset + dataBytes then asm_error r BUF_TOO_SMALL s dataBuf
        else
          match d ← load pkt RECV_HEADER dataBytes; store dataBuf offset d with
          | None => Stuck
          | Some dataBuf =>
            let s := count_packet s dataBytes tick in
            if length <=? s.(totalBytesRead) then
              match final_stats s r.(expectedTick) r.(tickPrescale) tick with
              | None => Stuck
              | Some stats =>
                Halt (mk_assembled s.(totalBytesRead) dataBuf tick (Some id) stats)
              end
            else Next (s, dataBuf)
          end
      end
  end.

(** The call, given what recvfrom returns one call after the other; [Next] means
    that it is still waiting for a packet. *)
Definition getCompletePacketizedBuffer (r : reader) (stats : option packetRecvStats)
    (dataBuf : list Z) (evs : list recv_event) : outcome (sorter * list Z) assembled :=
  feed (getCompletePacketizedBuffer_step r) (sorter_start 0 0 stats, dataBuf) evs.

(** ** readPacketRecvFrom *)

(** One packet into [dataBuf]: the bytes of data (or an error code), the buffer
    and the header fields. *)
Definition readPacketRecvFrom (dataBuf : list Z) (bufLen : Z) (ev : recv_event)
    : result (Z * list Z * option (Z * Z * Z * Z * Z)) :=
  match ev with
  | RecvErr _ => Ok (error_code RECV_MSG, dataBuf, None)
  | Datagram bytes =>
    let pkt := received 65536 bytes in
    let bytesRead := zlen pkt in
    if bytesRead <? RECV_HEADER then Ok (error_code INTERNAL_ERROR, dataBuf, None)
    else if bufLen <? bytesRead then Ok (error_code BUF_TOO_SMALL, dataBuf, None)
    else
      hdr ← checked (parseReHeader pkt);
      let dataBytes := bytesRead - RECV_HEADER in
      d ← checked (load pkt RECV_HEADER dataBytes);
      buf ← checked (store dataBuf 0 d);
      Ok (dataBytes, buf, Some hdr)
  end.

(** The overload for the version 1 header. *)
Definition readPacketRecvFrom_old (dataBuf : list Z) (bufLen : Z) (ev : recv_event)
    : result (Z * list Z * option (Z * bool * bool * Z * Z * Z)) :=
  match ev with
  | RecvErr _ => Ok (error_code RECV_MSG, dataBuf, None)
  | Datagram bytes =>
    let pkt := received 65536 bytes in
    let bytesRead := zlen pkt in
    if bytesRead <? RECV_HEADER_OLD then Ok (error_code INTERNAL_ERROR, dataBuf, None)
    else if bufLen <? bytesRead then Ok (error_code BUF_TOO_SMALL, dataBuf, None)
    else
      hdr ← checked (parseReHeaderOld pkt);
      let dataBytes := bytesRead - RECV_HEADER_OLD in
      d ← checked (load pkt RECV_HEADER_OLD dataBytes);
      buf ← checked (store dataBuf 0 d);
      Ok (dataBytes, buf, Some hdr)
  end.
End Read.

(** ** What is in a packet *)

(** A version 2 packet as it reaches the receiver. *)
Definition re_packet (version id offset length tick reserved : Z) (data : list Z) : list Z :=
  re_bytes offset length tick version id reserved ++ data.

Record packet := mk_packet { p_version : Z; p_reserved : Z; p_id : Z; p_offset : Z;
                             p_length : Z; p_tick : Z; p_data : list Z }.

Definition packet_bytes (p : packet) : list Z :=
  re_packet p.(p_version) p.(p_id) p.(p_offset) p.(p_length) p.(p_tick) p.(p_reserved) p.(p_data).

Definition packet_ok (p : packet) : Prop :=
  is_u16 p.(p_id) /\ is_u32 p.(p_offset) /\ is_u32 p.(p_length) /\ is_u64 p.(p_tick)
  /\ zlen p.(p_data) <= 65536 - RECV_HEADER.

(** The reaction to a well-formed packet, without bytes and parsing. *)
Definition on_packet (r : reader) (s : sorter) (dataBuf : list Z) (p : packet)
    : outcome (sorter * list Z) assembled :=
  let s := begin_read s in
  let n := zlen p.(p_data) in
  match sort_packet s n p.(p_id) p.(p_offset) p.(p_length) p.(p_tick) with
  | None => Stuck
  | Some (s, false) => Next (s, dataBuf)
  | Some (s, true) =>
    if r.(bufLen) <? p.(p_offset) + n then asm_error r BUF_TOO_SMALL s dataBuf
    else
      match store dataBuf p.(p_offset) p.(p_data) with
      | None => Stuck
      | Some dataBuf =>
        let s := count_packet s n p.(p_tick) in
        if p.(p_length) <=? s.(totalBytesRead) then
          match final_stats s r.(expectedTick) r.(tickPrescale) p.(p_tick) with
          | None => Stuck
          | Some stats =>
            Halt (mk_assembled s.(totalBytesRead) dataBuf p.(p_tick) (Some p.(p_id)) stats)
          end
        else Next (s, dataBuf)
      end
  end.

Lemma received_packet {host : Host} p : packet_ok p ->
  received 65536 (packet_bytes p) = packet_bytes p
  /\ zlen (packet_bytes p) = RECV_HEADER + zlen p.(p_data)
  /\ exists v, parseReHeader (packet_bytes p)
      = Some (v, p.(p_id), p.(p_offset), p.(p_length), p.(p_tick)).
Proof.
  intros (Hi & Ho & Hl & Ht & Hd). unfold RECV_HEADER, RE_HEADER_BYTES in *.
  unfold packet_bytes, re_packet.
  split; [apply received_all; rewrite length_app, length_re_bytes; lia|].
  split; [rewrite length_app, length_re_bytes; lia|]. eexists. by rewrite parseReHeader_spec.
Qed.

Lemma load_packet {host : Host} p : load (packet_bytes p) RECV_HEADER (zlen p.(p_data)) = Some p.(p_data).
Proof.
  unfold packet_bytes, re_packet, RECV_HEADER, RE_HEADER_BYTES.
  rewrite load_spec by (rewrite ?length_app, ?length_re_bytes; lia).
  rewrite drop_app_length' by (by rewrite length_re_bytes). by rewrite take_ge by lia.
Qed.

Lemma step_packet {host : Host} r s dataBuf p : packet_ok p ->
  getCompletePacketizedBuffer_step r (s, dataBuf) (Datagram (packet_bytes p)) = on_packet r s dataBuf p.
Proof.
  intros Hok. destruct (received_packet p Hok) as (Hr & Hl & v & Hp).
  unfold getCompletePacketizedBuffer_step, on_packet. rewrite Hr, Hp, Hl.
  rewrite (proj2 (Z.ltb_ge _ RECV_HEADER)) by lia. cbn [mbind option_bind].
  replace (RECV_HEADER + zlen p.(p_data) - RECV_HEADER) with (zlen p.(p_data)) by lia.
  destruct (sort_packet _ _ _ _ _ _) as [[s' []]|]; [|done..]. cbn [mbind option_bind negb].
  by rewrite load_packet.
Qed.

(** ** Reassembly *)

(** The counters a complete buffer adds. *)
Definition add_stats (st : packetRecvStats) (packets bytes bad dPackets dBytes dBufs : Z)
    : packetRecvStats :=
  mk_stats st.(endTime) st.(startTime) st.(readTime) st.(droppedPackets)
    (st.(acceptedPackets) + packets) (st.(discardedPackets) + dPackets)
    (st.(badSrcIdPackets) + bad) st.(droppedBytes) (st.(acceptedBytes) + bytes)
    (st.(discardedBytes) + dBytes) st.(droppedBuffers) (st.(discardedBuffers) + dBufs)
    st.(builtBuffers) st.(cpuPkt) st.(cpuBuf).

(** The counters that a buffer changes have values of their type ... *)
Definition counters_fit (st : packetRecvStats) : Prop :=
  is_i64 st.(acceptedPackets) /\ is_i64 st.(acceptedBytes) /\ is_i64 st.(discardedPackets)
  /\ is_i64 st.(discardedBytes) /\ is_i64 st.(discardedBuffers) /\ is_i64 st.(badSrcIdPackets).

(** ... and still have them when as much was added. *)
Definition room_for (st : option packetRecvStats) (packets bytes bad dPackets dBytes dBufs : Z)
    : Prop :=
  match st with
  | None => True
  | Some st => is_i64 st.(badSrcIdPackets)
               /\ counters_fit (add_stats st packets bytes bad dPackets dBytes dBufs)
  end.

(** A packet of another source is counted. *)
Lemma reject_room st p b k dp db dn : 0 <= k -> room_for st p b (1 + k) dp db dn ->
  exists st', reject_source st = Some st' /\ room_for st' p b k dp db dn
    /\ ((fun st => add_stats st p b k dp db dn) <$> st')
       = ((fun st => add_stats st p b (1 + k) dp db dn) <$> st)
    /\ (st = None -> st' = None).
Proof.
  intros Hk. destruct st as [st|]; [|by exists None]. cbn [room_for].
  unfold counters_fit, is_i64. cbn. intros (Hb & Hc). unfold reject_source, count_badSrcId.
  rewrite int64_ok by (unfold is_i64; lia). cbn [mbind option_bind]. eexists. split; [done|].
  unfold room_for, counters_fit, is_i64. cbn. split; [lia|].
  split; [unfold add_stats; cbn; do 2 f_equal; lia|done].
Qed.

Section Reassembly.
Context {host : Host} (r : reader) (data : list Z) (id tick : Z).
Context (HL : zlen data < 4294967296).

(** A packet that carries a piece of the buffer [data]. *)
Definition piece_of (p : packet) : Prop :=
  p.(p_id) = id /\ p.(p_tick) = tick /\ p.(p_length) = zlen data
  /\ 0 < zlen p.(p_data) /\ p.(p_offset) + zlen p.(p_data) <= zlen data
  /\ p.(p_data) = take (length p.(p_data)) (drop (Z.to_nat p.(p_offset)) data).

(** A packet of the buffer, or one of another source. *)
Definition piece_or_foreign (p : packet) : Prop :=
  packet_ok p /\ (piece_of p \/ p.(p_id) <> id).

Definition is_piece (p : packet) : bool := p.(p_id) =? id.

(** Bytes and packets of the buffer among [ps], and packets of other sources. *)
Fixpoint bytes_in (ps : list packet) : Z :=
  match ps with
  | [] => 0
  | p :: ps => (if is_piece p then zlen p.(p_data) else 0) + bytes_in ps
  end.
Fixpoint count_if (f : packet -> bool) (ps : list packet) : Z :=
  match ps with [] => 0 | p :: ps => (if f p then 1 else 0) + count_if f ps end.

(** Index [i] of the buffer lies in some piece. *)
Definition covered (ps : list packet) (i : nat) : Prop :=
  Exists (fun p => p.(p_id) = id /\ p.(p_offset) <= Z.of_nat i < p.(p_offset) + zlen p.(p_data)) ps.

Definition agrees (buf : list Z) (i : nat) : Prop := buf !! i = data !! i.

(** The piece fits in the buffer. *)
Definition room (buf : list Z) (p : packet) : Prop :=
  p.(p_offset) + zlen p.(p_data) <= r.(bufLen) /\ p.(p_offset) + zlen p.(p_data) <= zlen buf.

Lemma store_piece buf p : packet_ok p -> piece_of p -> p.(p_offset) + zlen p.(p_data) <= zlen buf ->
  exists buf', store buf p.(p_offset) p.(p_data) = Some buf' /\ length buf' = length buf
    /\ (forall i, agrees buf i -> agrees buf' i)
    /\ (forall i, p.(p_offset) <= Z.of_nat i < p.(p_offset) + zlen p.(p_data) -> agrees buf' i)
    /\ (forall i, zlen data <= Z.of_nat i -> buf' !! i = buf !! i).
Proof.
  intros (_ & Ho & _) (_ & _ & _ & Hn & Hend & Hd) Hb. unfold is_u32 in Ho.
  rewrite store_spec by lia. eexists. split; [done|].
  assert (Hin : forall i, p.(p_offset) <= Z.of_nat i < p.(p_offset) + zlen p.(p_data) ->
                p.(p_data) !! (i - Z.to_nat p.(p_offset))%nat = data !! i).
  { intros i Hi. rewrite Hd, lookup_take_lt by lia. rewrite lookup_drop. f_equal. lia. }
  split; [apply length_splice; lia|]. unfold agrees.
  split; [|split]; intros i Hi; rewrite lookup_splice by lia; case_decide; try done; try lia;
    apply Hin; lia.
Qed.

(** In the middle of the tick. *)
Record receiving (s : sorter) : Prop := mk_receiving {
  rc_tick : s.(prevTick) = tick;
  rc_src : s.(srcId) = id;
  rc_dump : s.(dumpTick) = false;
  rc_first : s.(veryFirstRead) = false;
  rc_count : 0 <= s.(pktCount) <= s.(totalBytesRead)
}.

(** No estimate of dropped ticks is made. *)
Definition no_estimate (s : sorter) : Prop :=
  s.(stats) = None \/ r.(expectedTick) = 18446744073709551615.

Lemma final_stats_no_estimate s : no_estimate s ->
  room_for s.(stats) s.(pktCount) s.(totalBytesRead) 0 s.(discPackets) s.(discBytes) s.(discBufs) ->
  final_stats s r.(expectedTick) r.(tickPrescale) tick
    = Some ((fun st => add_stats st s.(pktCount) s.(totalBytesRead) 0 s.(discPackets)
                         s.(discBytes) s.(discBufs)) <$> s.(stats)).
Proof.
  unfold final_stats, no_estimate, add_stats. destruct s.(stats) as [st|]; [|done].
  intros [H|H] (_ & H1 & H2 & H3 & H4 & H5 & _); [done|]. rewrite H. cbn in *.
  rewrite !int64_ok by done. cbn. by rewrite Z.add_0_r.
Qed.

(** The end of the tick, as the caller sees it. *)
Definition complete (s : sorter) (buf : list Z) (ps : list packet) (res : assembled) : Prop :=
  res.(a_ret) = zlen data /\ res.(a_tick) = tick /\ res.(a_dataId) = Some id
  /\ length res.(a_buf) = length buf
  /\ (forall i, agrees buf i \/ covered ps i -> agrees res.(a_buf) i)
  /\ (forall i, zlen data <= Z.of_nat i -> res.(a_buf) !! i = buf !! i)
  /\ res.(a_stats) = (fun st => add_stats st (s.(pktCount) + count_if is_piece ps) (zlen data)
                        (count_if (fun p => negb (is_piece p)) ps)
                        s.(discPackets) s.(discBytes) s.(discBufs)) <$> s.(stats).

(** A packet of the buffer in the middle of the tick: it is accepted. *)
Lemma sort_piece s p : receiving s -> piece_of p ->
  sort_packet (begin_read s) (zlen p.(p_data)) p.(p_id) p.(p_offset) p.(p_length) p.(p_tick)
    = Some (mk_sorter tick (zlen data) s.(pktCount) s.(totalPkts) false false id s.(totalBytesRead)
              s.(discPackets) s.(discBytes) s.(discBufs) s.(stats), true).
Proof.
  intros [] (Hid & Htick & Hlen & _). unfold begin_read. rewrite rc_first0. unfold sort_packet.
  rewrite rc_first0, Hid, rc_src0, Z.eqb_refl. cbn [negb]. unfold sort_tick.
  cbn [prevTick dumpTick]. by rewrite Htick, rc_tick0, Z.eqb_refl, rc_dump0, Hlen.
Qed.

Lemma on_piece s buf p : receiving s -> packet_ok p -> piece_of p -> room buf p ->
  no_estimate s -> s.(totalBytesRead) + zlen p.(p_data) <= zlen data ->
  (s.(totalBytesRead) + zlen p.(p_data) = zlen data ->
   room_for s.(stats) (s.(pktCount) + 1) (zlen data) 0 s.(discPackets) s.(discBytes) s.(discBufs)) ->
  exists buf', store buf p.(p_offset) p.(p_data) = Some buf' /\
  let s' := count_packet (mk_sorter s.(prevTick) (zlen data) s.(pktCount) s.(totalPkts) false false
              id s.(totalBytesRead) s.(discPackets) s.(discBytes) s.(discBufs) s.(stats))
              (zlen p.(p_data)) tick in
  receiving s' /\ no_estimate s' /\
  on_packet r s buf p =
    if s.(totalBytesRead) + zlen p.(p_data) =? zlen data then
      Halt (mk_assembled (zlen data) buf' tick (Some id)
        ((fun st => add_stats st (s.(pktCount) + 1) (zlen data) 0 s.(discPackets) s.(discBytes)
            s.(discBufs)) <$> s.(stats)))
    else Next (s', buf').
Proof using HL.
  intros [] Hok Hp [Hbl Hb] Hst Hsum Hfit.
  destruct (store_piece buf p Hok Hp Hb) as (buf' & Hstore & _).
  pose proof (sort_piece s p ltac:(by constructor) Hp) as Hsort.
  destruct Hp as (Hid & Htick & Hlen & Hn & Hend & Hd).
  exists buf'. split; [done|]. cbv zeta. split; [|split].
  - constructor; cbn; try done. rewrite u32_small by lia. lia.
  - done.
  - unfold on_packet. rewrite Hsort, Hid, Htick.
    rewrite (proj2 (Z.ltb_ge r.(bufLen) _)) by lia. rewrite Hstore.
    unfold count_packet. cbn [totalBytesRead]. rewrite Hlen.
    assert (Hu : u32 (s.(pktCount) + 1) = s.(pktCount) + 1) by (apply u32_small; lia).
    destruct (Z.eqb_spec (s.(totalBytesRead) + zlen p.(p_data)) (zlen data)) as [He|He].
    + rewrite He, Z.leb_refl.
      rewrite final_stats_no_estimate by (cbn [stats pktCount totalBytesRead discPackets discBytes
        discBufs]; rewrite ?Hu; auto). cbn [stats pktCount totalBytesRead discPackets].
      rewrite Hu. done.
    + by rewrite (proj2 (Z.leb_gt _ _)) by lia.
Qed.

Lemma on_foreign s buf p st' : receiving s -> p.(p_id) <> id -> reject_source s.(stats) = Some st' ->
  let s' := mk_sorter s.(prevTick) p.(p_length) s.(pktCount) s.(totalPkts) s.(dumpTick) false
              id s.(totalBytesRead) s.(discPackets) s.(discBytes) s.(discBufs)
              st' in
  receiving s' /\ on_packet r s buf p = Next (s', buf).
Proof using data id tick.
  intros [] Hid Hrej. cbv zeta. split; [by constructor|].
  unfold on_packet, begin_read. rewrite rc_first0. unfold sort_packet. rewrite rc_first0.
  rewrite rc_src0, (proj2 (Z.eqb_neq _ id)) by done. by rewrite Hrej.
Qed.

Lemma count_if_nonneg f ps : 0 <= count_if f ps.
Proof. clear HL. induction ps as [|p ps IH]; cbn [count_if]; [lia|]. case_match; lia. Qed.

Lemma bytes_in_nonneg ps : 0 <= bytes_in ps.
Proof. clear HL. induction ps as [|p ps IH]; cbn [bytes_in]; [lia|]. case_match; lia. Qed.

(** The last packet is one of the buffer (what follows it is not read). *)
Definition ends_in_piece (ps : list packet) : Prop :=
  match last ps with Some q => is_piece q = true | None => True end.

Lemma ends_in_piece_tail p ps : ends_in_piece (p :: ps) -> ends_in_piece ps.
Proof. unfold ends_in_piece. by destruct ps. Qed.

Lemma nothing_left ps : Forall piece_or_foreign ps -> ends_in_piece ps -> bytes_in ps = 0 -> ps = [].
Proof.
  induction ps as [|p ps IH]; [done|]. intros [[_ Hp] Hps]%Forall_cons He Hb. exfalso.
  pose proof (bytes_in_nonneg ps). cbn [bytes_in] in Hb.
  assert (Hps0 : ps = []).
  { apply IH; [done|by eapply ends_in_piece_tail|]. case_match; lia. }
  subst ps. unfold ends_in_piece in He. cbn in He. rewrite He in Hb. cbn [bytes_in] in Hb.
  unfold is_piece in He. apply Z.eqb_eq in He. destruct Hp as [(_ & _ & _ & ? & _)|]; [lia|done].
Qed.

Context (Hbuf : zlen data <= r.(bufLen)).

Lemma piece_room buf p : piece_of p -> zlen data <= zlen buf -> room buf p.
Proof using Hbuf. intros (_ & _ & _ & _ & ? & _) ?. split; lia. Qed.

Lemma feed_tick ps : forall s buf,
  receiving s -> Forall piece_or_foreign ps -> zlen data <= zlen buf -> no_estimate s ->
  s.(totalBytesRead) < zlen data -> s.(totalBytesRead) + bytes_in ps = zlen data ->
  ends_in_piece ps ->
  room_for s.(stats) (s.(pktCount) + count_if is_piece ps) (zlen data)
    (count_if (fun p => negb (is_piece p)) ps) s.(discPackets) s.(discBytes) s.(discBufs) ->
  exists res, feed (getCompletePacketizedBuffer_step r) (s, buf)
                (map (fun p => Datagram (packet_bytes p)) ps) = Halt res
              /\ complete s buf ps res.
Proof using HL Hbuf.
  induction ps as [|p ps IH]; intros s buf Hr Hps Hb Hst Hlt Hsum Hend Hfit; [cbn in Hsum; lia|].
  apply Forall_cons in Hps as [[Hok Hp] Hps]. cbn [map feed]. rewrite step_packet by done.
  cbn [bytes_in] in Hsum. cbn [count_if] in Hfit. pose proof (bytes_in_nonneg ps).
  apply ends_in_piece_tail in Hend as Hend'.
  destruct (decide (p.(p_id) = id)) as [Hid|Hid].
  - destruct Hp as [Hp|]; [|done].
    assert (Hpi : is_piece p = true) by (unfold is_piece; by rewrite Hid, Z.eqb_refl).
    rewrite Hpi in Hsum, Hfit. cbn [negb] in Hfit. rewrite Z.add_0_l in Hfit.
    destruct (on_piece s buf p Hr Hok Hp (piece_room _ _ Hp Hb) Hst ltac:(lia)) as (buf' & Hs & Hr' & Hst' & ->).
    { intros He. by rewrite (nothing_left ps), Z.add_0_r in Hfit by (done || lia). }
    destruct (store_piece buf p Hok Hp (proj2 (piece_room _ _ Hp Hb))) as (b2 & Hs2 & Hlen & Hkeep & Hnew & Hout).
    rewrite Hs in Hs2. injection Hs2 as <-.
    destruct (Z.eqb_spec (s.(totalBytesRead) + zlen p.(p_data)) (zlen data)) as [He|He].
    + rewrite (nothing_left ps) by (done || lia). eexists. split; [done|].
      repeat split; try done; cbn [a_buf a_stats count_if].
      * intros i [Hi|[[_ Hi]|Hi%Exists_nil]%Exists_cons]; auto. done.
      * rewrite Hpi. destruct s.(stats); [|done]. cbn. do 2 f_equal; lia.
    + destruct (IH _ buf' Hr' Hps) as (res & -> & Hres); [by rewrite Hlen|done|cbn; lia|cbn; lia|done| |].
      { cbn [stats pktCount discPackets discBytes discBufs count_packet]. destruct Hr.
        rewrite u32_small by lia. by rewrite <- Z.add_assoc. }
      exists res. split; [done|]. destruct Hres as (?&?&?&Hl'&Hag&Hout'&Hstats).
      repeat split; try done; [by rewrite Hl'| | |].
      * intros i [Hi|[[_ Hi]|Hi]%Exists_cons]; apply Hag; auto.
      * intros i Hi. rewrite Hout', Hout by done. done.
      * rewrite Hstats. cbn [stats pktCount discPackets discBytes discBufs count_packet].
        destruct Hr. rewrite u32_small by lia. cbn [count_if]. rewrite Hpi. cbn [negb].
        destruct s.(stats); [|done]. cbn. do 2 f_equal; lia.
  - assert (Hpi : is_piece p = false) by (unfold is_piece; by apply Z.eqb_neq).
    rewrite Hpi in Hsum, Hfit. cbn [negb] in Hfit. rewrite Z.add_0_l in Hfit.
    destruct (reject_room _ _ _ _ _ _ _ (count_if_nonneg _ ps) Hfit) as (st' & Hrej & Hfit' & Hadd & Hnone).
    destruct (on_foreign s buf p st' Hr Hid Hrej) as [Hr' ->].
    destruct (IH _ buf Hr' Hps Hb) as (res & -> & Hres); [|done|done|done|done|].
    { destruct Hst as [H0|]; [|by right]. left. by apply Hnone. }
    exists res. split; [done|]. destruct Hres as (?&?&?&Hl'&Hag&Hout'&Hstats).
    repeat split; try done.
    + intros i [Hi|[[? Hi]|Hi]%Exists_cons]; [apply Hag; auto|done|apply Hag; auto].
    + rewrite Hstats. cbn [stats pktCount discPackets discBytes discBufs count_if].
      rewrite Hpi. cbn [negb]. by rewrite Z.add_0_l, Hadd.
Qed.

(** As long as bytes are missing the loop goes on. *)
Lemma feed_partial ps : forall s buf,
  receiving s -> Forall piece_or_foreign ps -> zlen data <= zlen buf -> no_estimate s ->
  s.(totalBytesRead) + bytes_in ps < zlen data ->
  room_for s.(stats) 0 0 (count_if (fun p => negb (is_piece p)) ps) 0 0 0 ->
  exists s' buf', feed (getCompletePacketizedBuffer_step r) (s, buf)
                    (map (fun p => Datagram (packet_bytes p)) ps) = Next (s', buf')
    /\ receiving s' /\ s'.(totalBytesRead) = s.(totalBytesRead) + bytes_in ps
    /\ length buf' = length buf.
Proof using HL Hbuf.
  induction ps as [|p ps IH]; intros s buf Hr Hps Hb Hst Hsum Hfit.
  { exists s, buf. cbn. repeat split; try apply Hr. lia. }
  apply Forall_cons in Hps as [[Hok Hp] Hps]. cbn [map feed]. rewrite step_packet by done.
  cbn [bytes_in count_if] in *. pose proof (bytes_in_nonneg ps).
  destruct (decide (p.(p_id) = id)) as [Hid|Hid].
  - destruct Hp as [Hp|]; [|done].
    assert (Hpi : is_piece p = true) by (unfold is_piece; by rewrite Hid, Z.eqb_refl).
    rewrite Hpi in *. cbn [negb] in Hfit. rewrite Z.add_0_l in Hfit.
    destruct (on_piece s buf p Hr Hok Hp (piece_room _ _ Hp Hb) Hst ltac:(lia)) as (buf' & Hs & Hr' & Hst' & ->);
      [lia|].
    apply store_length in Hs as Hl. rewrite (proj2 (Z.eqb_neq _ (zlen data))) by lia.
    destruct (IH _ buf' Hr' Hps) as (s'' & b'' & -> & Hr'' & Ht & Hl'');
      [by rewrite Hl|done|cbn; lia|done|].
    exists s'', b''. repeat split; try apply Hr''; [|by rewrite Hl'']. rewrite Ht. cbn. lia.
  - assert (Hpi : is_piece p = false) by (unfold is_piece; by apply Z.eqb_neq).
    rewrite Hpi in *. cbn [negb] in Hfit.
    destruct (reject_room _ _ _ _ _ _ _ (count_if_nonneg _ ps) Hfit) as (st' & Hrej & Hfit' & _ & Hnone).
    destruct (on_foreign s buf p st' Hr Hid Hrej) as [Hr' ->].
    destruct (IH _ buf Hr' Hps Hb) as (s'' & b'' & -> & Hr'' & Ht & Hl'');
      [destruct Hst as [H0|]; [left; by apply Hnone|by right]|cbn; lia|done|].
    exists s'', b''. repeat split; try apply Hr''; [|done]. rewrite Ht. cbn. lia.
Qed.

(** The next packet may be the first one of the tick: nothing was read yet, the
    last tick was dumped, or it is incomplete and of the same source. *)
Definition ready (s : sorter) : Prop :=
  s.(prevTick) <> tick /\ (s.(veryFirstRead) = true \/ s.(srcId) = id).

(** What an incomplete tick adds to the counts of what is discarded. *)
Definition discarded (s : sorter) : Z * Z * Z :=
  if s.(veryFirstRead) then (s.(discPackets), s.(discBytes), s.(discBufs))
  else (s.(discPackets) + s.(totalPkts), s.(discBytes) + s.(length_), s.(discBufs) + 1).

Definition discard_fits (s : sorter) : Prop :=
  is_i64 (discarded s).1.1 /\ is_i64 (discarded s).1.2 /\ is_i64 (discarded s).2.

(** The first packet of a tick is accepted, and starts the counts afresh. *)
Definition started (s : sorter) (n bytes : Z) : sorter :=
  mk_sorter tick (zlen data) 1 (if s.(veryFirstRead) then n else s.(totalPkts)) false
    false id bytes (discarded s).1.1 (discarded s).1.2 (discarded s).2 s.(stats).

Lemma sort_first s p n : ready s -> discard_fits s -> piece_of p -> p.(p_offset) = 0 ->
  guess_packets (zlen data) (zlen p.(p_data)) = Some n ->
  exists s0, sort_packet (begin_read s) (zlen p.(p_data)) p.(p_id) p.(p_offset) p.(p_length)
      p.(p_tick) = Some (s0, true)
    /\ count_packet s0 (zlen p.(p_data)) tick = started s n (zlen p.(p_data)).
Proof.
  intros [Htk Hsrc] Hfits (Hid & Htick & Hlen & _) Hoff Hguess.
  unfold sort_packet, begin_read, started, discard_fits, discarded in *. rewrite Hid, Hlen, Htick, Hoff.
  apply Z.eqb_neq in Htk. destruct s.(veryFirstRead) eqn:Hv; cbn [veryFirstRead].
  - rewrite Hguess. cbn [mbind option_bind]. unfold sort_tick. cbn [prevTick].
    rewrite Z.eqb_sym, Htk. cbn. by eexists.
  - destruct Hsrc as [|Hsrc]; [done|]. rewrite Hv, Hsrc, Z.eqb_refl. cbn [negb].
    unfold sort_tick. cbn [prevTick]. rewrite Z.eqb_sym, Htk. cbn [negb veryFirstRead].
    destruct Hfits as (Hf1 & Hf2 & Hf3). unfold discard. cbn in *. rewrite !int64_ok by done. by eexists.
Qed.

Lemma guess_piece p : piece_of p -> exists n, guess_packets (zlen data) (zlen p.(p_data)) = Some n.
Proof.
  intros (_ & _ & _ & Hn & _). unfold guess_packets. rewrite decide_False by lia. eauto.
Qed.

Lemma on_first s buf p : ready s -> discard_fits s -> packet_ok p -> piece_of p -> p.(p_offset) = 0 ->
  room buf p -> no_estimate s ->
  (zlen p.(p_data) = zlen data -> room_for s.(stats) 1 (zlen data) 0 (discarded s).1.1
     (discarded s).1.2 (discarded s).2) ->
  exists buf' s', store buf p.(p_offset) p.(p_data) = Some buf'
    /\ receiving s' /\ no_estimate s' /\ s'.(totalBytesRead) = zlen p.(p_data)
    /\ s'.(pktCount) = 1 /\ s'.(stats) = s.(stats)
    /\ (s'.(discPackets), s'.(discBytes), s'.(discBufs)) = discarded s
    /\ on_packet r s buf p =
         if zlen p.(p_data) =? zlen data then
           Halt (mk_assembled (zlen data) buf' tick (Some id)
             ((fun st => add_stats st 1 (zlen data) 0 s'.(discPackets) s'.(discBytes)
                 s'.(discBufs)) <$> s.(stats)))
         else Next (s', buf').
Proof using HL.
  intros Hr Hdf Hok Hp Hoff [Hbl Hb] Hst Hfit.
  destruct (store_piece buf p Hok Hp Hb) as (buf' & Hstore & _).
  destruct (guess_piece p Hp) as [n Hguess].
  destruct (sort_first s p n Hr Hdf Hp Hoff Hguess) as (s0 & Hsort & Hc).
  destruct Hp as (Hid & Htick & Hlen & Hn & Hend & Hd). exists buf'.
  pose (s1 := started s n (zlen p.(p_data))).
  exists s1. split; [done|].
  split; [constructor; cbn; try done; lia|]. split; [done|]. split; [done|].
  split; [done|]. split; [done|]. split; [unfold s1, started, discarded; by destruct s.(veryFirstRead)|].
  unfold on_packet. rewrite Hsort.
  rewrite (proj2 (Z.ltb_ge r.(bufLen) _)) by lia. rewrite Hstore, Htick, Hc, Hlen. fold s1.
  change (totalBytesRead s1) with (zlen p.(p_data)).
  destruct (Z.eqb_spec (zlen p.(p_data)) (zlen data)) as [He|He].
  - rewrite He, Z.leb_refl. rewrite (final_stats_no_estimate s1)
      by (done || (cbn; rewrite He; by apply Hfit)). cbn. by rewrite He, Hid.
  - by rewrite (proj2 (Z.leb_gt _ _)) by lia.
Qed.

(** A whole tick from the first packet on. *)
Lemma feed_whole_tick s buf p ps :
  ready s -> discard_fits s -> packet_ok p -> piece_of p -> p.(p_offset) = 0 ->
  Forall piece_or_foreign ps -> ends_in_piece ps -> zlen p.(p_data) + bytes_in ps = zlen data ->
  zlen data <= zlen buf -> no_estimate s ->
  room_for s.(stats) (1 + count_if is_piece ps) (zlen data) (count_if (fun p => negb (is_piece p)) ps)
    (discarded s).1.1 (discarded s).1.2 (discarded s).2 ->
  exists res, feed (getCompletePacketizedBuffer_step r) (s, buf)
                (map (fun p => Datagram (packet_bytes p)) (p :: ps)) = Halt res
    /\ res.(a_ret) = zlen data /\ res.(a_tick) = tick /\ res.(a_dataId) = Some id
    /\ length res.(a_buf) = length buf
    /\ (forall i, covered (p :: ps) i -> agrees res.(a_buf) i)
    /\ (forall i, zlen data <= Z.of_nat i -> res.(a_buf) !! i = buf !! i)
    /\ res.(a_stats) = (fun st => add_stats st (1 + count_if is_piece ps) (zlen data)
                          (count_if (fun p => negb (is_piece p)) ps)
                          (discarded s).1.1 (discarded s).1.2 (discarded s).2) <$> s.(stats).
Proof using HL Hbuf.
  intros Hr Hdf Hok Hp Hoff Hps Hend Hsum Hb Hst Hfit.
  cbn [map feed]. rewrite step_packet by done.
  destruct (on_first s buf p Hr Hdf Hok Hp Hoff (piece_room _ _ Hp Hb) Hst)
    as (buf' & s' & Hs & Hr' & Hst' & Ht & Hc & Hss & Hdisc & ->).
  { intros He. by rewrite (nothing_left ps) in Hfit by (done || lia). }
  destruct (store_piece buf p Hok Hp (proj2 (piece_room _ _ Hp Hb))) as (b2 & Hs2 & Hlen & Hkeep & Hnew & Hout).
  rewrite Hs in Hs2. injection Hs2 as <-. pose proof (bytes_in_nonneg ps).
  destruct (Z.eqb_spec (zlen p.(p_data)) (zlen data)) as [He|He].
  - rewrite (nothing_left ps) by (done || lia). eexists. split; [done|].
    repeat split; try done; cbn [a_buf a_stats].
    + intros i [[_ Hi]|Hi%Exists_nil]%Exists_cons; auto. done.
    + rewrite <- Hdisc. cbn. destruct s.(stats); done.
  - destruct (feed_tick ps s' buf' Hr' Hps) as (res & -> & Hres); try done;
      [by rewrite Hlen|lia|lia| |].
    { rewrite Hss, Hc. by rewrite <- Hdisc in Hfit. }
    exists res. split; [done|]. destruct Hres as (?&?&?&Hl'&Hag&Hout'&Hstats).
    repeat split; try done; [by rewrite Hl'| | |].
    + intros i [[_ Hi]|Hi]%Exists_cons; apply Hag; auto.
    + intros i Hi. rewrite Hout', Hout by done. done.
    + by rewrite Hstats, Hss, Hc, <- Hdisc.
Qed.
End Reassembly.

(** The same, when every byte of the buffer is in some piece. *)
Lemma feed_complete_tick {host : Host} r data id tick s buf p ps :
  zlen data < 4294967296 -> zlen data <= r.(bufLen) -> r.(bufLen) <= zlen buf ->
  ready id tick s -> discard_fits s -> packet_ok p -> piece_of data id tick p -> p.(p_offset) = 0 ->
  Forall (piece_or_foreign data id tick) ps -> ends_in_piece id ps ->
  zlen p.(p_data) + bytes_in id ps = zlen data -> no_estimate r s ->
  room_for s.(stats) (1 + count_if (is_piece id) ps) (zlen data)
    (count_if (fun p => negb (is_piece id p)) ps)
    (discarded s).1.1 (discarded s).1.2 (discarded s).2 ->
  (forall i, (i < length data)%nat -> covered id (p :: ps) i) ->
  feed (getCompletePacketizedBuffer_step r) (s, buf)
       (map (fun p => Datagram (packet_bytes p)) (p :: ps))
    = Halt (mk_assembled (zlen data) (data ++ drop (length data) buf) tick (Some id)
        ((fun st => add_stats st (1 + count_if (is_piece id) ps) (zlen data)
            (count_if (fun p => negb (is_piece id p)) ps)
            (discarded s).1.1 (discarded s).1.2 (discarded s).2) <$> s.(stats))).
Proof.
  intros HL Hbuf Hlen Hr Hdf Hok Hp Hoff Hps Hend Hsum Hst Hfit Hcov.
  destruct (feed_whole_tick r data id tick HL Hbuf s buf p ps)
    as (res & -> & Hret & Htk & Hid & Hl & Hag & Hout & Hstats); try done; try lia.
  f_equal. destruct res as [ret b tk i' sts].
  cbn [a_ret a_buf a_tick a_dataId a_stats] in *. subst ret tk i' sts.
  f_equal. apply list_eq. intros i. destruct (decide (i < length data)%nat) as [Hi|Hi].
  - rewrite lookup_app_l by done. by apply Hag, Hcov.
  - rewrite Hout, lookup_app_r, lookup_drop by lia. f_equal. lia.
Qed.

(** ** Safety of the loop *)

Lemma parseReHeader_some {host : Host} pkt : 20 <= zlen pkt -> is_Some (parseReHeader pkt).
Proof.
  intros. unfold parseReHeader, get8, get16, get32, get64.
  repeat (rewrite load_spec by lia; cbn [mbind option_bind fmap option_fmap option_map]). by eexists.
Qed.

(** A datagram that is not made of the 20 header bytes alone. *)
Definition not_empty (ev : recv_event) : Prop :=
  match ev with Datagram bytes => zlen bytes <> RECV_HEADER | RecvErr _ => True end.

(** The ranges of the locals after [k] packets: nothing has overflowed. *)
Record sane (k : Z) (s : sorter) : Prop := mk_sane {
  sn_length : is_u32 s.(length_);
  sn_pktCount : 0 <= s.(pktCount) <= k;
  sn_totalPkts : is_u32 s.(totalPkts);
  sn_total : is_u32 s.(totalBytesRead);
  sn_discPackets : 0 <= s.(discPackets) <= k * 4294967296;
  sn_discBytes : 0 <= s.(discBytes) <= k * 4294967296;
  sn_discBufs : 0 <= s.(discBufs) <= k
}.

(** Statistics that were below 2^62 before the [k] packets. *)
Definition small (k : Z) (st : packetRecvStats) : Prop :=
  Forall (fun v => 0 <= v < 4611686018427387904)
    [st.(droppedPackets); st.(acceptedPackets); st.(discardedPackets); st.(acceptedBytes);
     st.(discardedBytes); st.(droppedBuffers); st.(discardedBuffers)]
  /\ 0 <= st.(badSrcIdPackets) < 4611686018427387904 + k.

Definition stats_small (k : Z) (stats : option packetRecvStats) : Prop :=
  match stats with None => True | Some st => small k st end.

Ltac solve_sane := split_and?; try done; try (constructor; cbn in *; unfold is_u32 in *; lia).

Lemma begin_read_stats s : stats (begin_read s) = s.(stats).
Proof. unfold begin_read. by destruct s.(veryFirstRead). Qed.

Lemma begin_read_sane k s : 0 <= k -> sane k s -> sane k (begin_read s).
Proof. intros Hk []. unfold begin_read. destruct s.(veryFirstRead); solve_sane. Qed.

Lemma discard_sane k s packets bytes : 0 <= k < 1073741824 -> sane k s -> is_u32 packets -> is_u32 bytes ->
  discard s packets bytes = Some (s.(discPackets) + packets, s.(discBytes) + bytes, s.(discBufs) + 1).
Proof. intros Hk []. unfold is_u32, discard. intros. by rewrite !int64_ok by (unfold is_i64; lia). Qed.

Lemma sort_tick_sane k s pl pt id off tick : 0 <= k < 1073741824 -> sane k s -> is_u32 pl -> is_u32 pt ->
  exists s' b, sort_tick s pl pt id off tick = Some (s', b) /\ s'.(length_) = s.(length_)
    /\ s'.(stats) = s.(stats) /\ sane (k + 1) s' /\ s'.(pktCount) <= k.
Proof.
  intros Hk Hs Hpl Hpt. pose proof Hs as []. unfold sort_tick.
  destruct (negb (tick =? _)); [destruct (negb (off =? 0)); [|destruct (negb s.(veryFirstRead))]|destruct s.(dumpTick)];
    rewrite ?(discard_sane k) by done; cbn [mbind option_bind]; eexists _, _; (split; [reflexivity|]); solve_sane; cbn; lia.
Qed.

Lemma stats_small_weaken k stats : stats_small k stats -> stats_small (k + 1) stats.
Proof. unfold stats_small, small. destruct stats as [st|]; [|done]. intros [? ?]. split; [done|lia]. Qed.

Lemma reject_small k stats : 0 <= k < 1073741824 -> stats_small k stats ->
  exists stats', reject_source stats = Some stats' /\ stats_small (k + 1) stats' /\ (stats = None -> stats' = None).
Proof.
  intros Hk. destruct stats as [st|]; [|by exists None]. intros [Hf Hb]. unfold reject_source, count_badSrcId.
  rewrite int64_ok by (unfold is_i64; lia). cbn [mbind option_bind]. eexists. split; [done|].
  split; [|done]. split; [exact Hf|cbn; lia].
Qed.

Ltac finish_sort :=
  match goal with
  | Hk : _ <= ?k < _ |- context [sort_tick ?s ?a ?b ?c ?d ?e] =>
    destruct (sort_tick_sane k s a b c d e) as (s' & acc & -> & Hl & Hs' & Hsn & Hp);
      [exact Hk|constructor; cbn; try done; apply u32_range|done|done|];
    exists s', acc; rewrite Hs'; cbn; split_and!; try done; by apply stats_small_weaken
  end.

Lemma sort_packet_sane k s n id off len tick : 0 <= k < 1073741824 -> n <> 0 -> is_u32 len ->
  sane k s -> stats_small k s.(stats) ->
  exists s' b, sort_packet s n id off len tick = Some (s', b) /\ s'.(length_) = len
    /\ sane (k + 1) s' /\ s'.(pktCount) <= k /\ stats_small (k + 1) s'.(stats)
    /\ (s.(stats) = None -> s'.(stats) = None).
Proof.
  intros Hk Hn Hlen Hs Hst. pose proof Hs as []. unfold sort_packet. destruct s.(veryFirstRead).
  - unfold guess_packets. rewrite decide_False by done. cbn [mbind option_bind].
    finish_sort.
  - destruct (negb (id =? _)); [|finish_sort].
    destruct (reject_small k _ Hk Hst) as (st' & -> & Hsm & Hnone). cbn [mbind option_bind].
    eexists _, _. split; [done|]. solve_sane. cbn. lia.
Qed.

Lemma parseReHeader_ranges {host : Host} pkt v id off len tk :
  parseReHeader pkt = Some (v, id, off, len, tk) -> is_u32 off /\ is_u32 len.
Proof.
  intros Hp. unfold parseReHeader in Hp. repeat (apply option_bind_Some in Hp as (? & ? & Hp)).
  injection Hp as <- <- <- <- <-. split; apply htonl_range.
Qed.

(** The estimate of dropped ticks can be made: no tick is expected, or the prescale
    is not 0 and the tick of the datagram is within 2^31 of the one expected. *)
Definition estimable {host : Host} (r : reader) (ev : recv_event) : Prop :=
  r.(expectedTick) = 18446744073709551615
  \/ 0 < r.(tickPrescale) /\
     match ev with
     | Datagram bytes => forall v id off len tick,
         parseReHeader (received 65536 bytes) = Some (v, id, off, len, tick) ->
         Z.abs (i64 (tick - r.(expectedTick))) < 2147483648
     | RecvErr _ => True
     end.

Lemma final_stats_small k s r tick : 0 <= k <= 1073741824 ->
  0 <= s.(pktCount) <= k -> 0 <= s.(totalBytesRead) < 8589934592 ->
  0 <= s.(discPackets) <= k * 4294967296 -> 0 <= s.(discBytes) <= k * 4294967296 ->
  0 <= s.(discBufs) <= k ->
  s.(stats) = None \/ (stats_small k s.(stats) /\
    (r.(expectedTick) = 18446744073709551615
     \/ 0 < r.(tickPrescale) /\ Z.abs (i64 (tick - r.(expectedTick))) < 2147483648)) ->
  is_Some (final_stats s r.(expectedTick) r.(tickPrescale) tick).
Proof.
  intros Hk ????? Hst. unfold final_stats. destruct s.(stats) as [st|]; [|by eexists].
  destruct Hst as [|[[Hf _] Hest]]; [done|]. unfold is_u32 in *.
  repeat (apply Forall_cons in Hf as [? Hf]).
  assert (exists b p, (if negb (r.(expectedTick) =? 18446744073709551615) then
      diff ← Some (i64 (tick - r.(expectedTick)));
      diff ← int64 (if diff <? 0 then - diff else diff);
      droppedTicks ← (if decide (r.(tickPrescale) = 0) then None else Some (Z.quot diff r.(tickPrescale)));
      dBufs ← int64 (st.(droppedBuffers) + droppedTicks);
      pkts ← int64 (droppedTicks * s.(pktCount));
      dPkts ← int64 (st.(droppedPackets) + pkts);
      Some (dBufs, dPkts)
    else Some (st.(droppedBuffers), st.(droppedPackets))) = Some (b, p)) as (b & p & ->).
  - destruct (Z.eqb_spec r.(expectedTick) 18446744073709551615) as [|Hx]; cbn [negb]; [by eexists _, _|].
    destruct Hest as [|[Hpre Hd]]; [done|]. cbn [mbind option_bind].
    set (d := i64 _) in *. clearbody d.
    assert (He : 0 <= (if d <? 0 then - d else d) < 2147483648) by (destruct (Z.ltb_spec d 0); lia).
    set (e := if d <? 0 then - d else d) in *. clearbody e. clear d Hd.
    rewrite (int64_ok e) by (unfold is_i64; lia). cbn [mbind option_bind].
    rewrite decide_False by lia. cbn [mbind option_bind].
    assert (Hq : 0 <= Z.quot e r.(tickPrescale) <= e)
      by (split; [apply Z.quot_pos; lia|apply Z.quot_le_upper_bound; nia]).
    set (q := Z.quot _ _) in *. clearbody q.
    assert (0 <= q * s.(pktCount) <= 2147483648 * 1073741824) by nia.
    repeat (rewrite int64_ok by (unfold is_i64; lia); cbn [mbind option_bind]). by eexists _, _.
  - cbn [mbind option_bind].
    repeat (rewrite int64_ok by (unfold is_i64; lia); cbn [mbind option_bind]). by eexists.
Qed.

(** Only the first [bufLen] bytes of the caller's buffer were written. *)
Definition within (r : reader) (buf buf' : list Z) : Prop :=
  length buf' = length buf /\ forall i, r.(bufLen) <= Z.of_nat i -> buf' !! i = buf !! i.

Lemma step_safe {host : Host} (given : bool) k r st ev :
  0 <= k < 1073741824 -> r.(bufLen) <= zlen st.2 -> not_empty ev ->
  sane k st.1 -> stats_small k st.1.(stats) ->
  (if given then estimable r ev else st.1.(stats) = None) ->
  match getCompletePacketizedBuffer_step r st ev with
  | Next st' => within r st.2 st'.2 /\ sane (k + 1) st'.1 /\ stats_small (k + 1) st'.1.(stats)
                /\ (if given then True else st'.1.(stats) = None)
  | Halt res => within r st.2 res.(a_buf)
  | Stuck => False
  end.
Proof.
  destruct st as [s buf]. cbn [fst snd]. intros Hk Hb He Hs Hsm Hg. unfold getCompletePacketizedBuffer_step.
  pose proof (begin_read_sane k s ltac:(lia) Hs) as Hs0. pose proof (begin_read_stats s) as Hst0. set (s0 := begin_read s) in *. clearbody s0.
  destruct ev as [bytes|]; [|done]. cbn in He. unfold RECV_HEADER, RE_HEADER_BYTES in *.
  assert (Hlen : zlen (received 65536 bytes) <> 20 /\ zlen (received 65536 bytes) <= 65536)
    by (rewrite length_received; lia).
  unfold estimable in Hg. set (pkt := received 65536 bytes) in *. clearbody pkt.
  destruct (Z.ltb_spec (zlen pkt) 20); [done|].
  destruct (parseReHeader_some pkt ltac:(lia)) as [[[[[v id] off] len] tk] Hp].
  rewrite Hp. cbn [mbind option_bind]. destruct (parseReHeader_ranges _ _ _ _ _ _ Hp) as [Hoff Hl32].
  rewrite <- Hst0 in Hsm.
  destruct (sort_packet_sane k s0 (zlen pkt - 20) id off len tk Hk ltac:(lia) Hl32 Hs0 Hsm)
    as (s' & acc & -> & Hl' & Hs' & Hpc & Hsm' & Hnone). rewrite Hst0 in Hnone.
  cbn [mbind option_bind]. destruct acc; cbn [negb]; [|split; [done|]; split; [done|]; split; [done|];
    destruct given; auto].
  unfold is_u32 in *. destruct (Z.ltb_spec r.(bufLen) (off + (zlen pkt - 20))); [done|].
  rewrite load_spec by lia. cbn [mbind option_bind].
  rewrite store_spec by (rewrite ?length_take, ?length_drop; lia).
  set (d := take (Z.to_nat (zlen pkt - 20)) _).
  assert (Hd : zlen d = zlen pkt - 20) by (unfold d; rewrite length_take, length_drop; lia).
  assert (Hw : within r buf (splice (Z.to_nat off) d buf)).
  { split; [apply length_splice; lia|]. intros i Hi. rewrite lookup_splice by lia. by rewrite decide_False by lia. }
  pose proof Hs' as []. unfold is_u32 in *.
  assert (Hu : u32 (s'.(pktCount) + 1) = s'.(pktCount) + 1) by (apply u32_small; lia).
  destruct (Z.leb_spec len (totalBytesRead (count_packet s' (zlen pkt - 20) tk))) as [Hdone|Hmore].
  - destruct (final_stats_small (k + 1) (count_packet s' (zlen pkt - 20) tk) r tk) as [x ->]; [..|exact Hw];
      unfold count_packet; cbn; rewrite ?Hu; try lia.
    destruct given; [|left; by apply Hnone]. right. split; [done|].
    destruct Hg as [|[? Hg]]; [by left|right; eauto].
  - split; [exact Hw|]. unfold count_packet in *. cbn in *. rewrite Hu.
    split; [|split; [done|destruct given; auto]]. constructor; cbn; unfold is_u32; lia.
Qed.

Lemma guess_packets_some p : p.(p_data) <> [] ->
  is_Some (guess_packets p.(p_length) (zlen p.(p_data))).
Proof.
  intros Hq. unfold guess_packets. rewrite decide_False; [by eexists|]. by destruct p.(p_data).
Qed.

Lemma within_trans r a b c : within r a b -> within r b c -> within r a c.
Proof.
  intros [H1 H2] [H3 H4]. split; [congruence|]. intros i Hi. by rewrite H4, H2.
Qed.

Lemma feed_safe {host : Host} (given : bool) r evs : forall k st,
  0 <= k -> k + zlen evs <= 1073741824 -> r.(bufLen) <= zlen st.2 -> Forall not_empty evs ->
  sane k st.1 -> stats_small k st.1.(stats) ->
  (if given then Forall (estimable r) evs else st.1.(stats) = None) ->
  match feed (getCompletePacketizedBuffer_step r) st evs with
  | Next (s, buf) => within r st.2 buf
  | Halt res => within r st.2 res.(a_buf)
  | Stuck => False
  end.
Proof.
  induction evs as [|ev evs IH]; intros k st Hk Hlen Hb He Hs Hsm Hg; cbn [feed].
  { by destruct st. }
  apply Forall_cons in He as [He1 He]. cbn [length] in Hlen.
  pose proof (step_safe given k r st ev ltac:(lia) Hb He1 Hs Hsm) as Hstep.
  destruct (getCompletePacketizedBuffer_step r st ev) as [st'|res|].
  - destruct Hstep as (Hw & Hs' & Hsm' & Hg'); [destruct given; [by apply Forall_cons in Hg as [? _]|done]|].
    specialize (IH (k + 1) st' ltac:(lia) ltac:(lia)). pose proof Hw as [Hlw _].
    destruct (feed _ st' evs) as [[s b]|res|]; [eapply within_trans; [exact Hw|]..|];
      apply IH; try done; try lia; destruct given; try done; by apply Forall_cons in Hg as [_ ?].
  - apply Hstep. destruct given; [by apply Forall_cons in Hg as [? _]|done].
  - apply Hstep. destruct given; [by apply Forall_cons in Hg as [? _]|done].
Qed.

(** ** Properties *)

(** C2: reassembly: the packets of one buffer, the one with offset 0 first and the
    others in any order, mixed with packets of other sources, give back the
    buffer.  Each packet carries a non-empty piece of [data] at its offset, the
    sizes add up to the length and every byte is in some piece.  The call
    returns the length; bytes of the caller's buffer past the data are not
    touched; tick and source are reported; the statistics count the packets and
    bytes accepted and the packets of other sources, which must not exceed the
    int64_t of a counter ([room_for]). *)
Theorem getCompletePacketizedBuffer_reassembles {host : Host} (r : reader) (data dataBuf : list Z)
    (id tick : Z) (st : option packetRecvStats) (p : packet) (ps : list packet) :
  zlen data < 4294967296 -> zlen data <= r.(bufLen) -> r.(bufLen) <= zlen dataBuf ->
  tick <> UINT_MAX -> st = None \/ r.(expectedTick) = 18446744073709551615 ->
  packet_ok p -> piece_of data id tick p -> p.(p_offset) = 0 ->
  Forall (piece_or_foreign data id tick) ps -> ends_in_piece id ps ->
  zlen p.(p_data) + bytes_in id ps = zlen data ->
  room_for st (1 + count_if (is_piece id) ps) (zlen data)
    (count_if (fun p => negb (is_piece id p)) ps) 0 0 0 ->
  (forall i, (i < length data)%nat -> covered id (p :: ps) i) ->
  getCompletePacketizedBuffer r st dataBuf (map (fun p => Datagram (packet_bytes p)) (p :: ps))
    = Halt (mk_assembled (zlen data) (data ++ drop (length data) dataBuf) tick (Some id)
        ((fun s => add_stats s (1 + count_if (is_piece id) ps) (zlen data)
            (count_if (fun p => negb (is_piece id p)) ps) 0 0 0) <$> st)).
Proof.
  intros HL Hbuf Hlen Htick Hst Hok Hp Hoff Hps Hend Hsum Hfit Hcov.
  apply (feed_complete_tick r data id tick (sorter_start 0 0 st)); try done.
  split; [cbn; congruence|by left].
Qed.

(** Nothing is reported complete too early: while the packets received (the
    one with offset 0 first, without duplicates, possibly mixed with packets of
    other sources) carry fewer bytes than the buffer has, the routine waits, and
    it has counted exactly those bytes. *)
Theorem getCompletePacketizedBuffer_waits {host : Host} (r : reader) (data dataBuf : list Z)
    (id tick : Z) (st : option packetRecvStats) (p : packet) (ps : list packet) :
  zlen data < 4294967296 -> zlen data <= r.(bufLen) -> r.(bufLen) <= zlen dataBuf ->
  tick <> UINT_MAX -> st = None \/ r.(expectedTick) = 18446744073709551615 ->
  packet_ok p -> piece_of data id tick p -> p.(p_offset) = 0 ->
  Forall (piece_or_foreign data id tick) ps ->
  zlen p.(p_data) + bytes_in id ps < zlen data ->
  room_for st 0 0 (count_if (fun p => negb (is_piece id p)) ps) 0 0 0 ->
  exists s buf,
    getCompletePacketizedBuffer r st dataBuf (map (fun p => Datagram (packet_bytes p)) (p :: ps))
      = Next (s, buf)
    /\ s.(totalBytesRead) = zlen p.(p_data) + bytes_in id ps.
Proof.
  intros HL Hbuf Hlen Htick Hst Hok Hp Hoff Hps Hsum Hfit.
  unfold getCompletePacketizedBuffer. cbn [map feed]. rewrite step_packet by done.
  destruct (on_first r data id tick HL (sorter_start 0 0 st) dataBuf p)
    as (b1 & s1 & Hs1 & Hr1 & Hn1 & Ht1 & _ & Hss & _ & ->); try done; try lia.
  { split; [cbn; congruence|by left]. }
  { apply (piece_room r data id tick Hbuf); [done|lia]. }
  { pose proof (bytes_in_nonneg id ps). lia. }
  pose proof (bytes_in_nonneg id ps). rewrite (proj2 (Z.eqb_neq _ (zlen data))) by lia.
  apply store_length in Hs1.
  destruct (feed_partial r data id tick HL Hbuf ps s1 b1) as (s2 & b2 & -> & _ & Ht & _);
    try done; try lia; [by rewrite Hss|].
  exists s2, b2. split; [done|]. lia.
Qed.

(** C7: memory safety: on any sequence of datagrams, well-formed or not, none of
    which consists of the 20 header bytes alone, and of errors, the routine
    writes only the first [bufLen] bytes of the caller's buffer and is never
    undefined: no access out of bounds, no division by 0, no overflow of a
    counter.  For the counters a call must take at most 2^30 datagrams, and if
    statistics are kept, they must start below 2^62 and the estimate of dropped
    ticks must be possible ([estimable]; [getCompletePacketizedBuffer_far_tick]
    shows that it is not for every datagram). *)
Theorem getCompletePacketizedBuffer_safe {host : Host} (r : reader) (stats : option packetRecvStats)
    (dataBuf : list Z) (evs : list recv_event) :
  r.(bufLen) <= zlen dataBuf -> zlen evs <= 1073741824 -> Forall not_empty evs ->
  stats = None \/ stats_small 0 stats /\ Forall (estimable r) evs ->
  match getCompletePacketizedBuffer r stats dataBuf evs with
  | Next (s, buf) => within r dataBuf buf
  | Halt res => within r dataBuf res.(a_buf)
  | Stuck => False
  end.
Proof.
  intros Hb Hlen He Hst. unfold getCompletePacketizedBuffer.
  destruct Hst as [->|[Hsm Hest]]; [apply (feed_safe false r evs 0)|apply (feed_safe true r evs 0)];
    try done; try lia; constructor; cbn; unfold is_u32; lia.
Qed.

(** Statistics with an expected tick: a datagram that completes a buffer makes the
    routine divide by a prescale of 0, or overflow, when its tick is 2^63 away
    from the one expected. *)
Theorem getCompletePacketizedBuffer_far_tick {host : Host} (r : reader) (st : packetRecvStats)
    (dataBuf : list Z) (p : packet) (evs : list recv_event) :
  r.(bufLen) <= zlen dataBuf -> p.(p_offset) + zlen p.(p_data) <= r.(bufLen) ->
  packet_ok p -> p.(p_data) <> [] -> p.(p_offset) = 0 -> p.(p_length) <= zlen p.(p_data) ->
  p.(p_tick) <> UINT_MAX -> r.(expectedTick) <> 18446744073709551615 ->
  r.(tickPrescale) = 0 \/ i64 (p.(p_tick) - r.(expectedTick)) = -9223372036854775808 ->
  getCompletePacketizedBuffer r (Some st) dataBuf (Datagram (packet_bytes p) :: evs) = Stuck.
Proof.
  intros Hb Hfit Hok Hd Ho Hl Ht Hexp Hbad. unfold getCompletePacketizedBuffer. cbn [feed].
  rewrite step_packet by done. unfold on_packet, sort_packet. cbn [begin_read sorter_start veryFirstRead].
  destruct (guess_packets_some p Hd) as [n ->]. cbn [mbind option_bind]. unfold sort_tick. cbn [prevTick veryFirstRead].
  rewrite (proj2 (Z.eqb_neq _ UINT_MAX)), Ho, Z.eqb_refl by done. cbn [negb].
  rewrite (proj2 (Z.ltb_ge r.(bufLen) _)) by lia. rewrite store_spec by lia.
  unfold count_packet. cbn [totalBytesRead]. rewrite (proj2 (Z.leb_le _ _)) by lia.
  unfold final_stats. cbn [stats]. rewrite (proj2 (Z.eqb_neq _ _)) by done. cbn [negb mbind option_bind].
  destruct Hbad as [Hz|Hf].
  - destruct (int64 _); [|done]. cbn [mbind option_bind]. by rewrite decide_True.
  - rewrite Hf. done.
Qed.

(** A further packet of a tick that is being dumped. *)
Definition dumping (tick packets bytes bufs : Z) (st : option packetRecvStats) (s : sorter) : Prop :=
  s.(prevTick) = tick /\ s.(dumpTick) = true /\ s.(veryFirstRead) = true
  /\ s.(discPackets) = packets /\ s.(discBytes) = bytes /\ s.(discBufs) = bufs /\ s.(stats) = st.

Lemma on_dumped r tick packets bytes bufs st s buf p : dumping tick packets bytes bufs st s ->
  p.(p_tick) = tick -> p.(p_data) <> [] ->
  exists s', on_packet r s buf p = Next (s', buf) /\ dumping tick packets bytes bufs st s'.
Proof.
  intros (H1 & H2 & H3 & H4 & H5 & H6 & H7) Ht Hd. destruct (guess_packets_some p Hd) as [n Hn].
  unfold on_packet, begin_read, sort_packet. rewrite H3. cbn [veryFirstRead].
  rewrite Hn. cbn [mbind option_bind]. unfold sort_tick. cbn [prevTick dumpTick].
  rewrite Ht, H1, Z.eqb_refl, H2. cbn [negb]. eexists. split; [done|].
  unfold dumping. cbn. done.
Qed.

Lemma on_headless r s buf p n :
  s.(veryFirstRead) = true -> s.(prevTick) <> p.(p_tick) -> p.(p_offset) <> 0 ->
  guess_packets p.(p_length) (zlen p.(p_data)) = Some n ->
  is_i64 (s.(discPackets) + n) -> is_i64 (s.(discBytes) + p.(p_length)) -> is_i64 (s.(discBufs) + 1) ->
  exists s', on_packet r s buf p = Next (s', buf)
    /\ dumping p.(p_tick) (s.(discPackets) + n) (s.(discBytes) + p.(p_length)) (s.(discBufs) + 1) s.(stats) s'.
Proof.
  intros H3 Ht Ho Hn F1 F2 F3.
  unfold on_packet, begin_read, sort_packet. rewrite H3. cbn [veryFirstRead].
  rewrite Hn. cbn [mbind option_bind]. unfold sort_tick. cbn [prevTick].
  rewrite Z.eqb_sym, (proj2 (Z.eqb_neq _ p.(p_tick))), (proj2 (Z.eqb_neq _ 0)) by done.
  cbn [negb]. unfold discard. cbn [discPackets discBytes discBufs totalPkts length_].
  rewrite !int64_ok by done. cbn [mbind option_bind]. eexists. split; [done|]. unfold dumping. cbn. done.
Qed.

(** A tick whose first packet is missing is dumped: none of its packets is
    copied into the buffer, it is counted once as discarded, and the routine is
    then ready for another tick. *)
Theorem getCompletePacketizedBuffer_dumps_headless {host : Host} (r : reader) (dataBuf : list Z)
    (tick : Z) (st : option packetRecvStats) (p : packet) (ps : list packet) :
  tick <> UINT_MAX -> p.(p_offset) <> 0 ->
  Forall (fun p => packet_ok p /\ p.(p_tick) = tick /\ p.(p_data) <> []) (p :: ps) ->
  exists s,
    getCompletePacketizedBuffer r st dataBuf (map (fun p => Datagram (packet_bytes p)) (p :: ps))
      = Next (s, dataBuf)
    /\ s.(discBufs) = 1 /\ s.(discBytes) = p.(p_length)
    /\ (forall id tick', tick' <> tick -> ready id tick' s).
Proof.
  intros Htick Hoff Hps. apply Forall_cons in Hps as [(Hok & Ht & Hd) Hps].
  unfold getCompletePacketizedBuffer. cbn [map feed]. rewrite step_packet by done.
  destruct (guess_packets_some p Hd) as [n Hn].
  assert (Hn32 : is_u32 n).
  { unfold guess_packets in Hn. case_decide; [done|]. injection Hn as <-. apply u32_range. }
  pose proof Hok as (_ & _ & Hl & _). unfold is_u32 in *.
  destruct (on_headless r (sorter_start 0 0 st) dataBuf p n) as (s & -> & Hs); try done;
    [cbn; congruence|unfold is_i64; cbn; lia..|].
  rewrite Ht in Hs. revert Hs. generalize s. clear s.
  induction Hps as [|q ps (Hok' & Ht' & Hd') _ IH]; intros s Hs; cbn [map feed].
  - exists s. destruct Hs as (H1 & H2 & H3 & _ & H4 & H5 & _). repeat split; try done; [congruence|by left].
  - rewrite step_packet by done.
    destruct (on_dumped r tick _ _ _ _ s dataBuf q Hs Ht' Hd') as (s' & -> & Hs'). by apply IH.
Qed.

(** A packet with headers only (what the packetizer sends for an empty
    buffer) makes the routine divide by zero. *)
Lemma getCompletePacketizedBuffer_empty_packet {host : Host} (r : reader) (dataBuf : list Z)
    (st : option packetRecvStats) (p : packet) (evs : list recv_event) :
  packet_ok p -> p.(p_data) = [] ->
  getCompletePacketizedBuffer r st dataBuf (Datagram (packet_bytes p) :: evs) = Stuck.
Proof.
  intros Hok Hd. unfold getCompletePacketizedBuffer. cbn [feed]. rewrite step_packet by done.
  unfold on_packet, sort_packet. cbn [begin_read sorter_start veryFirstRead]. by rewrite Hd.
Qed.

(** Bytes are counted, not places: the first half of a buffer received twice
    completes it, and the second half of the caller's buffer is whatever it was. *)
Theorem getCompletePacketizedBuffer_duplicate {host : Host} (r : reader) (data dataBuf : list Z)
    (id tick : Z) (p : packet) :
  zlen data < 4294967296 -> zlen data <= r.(bufLen) -> r.(bufLen) <= zlen dataBuf ->
  tick <> UINT_MAX -> packet_ok p -> piece_of data id tick p -> p.(p_offset) = 0 ->
  2 * zlen p.(p_data) = zlen data ->
  exists buf,
    getCompletePacketizedBuffer r None dataBuf [Datagram (packet_bytes p); Datagram (packet_bytes p)]
      = Halt (mk_assembled (zlen data) buf tick (Some id) None)
    /\ forall i, zlen p.(p_data) <= Z.of_nat i -> buf !! i = dataBuf !! i.
Proof.
  intros HL Hbuf Hlen Htick Hok Hp Hoff Hhalf. pose proof Hp as (_ & _ & _ & Hpos & _).
  assert (Hid : p.(p_id) = id) by apply Hp.
  unfold getCompletePacketizedBuffer. cbn [feed]. rewrite step_packet by done.
  destruct (on_first r data id tick HL (sorter_start 0 0 None) dataBuf p)
    as (b1 & s1 & Hs1 & Hr1 & Hn1 & Ht1 & Hc1 & Hst1 & _ & ->); try done; try lia.
  { split; [cbn; congruence|by left]. }
  { apply (piece_room r data id tick Hbuf); [done|lia]. }
  { by left. }
  rewrite (proj2 (Z.eqb_neq (zlen p.(p_data)) _)) by lia. rewrite step_packet by done.
  apply store_Some_inv in Hs1 as (H0 & H1 & ->).
  assert (Hl1 : length (splice (Z.to_nat p.(p_offset)) p.(p_data) dataBuf) = length dataBuf)
    by (apply length_splice; lia).
  destruct (on_piece r data id tick HL s1 (splice (Z.to_nat p.(p_offset)) p.(p_data) dataBuf) p)
    as (b2 & Hs2 & _ & _ & ->); try done; try lia.
  { apply (piece_room r data id tick Hbuf); [done|]. rewrite Hl1. lia. }
  { intros _. by rewrite Hst1. }
  rewrite (proj2 (Z.eqb_eq _ (zlen data))) by lia. rewrite Hst1.
  eexists. split; [done|]. intros i Hi. apply store_Some_inv in Hs2 as (_ & _ & ->).
  rewrite !lookup_splice by lia. by rewrite !decide_False by lia.
Qed.

(** ** Witnesses *)

Definition data_example : list Z := [1; 2; 3; 4; 5; 6].
Definition piece_example (id : Z) (off n : nat) : packet :=
  mk_packet 2 0 id (Z.of_nat off) 6 99 (take n (drop off data_example)).
Definition stats_example : option packetRecvStats :=
  Some (clearStats (mk_stats 1 1 1 1 1 1 1 1 1 1 1 1 1 1 1)).
Definition reader_example : reader := mk_reader 8 18446744073709551615 1.

Lemma packet_ok_example id off n : (off <= 6)%nat -> 0 <= id < 65536 -> packet_ok (piece_example id off n).
Proof.
  intros. repeat split; cbn [piece_example p_id p_offset p_length p_tick p_data]; try lia.
  rewrite length_take, length_drop. unfold RECV_HEADER, RE_HEADER_BYTES.
  change (length data_example) with 6%nat. lia.
Qed.

Lemma piece_of_example off n : (0 < n)%nat -> (off + n <= 6)%nat ->
  piece_of data_example 7 99 (piece_example 7 off n).
Proof.
  intros. assert (Hl : length (take n (drop off data_example)) = n)
    by (rewrite length_take, length_drop; change (length data_example) with 6%nat; lia).
  repeat split; cbn [piece_example p_id p_tick p_length p_offset p_data];
    rewrite ?Hl, ?Nat2Z.id; try done; change (length data_example) with 6%nat; lia.
Qed.

Lemma getCompletePacketizedBuffer_reassembles_witness :
  getCompletePacketizedBuffer (host := ENDIAN_LITTLE) reader_example stats_example
    (replicate 8 0)
    (map (fun p => Datagram (packet_bytes p))
       [piece_example 7 0 2; piece_example 7 5 1; piece_example 9 0 3; piece_example 7 2 3])
  = Halt (mk_assembled 6 [1; 2; 3; 4; 5; 6; 0; 0] 99 (Some 7)
           (Some (mk_stats 0 0 0 0 3 0 1 0 6 0 0 0 0 (-1) (-1)))).
Proof.
  apply (@getCompletePacketizedBuffer_reassembles ENDIAN_LITTLE reader_example data_example
    (replicate 8 0) 7 99 stats_example (piece_example 7 0 2)
    [piece_example 7 5 1; piece_example 9 0 3; piece_example 7 2 3]).
  - reflexivity.
  - vm_compute. congruence.
  - vm_compute. congruence.
  - vm_compute. congruence.
  - right. reflexivity.
  - apply packet_ok_example; lia.
  - apply piece_of_example; lia.
  - reflexivity.
  - repeat (apply Forall_cons_2; [split; [apply packet_ok_example; lia|]|]).
    + left. apply piece_of_example; lia.
    + right. discriminate.
    + left. apply piece_of_example; lia.
    + apply Forall_nil_2.
  - reflexivity.
  - reflexivity.
  - cbn. unfold counters_fit, is_i64. cbn. lia.
  - intros i Hi. change (length data_example) with 6%nat in Hi.
    do 6 (destruct i as [|i]; [unfold covered; rewrite !Exists_cons; cbn; lia|]). lia.
Defined.

Lemma getCompletePacketizedBuffer_waits_witness :
  exists s buf,
    getCompletePacketizedBuffer (host := ENDIAN_BIG) reader_example None (replicate 8 0)
      (map (fun p => Datagram (packet_bytes p)) [piece_example 7 0 2; piece_example 7 3 3])
      = Next (s, buf) /\ s.(totalBytesRead) = 5.
Proof.
  destruct (@getCompletePacketizedBuffer_waits ENDIAN_BIG reader_example data_example
    (replicate 8 0) 7 99 None (piece_example 7 0 2) [piece_example 7 3 3]) as (s & buf & H1 & H2).
  - reflexivity.
  - vm_compute. congruence.
  - vm_compute. congruence.
  - vm_compute. congruence.
  - left. reflexivity.
  - apply packet_ok_example; lia.
  - apply piece_of_example; lia.
  - reflexivity.
  - apply Forall_cons_2; [|apply Forall_nil_2]. split; [apply packet_ok_example; lia|].
    left. apply piece_of_example; lia.
  - reflexivity.
  - exact I.
  - exists s, buf. split; [exact H1|exact H2].
Defined.

Lemma example_tick off n v id o len tick :
  parseReHeader (host := ENDIAN_LITTLE) (received 65536 (packet_bytes (piece_example 7 off n)))
    = Some (v, id, o, len, tick) -> (off <= 6)%nat -> tick = 99.
Proof.
  intros Hp Hoff. destruct (@received_packet ENDIAN_LITTLE (piece_example 7 off n)) as (Hr & _ & w & Hp').
  { apply packet_ok_example; lia. }
  rewrite Hr, Hp' in Hp. by injection Hp.
Qed.

(** With statistics and an expected tick: two packets are copied, the second completes
    the buffer, and two ticks were missed. *)
Lemma getCompletePacketizedBuffer_safe_witness :
  getCompletePacketizedBuffer (host := ENDIAN_LITTLE) (mk_reader 7 97 1) stats_example (replicate 8 0)
    (map (fun p => Datagram (packet_bytes p)) [piece_example 7 0 2; piece_example 7 2 4])
  = Halt (mk_assembled 6 [1; 2; 3; 4; 5; 6; 0; 0] 99 (Some 7)
           (Some (mk_stats 0 0 0 4 2 0 0 0 6 0 2 0 0 (-1) (-1))))
  /\ within (mk_reader 7 97 1) (replicate 8 0) [1; 2; 3; 4; 5; 6; 0; 0].
Proof.
  split; [vm_compute; reflexivity|].
  apply (@getCompletePacketizedBuffer_safe ENDIAN_LITTLE (mk_reader 7 97 1) stats_example (replicate 8 0)
    (map (fun p => Datagram (packet_bytes p)) [piece_example 7 0 2; piece_example 7 2 4])).
  - vm_compute. congruence.
  - vm_compute. congruence.
  - repeat constructor; vm_compute; congruence.
  - right. split; [split; [repeat constructor; vm_compute; congruence|split; vm_compute; congruence]|].
    cbn [map]. apply Forall_cons_2; [|apply Forall_cons_2; [|apply Forall_nil_2]];
      right; (split; [reflexivity|]); intros v id off len tick Hp;
      rewrite (example_tick _ _ _ _ _ _ _ Hp) by lia; reflexivity.
Defined.

Lemma getCompletePacketizedBuffer_far_tick_witness :
  getCompletePacketizedBuffer (host := ENDIAN_LITTLE) (mk_reader 8 (99 + 9223372036854775808) 1) stats_example
    (replicate 8 0) [Datagram (packet_bytes (piece_example 7 0 6))] = Stuck.
Proof.
  apply (@getCompletePacketizedBuffer_far_tick ENDIAN_LITTLE (mk_reader 8 (99 + 9223372036854775808) 1)
    (clearStats (mk_stats 1 1 1 1 1 1 1 1 1 1 1 1 1 1 1)) (replicate 8 0) (piece_example 7 0 6) []).
  all: try (vm_compute; congruence).
  - apply packet_ok_example; lia.
  - right. reflexivity.
Defined.

Lemma getCompletePacketizedBuffer_dumps_headless_witness :
  exists s,
    getCompletePacketizedBuffer (host := ENDIAN_LITTLE) reader_example None (replicate 8 0)
      (map (fun p => Datagram (packet_bytes p)) [piece_example 7 2 4; piece_example 7 0 2])
      = Next (s, replicate 8 0) /\ s.(discBufs) = 1.
Proof.
  destruct (@getCompletePacketizedBuffer_dumps_headless ENDIAN_LITTLE reader_example (replicate 8 0)
    99 None (piece_example 7 2 4) [piece_example 7 0 2]) as (s & H1 & H2 & _).
  - vm_compute. congruence.
  - discriminate.
  - repeat apply Forall_cons_2; try apply Forall_nil_2;
      (split; [apply packet_ok_example; lia|split; [reflexivity|discriminate]]).
  - exists s. split; [exact H1|exact H2].
Defined.

Lemma getCompletePacketizedBuffer_duplicate_witness :
  exists buf,
    getCompletePacketizedBuffer (host := ENDIAN_LITTLE) reader_example None (replicate 8 0)
      [Datagram (packet_bytes (piece_example 7 0 3)); Datagram (packet_bytes (piece_example 7 0 3))]
      = Halt (mk_assembled 6 buf 99 (Some 7) None) /\ buf !! 3%nat = Some 0.
Proof.
  destruct (@getCompletePacketizedBuffer_duplicate ENDIAN_LITTLE reader_example data_example
    (replicate 8 0) 7 99 (piece_example 7 0 3)) as (buf & H1 & H2).
  - reflexivity.
  - vm_compute. congruence.
  - vm_compute. congruence.
  - vm_compute. congruence.
  - apply packet_ok_example; lia.
  - apply piece_of_example; lia.
  - reflexivity.
  - reflexivity.
  - exists buf. split; [exact H1|]. rewrite (H2 3%nat) by (vm_compute; congruence). reflexivity.
Defined.
