(* ===== verification/AssembleRecover.v ===== *)
(** What getCompletePacketizedBuffer makes of ticks that never complete: a description
    of such ticks that does not mention the routine, what they are worth in the
    statistics, and that the next complete tick is reassembled all the same. *)
From S2P Require Import Prelude Bytes ByteOrder Wire Socket Assemble.

(** ** Ticks that are lost *)

(** A tick of which [l_first] arrives first and [l_rest] then, and no more. *)
Record lost := mk_lost { l_data : list Z; l_tick : Z; l_first : packet; l_rest : list packet }.

(** Its first packet is missing. *)
Definition headless (t : lost) : bool := negb (t.(l_first).(p_offset) =? 0).

Section Lost.
Context (bufLen id : Z).

(** Without its first packet: any packets of the tick with data, also of other
    sources behind the first.  Broken off: a first packet and further pieces, mixed with
    packets of other sources, that together are less than the buffer. *)
Definition lost_ok (t : lost) : Prop :=
  packet_ok t.(l_first) /\ t.(l_first).(p_id) = id /\ t.(l_first).(p_tick) = t.(l_tick) /\
  if headless t then
    t.(l_first).(p_data) <> [] /\
    Forall (fun p => packet_ok p /\ p.(p_tick) = t.(l_tick) /\ p.(p_data) <> []) t.(l_rest)
  else
    zlen t.(l_data) < 4294967296 /\ zlen t.(l_data) <= bufLen /\
    piece_of t.(l_data) id t.(l_tick) t.(l_first) /\
    Forall (piece_or_foreign t.(l_data) id t.(l_tick)) t.(l_rest) /\ ends_in_piece id t.(l_rest) /\
    zlen t.(l_first).(p_data) + bytes_in id t.(l_rest) < zlen t.(l_data).

(** Each tick differs from the one before. *)
Fixpoint all_lost (prev : Z) (l : list lost) : Prop :=
  match l with
  | [] => True
  | t :: l => lost_ok t /\ t.(l_tick) <> prev /\ all_lost t.(l_tick) l
  end.

Definition last_tick (prev : Z) (l : list lost) : Z := foldl (fun _ t => t.(l_tick)) prev l.

Definition lost_packets (t : lost) : list packet := t.(l_first) :: t.(l_rest).

(** Packets of another source that were rejected. *)
Definition rejected (t : lost) : Z :=
  if headless t then 0 else count_if (fun p => negb (is_piece id p)) t.(l_rest).
Definition all_rejected (l : list lost) : Z := foldr (fun t n => rejected t + n) 0 l.

(** The packets the buffer of the tick makes when all carry as much as the first. *)
Definition packets_needed (t : lost) : Z :=
  (t.(l_first).(p_length) + (zlen t.(l_first).(p_data) - 1)) / zlen t.(l_first).(p_data).

Definition plus3 (a b : Z * Z * Z) : Z * Z * Z := (a.1.1 + b.1.1, a.1.2 + b.1.2, a.2 + b.2).

(** Packets, bytes and buffers to be counted as discarded.  [open]: the tick before was broken
    off, with the packets and bytes it is worth.  It counts when the next tick begins
    with its first packet, or when the call succeeds; and as the number of packets is
    only guessed when nothing of a buffer was read, its guess is used for the next. *)
Fixpoint lost_counts (open : option (Z * Z)) (l : list lost) : Z * Z * Z :=
  let due := match open with Some (n, len) => (n, len, 1) | None => (0, 0, 0) end in
  match l with
  | [] => due
  | t :: l =>
    let n := match open with Some (n, _) => n | None => packets_needed t end in
    if headless t then plus3 (n, t.(l_first).(p_length), 1) (lost_counts None l)
    else plus3 due (lost_counts (Some (n, t.(l_first).(p_length))) l)
  end.

(** Unless a tick without its first packet follows one that was broken off, every
    tick lost is counted, with the length of its buffer. *)
Fixpoint none_hidden (open : bool) (l : list lost) : bool :=
  match l with
  | [] => true
  | t :: l => negb (open && headless t) && none_hidden (negb (headless t)) l
  end.

Lemma lost_counts_all l : forall open : option (Z * Z), none_hidden (if open is Some _ then true else false) l = true ->
  (lost_counts open l).2 = (if open is Some _ then 1 else 0) + zlen l
  /\ (lost_counts open l).1.2
     = (match open with Some (_, len) => len | None => 0 end) + foldr (fun t n => t.(l_first).(p_length) + n) 0 l.
Proof.
  induction l as [|t l IH]; intros open Hn; cbn [none_hidden lost_counts foldr length] in *.
  { destruct open as [[n len]|]; cbn; lia. }
  apply andb_prop in Hn as [Hh Hn]. destruct (headless t).
  - destruct open as [[n len]|]; [done|]. destruct (IH None Hn) as [H1 H2]. unfold plus3. cbn in *. lia.
  - destruct open as [[n len]|];
      [destruct (IH (Some (n, t.(l_first).(p_length))) Hn) as [H1 H2]
      |destruct (IH (Some (packets_needed t, t.(l_first).(p_length))) Hn) as [H1 H2]];
      unfold plus3; cbn [fst snd] in *; rewrite H1, H2; lia.
Qed.

(** A tick broken off before one without its first packet is forgotten. *)
Lemma lost_counts_hidden t u : headless t = false -> headless u = true ->
  lost_counts None [t; u] = (packets_needed t, u.(l_first).(p_length), 1).
Proof. intros Ht Hu. unfold lost_counts. rewrite Ht, Hu. unfold plus3. cbn. by rewrite !Z.add_0_r. Qed.
End Lost.

Lemma plus3_0 D : plus3 D (0, 0, 0) = D.
Proof. destruct D as [[a b] c]. unfold plus3. cbn. by rewrite !Z.add_0_r. Qed.

Lemma plus3_assoc a b c : plus3 a (plus3 b c) = plus3 (plus3 a b) c.
Proof. unfold plus3. cbn. by rewrite !Z.add_assoc. Qed.

Lemma rejected_nonneg id t : 0 <= rejected id t.
Proof. unfold rejected. destruct (headless t); [done|apply count_if_nonneg]. Qed.

Lemma all_rejected_nonneg id l : 0 <= all_rejected id l.
Proof.
  unfold all_rejected. induction l as [|t l IH]; cbn [foldr]; [done|]. pose proof (rejected_nonneg id t). lia.
Qed.

(** ** The routine on them *)

(** Statistics with [b] more packets of other sources. *)
Definition with_bad (b : Z) (st : packetRecvStats) : packetRecvStats := add_stats st 0 0 b 0 0 0.

Lemma with_bad_0 (st : option packetRecvStats) : with_bad 0 <$> st = st.
Proof. destruct st as [[]|]; [|done]. unfold with_bad, add_stats. cbn. by rewrite !Z.add_0_r. Qed.

Lemma add_with_bad b st p y k dp db dn :
  add_stats (with_bad b st) p y k dp db dn = add_stats st p y (b + k) dp db dn.
Proof. unfold with_bad, add_stats. cbn. by rewrite !Z.add_0_r, Z.add_assoc. Qed.

Lemma reject_with_bad st b : (forall s, st = Some s -> is_i64 (s.(badSrcIdPackets) + (b + 1))) ->
  reject_source (with_bad b <$> st) = Some (with_bad (b + 1) <$> st).
Proof.
  destruct st as [st|]; [|done]. intros H. cbn [fmap option_fmap option_map reject_source].
  unfold count_badSrcId. cbn [with_bad add_stats badSrcIdPackets].
  rewrite <- Z.add_assoc, int64_ok by (by apply H). done.
Qed.

Lemma guess_needed t : t.(l_first).(p_data) <> [] -> packet_ok t.(l_first) ->
  guess_packets t.(l_first).(p_length) (zlen t.(l_first).(p_data)) = Some (packets_needed t)
  /\ is_u32 (packets_needed t).
Proof.
  intros Hne (_ & _ & Hl & _). unfold guess_packets, packets_needed, is_u32 in *.
  assert (Hn : 0 < zlen t.(l_first).(p_data)) by (destruct t.(l_first).(p_data); cbn; [done|lia]).
  set (n := zlen _) in *. set (L := p_length _) in *. clearbody n L.
  rewrite decide_False, Z.quot_div_nonneg by lia.
  assert (0 <= (L + (n - 1)) / n < 4294967296).
  { split; [apply Z.div_pos; lia|]. apply Z.div_lt_upper_bound; nia. }
  by rewrite u32_small by lia.
Qed.

Section Recover.
Context {host : Host} (r : reader) (id : Z) (st0 : option packetRecvStats).
Context (Hest : st0 = None \/ r.(expectedTick) = 18446744073709551615).

Definition disc (s : sorter) : Z * Z * Z := (s.(discPackets), s.(discBytes), s.(discBufs)).

Definition counted (k : Z) (D : Z * Z * Z) : Prop :=
  0 <= D.1.1 <= k * 4294967296 /\ 0 <= D.1.2 <= k * 4294967296 /\ 0 <= D.2 <= k.

(** Between two ticks: [open] if the last was broken off. *)
Definition between (open : option (Z * Z)) (prev : Z) (D : Z * Z * Z) (b : Z) (s : sorter) : Prop :=
  s.(prevTick) = prev /\ s.(stats) = with_bad b <$> st0 /\ disc s = D /\
  match open with
  | None => s.(veryFirstRead) = true
  | Some (n, len) => receiving id prev s /\ s.(totalPkts) = n /\ s.(length_) = len
  end.

Definition open_ok (open : option (Z * Z)) : Prop :=
  match open with None => True | Some (n, len) => is_u32 n /\ is_u32 len end.

Lemma between_estimate open prev D b s : between open prev D b s -> no_estimate r s.
Proof using Hest.
  intros (_ & Hs & _). unfold no_estimate. rewrite Hs. destruct Hest as [->|]; [by left|by right].
Qed.

Lemma between_discarded open prev D b s : between open prev D b s ->
  discarded s = match open with Some (n, len) => plus3 D (n, len, 1) | None => D end.
Proof using Type.
  intros (_ & _ & <- & Ho). unfold discarded, disc, plus3. cbn. destruct open as [[n len]|].
  - destruct Ho as ([] & <- & <-). by rewrite rc_first.
  - by rewrite Ho.
Qed.

Lemma counted_plus k D n len : counted k D -> is_u32 n -> is_u32 len -> counted (k + 1) (plus3 D (n, len, 1)).
Proof using Type. unfold counted, is_u32, plus3. cbn. lia. Qed.

(** The pieces of a tick that is broken off. *)
Lemma feed_broken data tick ps : zlen data < 4294967296 -> zlen data <= r.(bufLen) -> forall s buf b,
  receiving id tick s -> s.(stats) = with_bad b <$> st0 -> 0 <= b ->
  Forall (piece_or_foreign data id tick) ps -> zlen data <= zlen buf ->
  s.(totalBytesRead) + bytes_in id ps < zlen data -> ends_in_piece id ps ->
  (ps = [] -> s.(length_) = zlen data) ->
  (forall st, st0 = Some st -> is_i64 st.(badSrcIdPackets) /\
     is_i64 (st.(badSrcIdPackets) + (b + count_if (fun p => negb (is_piece id p)) ps))) ->
  exists s' buf', feed (getCompletePacketizedBuffer_step r) (s, buf)
      (map (fun p => Datagram (packet_bytes p)) ps) = Next (s', buf')
    /\ length buf' = length buf
    /\ between (Some (s.(totalPkts), zlen data)) tick (disc s)
         (b + count_if (fun p => negb (is_piece id p)) ps) s'.
Proof using Hest.
  intros HL Hbuf. induction ps as [|p ps IH]; intros s buf b Hr Hs Hb0 Hps Hb Hsum Hend Hlen Hbad.
  { exists s, buf. cbn. rewrite Z.add_0_r. split; [done|]. split; [done|]. destruct Hr. by split_and!; [..|apply Hlen]. }
  apply Forall_cons in Hps as [[Hok Hp] Hps]. cbn [map feed]. rewrite step_packet by done.
  cbn [bytes_in count_if] in *. pose proof (bytes_in_nonneg id ps). apply ends_in_piece_tail in Hend as Hend'.
  pose proof (count_if_nonneg (fun p => negb (is_piece id p)) ps) as Hcnt.
  assert (He : no_estimate r s).
  { unfold no_estimate. rewrite Hs. destruct Hest as [->|]; [by left|by right]. }
  destruct (decide (p.(p_id) = id)) as [Hid|Hid].
  - destruct Hp as [Hp|]; [|done].
    assert (Hpi : is_piece id p = true) by (unfold is_piece; by rewrite Hid, Z.eqb_refl).
    rewrite Hpi in *. cbn [negb] in *. rewrite Z.add_0_l in Hbad |- *.
    destruct (on_piece r data id tick HL s buf p Hr Hok Hp (piece_room _ _ _ _ Hbuf _ _ Hp Hb) He ltac:(lia))
      as (buf' & Hst & Hr' & _ & ->); [lia|].
    apply store_length in Hst as Hl. rewrite (proj2 (Z.eqb_neq _ (zlen data))) by lia.
    destruct (IH _ buf' b Hr' Hs) as (s'' & b'' & -> & Hl'' & Hbt); try done; [by rewrite Hl|cbn; lia|].
    exists s'', b''. split; [done|]. split; [congruence|exact Hbt].
  - assert (Hpi : is_piece id p = false) by (unfold is_piece; by apply Z.eqb_neq).
    rewrite Hpi in *. cbn [negb] in *.
    assert (Hrej : reject_source s.(stats) = Some (with_bad (b + 1) <$> st0)).
    { rewrite Hs. apply reject_with_bad. intros st Hst. destruct (Hbad st Hst). unfold is_i64 in *. lia. }
    destruct (on_foreign r data id tick s buf p _ Hr Hid Hrej) as [Hr' ->].
    destruct (IH _ buf (b + 1) Hr' eq_refl) as (s'' & b'' & -> & Hl'' & Hbt); try done; try lia.
    { intros ->. exfalso. unfold ends_in_piece in Hend. cbn in Hend. congruence. }
    { intros st Hst. destruct (Hbad st Hst). split; [done|]. by rewrite <- Z.add_assoc. }
    exists s'', b''. split; [done|]. split; [done|]. rewrite <- Z.add_assoc in Hbt. exact Hbt.
Qed.

(** The packet that comes instead of the first packet of a tick. *)
Lemma on_headless_packet open prev D b k s buf t : between open prev D b s -> counted k D -> 0 <= k < 2147483648 ->
  open_ok open -> lost_ok r.(bufLen) id t -> headless t = true -> t.(l_tick) <> prev ->
  let n := match open with Some (n, _) => n | None => packets_needed t end in
  exists s', on_packet r s buf t.(l_first) = Next (s', buf)
    /\ dumping t.(l_tick) (D.1.1 + n) (D.1.2 + t.(l_first).(p_length)) (D.2 + 1) (with_bad b <$> st0) s'
    /\ is_u32 n /\ is_u32 t.(l_first).(p_length).
Proof using Type.
  intros (Hprev & Hst & HD & Hopen) Hc Hk Ho (Hok & Hid & Ht & Hl) Hh Hne. rewrite Hh in Hl.
  destruct Hl as [Hd _]. destruct (guess_needed t Hd Hok) as [Hg Hg32].
  pose proof Hok as (_ & _ & Hl32 & _). unfold headless in Hh. apply negb_true_iff, Z.eqb_neq in Hh.
  rewrite <- HD in Hc |- *. unfold counted, disc, is_u32 in *. cbn [fst snd] in *. rewrite <- Ht, <- Hst.
  destruct open as [[n len]|]; cbn zeta.
  - destruct Hopen as ([] & <- & <-). unfold on_packet, begin_read, sort_packet. rewrite rc_first, rc_first.
    rewrite Hid, rc_src, Z.eqb_refl. cbn [negb]. unfold sort_tick. cbn [prevTick].
    rewrite (proj2 (Z.eqb_neq _ (s.(prevTick)))), (proj2 (Z.eqb_neq _ 0)) by congruence.
    cbn [negb]. unfold discard. cbn [discPackets discBytes discBufs totalPkts length_].
    unfold open_ok, is_u32 in Ho. rewrite !int64_ok by (unfold is_i64; lia). cbn [mbind option_bind].
    eexists. split; [done|]. split; [by unfold dumping|]. split; [apply Ho|done].
  - destruct (on_headless r s buf t.(l_first) (packets_needed t)) as (s' & -> & Hs'); try done;
      try (unfold is_i64; lia); try congruence. by exists s'.
Qed.

(** A whole tick without its first packet. *)
Lemma feed_headless open prev D b k s buf t : between open prev D b s -> counted k D -> 0 <= k < 2147483648 ->
  open_ok open -> lost_ok r.(bufLen) id t -> headless t = true -> t.(l_tick) <> prev ->
  let n := match open with Some (n, _) => n | None => packets_needed t end in
  exists s', feed (getCompletePacketizedBuffer_step r) (s, buf)
      (map (fun p => Datagram (packet_bytes p)) (lost_packets t)) = Next (s', buf)
    /\ between None t.(l_tick) (plus3 D (n, t.(l_first).(p_length), 1)) b s'
    /\ is_u32 n /\ is_u32 t.(l_first).(p_length).
Proof using Type.
  intros Hb Hc Hk Ho Hl Hh Hne n.
  destruct (on_headless_packet open prev D b k s buf t Hb Hc Hk Ho Hl Hh Hne) as (s1 & Hs1 & Hd & H1 & H2).
  fold n in Hd, H1. destruct Hl as (Hok & _ & _ & Hl). rewrite Hh in Hl. destruct Hl as [_ Hrest].
  unfold lost_packets. cbn [map feed]. rewrite step_packet, Hs1 by done. clear Hs1.
  revert s1 Hd. induction Hrest as [|q ps (Hok' & Ht' & Hd') _ IH]; intros s1 Hd; cbn [map feed].
  - exists s1. split; [done|]. split; [|done]. destruct Hd as (? & _ & ? & Hp & Hby & Hbu & ?).
    split_and!; try done. unfold disc, plus3. cbn. congruence.
  - rewrite step_packet by done. destruct (on_dumped r _ _ _ _ _ s1 buf q Hd Ht' Hd') as (s2 & -> & Hs2).
    by apply IH.
Qed.

(** The first packet of a tick that is not complete with it. *)
Lemma on_first_packet data tick s buf p n : zlen data < 4294967296 -> ready id tick s -> discard_fits s ->
  packet_ok p -> piece_of data id tick p -> p.(p_offset) = 0 -> room r buf p ->
  guess_packets (zlen data) (zlen p.(p_data)) = Some n -> zlen p.(p_data) < zlen data ->
  exists buf', on_packet r s buf p = Next (started data id tick s n (zlen p.(p_data)), buf')
    /\ length buf' = length buf.
Proof using Type.
  intros HL Hr Hdf Hok Hp Hoff [Hbl Hb] Hg Hlt.
  destruct (store_piece data id tick buf p Hok Hp Hb) as (buf' & Hstore & Hlen & _).
  destruct (sort_first data id tick s p n Hr Hdf Hp Hoff Hg) as (s0 & Hsort & Hc).
  destruct Hp as (Hid & Htick & Hl & _). exists buf'. split; [|done].
  unfold on_packet. rewrite Hsort, (proj2 (Z.ltb_ge r.(bufLen) _)), Hstore, Htick, Hc, Hl by lia.
  by rewrite (proj2 (Z.leb_gt _ _)) by (cbn; lia).
Qed.

(** A whole tick that is broken off. *)
Lemma feed_broken_off open prev D b k s buf t : between open prev D b s -> counted k D -> 0 <= k < 1073741824 ->
  open_ok open -> lost_ok r.(bufLen) id t -> headless t = false -> t.(l_tick) <> prev ->
  r.(bufLen) <= zlen buf -> 0 <= b ->
  (forall st, st0 = Some st -> is_i64 st.(badSrcIdPackets) /\
     is_i64 (st.(badSrcIdPackets) + (b + rejected id t))) ->
  let n := match open with Some (n, _) => n | None => packets_needed t end in
  exists s' buf', feed (getCompletePacketizedBuffer_step r) (s, buf)
      (map (fun p => Datagram (packet_bytes p)) (lost_packets t)) = Next (s', buf')
    /\ length buf' = length buf
    /\ between (Some (n, t.(l_first).(p_length))) t.(l_tick)
         (match open with Some (n, len) => plus3 D (n, len, 1) | None => D end) (b + rejected id t) s'
    /\ is_u32 n /\ is_u32 t.(l_first).(p_length).
Proof using Hest.
  intros Hb Hc Hk Ho (Hok & Hid & Ht & Hl) Hh Hne Hlen Hb0 Hbad n. rewrite Hh in Hl.
  destruct Hl as (HL & Hbuf & Hp & Hrest & Hend & Hsum).
  pose proof (between_discarded _ _ _ _ _ Hb) as Hdisc.
  pose proof Hp as (_ & _ & Hlp & Hpos & Hin & _).
  assert (Hdf : discard_fits s).
  { unfold discard_fits. rewrite Hdisc. destruct open as [[m len]|]; unfold open_ok, counted, is_i64, plus3, is_u32 in *;
      cbn [fst snd] in *; lia. }
  assert (Hready : ready id t.(l_tick) s).
  { destruct Hb as (Hpr & _ & _ & Hop). split; [congruence|]. destruct open as [[m len]|];
      [right; by destruct Hop as ([] & _)|by left]. }
  assert (Hd : t.(l_first).(p_data) <> []) by (intros E; rewrite E in Hpos; cbn in Hpos; lia).
  destruct (guess_needed t Hd Hok) as [Hg Hg32]. rewrite Hlp in Hg.
  unfold headless in Hh. pose proof (bytes_in_nonneg id t.(l_rest)).
  assert (Hoff : t.(l_first).(p_offset) = 0) by (by apply negb_false_iff, Z.eqb_eq in Hh).
  destruct (on_first_packet t.(l_data) t.(l_tick) s buf t.(l_first) (packets_needed t)) as (b1 & Hon & Hl1);
    try done; try lia; [split; lia|].
  unfold lost_packets. cbn [map feed]. rewrite step_packet, Hon by done.
  set (s1 := started _ _ _ _ _ _).
  destruct (feed_broken t.(l_data) t.(l_tick) t.(l_rest) HL Hbuf s1 b1 b) as (s' & b' & -> & Hl' & Hbt);
    try done; try lia.
  - constructor; cbn; try done; lia.
  - change (stats s1) with s.(stats). by destruct Hb as (_ & ? & _).
  - unfold rejected, headless in Hbad. rewrite Hh in Hbad. done.
  - exists s', b'. split; [done|]. split; [congruence|].
    assert (Hn : totalPkts s1 = n).
    { unfold s1, started, n. cbn. destruct Hb as (_ & _ & _ & Hop). destruct open as [[m len]|].
      - destruct Hop as ([] & <- & _). by rewrite rc_first.
      - by rewrite Hop. }
    rewrite Hlp. unfold rejected, headless. rewrite Hh.
    assert (HD : disc s1 = match open with Some (n, len) => plus3 D (n, len, 1) | None => D end)
      by (rewrite <- Hdisc; unfold disc, s1, started; cbn; by destruct (discarded s) as [[]]).
    rewrite Hn, HD in Hbt. split; [exact Hbt|]. unfold n. split; [destruct open as [[m len]|]; [apply Ho|done]|].
    unfold is_u32. lia.
Qed.

(** Any number of lost ticks: what they add to the counts is [lost_counts]. *)
Lemma feed_lost l : forall open prev D b k s buf, between open prev D b s -> counted k D -> 0 <= k ->
  k + zlen l < 1073741824 -> open_ok open -> all_lost r.(bufLen) id prev l -> r.(bufLen) <= zlen buf -> 0 <= b ->
  (forall st, st0 = Some st -> is_i64 st.(badSrcIdPackets) /\
     is_i64 (st.(badSrcIdPackets) + (b + all_rejected id l))) ->
  exists s' buf' open' D', feed (getCompletePacketizedBuffer_step r) (s, buf)
      (map (fun p => Datagram (packet_bytes p)) (l ≫= lost_packets)) = Next (s', buf')
    /\ length buf' = length buf
    /\ between open' (last_tick prev l) D' (b + all_rejected id l) s'
    /\ counted (k + zlen l) D' /\ open_ok open'
    /\ match open' with Some (n, len) => plus3 D' (n, len, 1) | None => D' end = plus3 D (lost_counts open l).
Proof using Hest.
  induction l as [|t l IH]; intros open prev D b k s buf Hbt Hc Hk Hlen Ho Hall Hbuf Hb Hbad.
  { exists s, buf, open, D. cbn [all_rejected foldr length last_tick foldl lost_counts]. rewrite !Z.add_0_r.
    do 5 (split; [done|]). destruct open as [[n len]|]; [done|]. by rewrite plus3_0. }
  destruct Hall as (Hl & Hne & Hall). cbn [length] in *.
  change ((t :: l) ≫= lost_packets) with (lost_packets t ++ (l ≫= lost_packets)).
  change (all_rejected id (t :: l)) with (rejected id t + all_rejected id l) in *.
  change (last_tick prev (t :: l)) with (last_tick t.(l_tick) l).
  pose proof (all_rejected_nonneg id l) as Hr1. pose proof (rejected_nonneg id t) as Hr2.
  rewrite map_app, feed_app, Z.add_assoc. replace (k + Z.of_nat (S (length l))) with (k + 1 + zlen l) by lia.
  cbn [lost_counts]. destruct (headless t) eqn:Hh.
  - assert (Hrej : rejected id t = 0) by (unfold rejected; by rewrite Hh).
    rewrite Hrej, Z.add_0_r in *. rewrite Z.add_0_l in Hbad.
    destruct (feed_headless open prev D b k s buf t Hbt Hc ltac:(lia) Ho Hl Hh Hne) as (s1 & -> & Hb1 & Hn & Hlen1).
    destruct (IH None t.(l_tick) _ b (k + 1) s1 buf Hb1) as (s' & buf' & open' & D' & Hf & Hr);
      try done; try lia; [by apply counted_plus|].
    exists s', buf', open', D'. split; [exact Hf|]. by rewrite plus3_assoc.
  - destruct (feed_broken_off open prev D b k s buf t Hbt Hc ltac:(lia) Ho Hl Hh Hne Hbuf Hb)
      as (s1 & b1 & -> & Hl1 & Hb1 & Hn & Hlen1).
    { intros st Hst. destruct (Hbad st Hst) as [H1 H2]. unfold is_i64 in *. split; [done|lia]. }
    destruct (IH _ t.(l_tick) _ (b + rejected id t) (k + 1) s1 b1 Hb1) as (s' & buf' & open' & D' & Hf & Hl' & Hr);
      try done; try lia.
    + destruct open as [[m len]|]; [destruct Ho; by apply counted_plus|]. unfold counted in *. lia.
    + intros st Hst. destruct (Hbad st Hst). split; [done|]. by rewrite <- Z.add_assoc.
    + exists s', buf', open', D'. split; [exact Hf|]. split; [congruence|]. rewrite plus3_assoc.
      destruct Hr as (? & ? & ? & ->). destruct open as [[m len]|]; [done|]. by rewrite plus3_0.
Qed.
End Recover.

(** ** The property *)

(** C15: recovery: any number of ticks that never complete may come first, each
    without its first packet or broken off, the latter mixed with packets of other
    sources; when then all packets of a tick of the source come, its first packet first, that
    tick's buffer is returned.  The statistics count its packets and bytes as
    accepted, every rejected packet of another source, and as discarded what
    [lost_counts] tells from the ticks alone ([lost_counts_all]: every tick, with
    the length of its buffer, unless one without its first packet follows one broken off). *)
Theorem getCompletePacketizedBuffer_recovers {host : Host} (r : reader) (data dataBuf : list Z)
    (id tick : Z) (st : option packetRecvStats) (l : list lost) (p : packet) (ps : list packet) :
  all_lost r.(bufLen) id UINT_MAX l -> tick <> last_tick UINT_MAX l -> zlen l < 1073741824 ->
  zlen data < 4294967296 -> zlen data <= r.(bufLen) -> r.(bufLen) <= zlen dataBuf ->
  st = None \/ r.(expectedTick) = 18446744073709551615 ->
  packet_ok p -> piece_of data id tick p -> p.(p_offset) = 0 ->
  Forall (piece_or_foreign data id tick) ps -> ends_in_piece id ps ->
  zlen p.(p_data) + bytes_in id ps = zlen data ->
  (forall i, (i < length data)%nat -> covered id (p :: ps) i) ->
  let bad := all_rejected id l + count_if (fun p => negb (is_piece id p)) ps in
  let '(packets, bytes, buffers) := lost_counts None l in
  room_for st (1 + count_if (is_piece id) ps) (zlen data) bad packets bytes buffers ->
  exists rest, length rest = length dataBuf /\
  getCompletePacketizedBuffer r st dataBuf
      (map (fun p => Datagram (packet_bytes p)) ((l ≫= lost_packets) ++ p :: ps))
    = Halt (mk_assembled (zlen data) (data ++ drop (length data) rest) tick (Some id)
        ((fun st => add_stats st (1 + count_if (is_piece id) ps) (zlen data) bad packets bytes buffers) <$> st)).
Proof.
  intros Hlost Htick Hl HL Hbuf Hlen Hest Hok Hp Hoff Hps Hend Hsum Hcov bad.
  destruct (lost_counts None l) as [[packets bytes] buffers] eqn:Hlc. intros Hroom.
  pose proof (all_rejected_nonneg id l) as Hr1. pose proof (count_if_nonneg (fun p => negb (is_piece id p)) ps) as Hr2.
  destruct (feed_lost r id st Hest l None UINT_MAX (0, 0, 0) 0 0 (sorter_start 0 0 st) dataBuf)
    as (s & rest & open & D & Hf & Hrest & Hbt & Hc & Ho & HD); try done; try lia.
  { split_and!; try done. cbn. by rewrite with_bad_0. }
  { intros s ->. destruct Hroom as (Hb0 & _ & _ & _ & _ & _ & Hb1). cbn in Hb1. unfold bad, is_i64 in *.
    split; [done|]. lia. }
  exists rest. split; [done|]. unfold getCompletePacketizedBuffer. rewrite map_app, feed_app, Hf.
  rewrite Hlc in HD. replace (plus3 (0, 0, 0) (packets, bytes, buffers)) with (packets, bytes, buffers) in HD by done.
  pose proof (between_discarded id st _ _ _ _ _ Hbt) as Hdisc. rewrite HD in Hdisc.
  pose proof Hbt as (Hprev & Hst & _ & Hop).
  rewrite (feed_complete_tick r data id tick s rest p ps); try done; try lia.
  - f_equal. f_equal. rewrite Hst, Hdisc. destruct st as [st|]; [|done]. cbn. by rewrite add_with_bad.
  - split; [congruence|]. destruct open as [[n len]|]; [right; by destruct Hop as ([] & _)|by left].
  - unfold discard_fits. rewrite Hdisc, <- HD. unfold counted, is_i64 in *.
    destruct open as [[n len]|]; unfold open_ok, is_u32, plus3 in *; cbn [fst snd] in *; lia.
  - by eapply between_estimate.
  - rewrite Hst, Hdisc. destruct st as [st|]; [|done]. destruct Hroom as [Hb0 Hfit].
    split; [|by rewrite add_with_bad]. destruct Hfit as (_ & _ & _ & _ & _ & Hb1).
    cbn [with_bad add_stats badSrcIdPackets] in *. unfold bad, is_i64 in *. lia.
Qed.

(** ** Witness *)

(** A tick without its first packet, one of which two bytes are missing, with a packet
    of source 8 in between, and a complete one with a packet of source 9. *)
Definition headless_example : lost :=
  mk_lost [] 97 (mk_packet 2 0 7 2 6 97 [3; 4]) [mk_packet 2 0 9 0 6 97 [1]].
Definition broken_example : lost :=
  mk_lost [9; 9; 9; 9; 9; 9] 98 (mk_packet 2 0 7 0 6 98 [9; 9; 9])
    [mk_packet 2 0 8 0 4 98 [1]; mk_packet 2 0 7 5 6 98 [9]].

Ltac solve_packet := repeat split; vm_compute; congruence.

Lemma getCompletePacketizedBuffer_recovers_witness :
  exists rest, length rest = 8%nat /\
  getCompletePacketizedBuffer (host := ENDIAN_LITTLE) reader_example stats_example (replicate 8 0)
    (map (fun p => Datagram (packet_bytes p)) (([headless_example; broken_example] ≫= lost_packets) ++
       [piece_example 7 0 2; piece_example 9 0 3; piece_example 7 2 4]))
  = Halt (mk_assembled 6 ([1; 2; 3; 4; 5; 6] ++ drop 6 rest) 99 (Some 7)
           (Some (mk_stats 0 0 0 0 2 5 2 0 6 12 0 2 0 (-1) (-1)))).
Proof.
  apply (@getCompletePacketizedBuffer_recovers ENDIAN_LITTLE reader_example data_example (replicate 8 0)
    7 99 stats_example [headless_example; broken_example] (piece_example 7 0 2)
    [piece_example 9 0 3; piece_example 7 2 4]).
  - cbn [all_lost]. split; [|split; [vm_compute; congruence|]].
    + split; [solve_packet|]. split; [done|]. split; [done|]. split; [done|].
      apply Forall_cons_2; [|apply Forall_nil_2]. split; [solve_packet|done].
    + split; [|split; [vm_compute; congruence|exact I]].
      split; [solve_packet|]. split; [done|]. split; [done|]. cbn [headless negb].
      split; [vm_compute; congruence|]. split; [vm_compute; congruence|]. split; [solve_packet|].
      split; [|split; [done|vm_compute; congruence]].
      apply Forall_cons_2; [|apply Forall_cons_2; [|apply Forall_nil_2]]; (split; [solve_packet|]);
        [right; done|left; solve_packet].
  - done.
  - vm_compute. congruence.
  - vm_compute. congruence.
  - vm_compute. congruence.
  - vm_compute. congruence.
  - right. reflexivity.
  - apply packet_ok_example; lia.
  - apply piece_of_example; lia.
  - reflexivity.
  - repeat (apply Forall_cons_2; [split; [apply packet_ok_example; lia|]|]).
    + right. discriminate.
    + left. apply piece_of_example; lia.
    + apply Forall_nil_2.
  - reflexivity.
  - reflexivity.
  - intros i Hi. change (length data_example) with 6%nat in Hi.
    do 6 (destruct i as [|i]; [unfold covered; rewrite !Exists_cons; cbn; lia|]). lia.
  - solve_packet.
Defined.
