(* ===== verification/AssembleTyped.v ===== *)
(** Typing of the reassembly loop: whatever datagrams arrive, the locals of
    getCompletePacketizedBuffer keep values of their types and the buffer stays a
    buffer of bytes, so that no wrap-around is hidden by the unbounded integers
    of the model; where a signed counter would overflow the model is undefined. *)
From S2P Require Import Prelude Bytes ByteOrder Wire Socket Assemble.

Definition event_bytes (ev : recv_event) : Prop :=
  match ev with Datagram bytes => bytes_ok bytes | RecvErr _ => True end.

(** The values the C++ types of the locals have; [totalBytesRead] stays below
    2^32 although its type is wider. *)
Record sorter_typed (s : sorter) : Prop := mk_typed {
  ty_prevTick : is_u64 s.(prevTick);
  ty_length : is_u32 s.(length_);
  ty_pktCount : is_u32 s.(pktCount);
  ty_totalPkts : is_u32 s.(totalPkts);
  ty_srcId : is_u16 s.(srcId);
  ty_total : 0 <= s.(totalBytesRead) < 4294967296;
  ty_discPackets : is_i64 s.(discPackets);
  ty_discBytes : is_i64 s.(discBytes);
  ty_discBufs : is_i64 s.(discBufs)
}.

Definition typed (n : nat) (st : sorter * list Z) : Prop :=
  sorter_typed st.1 /\ bytes_ok st.2 /\ length st.2 = n.

(** What the caller gets: a number of bytes or the code of an error, bytes, a
    tick and a source id. *)
Definition assembled_typed (n : nat) (res : assembled) : Prop :=
  -10 <= res.(a_ret) < 4294967296 + 65536 /\ bytes_ok res.(a_buf) /\ length res.(a_buf) = n
  /\ is_u64 res.(a_tick) /\ (forall id, res.(a_dataId) = Some id -> is_u16 id).

Section Typed.
Context {host : Host}.

Lemma order_val_bound e bs : bytes_ok bs -> 0 <= order_val e bs < 256 ^ zlen bs.
Proof. intros. destruct e; [by apply le_val_bound|by apply be_val_bound]. Qed.

Lemma ntohs_range v : is_u16 (ntohs v).
Proof. unfold ntohs, htons. destruct host_order; apply u16_range. Qed.
Lemma ntohl_range v : is_u32 (ntohl v).
Proof. apply htonl_range. Qed.
Lemma ntohll_range v : is_u64 v -> is_u64 (ntohll v).
Proof.
  intros Hv. change (ntohll v) with (htonll v). rewrite htonll_spec by exact Hv. unfold is_u64 in *.
  destruct host_order; [apply u64_range|exact Hv].
Qed.

Lemma get64_range buf off v : bytes_ok buf -> get64 buf off = Some v -> is_u64 v.
Proof.
  intros Hok. unfold get64, load. case_decide as Hd; [|done]. intros [= <-].
  set (bs := take _ _). assert (Hb : bytes_ok bs) by (by apply Forall_take, Forall_drop).
  pose proof (order_val_bound host_order bs Hb) as Hv.
  assert (Hl : zlen bs = 8) by (unfold bs; rewrite length_take, length_drop; lia).
  rewrite Hl in Hv. exact Hv.
Qed.

(** What is parsed has the types of the header's fields. *)
Lemma parseReHeader_typed pkt v id off len tick : bytes_ok pkt ->
  parseReHeader pkt = Some (v, id, off, len, tick) -> is_u16 id /\ is_u32 off /\ is_u32 len /\ is_u64 tick.
Proof.
  intros Hok Hp. unfold parseReHeader in Hp.
  apply option_bind_Some in Hp as (b0 & _ & Hp). apply option_bind_Some in Hp as (i & _ & Hp).
  apply option_bind_Some in Hp as (o & _ & Hp). apply option_bind_Some in Hp as (l & _ & Hp).
  apply option_bind_Some in Hp as (t & Ht & Hp). injection Hp as _ <- <- <- <-.
  split; [apply ntohs_range|]. split; [apply ntohl_range|]. split; [apply ntohl_range|].
  apply ntohll_range. by eapply get64_range.
Qed.

Lemma received_typed size bytes : 0 <= size -> bytes_ok bytes ->
  bytes_ok (received size bytes) /\ zlen (received size bytes) <= size.
Proof. intros H0 Hok. rewrite length_received by done. split; [by apply Forall_take|lia]. Qed.

Lemma begin_read_typed s : sorter_typed s -> sorter_typed (begin_read s).
Proof. intros []. unfold begin_read. destruct s.(veryFirstRead); by constructor. Qed.

Lemma discard_typed s packets bytes p b n : discard s packets bytes = Some (p, b, n) ->
  is_i64 p /\ is_i64 b /\ is_i64 n.
Proof.
  unfold discard. intros H. apply option_bind_Some in H as (x & Hx & H).
  apply option_bind_Some in H as (y & Hy & H). apply option_bind_Some in H as (z & Hz & H).
  injection H as <- <- <-. by apply int64_inv in Hx as [-> ?], Hy as [-> ?], Hz as [-> ?].
Qed.

Lemma sort_tick_typed s pl pt id offset tick s' b : sorter_typed s -> is_u16 id -> is_u64 tick ->
  sort_tick s pl pt id offset tick = Some (s', b) -> sorter_typed s' /\ s'.(length_) = s.(length_).
Proof.
  intros [] Hid Ht. unfold sort_tick.
  destruct (negb (tick =? _)); [destruct (negb (offset =? 0)); [|destruct (negb _)]|destruct s.(dumpTick)].
  1, 2: destruct (discard _ _ _) as [[[p x] n]|] eqn:Hd; [|done]; apply discard_typed in Hd as (? & ? & ?).
  all: cbn [mbind option_bind]; intros [= <- <-]; (split; [by constructor|done]).
Qed.

Lemma sort_packet_typed s n id offset length tick s' b : sorter_typed s -> is_u16 id -> is_u32 length -> is_u64 tick ->
  sort_packet s n id offset length tick = Some (s', b) -> sorter_typed s' /\ s'.(length_) = length.
Proof.
  intros Hs Hid Hl Ht Hp. unfold sort_packet in Hp. destruct s.(veryFirstRead).
  - apply option_bind_Some in Hp as (k & Hk & Hp).
    assert (Hk32 : is_u32 k).
    { unfold guess_packets in Hk. case_decide; [done|]. injection Hk as <-. apply u32_range. }
    destruct Hs. eapply sort_tick_typed in Hp; try done; by constructor.
  - destruct (negb (id =? s.(srcId))).
    + apply option_bind_Some in Hp as (st & _ & Hp). injection Hp as <- <-.
      destruct Hs. split; [by constructor|done].
    + destruct Hs. eapply sort_tick_typed in Hp; try done; by constructor.
Qed.

Lemma step_typed n r st ev : is_u64 r.(expectedTick) -> typed n st -> event_bytes ev ->
  match getCompletePacketizedBuffer_step r st ev with
  | Next st' => typed n st'
  | Halt res => assembled_typed n res
  | Stuck => True
  end.
Proof.
  intros Hexp. destruct st as [s buf]. intros (Hs & Hb & Hn) Hev. cbn [fst snd] in *.
  apply begin_read_typed in Hs. unfold getCompletePacketizedBuffer_step. set (s0 := begin_read s) in *.
  assert (Herr : forall e s1, assembled_typed n (mk_assembled (error_code e) buf r.(expectedTick) None s1)).
  { intros e s1. split_and!; try done; cbn [a_ret]; destruct e; cbn; lia. }
  destruct ev as [bytes|]; [|apply Herr]. cbn in Hev.
  pose proof (received_typed 65536 bytes ltac:(lia) Hev) as [Hok Hlen].
  set (pkt := received 65536 bytes) in *. clearbody pkt. destruct (Z.ltb_spec (zlen pkt) RECV_HEADER); [apply Herr|].
  destruct (parseReHeader pkt) as [[[[[v id] off] len] tick]|] eqn:Hp; [|done]. cbn [mbind option_bind].
  destruct (parseReHeader_typed _ _ _ _ _ _ Hok Hp) as (Hid & Hoff & Hl & Ht).
  destruct (sort_packet s0 _ id off len tick) as [[s1 acc]|] eqn:Hsp; [|done]. cbn [mbind option_bind].
  apply sort_packet_typed in Hsp as [Hs1 Hlen1]; try done.
  destruct acc; cbn [negb]; [|done]. destruct (_ <? _); [apply Herr|].
  destruct (load pkt RECV_HEADER _) as [d|] eqn:Hd; [|done]. cbn [mbind option_bind].
  destruct (store buf off d) as [buf'|] eqn:Hst; [|done].
  assert (Hbuf : bytes_ok buf' /\ length buf' = n).
  { split; [|by rewrite (store_length _ _ _ _ Hst)].
    eapply store_bytes_ok; [exact Hb| |exact Hst]. by eapply load_bytes_ok. }
  pose proof Hs1 as []. unfold RECV_HEADER, RE_HEADER_BYTES, is_u32 in *.
  destruct (Z.leb_spec len (totalBytesRead (count_packet s1 (zlen pkt - 20) tick))) as [Hdone|Hmore];
    unfold count_packet in *; cbn [totalBytesRead] in *.
  - destruct (final_stats _ _ _ _); [|done]. split_and!; try apply Hbuf; try done; cbn [a_ret a_dataId]; [lia..|].
    by intros ? [= <-].
  - split_and!; try apply Hbuf. constructor; cbn [prevTick length_ pktCount totalPkts srcId totalBytesRead fst];
      try done; [apply u32_range|lia].
Qed.
End Typed.

(** For any datagrams of bytes, the locals of getCompletePacketizedBuffer hold values of
    their types after every packet, the buffer keeps its size and holds bytes, and
    what is returned is an error code or a number of bytes, a tick of 64 bits and
    a source id of 16 bits. *)
Theorem getCompletePacketizedBuffer_typed {host : Host} (r : reader) (stats : option packetRecvStats)
    (dataBuf : list Z) (evs : list recv_event) :
  is_u64 r.(expectedTick) -> bytes_ok dataBuf -> Forall event_bytes evs ->
  match getCompletePacketizedBuffer r stats dataBuf evs with
  | Next st => typed (length dataBuf) st
  | Halt res => assembled_typed (length dataBuf) res
  | Stuck => True
  end.
Proof.
  intros Hexp Hb Hevs. unfold getCompletePacketizedBuffer.
  assert (Hst : typed (length dataBuf) (sorter_start 0 0 stats, dataBuf)).
  { split; [|done]. constructor; cbn; unfold is_u64, is_u32, is_u16, is_i64, UINT_MAX; lia. }
  revert Hst. generalize (sorter_start 0 0 stats, dataBuf).
  induction Hevs as [|ev evs Hev _ IH]; intros st Hst; cbn [feed]; [done|].
  pose proof (step_typed (length dataBuf) r st ev Hexp Hst Hev) as Hstep.
  destruct (getCompletePacketizedBuffer_step r st ev); [by apply IH|done|done].
Qed.

Lemma getCompletePacketizedBuffer_typed_witness :
  match getCompletePacketizedBuffer (host := ENDIAN_LITTLE) reader_example None (replicate 8 0)
          [Datagram (replicate 30 1); RecvErr 4] with
  | Next st => typed 8 st
  | Halt res => assembled_typed 8 res
  | Stuck => True
  end.
Proof.
  apply (@getCompletePacketizedBuffer_typed ENDIAN_LITTLE reader_example None (replicate 8 0)
    [Datagram (replicate 30 1); RecvErr 4]).
  - unfold is_u64. cbn. lia.
  - apply Forall_replicate. lia.
  - apply Forall_cons. split; [apply Forall_replicate; lia|]. apply Forall_cons. split; [done|apply Forall_nil_2].
Defined.

