(* ===== verification/EndToEnd.v ===== *)
(** The packetizer and the reassembler together: what
    sendPacketizedBufferSendNew puts on the network, delivered in any order
    after the first packet, getCompletePacketizedBuffer turns back into the
    buffer.  The two ends only share the packet format: their theorems are used,
    not their code. *)
From S2P Require Import Prelude Bytes ByteOrder Wire Socket Sender Packetize Assemble.

(** ** The packets of a send, as the receiver parses them *)

Section Packets.
Context (j : job) (reserved : Z).

Fixpoint packets_of (off : Z) (pieces : list (list Z)) : list packet :=
  match pieces with
  | [] => []
  | c :: cs => mk_packet j.(version) (Z.land reserved 0xff) j.(dataId) off j.(fullLen) j.(tick) c
                 :: packets_of (u32 (off + zlen c)) cs
  end.

(** The bytes the load balancer takes off a packet: its own header. *)
Definition lb_size (direct : bool) : nat := if direct then 0 else 16.

Lemma length_packets_of off pieces : length (packets_of off pieces) = length pieces.
Proof. revert off. induction pieces; intros; cbn; auto. Qed.

Lemma emitted_packets direct noConnect fb off pieces :
  map (drop (lb_size direct)) (emit (SendNew_spec j direct noConnect reserved) fb off pieces)
    = map packet_bytes (packets_of off pieces).
Proof.
  revert fb off. induction pieces as [|c cs IH]; intros fb off; cbn [emit map packets_of]; [done|].
  f_equal; [|apply IH]. cbn [sp_header SendNew_spec]. unfold new_header, packet_bytes, re_packet.
  destruct direct; cbn [lb_size]; [done|]. rewrite <- app_assoc.
  by rewrite drop_app_length' by by rewrite length_lb_bytes.
Qed.

Context (Hj : job_ok j) (m : nat) (Hm : (0 < m)%nat) (Hm' : Z.of_nat m <= 65536 - RECV_HEADER).
Context (Hfull : j.(fullLen) = zlen j.(dataBuffer)).

Definition good (p : packet) : Prop := packet_ok p /\ piece_of j.(dataBuffer) j.(dataId) j.(tick) p.

(** The packet at offset [o] for [n] bytes of the buffer is a piece of it. *)
Lemma good_packet o n :
  (0 < n <= m)%nat -> (o + n <= length j.(dataBuffer))%nat ->
  good (mk_packet j.(version) (Z.land reserved 0xff) j.(dataId) (Z.of_nat o) j.(fullLen) j.(tick)
          (take n (drop o j.(dataBuffer)))).
Proof using Hj Hm Hm' Hfull.
  intros Hn Ho. destruct Hj as (Ht & _ & Hid & Hfl & _).
  pose proof Hfl as Hfl'. unfold is_u32 in Hfl'. rewrite Hfull in Hfl'.
  assert (Hl : length (take n (drop o j.(dataBuffer))) = n)
    by (rewrite length_take, length_drop; lia).
  split.
  - repeat split; cbn [p_id p_offset p_length p_tick p_data]; try apply Hid; try apply Ht;
      try apply Hfl; rewrite ?Hl; lia.
  - repeat split; cbn [p_id p_tick p_length p_offset p_data]; rewrite ?Hl, ?Nat2Z.id; try done; lia.
Qed.

Lemma packets_good_all data o : j.(dataBuffer) <> [] ->
  data = drop o j.(dataBuffer) -> (o < length j.(dataBuffer))%nat ->
  let ps := packets_of (Z.of_nat o) (chunks m data) in
  Forall good ps /\ bytes_in j.(dataId) ps = zlen data
  /\ (forall i, (o <= i < length j.(dataBuffer))%nat -> covered j.(dataId) ps i).
Proof using Hj Hm Hm' Hfull.
  intros Hne. pose proof Hj as (_ & _ & _ & Hfl & _). unfold is_u32 in Hfl. rewrite Hfull in Hfl.
  revert o. induction data as [l Hl|l Hl IH] using (chunks_ind m Hm); intros o Hdata Ho.
  - rewrite chunks_unfold, decide_True by lia. cbn [packets_of].
    assert (Hlen : length l = (length j.(dataBuffer) - o)%nat) by (rewrite Hdata, length_drop; done).
    pose proof (good_packet o (length l) ltac:(lia) ltac:(lia)) as Hg.
    rewrite <- Hdata, take_ge in Hg by done.
    split; [by constructor|]. split.
    + cbn [bytes_in]. unfold is_piece. cbn [p_id p_data]. rewrite Z.eqb_refl. lia.
    + intros i Hi. unfold covered. apply Exists_cons_hd. cbn [p_id p_offset p_data].
      split; [done|lia].
  - rewrite chunks_unfold, decide_False by lia. cbn [packets_of].
    assert (Hlen : length l = (length j.(dataBuffer) - o)%nat) by (rewrite Hdata, length_drop; done).
    assert (Htl : length (take m l) = m) by (rewrite length_take; lia).
    destruct (IH (o + m)%nat) as (H1 & H2 & H3); [by rewrite Hdata, drop_drop|lia|].
    rewrite Htl, u32_small by lia. replace (Z.of_nat o + Z.of_nat m) with (Z.of_nat (o + m)) by lia.
    pose proof (good_packet o m ltac:(lia) ltac:(lia)) as Hg. rewrite <- Hdata in Hg.
    split; [by constructor|]. split.
    + cbn [bytes_in]. unfold is_piece. cbn [p_id p_data]. rewrite Z.eqb_refl, H2, Htl, length_drop. lia.
    + intros i Hi. unfold covered. destruct (decide (i < o + m)%nat).
      * apply Exists_cons_hd. cbn [p_id p_offset p_data]. split; [done|]. rewrite Htl. lia.
      * apply Exists_cons_tl. apply H3. lia.
Qed.
End Packets.

(** Order does not matter to what the reassembly theorem asks of the packets. *)
Lemma bytes_in_perm id ps qs : Permutation ps qs -> bytes_in id ps = bytes_in id qs.
Proof. induction 1; cbn [bytes_in]; lia. Qed.

Lemma covered_perm id ps qs i : Permutation ps qs -> covered id ps i -> covered id qs i.
Proof.
  intros Hp. unfold covered. rewrite !Exists_exists. intros (p & Hin & H). exists p.
  split; [|done]. by rewrite <- Hp.
Qed.

Lemma all_pieces data id tick ps : Forall (piece_of data id tick) ps ->
  count_if (is_piece id) ps = zlen ps /\ count_if (fun p => negb (is_piece id p)) ps = 0
  /\ ends_in_piece id ps.
Proof.
  induction 1 as [|p ps (Hid & _) _ IH]; [done|].
  assert (Hp : is_piece id p = true) by (unfold is_piece; by apply Z.eqb_eq).
  cbn [count_if length]. rewrite Hp. cbn [negb]. destruct IH as (IH1 & IH2 & IH3).
  repeat split; [lia|lia|]. unfold ends_in_piece in *. destruct ps; [done|]. exact IH3.
Qed.

(** The packets of a successful send: a first one at offset 0 and others, all
    pieces of the buffer, that together cover it. *)
Lemma sent_packets {shost : Host} {sock : Socket} j (direct noConnect : bool) reserved storage out :
  let hdr := if direct then RE_HEADER_BYTES else HEADER_BYTES in
  job_ok j -> zlen storage = 65536 -> payload_fits j hdr ->
  takes_small (if noConnect then SENDTO else SEND) hdr ->
  j.(offset) = 0 -> j.(fullLen) = zlen j.(dataBuffer) -> j.(dataBuffer) <> [] ->
  returns (sendPacketizedBufferSendNew j direct noConnect reserved storage) out ->
  out.(o_ret) = 0 ->
  exists q qs, map (drop (lb_size direct)) out.(o_sent) = map packet_bytes (q :: qs)
    /\ out.(o_packetsSent) = zlen (q :: qs) /\ q.(p_offset) = 0 /\ Forall (good j) (q :: qs)
    /\ bytes_in j.(dataId) (q :: qs) = zlen j.(dataBuffer)
    /\ forall i, (i < length j.(dataBuffer))%nat -> covered j.(dataId) (q :: qs) i.
Proof.
  intros hdr Hj Hst Hfits Hsmall Hoff Hfull Hne Hout Hret.
  destruct (SendNew_total j Hj direct noConnect reserved storage Hst Hfits Hsmall)
    as (out' & Hout' & m & Hm & _ & Hcount & Hpost).
  pose proof (returns_unique _ _ _ Hout Hout') as <-. clear Hout'.
  destruct Hpost as [(_ & Hs & _)|(? & _)]; [|lia].
  assert (Hm' : Z.of_nat (Z.to_nat m) <= 65536 - RECV_HEADER).
  { unfold payload_fits, RECV_HEADER, HEADER_BYTES, RE_HEADER_BYTES in *.
    subst hdr. destruct direct; lia. }
  rewrite Hcount, Hs, Hoff, emitted_packets, length_emit.
  destruct (packets_good_all j reserved Hj (Z.to_nat m) ltac:(lia) Hm' Hfull j.(dataBuffer) 0 Hne
              eq_refl) as (Hgood & Hbytes & Hcov); [destruct j.(dataBuffer); cbn; [done|lia]|].
  change (Z.of_nat 0) with 0 in *.
  pose proof (length_packets_of j reserved 0 (chunks (Z.to_nat m) j.(dataBuffer))) as Hlen.
  pose proof (chunks_nonempty (Z.to_nat m) j.(dataBuffer)) as Hc.
  destruct (chunks (Z.to_nat m) j.(dataBuffer)) as [|c cs]; [done|].
  cbn [packets_of] in *. eexists _, _. split; [done|].
  repeat split; try done; [by rewrite <- Hlen|]. intros i Hi. apply Hcov. lia.
Qed.

(** ** Properties *)

(** C1: end to end: the packets of a buffer that sendPacketizedBufferSendNew has
    sent with return value 0 (through the load balancer, which removes its
    header, or direct), arriving first packet first and the others in any
    order, are reassembled by getCompletePacketizedBuffer into exactly that
    buffer; it returns its length, its tick and its source, and accepts as many
    packets as the sender reports.  Statistics that are kept must have room for the
    counts ([room_for]): their counters are signed. *)
Theorem packetize_reassemble {shost rhost : Host} {sock : Socket} (j : job)
    (direct noConnect : bool) (reserved : Z) (storage : list Z) out
    (r : reader) (dataBuf : list Z) (st : option packetRecvStats) p ps arrived :
  let hdr := if direct then RE_HEADER_BYTES else HEADER_BYTES in
  job_ok j -> zlen storage = 65536 -> payload_fits j hdr ->
  takes_small (if noConnect then SENDTO else SEND) hdr ->
  j.(offset) = 0 -> j.(fullLen) = zlen j.(dataBuffer) -> j.(dataBuffer) <> [] ->
  returns (sendPacketizedBufferSendNew (host := shost) j direct noConnect reserved storage) out ->
  out.(o_ret) = 0 ->
  map (drop (lb_size direct)) out.(o_sent) = p :: ps -> Permutation ps arrived ->
  j.(tick) <> UINT_MAX -> st = None \/ r.(expectedTick) = 18446744073709551615 ->
  room_for st out.(o_packetsSent) (zlen j.(dataBuffer)) 0 0 0 0 ->
  zlen j.(dataBuffer) <= r.(bufLen) -> r.(bufLen) <= zlen dataBuf ->
  getCompletePacketizedBuffer (host := rhost) r st dataBuf (map Datagram (p :: arrived))
    = Halt (mk_assembled (zlen j.(dataBuffer))
              (j.(dataBuffer) ++ drop (length j.(dataBuffer)) dataBuf) j.(tick) (Some j.(dataId))
              ((fun s => add_stats s out.(o_packetsSent) (zlen j.(dataBuffer)) 0 0 0 0) <$> st)).
Proof.
  intros hdr Hj Hst Hfits Hsmall Hoff Hfull Hne Hout Hret Hsent Hperm Htick Hstats Hfit Hlen Hbuf.
  destruct (sent_packets j direct noConnect reserved storage out Hj Hst Hfits Hsmall Hoff Hfull Hne
              Hout Hret) as (q & qs & Hs & Hcount & Hq & Hgood & Hbytes & Hcov).
  rewrite Hs in Hsent. injection Hsent as <- <-. symmetry in Hperm.
  apply Permutation_map_inv in Hperm as (qs' & -> & Hperm).
  apply Forall_cons in Hgood as [[Hqok Hqp] Hgood]. rewrite Hperm in Hgood.
  rewrite (bytes_in_perm j.(dataId) (q :: qs) (q :: qs')) in Hbytes by by constructor.
  assert (Hpieces : Forall (piece_of j.(dataBuffer) j.(dataId) j.(tick)) qs')
    by (eapply Forall_impl; [exact Hgood|]; by intros ? []).
  destruct (all_pieces _ _ _ _ Hpieces) as (Hc1 & Hc2 & Hend).
  rewrite map_cons, map_map. unfold getCompletePacketizedBuffer.
  etransitivity; [apply (feed_complete_tick r j.(dataBuffer) j.(dataId) j.(tick)
                           (sorter_start 0 0 st) dataBuf q qs'); try done|].
  - destruct Hj as (_ & _ & _ & Hfl & _). unfold is_u32 in Hfl. lia.
  - split; [cbn; congruence|by left].
  - eapply Forall_impl; [exact Hgood|]. intros x [? ?]. split; [done|by left].
  - cbn [bytes_in] in Hbytes. unfold is_piece in Hbytes.
    by rewrite (proj1 Hqp), Z.eqb_refl in Hbytes.
  - rewrite Hc1, Hc2. cbn [stats sorter_start discarded veryFirstRead fst snd discPackets discBytes discBufs].
    rewrite <- (Permutation_length Hperm). rewrite Hcount in Hfit. cbn [length] in Hfit.
    by replace (1 + zlen qs) with (Z.of_nat (S (length qs))) by lia.
  - intros i Hi. eapply covered_perm; [|by apply Hcov]. by constructor.
  - rewrite Hc1, Hc2, Hcount. do 2 f_equal. destruct st; [|done]. cbn [fmap option_fmap option_map
      stats sorter_start discarded veryFirstRead fst snd discPackets discBytes discBufs].
    rewrite <- (Permutation_length Hperm). cbn [length]. do 2 f_equal. lia.
Qed.


(** An empty buffer does not survive: the packetizer sends one packet of
    headers only for it, as its comment promises, and that packet makes the
    reassembler divide by zero. *)
Theorem empty_buffer_crashes_receiver {shost rhost : Host} {sock : Socket} (j : job)
    (direct noConnect : bool) (reserved : Z) (storage : list Z)
    (r : reader) (dataBuf : list Z) (st : option packetRecvStats) :
  let hdr := if direct then RE_HEADER_BYTES else HEADER_BYTES in
  job_ok j -> zlen storage = 65536 -> payload_fits j hdr ->
  (forall k pkt, exists n, sock_send (if noConnect then SENDTO else SEND) k pkt = Sent n) ->
  j.(dataBuffer) = [] ->
  exists out pkt,
    returns (sendPacketizedBufferSendNew (host := shost) j direct noConnect reserved storage) out
    /\ out.(o_ret) = 0 /\ map (drop (lb_size direct)) out.(o_sent) = [pkt]
    /\ getCompletePacketizedBuffer (host := rhost) r st dataBuf [Datagram pkt] = Stuck.
Proof.
  intros hdr Hj Hst Hfits Hall Hd.
  destruct (@SendNew_total shost sock j Hj direct noConnect reserved storage Hst Hfits)
    as (out & Hout & m & Hm & _ & _ & Hpost).
  { intros k pkt Hk. destruct (Hall k pkt). congruence. }
  assert (Hret : out.(o_ret) = 0).
  { destruct (sender_all_sent (SendNew_spec j direct noConnect reserved) j.(offset) hdr (65536 - hdr))
      with (fb := j.(firstBuffer)) (q0 := j.(offset)) (p0 := j.(maxUdpPayload))
        (data := j.(dataBuffer)) (dc := j.(delayCounter)) as (out' & Hout' & Hr & _); try done.
    - intros. apply length_new_header.
    - intros p q ? ?. apply bytes_unsigned_min. unfold payload_fits, hdr in *.
      unfold RE_HEADER_BYTES, HEADER_BYTES in *. destruct direct; lia.
    - intros n ?. cbn. apply Z.leb_le. subst hdr. lia.
    - subst hdr. by destruct direct.
    - intros k pkt Hk. destruct (Hall k pkt). cbn [sp_call SendNew_spec] in Hk. congruence.
    - apply (SendNew_terminates_abstract j Hj direct noConnect reserved storage out Hst) in Hout.
      pose proof (terminates_unique _ _ _ _ Hout Hout') as H. by injection H as ->. }
  destruct Hpost as [(_ & Hs & _)|(? & _)]; [|lia].
  rewrite Hd, emit_short in Hs by (cbn; lia).
  pose (p := mk_packet j.(version) (Z.land reserved 0xff) j.(dataId) j.(offset) j.(fullLen) j.(tick) []).
  exists out, (packet_bytes p). split; [done|]. split; [done|]. split.
  - rewrite Hs. pose proof (emitted_packets j reserved direct noConnect j.(firstBuffer) j.(offset) [[]]) as He.
    exact He.
  - apply getCompletePacketizedBuffer_empty_packet; [|done].
    destruct Hj as (Ht & Ho & Hid & Hfl & _). by repeat split; try apply Ht; try apply Ho;
      try apply Hid; try apply Hfl.
Qed.

(** ** Witnesses *)

(** Five bytes, two at a time: three packets, the last two of which arrive in the
    other order. *)
Lemma packetize_reassemble_witness :
  exists out p q1 q2,
    returns (sendPacketizedBufferSendNew (host := ENDIAN_LITTLE) (sock := path_mtu 38)
               (job_example 4) false false 0 (replicate 65536 0)) out
    /\ map (drop 16) out.(o_sent) = [p; q1; q2]
    /\ getCompletePacketizedBuffer (host := ENDIAN_BIG) (mk_reader 6 0 1) None (replicate 6 0)
         (map Datagram [p; q2; q1])
       = Halt (mk_assembled 5 [1; 2; 3; 4; 5; 0] 99 (Some 7) None).
Proof.
  assert (H : exists out p q1 q2, returns (@sendPacketizedBufferSendNew ENDIAN_LITTLE (path_mtu 38)
               (job_example 4) false false 0 (replicate 65536 0)) out
               /\ out.(o_ret) = 0 /\ map (drop 16) out.(o_sent) = [p; q1; q2]).
  { eexists _, _, _, _.
    split; [apply returns_run; exists 10%nat; split; [vm_compute; reflexivity|done]|].
    split; vm_compute; reflexivity. }
  destruct H as (out & p & q1 & q2 & Hout & Hret & Hsent).
  exists out, p, q1, q2. split; [exact Hout|]. split; [exact Hsent|].
  etransitivity; [apply (@packetize_reassemble ENDIAN_LITTLE ENDIAN_BIG (path_mtu 38) (job_example 4)
    false false 0 (replicate 65536 0) out) with (ps := [q1; q2])|reflexivity].
  - apply job_example_ok.
  - vm_compute. reflexivity.
  - split; vm_compute; congruence.
  - apply path_mtu_takes_small. vm_compute. congruence.
  - reflexivity.
  - reflexivity.
  - discriminate.
  - exact Hout.
  - exact Hret.
  - exact Hsent.
  - apply Permutation_swap.
  - vm_compute. congruence.
  - left. reflexivity.
  - exact I.
  - vm_compute. congruence.
  - vm_compute. congruence.
Defined.

Lemma empty_buffer_crashes_receiver_witness :
  exists out pkt,
    returns (sendPacketizedBufferSendNew (host := ENDIAN_LITTLE) (sock := fun _ _ p => Sent (zlen p))
      (mk_job [] 100 99 1 3 2 7 0 0 0 1 1 true true) false false 0 (replicate 65536 0)) out
    /\ map (drop 16) out.(o_sent) = [pkt]
    /\ getCompletePacketizedBuffer (host := ENDIAN_LITTLE) (mk_reader 6 0 1) None (replicate 6 0)
         [Datagram pkt] = Stuck.
Proof.
  destruct (@empty_buffer_crashes_receiver ENDIAN_LITTLE ENDIAN_LITTLE (fun _ _ p => Sent (zlen p))
    (mk_job [] 100 99 1 3 2 7 0 0 0 1 1 true true) false false 0 (replicate 65536 0)
    (mk_reader 6 0 1) (replicate 6 0) None) as (out & pkt & H1 & _ & H2 & H3).
  - repeat split; vm_compute; congruence.
  - vm_compute. reflexivity.
  - split; vm_compute; congruence.
  - intros. eexists. reflexivity.
  - reflexivity.
  - exists out, pkt. split; [exact H1|split; [exact H2|exact H3]].
Defined.
