(* ===== verification/AssembleAlloc.v ===== *)
(** getCompleteAllocatedBuffer of ejfat_assemble_ersap.hpp: reassembly into a
    buffer that the routine allocates, or reallocates when a packet does not
    fit.  Packets are sorted as in getCompletePacketizedBuffer (Assemble.v); what
    is new is the ownership and the size of the buffer.  [malloc] and [realloc]
    are parameters. *)
From S2P Require Import Prelude Bytes ByteOrder Wire Socket Assemble.

(** A heap: the block that malloc returns for a size ([None] is a null pointer),
    and the bytes realloc adds behind the old contents. *)
Record heap := mk_heap {
  malloc : Z -> option (list Z);
  realloc_tail : Z -> option (list Z)   (* for the number of bytes added *)
}.

(** Blocks have the size asked for. *)
Definition heap_ok (h : heap) : Prop :=
  (forall n b, h.(malloc) n = Some b -> zlen b = n)
  /\ (forall n b, h.(realloc_tail) n = Some b -> zlen b = n).

(** A heap that never runs out. *)
Definition heap_total (h : heap) : Prop :=
  heap_ok h /\ (forall n, 0 <= n -> is_Some (h.(malloc) n))
  /\ (forall n, 0 <= n -> is_Some (h.(realloc_tail) n)).

Definition realloc (h : heap) (old : list Z) (n : Z) : option (list Z) :=
  if decide (n <= zlen old) then Some (take (Z.to_nat n) old)
  else app old <$> h.(realloc_tail) (n - zlen old).

(** What the caller has after the call: the value returned, the buffer and its
    length as stored through the pointers (unchanged on an error), and whether
    the buffer the caller passed in is still allocated. *)
Record alloc_result := mk_alloc_result {
  al_ret : Z;
  al_buf : option (list Z);
  al_bufLen : Z;
  al_tick : Z;
  al_dataId : option Z;
  al_stats : option packetRecvStats;
  al_user_valid : bool
}.

(** The locals; [userValid] is whether the caller's pointer still points to an
    allocated block. *)
Record allocator := mk_allocator {
  alLen : Z;              (* bufLen *)
  allocateBuf : bool;
  alBuf : list Z;         (* *dataBuf *)
  userValid : bool
}.

Section Alloc.
Context {host : Host} (h : heap).

(** The length to allocate, or to accept, from the arguments. *)
Definition choose_length (userBuf : option (list Z)) (bufLen : Z) : Z * bool :=
  match userBuf with
  | None =>
    if bufLen =? 0 then (100000, true)
    else if bufLen <? MAX_EJFAT_MTU then (MAX_EJFAT_MTU, true)
    else (bufLen, true)
  | Some _ => if bufLen <? MAX_EJFAT_MTU then (MAX_EJFAT_MTU, true) else (bufLen, false)
  end.

(** Everything before the loop. *)
Definition alloc_enter (userBuf : option (list Z)) (bufLen : Z) : option allocator :=
  let '(bufLen, allocateBuf) := choose_length userBuf bufLen in
  if allocateBuf then
    b ← h.(malloc) bufLen; Some (mk_allocator bufLen true b true)
  else Some (mk_allocator bufLen false (default [] userBuf) true).

(** The arguments that do not change: the caller's buffer and length, the tick
    passed in, the prescale. *)
Record alloc_reader := mk_alloc_reader {
  ar_user : option (list Z);
  ar_bufLen : Z;
  ar_tick : Z;
  ar_prescale : Z
}.

(** [free(dataBuf)] if it was allocated here, and return the code. *)
Definition alloc_error (r : alloc_reader) (e : errorCodes) (s : sorter) (a : allocator)
    : outcome (sorter * allocator) alloc_result :=
  Halt (mk_alloc_result (error_code e) r.(ar_user) r.(ar_bufLen) r.(ar_tick) None s.(stats)
          a.(userValid)).

(** [if (offset + dataBytes > bufLen)]: double the buffer, once. *)
Definition make_room (a : allocator) (need : Z) : option allocator :=
  if a.(alLen) <? need then
    let bufLen := u64 (a.(alLen) * 2) in
    b ← realloc h a.(alBuf) bufLen;
    Some (mk_allocator bufLen true b
            (if a.(allocateBuf) then a.(userValid) else false))
  else Some a.

Definition getCompleteAllocatedBuffer_step (r : alloc_reader) (st : sorter * allocator)
    (ev : recv_event) : outcome (sorter * allocator) alloc_result :=
  let '(s, a) := st in
  let s := begin_read s in
  match ev with
  | RecvErr _ => alloc_error r RECV_MSG s a
  | Datagram bytes =>
    let pkt := received 65536 bytes in
    let bytesRead := zlen pkt in
    if bytesRead <? RECV_HEADER then alloc_error r INTERNAL_ERROR s a
    else
      let dataBytes := bytesRead - RECV_HEADER in
      match
        '(_, id, offset, length, tick) ← parseReHeader pkt;
        '(s, accept) ← sort_packet s dataBytes id offset length tick;
        Some (s, accept, id, offset, length, tick)
      with
      | None => Stuck
      | Some (s, accept, id, offset, length, tick) =>
        if negb accept then Next (s, a)
        else
          match make_room a (offset + dataBytes) with
          | None => alloc_error r OUT_OF_MEM s a
          | Some a =>
            match d ← load pkt RECV_HEADER dataBytes; store a.(alBuf) offset d with
            | None => Stuck
            | Some buf =>
              let a := mk_allocator a.(alLen) a.(allocateBuf) buf a.(userValid) in
              let s := count_packet s dataBytes tick in
              if length <=? s.(totalBytesRead) then
                match final_stats s r.(ar_tick) r.(ar_prescale) tick with
                | None => Stuck
                | Some stats =>
                  Halt (mk_alloc_result s.(totalBytesRead) (Some a.(alBuf)) a.(alLen) tick
                          (Some id) stats a.(userValid))
                end
              else Next (s, a)
            end
          end
      end
  end.

(** The call; [hasArgs] is false when one of the two pointers is null. *)
Definition getCompleteAllocatedBuffer (r : alloc_reader) (hasArgs : bool)
    (stats : option packetRecvStats) (evs : list recv_event)
    : outcome (sorter * allocator) alloc_result :=
  if negb hasArgs then
    Halt (mk_alloc_result (error_code BAD_ARG) r.(ar_user) r.(ar_bufLen) r.(ar_tick) None stats true)
  else
    match alloc_enter r.(ar_user) r.(ar_bufLen) with
    | None =>
      Halt (mk_alloc_result (error_code OUT_OF_MEM) r.(ar_user) r.(ar_bufLen) r.(ar_tick) None
              stats true)
    | Some a => feed (getCompleteAllocatedBuffer_step r) (sorter_start 0 0 stats, a) evs
    end.
End Alloc.

(** ** The fixed-size routine inside *)

(** The arguments with which getCompletePacketizedBuffer would run on the buffer
    that is allocated at the moment. *)
Definition reader_of (r : alloc_reader) (a : allocator) : reader :=
  mk_reader a.(alLen) r.(ar_tick) r.(ar_prescale).

Definition set_buf (a : allocator) (buf : list Z) : allocator :=
  mk_allocator a.(alLen) a.(allocateBuf) buf a.(userValid).

(** What the caller gets: a result of getCompletePacketizedBuffer, the buffer
    passed back when it is a success. *)
Definition alloc_return (r : alloc_reader) (a : allocator) (res : assembled) : alloc_result :=
  match res.(a_dataId) with
  | None => mk_alloc_result res.(a_ret) r.(ar_user) r.(ar_bufLen) r.(ar_tick) None res.(a_stats)
              a.(userValid)
  | Some id => mk_alloc_result res.(a_ret) (Some res.(a_buf)) a.(alLen) res.(a_tick) (Some id)
                 res.(a_stats) a.(userValid)
  end.

Definition alloc_outcome (r : alloc_reader) (a : allocator) (o : outcome (sorter * list Z) assembled)
    : outcome (sorter * allocator) alloc_result :=
  match o with
  | Next (s, buf) => Next (s, set_buf a buf)
  | Halt res => Halt (alloc_return r a res)
  | Stuck => Stuck
  end.

(** The answer is not BUF_TOO_SMALL. *)
Definition large_enough (o : outcome (sorter * list Z) assembled) : Prop :=
  forall res, o = Halt res -> res.(a_ret) <> error_code BUF_TOO_SMALL.

Lemma alloc_step_same {host : Host} h r s a ev :
  large_enough (getCompletePacketizedBuffer_step (reader_of r a) (s, a.(alBuf)) ev) ->
  getCompleteAllocatedBuffer_step h r (s, a) ev
    = alloc_outcome r a (getCompletePacketizedBuffer_step (reader_of r a) (s, a.(alBuf)) ev).
Proof.
  unfold getCompleteAllocatedBuffer_step, getCompletePacketizedBuffer_step, large_enough.
  destruct ev as [bytes|e]; [|done]. destruct (_ <? RECV_HEADER); [done|].
  destruct (parseReHeader _) as [[[[[v id] off] len] tk]|]; [|done]. cbn [mbind option_bind].
  destruct (sort_packet _ _ _ _ _ _) as [[s' acc]|]; [|done]. cbn [mbind option_bind].
  destruct acc; [|by destruct a]. cbn [negb]. unfold make_room. cbn [bufLen reader_of].
  destruct (a.(alLen) <? _) eqn:Hlt; [intros H; by destruct (H _ eq_refl)|]. intros _.
  destruct (load _ _ _) as [d|]; [|done]. cbn [mbind option_bind].
  destruct (store _ _ _) as [buf|]; [|done]. destruct (len <=? _); [|done].
  cbn [expectedTick tickPrescale]. by destruct (final_stats _ _ _ _).
Qed.

Lemma alloc_feed_same {host : Host} h r evs : forall s a,
  large_enough (feed (getCompletePacketizedBuffer_step (reader_of r a)) (s, a.(alBuf)) evs) ->
  feed (getCompleteAllocatedBuffer_step h r) (s, a) evs
    = alloc_outcome r a (feed (getCompletePacketizedBuffer_step (reader_of r a)) (s, a.(alBuf)) evs).
Proof.
  induction evs as [|ev evs IH]; intros s a; [by destruct a|]. cbn [feed]. intros H.
  rewrite alloc_step_same
    by (intros res Hres; apply H; by rewrite Hres).
  destruct (getCompletePacketizedBuffer_step _ _ _) as [[s' buf]|res|]; [|done..].
  cbn [alloc_outcome]. rewrite IH by exact H. by destruct (feed _ _ _) as [[]| |].
Qed.

(** ** Growth *)

Lemma realloc_spec h old n b : heap_ok h -> zlen old <= n -> realloc h old n = Some b ->
  zlen b = n /\ forall i, (i < length old)%nat -> b !! i = old !! i.
Proof.
  intros [_ Hr] Hle. unfold realloc. case_decide as Hd.
  - intros [= <-]. rewrite take_ge by lia. split; [lia|done].
  - destruct (h.(realloc_tail) _) as [t|] eqn:Ht; [|done]. intros [= <-]. apply Hr in Ht.
    split; [rewrite length_app; lia|]. intros i Hi. by rewrite lookup_app_l.
Qed.

(** An allocator whose length is that of its buffer. *)
Definition allocated (a : allocator) : Prop :=
  zlen a.(alBuf) = a.(alLen) /\ 9978 <= a.(alLen).

Lemma make_room_spec h a need : heap_total h -> allocated a ->
  2 * a.(alLen) < 18446744073709551616 -> need <= 2 * a.(alLen) ->
  exists a', make_room h a need = Some a' /\ allocated a' /\ need <= a'.(alLen)
    /\ a'.(alLen) = (if a.(alLen) <? need then 2 * a.(alLen) else a.(alLen))
    /\ forall i, (i < length a.(alBuf))%nat -> a'.(alBuf) !! i = a.(alBuf) !! i.
Proof.
  intros (Hh & _ & Ht) [Hl H0] Hw Hn. unfold make_room.
  destruct (Z.ltb_spec a.(alLen) need); [|exists a; repeat split; by (done || lia)].
  rewrite u64_small, (Z.mul_comm _ 2) by lia.
  assert (Hb : exists b, realloc h a.(alBuf) (2 * a.(alLen)) = Some b).
  { unfold realloc. rewrite decide_False by lia.
    destruct (Ht (2 * a.(alLen) - zlen a.(alBuf))) as [t ->]; [lia|]. by eexists. }
  destruct Hb as [b Hb]. rewrite Hb. cbn. apply realloc_spec in Hb as [Hb Hi]; [|done|lia].
  eexists. split; [done|]. repeat split; cbn; try done; lia.
Qed.

(** Once there is room, the routine goes on as it would with the larger buffer. *)
Lemma alloc_step_room {host : Host} h r s s' a a' p :
  packet_ok p ->
  sort_packet (begin_read s) (zlen p.(p_data)) p.(p_id) p.(p_offset) p.(p_length) p.(p_tick)
    = Some (s', true) ->
  make_room h a (p.(p_offset) + zlen p.(p_data)) = Some a' ->
  p.(p_offset) + zlen p.(p_data) <= a'.(alLen) ->
  getCompleteAllocatedBuffer_step h r (s, a) (Datagram (packet_bytes p))
    = alloc_outcome r a' (on_packet (reader_of r a') s a'.(alBuf) p).
Proof.
  intros Hok Hsort Hroom Hle. rewrite <- step_packet by done.
  rewrite <- (alloc_step_same h).
  2: { rewrite step_packet by done. unfold on_packet. rewrite Hsort. cbn [bufLen reader_of].
       rewrite (proj2 (Z.ltb_ge a'.(alLen) _)) by done. intros res. destruct (store _ _ _); [|done].
       destruct (Z.leb_spec p.(p_length) (count_packet s' (zlen p.(p_data)) p.(p_tick)).(totalBytesRead));
         [|done].
       destruct (final_stats _ _ _ _); [|done]. intros [= <-]. destruct Hok as (_ & _ & [? _] & _).
       cbn [a_ret error_code totalBytesRead count_packet] in *. lia. }
  destruct (received_packet p Hok) as (Hr & Hl & v & Hp).
  unfold getCompleteAllocatedBuffer_step. rewrite Hr, Hp, Hl.
  rewrite (proj2 (Z.ltb_ge _ RECV_HEADER)) by lia. cbn [mbind option_bind].
  replace (RECV_HEADER + zlen p.(p_data) - RECV_HEADER) with (zlen p.(p_data)) by lia.
  rewrite Hsort. cbn [mbind option_bind negb]. rewrite Hroom. unfold make_room.
  by rewrite (proj2 (Z.ltb_ge a'.(alLen) _)) by done.
Qed.

Section InOrder.
Context {host : Host} (h : heap) (r : alloc_reader) (data : list Z) (id tick : Z).
Context (Hheap : heap_total h) (HL : zlen data < 4294967296).

(** Packets of a network with an MTU of at most MAX_EJFAT_MTU that carry [data]
    from [off] to its end, in order. *)
Fixpoint in_order (off : Z) (ps : list packet) : Prop :=
  match ps with
  | [] => off = zlen data
  | p :: ps => packet_ok p /\ piece_of data id tick p /\ p.(p_offset) = off
               /\ zlen p.(p_data) <= 9978 /\ in_order (off + zlen p.(p_data)) ps
  end.

Lemma in_order_end ps : in_order (zlen data) ps -> ps = [].
Proof.
  destruct ps as [|p ps]; [done|]. intros (_ & (_ & _ & _ & ? & ? & _) & ? & _). lia.
Qed.

(** The first [n] bytes of [data] are in place. *)
Definition filled (a : allocator) (n : Z) : Prop :=
  allocated a /\ a.(alLen) < 9223372036854775808 /\ n <= a.(alLen)
  /\ forall i, Z.of_nat i < n -> a.(alBuf) !! i = data !! i.

Lemma alloc_accept s s' a p :
  filled a p.(p_offset) -> packet_ok p -> piece_of data id tick p -> zlen p.(p_data) <= 9978 ->
  sort_packet (begin_read s) (zlen p.(p_data)) p.(p_id) p.(p_offset) p.(p_length) p.(p_tick)
    = Some (s', true) ->
  exists a' buf', store a'.(alBuf) p.(p_offset) p.(p_data) = Some buf'
    /\ room (reader_of r a') a'.(alBuf) p
    /\ filled (set_buf a' buf') (p.(p_offset) + zlen p.(p_data))
    /\ getCompleteAllocatedBuffer_step h r (s, a) (Datagram (packet_bytes p))
         = alloc_outcome r a' (on_packet (reader_of r a') s a'.(alBuf) p).
Proof using Hheap HL.
  intros (Ha & Hw & Hn & Hf) Hok Hp Hmtu Hsort. pose proof Ha as [Hal Hal2].
  destruct (make_room_spec h a (p.(p_offset) + zlen p.(p_data)) Hheap Ha ltac:(lia) ltac:(lia))
    as (a' & Hroom & Ha' & Hneed & Hlen & Hkeep). pose proof Ha' as [Hal' _].
  destruct (store_piece data id tick a'.(alBuf) p Hok Hp ltac:(lia))
    as (buf' & Hs & Hl & Hag & Hnew & _).
  destruct Hp as (_ & _ & _ & Hpos & Hend & _).
  exists a', buf'. split; [done|]. split; [split; cbn; lia|]. split.
  - destruct Ha' as [_ Ha2]. assert (a'.(alLen) < 9223372036854775808) by (case_match; lia).
    repeat split; cbn; try lia.
    intros i Hi. destruct (decide (p.(p_offset) <= Z.of_nat i)); [apply Hnew; lia|].
    apply Hag. unfold agrees. rewrite Hkeep by lia. apply Hf. lia.
  - by eapply alloc_step_room.
Qed.

(** The first packet always fits. *)
Lemma alloc_first s a p : ready id tick s -> discard_fits s -> allocated a -> a.(alLen) < 9223372036854775808 ->
  packet_ok p -> piece_of data id tick p -> p.(p_offset) = 0 -> zlen p.(p_data) <= 9978 ->
  no_estimate (reader_of r a) s ->
  (zlen p.(p_data) = zlen data -> room_for s.(stats) 1 (zlen data) 0 (discarded s).1.1
     (discarded s).1.2 (discarded s).2) ->
  exists buf' s', filled (set_buf a buf') (zlen p.(p_data))
    /\ receiving id tick s' /\ s'.(totalBytesRead) = zlen p.(p_data) /\ s'.(pktCount) = 1
    /\ s'.(stats) = s.(stats)
    /\ (s'.(discPackets), s'.(discBytes), s'.(discBufs)) = discarded s
    /\ getCompleteAllocatedBuffer_step h r (s, a) (Datagram (packet_bytes p))
       = alloc_outcome r a
           (if zlen p.(p_data) =? zlen data then
              Halt (mk_assembled (zlen data) buf' tick (Some id)
                ((fun st => add_stats st 1 (zlen data) 0 s'.(discPackets) s'.(discBytes)
                    s'.(discBufs)) <$> s.(stats)))
            else Next (s', buf')).
Proof using Hheap HL.
  intros Hr Hdf Ha Hw Hok Hp Hoff Hmtu Hst Hfit. pose proof Ha as [Hl0 Hl1].
  pose proof Hp as (_ & _ & _ & Hpos & Hend & _).
  assert (Hroom : make_room h a (p.(p_offset) + zlen p.(p_data)) = Some a)
    by (unfold make_room; by rewrite (proj2 (Z.ltb_ge a.(alLen) _)) by lia).
  destruct (on_first (reader_of r a) data id tick HL s a.(alBuf) p)
    as (buf' & s' & Hs & Hr' & _ & Ht & Hc & Hss & Hdisc & Hon); try done; [split; cbn; lia|].
  exists buf', s'. destruct (guess_piece data id tick p Hp) as [n Hn].
  destruct (sort_first data id tick s p n Hr Hdf Hp Hoff Hn) as (s0 & Hsort & _).
  rewrite <- Hon. split; [|do 5 (split; [done|]); apply (alloc_step_room h r s s0); by (done || lia)].
  destruct (store_piece data id tick a.(alBuf) p Hok Hp ltac:(lia)) as (b2 & Hs2 & Hl & _ & Hnew & _).
  rewrite Hs in Hs2. injection Hs2 as <-.
  repeat split; cbn; try lia. intros i Hi. apply Hnew. lia.
Qed.

(** What is returned when all of [data] is in place. *)
Definition grown (st : option packetRecvStats) (buf : list Z) (valid : bool) : alloc_result :=
  mk_alloc_result (zlen data) (Some buf) (zlen buf) tick (Some id) st valid.

Lemma filled_all a : filled a (zlen data) -> exists rest, a.(alBuf) = data ++ rest.
Proof.
  intros ([Hl _] & _ & Hn & Hf). exists (drop (length data) a.(alBuf)).
  apply list_eq. intros i. destruct (decide (i < length data)%nat) as [Hi|Hi].
  - rewrite lookup_app_l by done. apply Hf. lia.
  - rewrite lookup_app_r, lookup_drop by lia. f_equal. lia.
Qed.

Lemma feed_in_order ps : forall s a,
  receiving id tick s -> filled a s.(totalBytesRead) -> no_estimate (reader_of r a) s ->
  s.(totalBytesRead) < zlen data -> in_order s.(totalBytesRead) ps ->
  room_for s.(stats) (s.(pktCount) + zlen ps) (zlen data) 0 s.(discPackets) s.(discBytes) s.(discBufs) ->
  exists rest valid,
    feed (getCompleteAllocatedBuffer_step h r) (s, a)
         (map (fun p => Datagram (packet_bytes p)) ps)
    = Halt (grown ((fun st => add_stats st (s.(pktCount) + zlen ps) (zlen data) 0
                      s.(discPackets) s.(discBytes) s.(discBufs)) <$> s.(stats))
              (data ++ rest) valid).
Proof using Hheap HL.
  induction ps as [|p ps IH]; intros s a Hr Hf Hst Hlt Hps Hfit; [cbn in Hps; lia|].
  destruct Hps as (Hok & Hp & Hoff & Hmtu & Hps). rewrite <- Hoff in Hf.
  destruct (alloc_accept s _ a p Hf Hok Hp Hmtu (sort_piece data id tick s p Hr Hp))
    as (a' & buf' & Hs & Hroom & Hf' & Hstep).
  pose proof Hp as (_ & _ & _ & Hpos & Hend & _).
  destruct (on_piece (reader_of r a') data id tick HL s a'.(alBuf) p)
    as (b2 & Hs2 & Hr' & Hst' & Hon); try done; try lia.
  { intros He. rewrite He in Hps. rewrite (in_order_end ps Hps) in Hfit. exact Hfit. }
  rewrite Hs in Hs2. injection Hs2 as <-. cbn [map feed]. rewrite Hstep, Hon.
  rewrite Hoff in Hf'. destruct (Z.eqb_spec (s.(totalBytesRead) + zlen p.(p_data)) (zlen data)) as [He|He].
  - rewrite He in Hps. rewrite (in_order_end ps Hps).
    rewrite He in Hf'. destruct (filled_all _ Hf') as [rest Hb]. destruct Hf' as ([Hl' _] & _).
    cbn in Hb, Hl'. exists rest, a'.(userValid). unfold grown, alloc_return. cbn. by rewrite <- Hl', Hb.
  - cbn [alloc_outcome]. destruct (IH _ (set_buf a' buf') Hr') as (rest & valid & ->);
      [done|done|cbn; lia|done| |].
    { cbn [stats pktCount discPackets discBytes discBufs count_packet]. destruct Hr.
      rewrite u32_small by lia. cbn [length] in Hfit.
      by replace (s.(pktCount) + 1 + zlen ps) with (s.(pktCount) + Z.of_nat (S (length ps))) by lia. }
    exists rest, valid. do 2 f_equal. cbn. destruct Hr. rewrite u32_small by lia.
    destruct s.(stats); [|done]. cbn. do 2 f_equal. lia.
Qed.
End InOrder.

(** The caller's arguments make sense: the buffer has the length it says. *)
Definition user_ok (r : alloc_reader) : Prop :=
  0 <= r.(ar_bufLen) < 9223372036854775808
  /\ match r.(ar_user) with Some b => zlen b = r.(ar_bufLen) | None => True end.

Lemma alloc_enter_spec h r : heap_total h -> user_ok r ->
  exists a, alloc_enter h r.(ar_user) r.(ar_bufLen) = Some a /\ allocated a
    /\ a.(alLen) < 9223372036854775808
    /\ (a.(alLen) = r.(ar_bufLen) \/ a.(alLen) <= 100000).
Proof.
  intros ((Hm & _) & Hmal & _) [Hl Hu]. unfold alloc_enter, choose_length, MAX_EJFAT_MTU.
  assert (Halloc : forall n, 9978 <= n < 9223372036854775808 -> n = r.(ar_bufLen) \/ n <= 100000 ->
    exists a, (b ← h.(malloc) n; Some (mk_allocator n true b true)) = Some a /\ allocated a
      /\ a.(alLen) < 9223372036854775808 /\ (a.(alLen) = r.(ar_bufLen) \/ a.(alLen) <= 100000)).
  { intros n Hn Hn'. destruct (Hmal n) as [b Hb]; [lia|]. rewrite Hb. cbn. eexists. split; [done|].
    unfold allocated. cbn. apply Hm in Hb. lia. }
  destruct r.(ar_user) as [b|].
  - destruct (Z.ltb_spec r.(ar_bufLen) 9978); [exact (Halloc 9978 ltac:(lia) ltac:(lia))|].
    eexists. split; [done|]. unfold allocated. cbn. lia.
  - destruct (Z.eqb_spec r.(ar_bufLen) 0); [exact (Halloc 100000 ltac:(lia) ltac:(lia))|].
    destruct (Z.ltb_spec r.(ar_bufLen) 9978);
      [exact (Halloc 9978 ltac:(lia) ltac:(lia))|exact (Halloc r.(ar_bufLen) ltac:(lia) ltac:(lia))].
Qed.

(** C9: as long as the packets fit, getCompleteAllocatedBuffer is
    getCompletePacketizedBuffer on the buffer chosen at the start (the caller's if
    it is large enough, otherwise a new one): same packets taken, same return
    value, tick, source, statistics and contents, the caller's buffer still valid. *)
Theorem getCompleteAllocatedBuffer_agrees {host : Host} h r st evs a :
  alloc_enter h r.(ar_user) r.(ar_bufLen) = Some a ->
  large_enough (getCompletePacketizedBuffer (reader_of r a) st a.(alBuf) evs) ->
  getCompleteAllocatedBuffer h r true st evs
    = alloc_outcome r a (getCompletePacketizedBuffer (reader_of r a) st a.(alBuf) evs).
Proof.
  intros Ha Hlarge. unfold getCompleteAllocatedBuffer. rewrite Ha.
  exact (alloc_feed_same h r evs (sorter_start 0 0 st) a Hlarge).
Qed.

(** Packets in order, from the call on. *)
Lemma alloc_in_order {host : Host} h r data id tick st p ps :
  heap_total h -> user_ok r -> zlen data < 4294967296 -> tick <> UINT_MAX ->
  st = None \/ r.(ar_tick) = 18446744073709551615 ->
  in_order data id tick 0 (p :: ps) ->
  room_for st (zlen (p :: ps)) (zlen data) 0 0 0 0 ->
  exists rest valid,
    getCompleteAllocatedBuffer h r true st (map (fun p => Datagram (packet_bytes p)) (p :: ps))
    = Halt (mk_alloc_result (zlen data) (Some (data ++ rest)) (zlen (data ++ rest)) tick (Some id)
        ((fun st => add_stats st (zlen (p :: ps)) (zlen data) 0 0 0 0) <$> st) valid).
Proof.
  intros Hh Hu HL Htick Hst Hps Hfit. unfold getCompleteAllocatedBuffer. cbn [negb].
  destruct (alloc_enter_spec h r Hh Hu) as (a & -> & Ha & Hw & _).
  destruct Hps as (Hok & Hp & Hoff & Hmtu & Hps). rewrite Z.add_0_l in Hps.
  pose proof Hp as (_ & _ & _ & _ & Hend & _).
  destruct (alloc_first h r data id tick Hh HL (sorter_start 0 0 st) a p)
    as (buf' & s' & Hf & Hr & Ht & Hc & Hss & Hdisc & Hstep); try done.
  { split; [cbn; congruence|by left]. }
  { intros He. rewrite He in Hps. by rewrite (in_order_end _ _ _ ps Hps) in Hfit. }
  cbn [map feed]. rewrite Hstep. injection Hdisc as H1 H2 H3.
  destruct (Z.eqb_spec (zlen p.(p_data)) (zlen data)) as [He|He].
  - rewrite He in Hps, Hf. rewrite (in_order_end _ _ _ ps Hps).
    destruct (filled_all data _ Hf) as [rest Hb]. destruct Hf as ([Hl _] & _). cbn in Hb, Hl.
    exists rest, a.(userValid). unfold alloc_return. cbn. by rewrite H1, H2, H3, <- Hl, Hb.
  - cbn [alloc_outcome].
    destruct (feed_in_order h r data id tick Hh HL ps s' (set_buf a buf')) as (rest & valid & ->);
      try done; [by rewrite Ht|unfold no_estimate; by rewrite Hss|lia|by rewrite Ht| |].
    { rewrite Hss, Hc, H1, H2, H3. cbn [stats sorter_start length] in *.
      by replace (1 + zlen ps) with (Z.of_nat (S (length ps))) by lia. }
    exists rest, valid. unfold grown. rewrite Hss, Hc, H1, H2, H3. do 2 f_equal. cbn.
    destruct st; [|done]. cbn. do 2 f_equal. lia.
Qed.

(** The buffer grows: packets of at most MAX_EJFAT_MTU bytes that arrive in
    order are reassembled whatever the length of the caller's buffer.  What is
    returned is the data at the start of a buffer of the length reported. *)
Theorem getCompleteAllocatedBuffer_grows {host : Host} h r data id tick st p ps :
  heap_total h -> user_ok r -> zlen data < 4294967296 -> tick <> UINT_MAX ->
  st = None \/ r.(ar_tick) = 18446744073709551615 ->
  in_order data id tick 0 (p :: ps) ->
  room_for st (zlen (p :: ps)) (zlen data) 0 0 0 0 ->
  exists rest valid,
    getCompleteAllocatedBuffer h r true st (map (fun p => Datagram (packet_bytes p)) (p :: ps))
    = Halt (mk_alloc_result (zlen data) (Some (data ++ rest)) (zlen (data ++ rest)) tick (Some id)
        ((fun st => add_stats st (zlen (p :: ps)) (zlen data) 0 0 0 0) <$> st) valid).
Proof. exact (alloc_in_order h r data id tick st p ps). Qed.

(** C40: the buffer is doubled once only, though it is meant to hold any packet: a
    packet that ends beyond twice the length is written outside the block. *)
Theorem getCompleteAllocatedBuffer_overrun {host : Host} h r data id tick st a p q evs :
  heap_total h -> user_ok r -> zlen data < 4294967296 -> tick <> UINT_MAX ->
  st = None \/ r.(ar_tick) = 18446744073709551615 ->
  alloc_enter h r.(ar_user) r.(ar_bufLen) = Some a ->
  packet_ok p -> piece_of data id tick p -> p.(p_offset) = 0 -> zlen p.(p_data) <= 9978 ->
  packet_ok q -> piece_of data id tick q -> 2 * a.(alLen) < q.(p_offset) + zlen q.(p_data) ->
  getCompleteAllocatedBuffer h r true st
    (Datagram (packet_bytes p) :: Datagram (packet_bytes q) :: evs) = Stuck.
Proof.
  intros Hh Hu HL Htick Hst Ha Hok Hp Hoff Hmtu Hokq Hq Hbig.
  destruct (alloc_enter_spec h r Hh Hu) as (a0 & Ha0 & Hall & Hw & _).
  rewrite Ha in Ha0. injection Ha0 as <-. unfold getCompleteAllocatedBuffer. rewrite Ha. cbn [negb feed].
  destruct (alloc_first h r data id tick Hh HL (sorter_start 0 0 st) a p)
    as (buf' & s' & Hf & Hr & Ht & _ & _ & _ & ->); try done.
  { split; [cbn; congruence|by left]. }
  { pose proof Hq as (_ & _ & _ & _ & Hend & _). destruct Hall as [Hl Hmin]. lia. }
  pose proof Hq as (_ & _ & _ & _ & Hend & _). destruct Hall as [Hl Hmin].
  rewrite (proj2 (Z.eqb_neq (zlen p.(p_data)) _)) by lia. cbn [alloc_outcome].
  destruct (received_packet q Hokq) as (Hrec & Hlen & v & Hparse).
  unfold getCompleteAllocatedBuffer_step. rewrite Hrec, Hparse, Hlen.
  rewrite (proj2 (Z.ltb_ge _ RECV_HEADER)) by lia. cbn [mbind option_bind].
  replace (RECV_HEADER + zlen q.(p_data) - RECV_HEADER) with (zlen q.(p_data)) by lia.
  rewrite (sort_piece data id tick s' q Hr Hq). cbn [mbind option_bind negb].
  destruct Hf as ([Hl' _] & _).
  destruct (make_room_spec h (set_buf a buf') (2 * a.(alLen)) Hh) as (a' & Hroom & [Hla _] & _ & Hlen' & _);
    [by split|cbn; lia|cbn; lia|].
  assert (Hroomq : make_room h (set_buf a buf') (q.(p_offset) + zlen q.(p_data)) = Some a').
  { rewrite <- Hroom. unfold make_room. cbn [alLen set_buf].
    by rewrite !(proj2 (Z.ltb_lt a.(alLen) _)) by lia. }
  rewrite Hroomq, load_packet. cbn [mbind option_bind]. cbn [alLen set_buf] in Hlen'.
  rewrite (proj2 (Z.ltb_lt a.(alLen) _)) in Hlen' by lia.
  by rewrite store_None by lia.
Qed.

(** An error after the caller's buffer was reallocated: the caller's pointer
    and length are left as they were, though the block is no longer allocated. *)
Theorem getCompleteAllocatedBuffer_dangling {host : Host} h r data id tick st b p q e :
  heap_total h -> user_ok r -> zlen data < 4294967296 -> tick <> UINT_MAX ->
  st = None \/ r.(ar_tick) = 18446744073709551615 ->
  r.(ar_user) = Some b -> 9978 <= r.(ar_bufLen) ->
  packet_ok p -> piece_of data id tick p -> p.(p_offset) = 0 -> zlen p.(p_data) <= 9978 ->
  packet_ok q -> piece_of data id tick q ->
  r.(ar_bufLen) < q.(p_offset) + zlen q.(p_data) <= 2 * r.(ar_bufLen) ->
  zlen p.(p_data) + zlen q.(p_data) < zlen data ->
  getCompleteAllocatedBuffer h r true st
    [Datagram (packet_bytes p); Datagram (packet_bytes q); RecvErr e]
  = Halt (mk_alloc_result (error_code RECV_MSG) (Some b) r.(ar_bufLen) r.(ar_tick) None st false).
Proof.
  intros Hh Hu HL Htick Hst Hb Hmin Hok Hp Hoff Hmtu Hokq Hq Hgrow Hsum.
  pose (a := mk_allocator r.(ar_bufLen) false b true).
  assert (Ha : alloc_enter h r.(ar_user) r.(ar_bufLen) = Some a).
  { unfold alloc_enter, choose_length, MAX_EJFAT_MTU. by rewrite Hb, (proj2 (Z.ltb_ge _ 9978)) by lia. }
  destruct (alloc_enter_spec h r Hh Hu) as (a0 & Ha0 & Hall & Hw & _).
  rewrite Ha in Ha0. injection Ha0 as <-. unfold getCompleteAllocatedBuffer. rewrite Ha. cbn [negb feed].
  destruct (alloc_first h r data id tick Hh HL (sorter_start 0 0 st) a p)
    as (buf' & s' & Hf & Hr & Ht & _ & Hss & _ & ->); try done.
  { split; [cbn; congruence|by left]. }
  { pose proof Hq as (_ & _ & _ & Hposq & _). lia. }
  pose proof Hq as (_ & _ & _ & Hposq & _). cbn in Hw.
  rewrite (proj2 (Z.eqb_neq (zlen p.(p_data)) _)) by lia. cbn [alloc_outcome].
  destruct Hf as (Hal & _).
  destruct (make_room_spec h (set_buf a buf') (q.(p_offset) + zlen q.(p_data)) Hh Hal)
    as (a' & Hroom & [Hla _] & Hneed & _); [cbn; lia|cbn; lia|].
  assert (Hv : a'.(userValid) = false).
  { unfold make_room in Hroom. cbn in Hroom. rewrite (proj2 (Z.ltb_lt _ _)) in Hroom by lia.
    destruct (realloc _ _ _); [|done]. by injection Hroom as <-. }
  rewrite (alloc_step_room h r s' _ _ a' q Hokq (sort_piece data id tick s' q Hr Hq) Hroom Hneed).
  destruct (on_piece (reader_of r a') data id tick HL s' a'.(alBuf) q)
    as (b2 & _ & Hr2 & Hst2 & ->); try done; [split; cbn; lia|unfold no_estimate; by rewrite Hss|lia|lia|].
  rewrite (proj2 (Z.eqb_neq _ (zlen data))) by lia. cbn [alloc_outcome].
  unfold getCompleteAllocatedBuffer_step, alloc_error. rewrite begin_read_stats, Hb.
  cbn. by rewrite Hss, Hv.
Qed.

(** ** Witnesses *)

Definition zeros (n : Z) : option (list Z) :=
  if n <? 0 then None else Some (replicate (Z.to_nat n) 0).
Definition heap_example : heap := mk_heap zeros zeros.

Lemma zeros_length n b : zeros n = Some b -> zlen b = n.
Proof.
  unfold zeros. destruct (Z.ltb_spec n 0); [done|]. intros [= <-]. rewrite length_replicate. lia.
Qed.

Lemma zeros_some n : 0 <= n -> is_Some (zeros n).
Proof. intros. unfold zeros. rewrite (proj2 (Z.ltb_ge n 0)) by lia. by eexists. Qed.

Lemma heap_example_total : heap_total heap_example.
Proof. repeat split; apply zeros_length || apply zeros_some. Qed.

(** A buffer of [n] ones, and its packets. *)
Definition ones (n : Z) : list Z := replicate (Z.to_nat n) 1.
Definition ones_packet (total off n : Z) : packet := mk_packet 2 0 7 off total 99 (ones n).

Lemma zlen_ones n : 0 <= n -> zlen (ones n) = n.
Proof. intros. unfold ones. rewrite length_replicate. lia. Qed.

Lemma ones_packet_ok total off n : 0 <= off < 4294967296 -> 0 <= total < 4294967296 ->
  0 <= n <= 65000 -> packet_ok (ones_packet total off n).
Proof.
  intros. repeat split; cbn [ones_packet p_id p_offset p_length p_tick p_data]; try lia.
  rewrite zlen_ones by lia. unfold RECV_HEADER, RE_HEADER_BYTES. lia.
Qed.

Lemma ones_packet_piece total off n : 0 <= off -> 0 < n -> off + n <= total ->
  piece_of (ones total) 7 99 (ones_packet total off n).
Proof.
  intros. unfold piece_of. cbn [ones_packet p_id p_tick p_length p_offset p_data].
  rewrite !zlen_ones by lia. repeat split; try lia. unfold ones.
  rewrite length_replicate, drop_replicate, take_replicate. f_equal. lia.
Qed.

Lemma in_order_ones total n : 0 < n <= 9978 -> n < total <= n + 9978 ->
  in_order (ones total) 7 99 0 [ones_packet total 0 n; ones_packet total n (total - n)].
Proof.
  intros. cbn [in_order]. cbn [ones_packet p_offset p_data]. rewrite !zlen_ones by lia.
  split; [apply ones_packet_ok; lia|]. split; [apply ones_packet_piece; lia|].
  split; [done|]. split; [lia|]. split; [apply ones_packet_ok; lia|].
  split; [apply ones_packet_piece; lia|]. lia.
Qed.

(** No buffer is given: one of 9978 bytes is allocated. *)
Definition alloc_example : alloc_reader := mk_alloc_reader None 6 18446744073709551615 1.
(** The caller's buffer of 9978 bytes. *)
Definition user_example : alloc_reader :=
  mk_alloc_reader (Some (replicate (Z.to_nat 9978) 0)) 9978 18446744073709551615 1.

Lemma user_example_ok : user_ok user_example.
Proof. split; [cbn [user_example ar_bufLen]; lia|]. cbn [user_example ar_user ar_bufLen].
  rewrite length_replicate. lia. Qed.

Lemma getCompleteAllocatedBuffer_agrees_witness :
  getCompleteAllocatedBuffer (host := ENDIAN_LITTLE) heap_example alloc_example true None
    (map (fun p => Datagram (packet_bytes p)) [piece_example 7 0 2; piece_example 7 2 4])
  = Halt (mk_alloc_result 6 (Some (data_example ++ replicate (Z.to_nat 9972) 0)) 9978 99 (Some 7)
            None true).
Proof.
  etransitivity; [apply (@getCompleteAllocatedBuffer_agrees ENDIAN_LITTLE heap_example alloc_example
    None _ (mk_allocator 9978 true (replicate (Z.to_nat 9978) 0) true))|].
  - reflexivity.
  - intros res. vm_compute. intros [= <-]. discriminate.
  - vm_compute. reflexivity.
Defined.

Lemma getCompleteAllocatedBuffer_grows_witness :
  exists rest valid,
    getCompleteAllocatedBuffer (host := ENDIAN_LITTLE) heap_example alloc_example true None
      (map (fun p => Datagram (packet_bytes p))
         [ones_packet 12000 0 6000; ones_packet 12000 6000 (12000 - 6000)])
    = Halt (mk_alloc_result (zlen (ones 12000)) (Some (ones 12000 ++ rest))
              (zlen (ones 12000 ++ rest)) 99 (Some 7) None valid).
Proof.
  apply (@getCompleteAllocatedBuffer_grows ENDIAN_LITTLE heap_example alloc_example (ones 12000) 7 99
    None (ones_packet 12000 0 6000) [ones_packet 12000 6000 (12000 - 6000)]).
  - exact heap_example_total.
  - split; [cbn; lia|exact I].
  - rewrite zlen_ones by lia. lia.
  - vm_compute. congruence.
  - left. reflexivity.
  - apply in_order_ones; lia.
  - exact I.
Defined.

Lemma getCompleteAllocatedBuffer_overrun_witness :
  getCompleteAllocatedBuffer (host := ENDIAN_LITTLE) heap_example user_example true None
    [Datagram (packet_bytes (ones_packet 20000 0 1));
     Datagram (packet_bytes (ones_packet 20000 19999 1))] = Stuck.
Proof.
  apply (@getCompleteAllocatedBuffer_overrun ENDIAN_LITTLE heap_example user_example (ones 20000) 7 99
    None (mk_allocator 9978 false (replicate (Z.to_nat 9978) 0) true)
    (ones_packet 20000 0 1) (ones_packet 20000 19999 1) []).
  - exact heap_example_total.
  - exact user_example_ok.
  - rewrite zlen_ones by lia. lia.
  - vm_compute. congruence.
  - left. reflexivity.
  - reflexivity.
  - apply ones_packet_ok; lia.
  - apply ones_packet_piece; lia.
  - reflexivity.
  - vm_compute. congruence.
  - apply ones_packet_ok; lia.
  - apply ones_packet_piece; lia.
  - vm_compute. reflexivity.
Defined.

Lemma getCompleteAllocatedBuffer_dangling_witness :
  getCompleteAllocatedBuffer (host := ENDIAN_LITTLE) heap_example user_example true None
    [Datagram (packet_bytes (ones_packet 20000 0 1));
     Datagram (packet_bytes (ones_packet 20000 9978 1)); RecvErr 4]
  = Halt (mk_alloc_result (-1) (Some (replicate (Z.to_nat 9978) 0)) 9978 18446744073709551615 None
            None false).
Proof.
  apply (@getCompleteAllocatedBuffer_dangling ENDIAN_LITTLE heap_example user_example (ones 20000) 7 99
    None (replicate (Z.to_nat 9978) 0) (ones_packet 20000 0 1) (ones_packet 20000 9978 1) 4).
  - exact heap_example_total.
  - exact user_example_ok.
  - rewrite zlen_ones by lia. lia.
  - vm_compute. congruence.
  - left. reflexivity.
  - reflexivity.
  - cbn [user_example ar_bufLen]. lia.
  - apply ones_packet_ok; lia.
  - apply ones_packet_piece; lia.
  - reflexivity.
  - vm_compute. congruence.
  - apply ones_packet_ok; lia.
  - apply ones_packet_piece; lia.
  - vm_compute. split; congruence.
  - rewrite !zlen_ones by lia. cbn [ones_packet p_data]. rewrite !zlen_ones by lia. lia.
Defined.
