(* ===== verification/AssemblePart.v ===== *)
(** getPacketizedBuffer of ejfat_assemble_ersap.hpp: a buffer too large for memory
    is read in parts, packet by packet and in order, by repeated calls; the
    caller writes each part out (writeBuffer).  Also getBuffer, which opens a
    socket and calls one of the routines that read a whole buffer. *)
From S2P Require Import Prelude Bytes ByteOrder Wire Socket Assemble AssembleAlloc.

(** What the caller's pointers point to, passed in and out. *)
Record part_refs := mk_part_refs {
  ref_last : bool;
  ref_srcId : Z;
  ref_tick : Z;
  ref_offset : Z;
  ref_count : Z
}.

(** The locals that change, the caller's buffer and what [srcId] and [last] point
    to; [packetTick] is [None] until a packet has been read. *)
Record partial := mk_partial {
  pa_first : bool;          (* veryFirstRead *)
  firstSrcId : Z;
  firstTick : Z;
  packetTick : option Z;
  rejectedPkt : Z;
  pa_count : Z;             (* pktCount *)
  pa_total : Z;             (* totalBytesRead *)
  remainingLen : Z;
  nextOffset : Z;
  pa_srcId : Z;             (* *srcId *)
  pa_last : bool;           (* *last *)
  pa_buf : list Z           (* dataBuf *)
}.

(** The return value, the buffer, and what the pointers point to. *)
Record part_result := mk_part_result {
  pr_ret : Z;
  pr_buf : list Z;
  pr_refs : part_refs
}.

Section Part.
Context {host : Host}.

Definition part_error (refs : part_refs) (e : errorCodes) (s : partial) : outcome partial part_result :=
  Halt (mk_part_result (error_code e) s.(pa_buf)
          (mk_part_refs s.(pa_last) s.(pa_srcId) refs.(ref_tick) refs.(ref_offset) refs.(ref_count))).

(** After the loop: [*tick = packetTick] reads an uninitialised variable when no
    packet was read. *)
Definition part_end (s : partial) : outcome partial part_result :=
  match s.(packetTick) with
  | None => Stuck
  | Some t =>
    Halt (mk_part_result s.(pa_total) s.(pa_buf)
            (mk_part_refs s.(pa_last) s.(pa_srcId) t s.(nextOffset) s.(pa_count)))
  end.

(** The head of the loop. *)
Definition part_head (s : partial) : outcome partial part_result :=
  if s.(remainingLen) <? MAX_EJFAT_MTU then part_end s else Next s.

(** Whether a packet belongs to the buffer: [inl] for an error code, [inr (s, true)]
    if it is to be copied and [inr (s, false)] if it is rejected. *)
Definition part_check (s : partial) (id offset tick : Z) : errorCodes + (partial * bool) :=
  if s.(pa_first) then
    if negb (offset =? 0) then inl OUT_OF_ORDER
    else inr (mk_partial s.(pa_first) id tick (Some tick) s.(rejectedPkt) s.(pa_count) s.(pa_total)
                s.(remainingLen) s.(nextOffset) id s.(pa_last) s.(pa_buf), true)
  else if negb (offset =? s.(nextOffset)) then inl OUT_OF_ORDER
  else
    if negb (id =? s.(firstSrcId)) || negb (tick =? s.(firstTick)) then
      if 100 <=? s.(rejectedPkt) + 1 then inl NO_REASSEMBLY
      else inr (mk_partial s.(pa_first) s.(firstSrcId) s.(firstTick) (Some tick)
                  (s.(rejectedPkt) + 1) s.(pa_count) s.(pa_total) s.(remainingLen)
                  s.(nextOffset) s.(pa_srcId) s.(pa_last) s.(pa_buf), false)
    else inr (mk_partial s.(pa_first) s.(firstSrcId) s.(firstTick) (Some tick) s.(rejectedPkt)
                s.(pa_count) s.(pa_total) s.(remainingLen) s.(nextOffset) s.(pa_srcId) s.(pa_last)
                s.(pa_buf), true).

(** One packet of data has been copied. *)
Definition part_count (s : partial) (buf : list Z) (offset dataBytes : Z) : partial :=
  mk_partial false s.(firstSrcId) s.(firstTick) s.(packetTick) s.(rejectedPkt)
    (u32 (s.(pa_count) + 1)) (s.(pa_total) + dataBytes) (u64 (s.(remainingLen) - dataBytes))
    (u32 (offset + dataBytes)) s.(pa_srcId) s.(pa_last) buf.

Definition part_done (s : partial) : partial :=
  mk_partial s.(pa_first) s.(firstSrcId) s.(firstTick) s.(packetTick) s.(rejectedPkt) s.(pa_count)
    s.(pa_total) s.(remainingLen) s.(nextOffset) s.(pa_srcId) true s.(pa_buf).

(** The body of the loop from recvfrom on, and the head of the next iteration. *)
Definition getPacketizedBuffer_step (refs : part_refs) (s : partial) (ev : recv_event)
    : outcome partial part_result :=
  match ev with
  | RecvErr _ => part_error refs RECV_MSG s
  | Datagram bytes =>
    let pkt := received 65536 bytes in
    let bytesRead := zlen pkt in
    if bytesRead <? RECV_HEADER then part_error refs INTERNAL_ERROR s
    else
      let dataBytes := bytesRead - RECV_HEADER in
      match parseReHeader pkt with
      | None => Stuck
      | Some (_, id, offset, length, tick) =>
        match part_check s id offset tick with
        | inl e => part_error refs e s
        | inr (s, false) => part_head s
        | inr (s, true) =>
          let offsetLocal := u32 (offset - refs.(ref_offset)) in
          match d ← load pkt RECV_HEADER dataBytes; store s.(pa_buf) offsetLocal d with
          | None => Stuck
          | Some buf =>
            let s := part_count s buf offset dataBytes in
            if length <=? s.(nextOffset) then part_end (part_done s) else part_head s
          end
        end
      end
  end.

Definition part_start (dataBuf : list Z) (bufLen : Z) (veryFirstRead : bool) (refs : part_refs)
    : partial :=
  mk_partial veryFirstRead refs.(ref_srcId) refs.(ref_tick) None 0 0 0 bufLen refs.(ref_offset)
    refs.(ref_srcId) refs.(ref_last) dataBuf.

(** The call; the second component is what the socket still holds. *)
Definition getPacketizedBuffer (dataBuf : list Z) (bufLen : Z) (veryFirstRead : bool)
    (refs : part_refs) (evs : list recv_event) : outcome partial part_result * list recv_event :=
  match part_head (part_start dataBuf bufLen veryFirstRead refs) with
  | Next s => feed_rest (getPacketizedBuffer_step refs) s evs
  | o => (o, evs)
  end.
End Part.

(** ** writeBuffer *)

(** [fwrite] takes all bytes or fewer (the parameter says how many); on a short
    write the program exits.  The result is what was appended to the file. *)
Definition writeBuffer (fwrite : list Z -> Z) (dataBuf : list Z) (nBytes : Z)
    : option (list Z * result Z) :=
  d ← load dataBuf 0 nBytes;
  let n := fwrite d in
  if n =? nBytes then Some (d, Ok 0) else Some (take (Z.to_nat n) d, Throw "exit(1)").

(** ** clearMap *)

(** The entries of the map of out-of-order packets: the block that holds the
    packet (to be freed), its length, and the first and last bits.  Returns the
    blocks freed and the empty map. *)
Definition clearMap (outOfOrderPackets : list (Z * (Z * Z * bool * bool)))
    : list Z * list (Z * (Z * Z * bool * bool)) :=
  match outOfOrderPackets with
  | [] => ([], outOfOrderPackets)
  | _ => (map (fun e => e.2.1.1.1) outOfOrderPackets, [])
  end.

(** ** getBuffer *)

(** The system calls made before reading. *)
Inductive net_call :=
  | NetSocket (ipv6 : bool)
  | NetRcvBuf (bytes : Z)
  | NetBind (ipv6 : bool) (port : Z) (addr : option string).

Section Get.
Context {host : Host} (h : heap).

Definition recv_port (port : Z) : Z := if port <? 1024 then 17750 else port.

(** [inet_pton]'s or [inet_addr]'s argument; none is the wildcard address. *)
Definition bind_addr (listeningAddr : option string) : option string :=
  match listeningAddr with
  | Some a => if (0 <? String.length a)%nat then Some a else None
  | None => None
  end.

Definition open_calls (useIPv6 : bool) (port : Z) (listeningAddr : option string) : list net_call :=
  [NetSocket useIPv6; NetRcvBuf 25000000; NetBind useIPv6 (recv_port port) (bind_addr listeningAddr)].

(** What the caller has afterwards: the value returned, the buffer and its
    length, and whether the pointer passed in is still allocated. *)
Definition get_result : Type := Z * option (list Z) * Z * bool.

Definition get_ret (nBytes : Z) : Z := if nBytes <? 0 then nBytes else 0.

Definition forget {St R R'} (f : R -> R') (o : outcome St R) : outcome unit R' :=
  match o with Next _ => Next tt | Halt r => Halt (f r) | Stuck => Stuck end.

(** [socketOk]: [socket] succeeds. *)
Definition getBuffer (hasArgs : bool) (userBuf : option (list Z)) (userBufLen port : Z)
    (listeningAddr : option string) (noCopy useIPv6 socketOk : bool) (evs : list recv_event)
    : list net_call * outcome unit get_result :=
  if negb hasArgs then ([], Halt (error_code BAD_ARG, userBuf, userBufLen, true))
  else if negb socketOk then ([NetSocket useIPv6], Halt (error_code NETWORK_ERROR, userBuf, userBufLen, true))
  else
    (open_calls useIPv6 port listeningAddr,
     if noCopy then
       match userBuf with
       | None => Halt (error_code BAD_ARG, userBuf, userBufLen, true)
       | Some buf =>
         forget (fun res => (get_ret res.(a_ret), Some res.(a_buf), userBufLen, true))
           (getCompletePacketizedBuffer (mk_reader userBufLen 0 1) None buf evs)
       end
     else
       forget (fun res => (get_ret res.(al_ret), res.(al_buf), res.(al_bufLen), res.(al_user_valid)))
         (getCompleteAllocatedBuffer h (mk_alloc_reader userBuf userBufLen 0 1) true None evs)).
End Get.

(** ** Well-formed packets *)

Definition on_part (refs : part_refs) (s : partial) (p : packet) : outcome partial part_result :=
  match part_check s p.(p_id) p.(p_offset) p.(p_tick) with
  | inl e => part_error refs e s
  | inr (s, false) => part_head s
  | inr (s, true) =>
    match store s.(pa_buf) (u32 (p.(p_offset) - refs.(ref_offset))) p.(p_data) with
    | None => Stuck
    | Some buf =>
      let s := part_count s buf p.(p_offset) (zlen p.(p_data)) in
      if p.(p_length) <=? s.(nextOffset) then part_end (part_done s) else part_head s
    end
  end.

Lemma part_step_packet {host : Host} refs s p : packet_ok p ->
  getPacketizedBuffer_step refs s (Datagram (packet_bytes p)) = on_part refs s p.
Proof.
  intros Hok. destruct (received_packet p Hok) as (Hr & Hl & v & Hp).
  unfold getPacketizedBuffer_step, on_part. rewrite Hr, Hp, Hl.
  rewrite (proj2 (Z.ltb_ge _ RECV_HEADER)) by lia.
  replace (RECV_HEADER + zlen p.(p_data) - RECV_HEADER) with (zlen p.(p_data)) by lia.
  destruct (part_check _ _ _ _) as [|[s' []]]; [done| |done]. by rewrite load_packet.
Qed.

(** ** One part *)

Section InParts.
Context {host : Host} (data : list Z) (id tick : Z) (refs : part_refs) (bufLen : Z).
Context (HL : zlen data < 4294967296) (Hlen : bufLen < 18446744073709551616).

(** The arguments are those of a first call, or continue an earlier one. *)
Definition continues (veryFirstRead : bool) (srcId tick' : Z) (off : Z) : Prop :=
  (veryFirstRead = true /\ off = 0) \/ (veryFirstRead = false /\ srcId = id /\ tick' = tick).

(** In the middle of a call: what has been read so far is in place. *)
Record reading (s : partial) : Prop := mk_reading {
  rd_from : continues s.(pa_first) s.(firstSrcId) s.(firstTick) s.(nextOffset);
  rd_src : s.(pa_first) = true \/ s.(pa_srcId) = id;
  rd_next : s.(nextOffset) = refs.(ref_offset) + s.(pa_total);
  rd_off : 0 <= refs.(ref_offset);
  rd_total : 0 <= s.(pa_total);
  rd_count : 0 <= s.(pa_count) <= s.(pa_total);
  rd_room : s.(remainingLen) = bufLen - s.(pa_total);
  rd_buf : bufLen <= zlen s.(pa_buf);
  rd_last : s.(pa_last) = refs.(ref_last);
  rd_data : forall i, Z.of_nat i < s.(pa_total) ->
      s.(pa_buf) !! i = data !! (Z.to_nat refs.(ref_offset) + i)%nat
}.

Lemma part_check_next s p : reading s -> piece_of data id tick p -> p.(p_offset) = s.(nextOffset) ->
  part_check s p.(p_id) p.(p_offset) p.(p_tick)
  = inr (mk_partial s.(pa_first) id tick (Some tick) s.(rejectedPkt) s.(pa_count) s.(pa_total)
           s.(remainingLen) s.(nextOffset) id s.(pa_last) s.(pa_buf), true).
Proof.
  intros [Hfrom Hsrc] (Hid & Htick & _) Hoff. unfold part_check. rewrite Hid, Htick, Hoff.
  destruct Hfrom as [[Hf H0]|(Hf & Hs & Ht)]; rewrite Hf.
  - by rewrite H0.
  - rewrite Z.eqb_refl, Hs, Ht, !Z.eqb_refl. cbn [negb orb].
    destruct Hsrc as [|Hsrc]; [congruence|]. by rewrite Hsrc.
Qed.

Lemma on_part_piece s p : reading s -> MAX_EJFAT_MTU <= s.(remainingLen) ->
  packet_ok p -> piece_of data id tick p -> p.(p_offset) = s.(nextOffset) -> zlen p.(p_data) <= 9978 ->
  exists s', reading s' /\ s'.(pa_first) = false /\ s'.(packetTick) = Some tick
    /\ s'.(pa_srcId) = id
    /\ s'.(pa_total) = s.(pa_total) + zlen p.(p_data) /\ s'.(pa_count) = s.(pa_count) + 1
    /\ on_part refs s p =
         if s'.(nextOffset) =? zlen data then part_end (part_done s') else part_head s'.
Proof using HL Hlen.
  intros Hr Hroom Hok Hp Hoff Hmtu. unfold on_part. rewrite part_check_next by done.
  cbn [pa_buf]. destruct Hr. unfold MAX_EJFAT_MTU in Hroom. destruct Hp as (_ & _ & Hplen & Hn & Hend & Hd).
  rewrite (u32_small (p.(p_offset) - refs.(ref_offset))) by lia.
  replace (p.(p_offset) - refs.(ref_offset)) with s.(pa_total) by lia.
  rewrite store_spec by lia.
  set (buf := splice _ _ _). set (s' := part_count _ buf _ _).
  assert (Hn' : s'.(nextOffset) = p.(p_offset) + zlen p.(p_data)) by (apply u32_small; lia).
  exists s'. split.
  - constructor; cbn -[u32 u64]; try done; try lia.
    + by right.
    + rewrite u32_small; lia.
    + rewrite u32_small; lia.
    + rewrite u64_small; lia.
    + unfold buf. rewrite length_splice; lia.
    + intros i Hi. unfold buf. rewrite lookup_splice by lia. case_decide as Hc.
      * rewrite Hd, lookup_take_lt, lookup_drop by lia. f_equal. lia.
      * apply rd_data0. lia.
  - do 4 (split; [done|]). split; [cbn -[u32]; by rewrite u32_small by lia|].
    rewrite Hplen. destruct (Z.eqb_spec s'.(nextOffset) (zlen data)) as [He|He].
    + by rewrite (proj2 (Z.leb_le _ _)) by lia.
    + by rewrite (proj2 (Z.leb_gt _ _)) by lia.
Qed.

(** What a call returns that has read [n] bytes in [k] packets. *)
Definition part_returns (n k : Z) (res : part_result) : Prop :=
  res.(pr_ret) = n
  /\ res.(pr_refs) = mk_part_refs (refs.(ref_last) || (refs.(ref_offset) + n =? zlen data)) id tick
                       (refs.(ref_offset) + n) k
  /\ take (Z.to_nat n) res.(pr_buf) = take (Z.to_nat n) (drop (Z.to_nat refs.(ref_offset)) data)
  /\ bufLen <= zlen res.(pr_buf).

Lemma reading_data s : reading s ->
  take (Z.to_nat s.(pa_total)) s.(pa_buf)
    = take (Z.to_nat s.(pa_total)) (drop (Z.to_nat refs.(ref_offset)) data).
Proof.
  intros []. apply list_eq. intros i. destruct (decide (Z.of_nat i < s.(pa_total))).
  - rewrite !lookup_take_lt, lookup_drop by lia. auto.
  - by rewrite !lookup_take_ge by lia.
Qed.

Lemma part_end_returns s : reading s -> s.(packetTick) = Some tick -> s.(pa_srcId) = id ->
  exists res, part_returns s.(pa_total) s.(pa_count) res /\
    (if s.(nextOffset) =? zlen data then part_end (part_done s) else part_end s) = Halt res.
Proof.
  intros Hr Ht Hs. pose proof (reading_data s Hr) as Hd. destruct Hr. unfold part_end, part_done.
  cbn [packetTick pa_total pa_buf pa_last pa_srcId nextOffset pa_count]. rewrite Ht, Hs.
  destruct (Z.eqb_spec s.(nextOffset) (zlen data)) as [He|He]; (eexists; split; [|done]);
    unfold part_returns; cbn [pr_ret pr_buf pr_refs]; rewrite <- rd_next0; repeat split; try done.
  - by rewrite (proj2 (Z.eqb_eq _ _)), orb_true_r by done.
  - by rewrite (proj2 (Z.eqb_neq _ _)), orb_false_r, rd_last0 by done.
Qed.

(** Packets in order: the call ends when the buffer is nearly full or complete. *)
Lemma feed_part ps : forall s,
  reading s -> MAX_EJFAT_MTU <= s.(remainingLen) -> s.(nextOffset) < zlen data ->
  in_order data id tick s.(nextOffset) ps ->
  exists ps1 ps2 n res,
    ps = ps1 ++ ps2 /\ ps1 <> [] /\ s.(pa_total) < n
    /\ feed_rest (getPacketizedBuffer_step refs) s (map (fun p => Datagram (packet_bytes p)) ps)
       = (Halt res, map (fun p => Datagram (packet_bytes p)) ps2)
    /\ part_returns n (s.(pa_count) + zlen ps1) res
    /\ in_order data id tick (refs.(ref_offset) + n) ps2.
Proof using HL Hlen.
  induction ps as [|p ps IH]; intros s Hr Hroom Hlt Hps; [cbn in Hps; lia|].
  destruct Hps as (Hok & Hp & Hoff & Hmtu & Hps). pose proof Hp as (_ & _ & _ & Hpos & _).
  destruct (on_part_piece s p Hr Hroom Hok Hp Hoff Hmtu)
    as (s' & Hr' & Hf' & Ht' & Hs' & Htot & Hcnt & Hon).
  assert (Hnext : s'.(nextOffset) = s.(nextOffset) + zlen p.(p_data))
    by (rewrite (rd_next s' Hr'), (rd_next s Hr); lia).
  cbn [map feed_rest]. rewrite part_step_packet, Hon by done. rewrite <- Hnext in Hps.
  destruct (part_end_returns s' Hr' Ht' Hs') as (res & Hres & Hend).
  destruct (decide (s'.(nextOffset) <> zlen data /\ MAX_EJFAT_MTU <= s'.(remainingLen))) as [[Hn Hroom']|Hstop].
  - rewrite (proj2 (Z.eqb_neq _ _)) by done. unfold part_head.
    rewrite (proj2 (Z.ltb_ge _ _)) by done.
    assert (Hlt' : s'.(nextOffset) < zlen data) by (destruct Hp as (_&_&_&_&?&_); lia).
    destruct (IH s' Hr' Hroom' Hlt' Hps) as (ps1 & ps2 & n & res' & -> & Hne & Hn' & Hfeed & Hret & Hin).
    exists (p :: ps1), ps2, n, res'. do 2 (split; [done|]). split; [lia|]. split; [done|].
    replace (s.(pa_count) + zlen (p :: ps1)) with (s'.(pa_count) + zlen ps1) by (cbn; lia). done.
  - exists [p], ps, s'.(pa_total), res. do 2 (split; [done|]). split; [lia|].
    split; [|split].
    + destruct (Z.eqb_spec s'.(nextOffset) (zlen data)); [by rewrite Hend|].
      unfold part_head. rewrite (proj2 (Z.ltb_lt _ _)) by lia. by rewrite Hend.
    + by replace (s.(pa_count) + zlen [p]) with s'.(pa_count) by (cbn; lia).
    + by rewrite <- (rd_next s' Hr').
Qed.
End InParts.

Lemma reading_start data id tick refs bufLen dataBuf veryFirstRead :
  continues id tick veryFirstRead refs.(ref_srcId) refs.(ref_tick) refs.(ref_offset) ->
  0 <= refs.(ref_offset) -> bufLen <= zlen dataBuf ->
  reading data id tick refs bufLen (part_start dataBuf bufLen veryFirstRead refs).
Proof.
  intros Hc Ho Hb. constructor; cbn; try done; try lia. destruct Hc as [[-> _]|(_ & -> & _)]; auto.
Qed.

(** A call on packets that continue where the last call ended. *)
Lemma getPacketizedBuffer_reads {host : Host} data id tick refs bufLen dataBuf veryFirstRead ps :
  zlen data < 4294967296 -> MAX_EJFAT_MTU <= bufLen < 18446744073709551616 ->
  bufLen <= zlen dataBuf ->
  continues id tick veryFirstRead refs.(ref_srcId) refs.(ref_tick) refs.(ref_offset) ->
  0 <= refs.(ref_offset) < zlen data -> in_order data id tick refs.(ref_offset) ps ->
  exists ps1 ps2 n res,
    ps = ps1 ++ ps2 /\ ps1 <> [] /\ 0 < n
    /\ getPacketizedBuffer dataBuf bufLen veryFirstRead refs
         (map (fun p => Datagram (packet_bytes p)) ps)
       = (Halt res, map (fun p => Datagram (packet_bytes p)) ps2)
    /\ part_returns data id tick refs bufLen n (zlen ps1) res
    /\ in_order data id tick (refs.(ref_offset) + n) ps2.
Proof.
  intros HL Hlen Hb Hc Ho Hps. unfold getPacketizedBuffer, part_head. cbn [remainingLen part_start].
  rewrite (proj2 (Z.ltb_ge _ _)) by lia.
  apply (feed_part data id tick refs bufLen HL (proj2 Hlen) ps
    (part_start dataBuf bufLen veryFirstRead refs)); [|cbn; lia|cbn; lia|done].
  apply reading_start; [done|lia|done].
Qed.

Lemma in_order_bound data id tick off ps : in_order data id tick off ps -> off <= zlen data.
Proof. destruct ps as [|p ps]; [intros ->; lia|]. intros (_ & (_&_&_&?&?&_) & ? & _). lia. Qed.

(** ** Properties *)

(** One call of getPacketizedBuffer, on packets that continue in order where
    the last call ended: it reads a non-empty group of them, leaves the others in
    the socket, stops with less than MAX_EJFAT_MTU free bytes or at the end of the
    data, puts the bytes read at the start of the caller's buffer and passes back
    their number, the tick, the source, the next offset and the number of packets;
    [last] is set exactly when the end of the data is reached. *)
Theorem getPacketizedBuffer_part {host : Host} data id tick refs bufLen dataBuf veryFirstRead ps :
  zlen data < 4294967296 -> MAX_EJFAT_MTU <= bufLen < 18446744073709551616 ->
  bufLen <= zlen dataBuf ->
  continues id tick veryFirstRead refs.(ref_srcId) refs.(ref_tick) refs.(ref_offset) ->
  0 <= refs.(ref_offset) < zlen data -> in_order data id tick refs.(ref_offset) ps ->
  exists ps1 ps2 n buf,
    ps = ps1 ++ ps2 /\ ps1 <> [] /\ 0 < n
    /\ getPacketizedBuffer dataBuf bufLen veryFirstRead refs
         (map (fun p => Datagram (packet_bytes p)) ps)
       = (Halt (mk_part_result n buf
                  (mk_part_refs (refs.(ref_last) || (refs.(ref_offset) + n =? zlen data)) id tick
                     (refs.(ref_offset) + n) (zlen ps1))),
          map (fun p => Datagram (packet_bytes p)) ps2)
    /\ take (Z.to_nat n) buf = take (Z.to_nat n) (drop (Z.to_nat refs.(ref_offset)) data).
Proof.
  intros HL Hlen Hb Hc Ho Hps.
  destruct (getPacketizedBuffer_reads data id tick refs bufLen dataBuf veryFirstRead ps)
    as (ps1 & ps2 & n & [ret buf refs'] & H1 & H2 & H3 & H4 & (H5 & H6 & H7 & _) & _); try done.
  cbn in H5, H6, H7. subst ret refs'. exists ps1, ps2, n, buf. done.
Qed.

(** The caller of getPacketizedBuffer as its comment describes it: call it until
    [last] is set, write each part out.  [None]: an error, or [fuel] calls did not
    suffice. *)
Fixpoint receive_parts {host : Host} (fuel : nat) (dataBuf : list Z) (bufLen : Z)
    (veryFirstRead : bool) (refs : part_refs) (evs : list recv_event) : option (list Z) :=
  match fuel with
  | O => None
  | S fuel =>
    match getPacketizedBuffer dataBuf bufLen veryFirstRead refs evs with
    | (Halt res, evs) =>
      if res.(pr_ret) <? 0 then None
      else
        '(out, _) ← writeBuffer (fun d => zlen d) res.(pr_buf) res.(pr_ret);
        if res.(pr_refs).(ref_last) then Some out
        else app out <$> receive_parts fuel res.(pr_buf) bufLen false res.(pr_refs) evs
    | _ => None
    end
  end.

Lemma receive_parts_from {host : Host} data id tick bufLen : zlen data < 4294967296 ->
  MAX_EJFAT_MTU <= bufLen < 18446744073709551616 ->
  forall fuel ps refs dataBuf veryFirstRead,
  bufLen <= zlen dataBuf -> refs.(ref_last) = false -> (length ps <= fuel)%nat ->
  continues id tick veryFirstRead refs.(ref_srcId) refs.(ref_tick) refs.(ref_offset) ->
  0 <= refs.(ref_offset) < zlen data -> in_order data id tick refs.(ref_offset) ps ->
  receive_parts fuel dataBuf bufLen veryFirstRead refs (map (fun p => Datagram (packet_bytes p)) ps)
    = Some (drop (Z.to_nat refs.(ref_offset)) data).
Proof.
  intros HL Hlen. induction fuel as [|fuel IH]; intros ps refs dataBuf veryFirstRead Hb Hlast Hfuel Hc Ho Hps.
  { destruct ps; [|cbn in Hfuel; lia]. cbn in Hps. lia. }
  destruct (getPacketizedBuffer_reads data id tick refs bufLen dataBuf veryFirstRead ps)
    as (ps1 & ps2 & n & [ret buf refs'] & -> & Hne & Hn & Hcall & (H5 & H6 & H7 & H8) & Hin); try done.
  cbn in H5, H6, H7, H8. subst ret. rewrite Hlast in H6. cbn [orb] in H6.
  cbn [receive_parts]. rewrite Hcall. cbn [pr_ret pr_buf pr_refs].
  rewrite (proj2 (Z.ltb_ge n 0)) by lia. pose proof (in_order_bound _ _ _ _ _ Hin) as Hbound.
  assert (Hlb : n <= zlen buf).
  { apply (f_equal length) in H7. rewrite !length_take, length_drop in H7. lia. }
  unfold writeBuffer. rewrite load_spec by lia. cbn [mbind option_bind]. rewrite drop_0.
  assert (Hw : zlen (take (Z.to_nat n) buf) = n) by (rewrite length_take; lia).
  rewrite Hw, Z.eqb_refl. cbn [mbind option_bind]. rewrite H7, H6. cbn [ref_last].
  destruct (Z.eqb_spec (refs.(ref_offset) + n) (zlen data)) as [He|He].
  - f_equal. apply take_ge. rewrite length_drop. lia.
  - rewrite (IH ps2); cbn [ref_last ref_offset ref_srcId ref_tick]; try done; try lia.
    + cbn. f_equal. rewrite Z2Nat.inj_add, <- drop_drop by lia. by rewrite take_drop.
    + destruct ps1; [done|]. rewrite length_app in Hfuel. cbn in Hfuel. lia.
    + right. done.
Qed.

(** C10: reading in parts is reading the whole: repeated calls of getPacketizedBuffer,
    each part written out with writeBuffer, write exactly the data that was sent,
    for any size of the data below 4 GB and any buffer of MAX_EJFAT_MTU bytes or
    more, and need at most one call per packet. *)
Theorem getPacketizedBuffer_parts_are_whole {host : Host} data id tick bufLen dataBuf srcId0 tick0 count0 ps :
  0 < zlen data < 4294967296 -> MAX_EJFAT_MTU <= bufLen < 18446744073709551616 ->
  bufLen <= zlen dataBuf -> in_order data id tick 0 ps ->
  receive_parts (length ps) dataBuf bufLen true (mk_part_refs false srcId0 tick0 0 count0)
    (map (fun p => Datagram (packet_bytes p)) ps) = Some data.
Proof.
  intros HL Hlen Hb Hps. rewrite (receive_parts_from data id tick bufLen); try done; try lia.
  - left. done.
  - cbn. lia.
Qed.

(** There is no error recovery: a packet whose offset is not the expected one
    ends the call with OUT_OF_ORDER and everything as it was, the packet lost, even
    if it is of another source or tick. *)
Theorem getPacketizedBuffer_gap {host : Host} (refs : part_refs) (bufLen : Z) (dataBuf : list Z) (veryFirstRead : bool)
    (p : packet) (evs : list recv_event) :
  MAX_EJFAT_MTU <= bufLen -> packet_ok p ->
  p.(p_offset) <> (if veryFirstRead then 0 else refs.(ref_offset)) ->
  getPacketizedBuffer dataBuf bufLen veryFirstRead refs (Datagram (packet_bytes p) :: evs)
    = (Halt (mk_part_result (error_code OUT_OF_ORDER) dataBuf refs), evs).
Proof.
  intros Hb Hok Hoff. unfold getPacketizedBuffer, part_head. cbn [remainingLen part_start].
  rewrite (proj2 (Z.ltb_ge _ _)) by lia. cbn [feed_rest]. rewrite part_step_packet by done.
  unfold on_part, part_check. cbn [pa_first part_start nextOffset].
  destruct veryFirstRead; rewrite (proj2 (Z.eqb_neq _ _)) by done; by destruct refs.
Qed.

(** A packet at the expected offset, but of another source or tick. *)
Definition stray (refs : part_refs) (p : packet) : Prop :=
  packet_ok p /\ p.(p_offset) = refs.(ref_offset)
  /\ (p.(p_id) <> refs.(ref_srcId) \/ p.(p_tick) <> refs.(ref_tick)).

Lemma feed_strays {host : Host} refs dataBuf bufLen evs : MAX_EJFAT_MTU <= bufLen -> forall fs k t,
  Forall (stray refs) fs -> k + zlen fs = 100 -> 0 <= k < 100 ->
  feed_rest (getPacketizedBuffer_step refs)
    (mk_partial false refs.(ref_srcId) refs.(ref_tick) t k 0 0 bufLen refs.(ref_offset)
       refs.(ref_srcId) refs.(ref_last) dataBuf)
    (map (fun p => Datagram (packet_bytes p)) fs ++ evs)
  = (Halt (mk_part_result (error_code NO_REASSEMBLY) dataBuf refs), evs).
Proof.
  intros Hb. induction fs as [|p fs IH]; intros k t Hfs Hk Hk0; [cbn in Hk; lia|].
  apply Forall_cons in Hfs as [(Hok & Hoff & Hforeign) Hfs]. cbn [map feed_rest app].
  rewrite part_step_packet by done. unfold on_part, part_check. cbn [pa_first nextOffset firstSrcId firstTick].
  rewrite Hoff, Z.eqb_refl. cbn [negb].
  assert (Hor : negb (p.(p_id) =? refs.(ref_srcId)) || negb (p.(p_tick) =? refs.(ref_tick)) = true).
  { destruct Hforeign as [H|H]; rewrite (proj2 (Z.eqb_neq _ _) H); by rewrite ?orb_true_r. }
  rewrite Hor. cbn [rejectedPkt]. destruct (Z.leb_spec 100 (k + 1)) as [H|H].
  - assert (fs = []) as -> by (destruct fs; [done|cbn in Hk; lia]). by destruct refs.
  - unfold part_head. cbn [remainingLen]. rewrite (proj2 (Z.ltb_ge _ _)) by lia.
    apply IH; [done|cbn in Hk; lia|lia].
Qed.

(** Packets of another source or tick are skipped, up to 99 of them; the
    hundredth ends the call with NO_REASSEMBLY and nothing changed. *)
Theorem getPacketizedBuffer_strays {host : Host} (refs : part_refs) (bufLen : Z) (dataBuf : list Z) (fs : list packet)
    (evs : list recv_event) :
  MAX_EJFAT_MTU <= bufLen -> Forall (stray refs) fs -> length fs = 100%nat ->
  getPacketizedBuffer dataBuf bufLen false refs (map (fun p => Datagram (packet_bytes p)) fs ++ evs)
    = (Halt (mk_part_result (error_code NO_REASSEMBLY) dataBuf refs), evs).
Proof.
  intros Hb Hfs Hl. unfold getPacketizedBuffer, part_head. cbn [remainingLen part_start].
  rewrite (proj2 (Z.ltb_ge _ _)) by lia. apply feed_strays; [done|done|lia|lia].
Qed.

(** With less than MAX_EJFAT_MTU (9978) bytes of buffer, though 9000 are said to
    be enough, nothing is read and the tick passed back is an uninitialised variable. *)
Theorem getPacketizedBuffer_small {host : Host} (refs : part_refs) (bufLen : Z) (dataBuf : list Z) (veryFirstRead : bool)
    (evs : list recv_event) :
  bufLen < MAX_EJFAT_MTU ->
  getPacketizedBuffer dataBuf bufLen veryFirstRead refs evs = (Stuck, evs).
Proof.
  intros Hb. unfold getPacketizedBuffer, part_head. cbn [remainingLen part_start].
  by rewrite (proj2 (Z.ltb_lt _ _)).
Qed.

(** The free space is not compared with the size of the packet: a first packet
    longer than the buffer is written past its end. *)
Theorem getPacketizedBuffer_overrun {host : Host} (refs : part_refs) (bufLen : Z) (dataBuf : list Z) (p : packet)
    (evs : list recv_event) :
  MAX_EJFAT_MTU <= bufLen -> packet_ok p -> p.(p_offset) = 0 -> refs.(ref_offset) = 0 ->
  zlen dataBuf < zlen p.(p_data) ->
  (getPacketizedBuffer dataBuf bufLen true refs (Datagram (packet_bytes p) :: evs)).1 = Stuck.
Proof.
  intros Hb Hok Hoff Hr Hlong. unfold getPacketizedBuffer, part_head. cbn [remainingLen part_start].
  rewrite (proj2 (Z.ltb_ge _ _)) by lia. cbn [feed_rest]. rewrite part_step_packet by done.
  unfold on_part, part_check. cbn [pa_first part_start]. rewrite Hoff, Hr. cbn [negb Z.eqb pa_buf].
  by rewrite store_None by (cbn; lia).
Qed.

(** ** Safety of getPacketizedBuffer *)

(** A datagram of a network with an MTU of at most MAX_EJFAT_MTU. *)
Definition jumbo (ev : recv_event) : Prop :=
  match ev with Datagram bytes => zlen bytes <= RECV_HEADER + MAX_EJFAT_MTU | RecvErr _ => True end.

Record part_inv (refs : part_refs) (bufLen : Z) (n : nat) (s : partial) : Prop := mk_part_inv {
  pi_buf : length s.(pa_buf) = n;
  pi_room : MAX_EJFAT_MTU <= s.(remainingLen) <= bufLen;
  pi_first : s.(pa_first) = true -> s.(remainingLen) = bufLen /\ refs.(ref_offset) = 0;
  pi_next : s.(pa_first) = false ->
      u32 (s.(nextOffset) - refs.(ref_offset)) = bufLen - s.(remainingLen)
}.

Lemma part_check_inv refs bufLen n s id offset tick s' b : part_inv refs bufLen n s ->
  part_check s id offset tick = inr (s', b) ->
  part_inv refs bufLen n s' /\ (exists t, s'.(packetTick) = Some t)
  /\ (b = true -> u32 (offset - refs.(ref_offset)) = bufLen - s'.(remainingLen)).
Proof.
  intros [Hb Hr Hf Hn]. unfold part_check. destruct s.(pa_first) eqn:Hfst.
  - destruct (Z.eqb_spec offset 0) as [->|]; cbn [negb]; [|done]. intros [= <- <-].
    destruct (Hf eq_refl) as [Hfr H0]. split; [constructor; cbn; try done; by rewrite Hfst|].
    split; [by eexists|]. intros _.
    cbn [remainingLen]. rewrite H0. change (u32 (0 - 0)) with 0. lia.
  - destruct (Z.eqb_spec offset s.(nextOffset)) as [->|]; cbn [negb]; [|done].
    assert (Hinv : forall k t, part_inv refs bufLen n (mk_partial false s.(firstSrcId) s.(firstTick) t k
      s.(pa_count) s.(pa_total) s.(remainingLen) s.(nextOffset) s.(pa_srcId) s.(pa_last) s.(pa_buf)))
      by (intros; constructor; cbn; done || auto).
    destruct (_ || _); [case_match; [done|]|]; intros [= <- <-]; rewrite ?Hfst;
      (split; [apply Hinv|]; split; [by eexists|]); [done|]. intros _. by apply Hn.
Qed.

Lemma part_head_inv refs bufLen n s t :
  length s.(pa_buf) = n -> s.(packetTick) = Some t ->
  (MAX_EJFAT_MTU <= s.(remainingLen) -> part_inv refs bufLen n s) ->
  match part_head s with
  | Next s => part_inv refs bufLen n s
  | Halt res => length res.(pr_buf) = n
  | Stuck => False
  end.
Proof.
  intros Hb Ht Hinv. unfold part_head, part_end.
  destruct (Z.ltb_spec s.(remainingLen) MAX_EJFAT_MTU); [by rewrite Ht|auto].
Qed.

Lemma part_step_safe {host : Host} refs bufLen n s ev :
  bufLen < 4294967296 -> bufLen <= Z.of_nat n -> part_inv refs bufLen n s -> jumbo ev ->
  match getPacketizedBuffer_step refs s ev with
  | Next s => part_inv refs bufLen n s
  | Halt res => length res.(pr_buf) = n
  | Stuck => False
  end.
Proof.
  intros HB Hn Hinv Hev. unfold getPacketizedBuffer_step. destruct ev as [bytes|e]; [|apply Hinv].
  assert (Hlen : zlen (received 65536 bytes) <= RECV_HEADER + MAX_EJFAT_MTU)
    by (rewrite length_received by lia; cbn in Hev; lia).
  set (pkt := received 65536 bytes) in *. clearbody pkt.
  destruct (Z.ltb_spec (zlen pkt) RECV_HEADER) as [Hs|Hs]; [apply Hinv|].
  destruct (parseReHeader_some pkt) as [[[[[v id] off] len] tk] Hp];
    [unfold RECV_HEADER, RE_HEADER_BYTES in Hs; lia|]. rewrite Hp.
  destruct (part_check s id off tk) as [e|[s' acc]] eqn:Hc; [apply Hinv|].
  destruct (part_check_inv _ _ _ _ _ _ _ _ _ Hinv Hc) as (Hinv' & (t & Ht) & Hoff).
  destruct acc; [|by eapply part_head_inv; [apply Hinv'|done|]]. rewrite (Hoff eq_refl).
  destruct Hinv' as [Hb Hroom _ _]. set (m := zlen pkt - RECV_HEADER).
  assert (Hm : 0 <= m <= MAX_EJFAT_MTU) by lia.
  rewrite load_spec by (unfold m, RECV_HEADER, RE_HEADER_BYTES in *; lia). cbn [mbind option_bind].
  set (d := take _ _).
  assert (Hd : zlen d = m).
  { unfold d. rewrite length_take, length_drop. unfold m, RECV_HEADER, RE_HEADER_BYTES in *. lia. }
  rewrite store_spec by lia. set (buf := splice _ d _).
  assert (Hl : length buf = n) by (unfold buf; rewrite length_splice by lia; done).
  destruct (len <=? _); [unfold part_end; cbn; by rewrite Ht|].
  eapply part_head_inv; [done|done|]. unfold part_count. cbn [remainingLen nextOffset].
  unfold MAX_EJFAT_MTU in *. rewrite u64_small by lia. intros Hr2.
  constructor; cbn [pa_buf remainingLen pa_first nextOffset]; [done|unfold MAX_EJFAT_MTU; lia|done|].
  intros _. replace (u32 (u32 (off + m) - refs.(ref_offset)))
    with (u32 (u32 (off - refs.(ref_offset)) + m))
    by (unfold u32; rewrite Zplus_mod_idemp_l, Zminus_mod_idemp_l; f_equal; lia).
  rewrite (Hoff eq_refl), u32_small; lia.
Qed.

(** C38: on a network with packets of at most MAX_EJFAT_MTU bytes getPacketizedBuffer
    never writes outside the buffer, whatever the packets contain, provided that
    a first call starts at offset 0 and a later call where the last one ended. *)
Theorem getPacketizedBuffer_safe {host : Host} (refs : part_refs) (bufLen : Z) (dataBuf : list Z)
    (veryFirstRead : bool) (evs : list recv_event) :
  MAX_EJFAT_MTU <= bufLen < 4294967296 -> bufLen <= zlen dataBuf ->
  (veryFirstRead = true -> refs.(ref_offset) = 0) -> Forall jumbo evs ->
  match (getPacketizedBuffer dataBuf bufLen veryFirstRead refs evs).1 with
  | Next s => length s.(pa_buf) = length dataBuf
  | Halt res => length res.(pr_buf) = length dataBuf
  | Stuck => False
  end.
Proof.
  intros HB Hb Hf Hevs. unfold getPacketizedBuffer, part_head. cbn [remainingLen part_start].
  rewrite (proj2 (Z.ltb_ge _ _)) by lia.
  pose proof (feed_rest_invariant (getPacketizedBuffer_step refs) (part_inv refs bufLen (length dataBuf))
    jumbo (fun res => length res.(pr_buf) = length dataBuf)
    (part_start dataBuf bufLen veryFirstRead refs) evs) as H.
  destruct (feed_rest _ _ _).1 as [s|res|]; [apply pi_buf with refs bufLen|..]; apply H; try done;
    try (intros s0 ev Hs Hev; apply part_step_safe; try done; lia);
    (constructor; cbn; [done|lia|auto|intros _; by rewrite !Z.sub_diag]).
Qed.

(** GetBuffer without copying: the packets of a buffer that fits, the first one
    first, make it return 0 with the data at the start of the user's buffer; the
    socket listens on the port given, or on 17750 for a port below 1024. *)
Theorem getBuffer_no_copy {host : Host} h data buf id tick p ps port addr v6 :
  zlen data < 4294967296 -> zlen data <= zlen buf -> tick <> UINT_MAX ->
  packet_ok p -> piece_of data id tick p -> p.(p_offset) = 0 ->
  Forall (piece_or_foreign data id tick) ps -> ends_in_piece id ps ->
  zlen p.(p_data) + bytes_in id ps = zlen data ->
  (forall i, (i < length data)%nat -> covered id (p :: ps) i) ->
  getBuffer h true (Some buf) (zlen buf) port addr true v6 true
    (map (fun p => Datagram (packet_bytes p)) (p :: ps))
  = ([NetSocket v6; NetRcvBuf 25000000; NetBind v6 (recv_port port) (bind_addr addr)],
     Halt (0, Some (data ++ drop (length data) buf), zlen buf, true)).
Proof.
  intros HL Hfit Htick Hok Hp Hoff Hps Hend Hsum Hcov. unfold getBuffer, getCompletePacketizedBuffer.
  cbn [negb]. rewrite (feed_complete_tick (mk_reader (zlen buf) 0 1) data id tick); try done; try lia.
  - cbn [forget a_ret a_buf]. unfold get_ret. by rewrite (proj2 (Z.ltb_ge (zlen data) 0)) by lia.
  - split; [cbn; congruence|by left].
  - by left.
Qed.

(** GetBuffer with copying: packets in order are reassembled into a buffer that
    is allocated, or grown, to hold them. *)
Theorem getBuffer_copy {host : Host} h user userLen data id tick p ps port addr v6 :
  heap_total h -> user_ok (mk_alloc_reader user userLen 0 1) ->
  zlen data < 4294967296 -> tick <> UINT_MAX -> in_order data id tick 0 (p :: ps) ->
  exists rest valid,
    (getBuffer h true user userLen port addr false v6 true
       (map (fun p => Datagram (packet_bytes p)) (p :: ps))).2
    = Halt (0, Some (data ++ rest), zlen (data ++ rest), valid).
Proof.
  intros Hh Hu HL Htick Hps.
  destruct (alloc_in_order h (mk_alloc_reader user userLen 0 1) data id tick None p ps)
    as (rest & valid & H); try done; [by left|].
  exists rest, valid. unfold getBuffer. cbn [negb]. cbn [snd]. rewrite H.
  cbn [forget al_ret al_buf al_bufLen al_user_valid]. unfold get_ret.
  by rewrite (proj2 (Z.ltb_ge (zlen data) 0)) by lia.
Qed.

(** ** Witnesses *)

Definition refs_example : part_refs := mk_part_refs false 0 0 0 0.
(** 12000 bytes in two packets, and a buffer of 9978 bytes. *)
Definition two_packets : list packet := [ones_packet 12000 0 6000; ones_packet 12000 6000 (12000 - 6000)].
Definition part_buffer : list Z := replicate (Z.to_nat 9978) 0.

Lemma length_part_buffer : zlen part_buffer = 9978.
Proof. unfold part_buffer. rewrite length_replicate. lia. Qed.

Lemma getPacketizedBuffer_part_witness :
  exists ps2 n buf,
    getPacketizedBuffer (host := ENDIAN_LITTLE) part_buffer 9978 true refs_example
      (map (fun p => Datagram (packet_bytes p)) two_packets)
    = (Halt (mk_part_result n buf (mk_part_refs (n =? zlen (ones 12000)) 7 99 n (2 - zlen ps2))),
       map (fun p => Datagram (packet_bytes p)) ps2) /\ 0 < n.
Proof.
  destruct (@getPacketizedBuffer_part ENDIAN_LITTLE (ones 12000) 7 99 refs_example 9978 part_buffer true
    two_packets) as (ps1 & ps2 & n & buf & H1 & H2 & H3 & H4 & H5).
  - rewrite zlen_ones by lia. lia.
  - unfold MAX_EJFAT_MTU. lia.
  - rewrite length_part_buffer. lia.
  - left. split; reflexivity.
  - cbn [refs_example ref_offset]. rewrite zlen_ones by lia. lia.
  - apply in_order_ones; lia.
  - exists ps2, n, buf. split; [|exact H3].
    assert (Hk : 2 - zlen ps2 = zlen ps1).
    { apply (f_equal length) in H1. rewrite length_app in H1. change (length two_packets) with 2%nat in H1. lia. }
    rewrite Hk. exact H4.
Defined.

Lemma getPacketizedBuffer_parts_are_whole_witness :
  receive_parts (host := ENDIAN_LITTLE) 2 part_buffer 9978 true refs_example
    (map (fun p => Datagram (packet_bytes p)) two_packets) = Some (ones 12000).
Proof.
  apply (@getPacketizedBuffer_parts_are_whole ENDIAN_LITTLE (ones 12000) 7 99 9978 part_buffer 0 0 0
    two_packets).
  - rewrite zlen_ones by lia. lia.
  - unfold MAX_EJFAT_MTU. lia.
  - rewrite length_part_buffer. lia.
  - apply in_order_ones; lia.
Defined.

Lemma getPacketizedBuffer_gap_witness :
  getPacketizedBuffer (host := ENDIAN_LITTLE) part_buffer 9978 true refs_example
    [Datagram (packet_bytes (piece_example 7 2 4)); RecvErr 4]
  = (Halt (mk_part_result (-4) part_buffer refs_example), [RecvErr 4]).
Proof.
  apply (@getPacketizedBuffer_gap ENDIAN_LITTLE refs_example 9978 part_buffer true (piece_example 7 2 4)
    [RecvErr 4]).
  - unfold MAX_EJFAT_MTU. lia.
  - apply packet_ok_example; lia.
  - discriminate.
Defined.

Lemma getPacketizedBuffer_strays_witness :
  getPacketizedBuffer (host := ENDIAN_LITTLE) part_buffer 9978 false refs_example
    (map (fun p => Datagram (packet_bytes p)) (replicate 100 (piece_example 9 0 3)) ++ [RecvErr 4])
  = (Halt (mk_part_result (-8) part_buffer refs_example), [RecvErr 4]).
Proof.
  apply (@getPacketizedBuffer_strays ENDIAN_LITTLE refs_example 9978 part_buffer
    (replicate 100 (piece_example 9 0 3)) [RecvErr 4]).
  - unfold MAX_EJFAT_MTU. lia.
  - apply Forall_replicate. split; [apply packet_ok_example; lia|]. split; [reflexivity|].
    left. discriminate.
  - reflexivity.
Defined.

Lemma getPacketizedBuffer_small_witness :
  getPacketizedBuffer (host := ENDIAN_LITTLE) (replicate 16 0) 16 true refs_example
    [Datagram (packet_bytes (piece_example 7 0 6))]
  = (Stuck, [Datagram (packet_bytes (piece_example 7 0 6))]).
Proof.
  apply (@getPacketizedBuffer_small ENDIAN_LITTLE refs_example 16 (replicate 16 0) true
    [Datagram (packet_bytes (piece_example 7 0 6))]).
  unfold MAX_EJFAT_MTU. lia.
Defined.

Lemma getPacketizedBuffer_overrun_witness :
  (getPacketizedBuffer (host := ENDIAN_LITTLE) part_buffer 9978 true refs_example
     [Datagram (packet_bytes (ones_packet 12000 0 12000))]).1 = Stuck.
Proof.
  apply (@getPacketizedBuffer_overrun ENDIAN_LITTLE refs_example 9978 part_buffer
    (ones_packet 12000 0 12000) []).
  - unfold MAX_EJFAT_MTU. lia.
  - apply ones_packet_ok; lia.
  - reflexivity.
  - reflexivity.
  - rewrite length_part_buffer. cbn [ones_packet p_data]. rewrite zlen_ones by lia. lia.
Defined.

Lemma getPacketizedBuffer_safe_witness :
  match (getPacketizedBuffer (host := ENDIAN_LITTLE) part_buffer 9978 true refs_example
           [Datagram (packet_bytes (piece_example 7 0 2)); RecvErr 4]).1 with
  | Next s => length s.(pa_buf) = length part_buffer
  | Halt res => length res.(pr_buf) = length part_buffer
  | Stuck => False
  end.
Proof.
  apply (@getPacketizedBuffer_safe ENDIAN_LITTLE refs_example 9978 part_buffer true
    [Datagram (packet_bytes (piece_example 7 0 2)); RecvErr 4]).
  - unfold MAX_EJFAT_MTU. lia.
  - rewrite length_part_buffer. lia.
  - reflexivity.
  - repeat constructor. vm_compute. congruence.
Defined.

Lemma getBuffer_no_copy_witness :
  getBuffer (host := ENDIAN_LITTLE) heap_example true (Some [0; 0; 0; 0; 0; 0; 0; 0]) 8 0 None true false true
    (map (fun p => Datagram (packet_bytes p)) [piece_example 7 0 2; piece_example 7 2 4])
  = ([NetSocket false; NetRcvBuf 25000000; NetBind false 17750 None],
     Halt (0, Some [1; 2; 3; 4; 5; 6; 0; 0], 8, true)).
Proof.
  apply (@getBuffer_no_copy ENDIAN_LITTLE heap_example data_example [0; 0; 0; 0; 0; 0; 0; 0] 7 99
    (piece_example 7 0 2) [piece_example 7 2 4] 0 None false).
  - reflexivity.
  - vm_compute. congruence.
  - vm_compute. congruence.
  - apply packet_ok_example; lia.
  - apply piece_of_example; lia.
  - reflexivity.
  - apply Forall_cons_2; [|apply Forall_nil_2]. split; [apply packet_ok_example; lia|].
    left. apply piece_of_example; lia.
  - reflexivity.
  - reflexivity.
  - intros i Hi. change (length data_example) with 6%nat in Hi.
    do 6 (destruct i as [|i]; [unfold covered; rewrite !Exists_cons; cbn; lia|]). lia.
Defined.

Lemma getBuffer_copy_witness :
  exists rest valid,
    (getBuffer (host := ENDIAN_LITTLE) heap_example true None 0 19522 None false true true
       (map (fun p => Datagram (packet_bytes p)) two_packets)).2
    = Halt (0, Some (ones 12000 ++ rest), zlen (ones 12000 ++ rest), valid).
Proof.
  apply (@getBuffer_copy ENDIAN_LITTLE heap_example None 0 (ones 12000) 7 99 (ones_packet 12000 0 6000)
    [ones_packet 12000 6000 (12000 - 6000)] 19522 None true).
  - exact heap_example_total.
  - split; [cbn [ar_bufLen]; lia|exact I].
  - rewrite zlen_ones by lia. lia.
  - vm_compute. congruence.
  - apply in_order_ones; lia.
Defined.
