(* ===== verification/Sequencer.v ===== *)
(** The ring of the vendored Disruptor library as far as the suppliers use it:
    SingleProducerSequencer.h, RingBuffer.h's indexing.  Sequences are 64-bit
    counters (integers here: at one claim per nanosecond they last 292 years);
    the index into the ring is computed in 32 bits as in the source.  The
    functions of Disruptor's Util.h and Sequence.h are only declared in the
    repository; they are an interface with the laws their comments state. *)
From S2P Require Import Prelude.

Class SequenceUtil := {
  getMinimumSequence : list Z -> Z -> Z;
  isPowerOf2 : Z -> bool;
  ceilingNextPowerOfTwo : Z -> Z
}.

Class SequenceUtilLaws `{SequenceUtil} := {
  getMinimumSequence_spec seqs m : getMinimumSequence seqs m = foldr Z.min m seqs;
  isPowerOf2_spec x : isPowerOf2 x = true <-> exists k, 0 <= k /\ x = 2 ^ k;
  ceilingNextPowerOfTwo_spec k : 0 <= k -> ceilingNextPowerOfTwo (2 ^ k) = 2 ^ k
}.

(** The fields of SingleProducerSequencer and of its base class; the gating
    sequences are shared with the consumers and are passed as an argument. *)
Record sequencer := mk_sequencer {
  m_bufferSize : Z;
  m_nextValue : Z;
  m_cachedValue : Z;
  m_cursor : Z
}.

Definition InitialCursorValue : Z := -1.

Section Sequencer.
Context `{SequenceUtil}.

Definition SingleProducerSequencer (bufferSize : Z) : result sequencer :=
  if bufferSize <? 1 then Throw "bufferSize must not be less than 1"
  else if negb (isPowerOf2 bufferSize) then Throw "bufferSize must be a power of 2"
  else Ok (mk_sequencer bufferSize InitialCursorValue InitialCursorValue InitialCursorValue).

Definition hasAvailableCapacity (s : sequencer) (gating : list Z) (requiredCapacity : Z)
    : bool * sequencer :=
  let nextValue := s.(m_nextValue) in
  let wrapPoint := nextValue + requiredCapacity - s.(m_bufferSize) in
  let cachedGatingSequence := s.(m_cachedValue) in
  if (cachedGatingSequence <? wrapPoint) || (nextValue <? cachedGatingSequence) then
    let minSequence := getMinimumSequence gating nextValue in
    (negb (minSequence <? wrapPoint),
     mk_sequencer s.(m_bufferSize) nextValue minSequence s.(m_cursor))
  else (true, s).

(** [next(n)] up to one look at the gating sequences: [None] means that it goes on
    spinning.  Calling it again in the state it leaves is the next iteration of
    the loop, since what comes before the loop gives the same values again. *)
Definition next (s : sequencer) (gating : list Z) (n : Z) : result (sequencer * option Z) :=
  if (n <? 1) || (s.(m_bufferSize) <? n) then Throw "n must be > 0 and < bufferSize"
  else
    let nextValue := s.(m_nextValue) in
    let nextSequence := nextValue + n in
    let wrapPoint := nextSequence - s.(m_bufferSize) in
    let cachedGatingSequence := s.(m_cachedValue) in
    if (cachedGatingSequence <? wrapPoint) || (nextValue <? cachedGatingSequence) then
      let minSequence := getMinimumSequence gating nextValue in
      if minSequence <? wrapPoint then
        Ok (mk_sequencer s.(m_bufferSize) nextValue s.(m_cachedValue) nextValue, None)
      else
        Ok (mk_sequencer s.(m_bufferSize) nextSequence minSequence nextValue, Some nextSequence)
    else Ok (mk_sequencer s.(m_bufferSize) nextSequence cachedGatingSequence s.(m_cursor),
             Some nextSequence).

Definition tryNext (s : sequencer) (gating : list Z) (n : Z) : sequencer * result Z :=
  if n <? 1 then (s, Throw "n must be > 0")
  else
    let '(ok, s) := hasAvailableCapacity s gating n in
    if negb ok then (s, Throw "InsufficientCapacityException")
    else
      let nextSequence := s.(m_nextValue) + n in
      (mk_sequencer s.(m_bufferSize) nextSequence s.(m_cachedValue) s.(m_cursor), Ok nextSequence).

Definition getRemainingCapacity (s : sequencer) (gating : list Z) : Z :=
  let nextValue := s.(m_nextValue) in
  let consumed := getMinimumSequence gating nextValue in
  let produced := nextValue in
  s.(m_bufferSize) - (produced - consumed).

Definition claim (s : sequencer) (sequence : Z) : sequencer :=
  mk_sequencer s.(m_bufferSize) sequence s.(m_cachedValue) s.(m_cursor).

Definition sq_publish (s : sequencer) (sequence : Z) : sequencer :=
  mk_sequencer s.(m_bufferSize) s.(m_nextValue) s.(m_cachedValue) sequence.

Definition isAvailable (s : sequencer) (sequence : Z) : bool := sequence <=? s.(m_cursor).

(** RingBuffer's [operator[]], less the padding. *)
Definition entry_index (bufferSize sequence : Z) : nat :=
  Z.to_nat (Z.land (i32 sequence) (bufferSize - 1)).
End Sequencer.

(** ** The index *)

Definition ring_size (n : Z) : Prop := exists k, 0 <= k <= 30 /\ n = 2 ^ k.

Lemma ring_size_pos n : ring_size n -> 1 <= n <= 1073741824.
Proof.
  intros (k & Hk & ->). split; [apply (Z.pow_le_mono_r 2 0); lia|].
  apply (Z.pow_le_mono_r 2 k 30); lia.
Qed.

(** The 32-bit computation is the remainder, also of sequences beyond 32 bits. *)
Lemma entry_index_mod n seq : ring_size n -> Z.of_nat (entry_index n seq) = seq mod n.
Proof.
  intros (k & Hk & ->). unfold entry_index.
  replace (2 ^ k - 1) with (Z.ones k) by (rewrite Z.ones_equiv; lia).
  assert (0 < 2 ^ k) by (apply Z.pow_pos_nonneg; lia).
  rewrite Z.land_ones, Z2Nat.id by (try apply Z.mod_pos_bound; lia).
  assert (Hi : i32 seq = seq + (- ((seq + 2147483648) / 4294967296) * 2 ^ (32 - k)) * 2 ^ k).
  { rewrite <- Z.mul_assoc, <- Z.pow_add_r by lia. replace (32 - k + k) with 32 by lia.
    change (2 ^ 32) with 4294967296. wrap_lia. }
  rewrite Hi. apply Z.mod_add. lia.
Qed.

Lemma entry_index_lt n seq : ring_size n -> (entry_index n seq < Z.to_nat n)%nat.
Proof.
  intros Hn. apply ring_size_pos in Hn as Hp. apply Nat2Z.inj_lt. rewrite entry_index_mod by done.
  rewrite Z2Nat.id by lia. apply Z.mod_pos_bound. lia.
Qed.

(** Two sequences in a window as wide as the ring have different places. *)
Lemma entry_index_inj n a b : ring_size n -> Z.abs (a - b) < n ->
  entry_index n a = entry_index n b -> a = b.
Proof.
  intros Hn Hab He. apply (f_equal Z.of_nat) in He. rewrite !entry_index_mod in He by done.
  apply ring_size_pos in Hn. assert (Hd : (a - b) mod n = 0) by (by rewrite Zminus_mod, He, Z.sub_diag).
  apply Z.mod_divide in Hd as [q Hq]; [|lia]. assert (q = 0) by nia. lia.
Qed.

(** ** Claims *)

Lemma fold_min_le g l m : g ∈ l -> foldr Z.min m l <= g.
Proof. induction 1 as [x l|x y l _ IH]; cbn; lia. Qed.
Lemma fold_min_init l m : foldr Z.min m l <= m.
Proof. induction l as [|x l IH]; cbn; lia. Qed.
Lemma fold_min_glb l m v : v <= m -> (forall g, g ∈ l -> v <= g) -> v <= foldr Z.min m l.
Proof.
  intros Hm. induction l as [|x l IH]; intros Hl; [done|]. cbn.
  apply Z.min_glb; [apply Hl; left|apply IH; intros g Hg; apply Hl; by right].
Qed.
Lemma fold_min_lt l m v : foldr Z.min m l < v -> v <= m -> exists g, g ∈ l /\ g < v.
Proof.
  intros Hlt Hm. induction l as [|x l IH]; cbn in Hlt; [lia|].
  destruct (decide (x < v)); [exists x; split; [left|done]|].
  destruct IH as (g & Hg & Hv); [lia|]. exists g. split; [by right|done].
Qed.

Section Claims.
Context `{SequenceUtilLaws}.

(** The gating sequences are not ahead of what was claimed and not more than a
    ring behind it, and the cached value is not ahead of any of them. *)
Record sequencer_ok (s : sequencer) (gating : list Z) : Prop := mk_sequencer_ok {
  so_size : 1 <= s.(m_bufferSize);
  so_cached : s.(m_cachedValue) <= s.(m_nextValue);
  so_wrap : s.(m_nextValue) - s.(m_bufferSize) <= s.(m_cachedValue);
  so_gate g : g ∈ gating -> s.(m_cachedValue) <= g <= s.(m_nextValue)
}.

(** The gate: what all consumers have released. *)
Definition gate (s : sequencer) (gating : list Z) : Z := foldr Z.min s.(m_nextValue) gating.

Lemma gate_cached s gating : sequencer_ok s gating -> s.(m_cachedValue) <= gate s gating.
Proof using Type*.
  intros [_ Hc _ Hg]. apply fold_min_glb; [done|]. intros g Hin. by apply Hg.
Qed.

(** [next] claims exactly when there is room. *)
Lemma next_spec s gating n : sequencer_ok s gating -> 1 <= n <= s.(m_bufferSize) ->
  (s.(m_nextValue) + n - s.(m_bufferSize) <= gate s gating
   /\ exists s', next s gating n = Ok (s', Some (s.(m_nextValue) + n)) /\ sequencer_ok s' gating
     /\ s'.(m_bufferSize) = s.(m_bufferSize) /\ s'.(m_nextValue) = s.(m_nextValue) + n
     /\ (s'.(m_cursor) = s.(m_cursor) \/ s'.(m_cursor) = s.(m_nextValue)))
  \/
  (gate s gating < s.(m_nextValue) + n - s.(m_bufferSize)
   /\ next s gating n
     = Ok (mk_sequencer s.(m_bufferSize) s.(m_nextValue) s.(m_cachedValue) s.(m_nextValue), None)).
Proof using Type*.
  intros Hok Hn. pose proof (gate_cached s gating Hok) as Hgc. destruct Hok as [Hsz Hc Hw Hg].
  unfold next. rewrite getMinimumSequence_spec. fold (gate s gating).
  rewrite (proj2 (Z.ltb_ge n 1)), (proj2 (Z.ltb_ge _ n)) by lia. cbn [orb].
  rewrite (proj2 (Z.ltb_ge s.(m_nextValue) _)), orb_false_r by lia.
  assert (Hnew : forall c cur, c <= gate s gating -> s.(m_nextValue) + n - s.(m_bufferSize) <= c ->
    c <= s.(m_nextValue) ->
    sequencer_ok (mk_sequencer s.(m_bufferSize) (s.(m_nextValue) + n) c cur) gating).
  { intros c cur Hle Hwr Hcn. constructor; cbn; try lia. intros g Hin.
    pose proof (fold_min_le g gating s.(m_nextValue) Hin). fold (gate s gating) in *.
    specialize (Hg g Hin). lia. }
  pose proof (fold_min_init gating s.(m_nextValue)) as Hi. fold (gate s gating) in Hi.
  destruct (Z.ltb_spec s.(m_cachedValue) (s.(m_nextValue) + n - s.(m_bufferSize))) as [H1|H1].
  - destruct (Z.ltb_spec (gate s gating) (s.(m_nextValue) + n - s.(m_bufferSize))) as [H2|H2].
    + by right.
    + left. split; [done|]. eexists. split; [done|]. split; [by apply Hnew|]. cbn. auto.
  - left. split; [lia|]. eexists. split; [done|]. split; [apply Hnew; lia|]. cbn. auto.
Qed.

(** [hasAvailableCapacity] and [getRemainingCapacity] agree with it. *)
Lemma hasAvailableCapacity_spec s gating n : sequencer_ok s gating -> 1 <= n <= s.(m_bufferSize) ->
  exists s', hasAvailableCapacity s gating n = (n <=? getRemainingCapacity s gating, s')
    /\ sequencer_ok s' gating.
Proof using Type*.
  intros Hok Hn. pose proof (gate_cached s gating Hok) as Hgc. pose proof Hok as [Hsz Hc Hw Hg].
  unfold hasAvailableCapacity, getRemainingCapacity. rewrite getMinimumSequence_spec.
  fold (gate s gating). rewrite (proj2 (Z.ltb_ge s.(m_nextValue) _)), orb_false_r by lia.
  pose proof (fold_min_init gating s.(m_nextValue)) as Hi. fold (gate s gating) in Hi.
  destruct (Z.ltb_spec s.(m_cachedValue) (s.(m_nextValue) + n - s.(m_bufferSize))) as [H1|H1].
  - eexists. split.
    + f_equal. destruct (Z.ltb_spec (gate s gating) (s.(m_nextValue) + n - s.(m_bufferSize)));
        destruct (Z.leb_spec n (s.(m_bufferSize) - (s.(m_nextValue) - gate s gating))); lia || done.
    + constructor; cbn; try lia. intros g Hin. pose proof (fold_min_le g gating s.(m_nextValue) Hin).
      fold (gate s gating) in *. specialize (Hg g Hin). lia.
  - exists s. split; [|done]. f_equal. symmetry. apply Z.leb_le. lia.
Qed.
End Claims.

(** ** An implementation of the functions that are only declared *)

Definition util_example : SequenceUtil := {|
  getMinimumSequence := fun seqs m => foldr Z.min m seqs;
  isPowerOf2 := fun x => (0 <? x) && (2 ^ Z.log2 x =? x);
  ceilingNextPowerOfTwo := fun x => 2 ^ Z.log2_up x
|}.

Lemma util_example_laws : @SequenceUtilLaws util_example.
Proof.
  constructor; cbn; [done| |].
  - intros x. rewrite andb_true_iff, Z.ltb_lt, Z.eqb_eq. split.
    + intros [Hx He]. exists (Z.log2 x). split; [apply Z.log2_nonneg|done].
    + intros (k & Hk & ->). split; [by apply Z.pow_pos_nonneg|]. by rewrite Z.log2_pow2.
  - intros k Hk. by rewrite Z.log2_up_pow2.
Qed.
