(* ===== verification/Release.v ===== *)
(** The release of ring items: what Supplier.h's and SupplierN.h's [release] do
    with the sequence of an item of which the last user is done.  Items may come
    back in any order; the sequence that gates the producer moves only when
    everything up to it has come back. *)

From S2P Require Import Prelude.

(** The fields a supplier keeps for one consumer (Supplier has one consumer). *)
Record consumer := mk_consumer {
  c_sequence : Z;       (* sequence->value() *)
  c_available : Z;      (* availableConsumerSequence *)
  c_next : Z;           (* nextConsumerSequence *)
  c_last : Z;           (* lastSequenceReleased *)
  c_max : Z;            (* maxSequence *)
  c_between : Z         (* between *)
}.

Definition new_consumer : consumer := mk_consumer (-1) (-1) 0 (-1) (-1) 0.

(** [release] from [if (orderedRelease)] on (the mutex makes it atomic). *)
Definition release_seq (orderedRelease : bool) (c : consumer) (seq : Z) : consumer :=
  if orderedRelease then
    mk_consumer seq c.(c_available) c.(c_next) c.(c_last) c.(c_max) c.(c_between)
  else
    let '(maxSequence, between) :=
      if c.(c_max) <? seq then
        (seq, if c.(c_last) <? c.(c_max) then u32 (c.(c_between) + 1) else c.(c_between))
      else if c.(c_last) <? seq then (c.(c_max), u32 (c.(c_between) + 1))
      else (c.(c_max), c.(c_between)) in
    if maxSequence - c.(c_last) - 1 =? between then
      mk_consumer maxSequence c.(c_available) c.(c_next) maxSequence maxSequence 0
    else mk_consumer c.(c_sequence) c.(c_available) c.(c_next) c.(c_last) maxSequence between.

(** The state after the releases [h], the last one first. *)
Definition released (h : list Z) : consumer := foldr (fun s c => release_seq false c s) new_consumer h.

(** ** What it means *)

Fixpoint max_seq (h : list Z) : Z := match h with [] => -1 | s :: h => Z.max s (max_seq h) end.

(** The gate, from the history: the largest sequence at the last moment at which
    the releases so far were those of an initial segment. *)
Fixpoint gate_of (h : list Z) : Z :=
  match h with
  | [] => -1
  | s :: h' => if zlen h =? max_seq h + 1 then max_seq h else gate_of h'
  end.

(** A history of sequences released once each. *)
Definition history (h : list Z) : Prop := NoDup h /\ Forall (fun s => 0 <= s) h.

(** What is out never spans more than [2^31] sequences (a ring is not larger). *)
Fixpoint windowed (h : list Z) : Prop :=
  match h with [] => True | s :: h => s - gate_of h <= 2147483648 /\ windowed h end.

Lemma max_seq_ge h : -1 <= max_seq h.
Proof. induction h; cbn; lia. Qed.
Lemma max_seq_in h s : s ∈ h -> s <= max_seq h.
Proof. induction 1 as [x l|x y l _ IH]; cbn; lia. Qed.
Lemma max_seq_elem h : Forall (fun s => 0 <= s) h -> h <> [] -> max_seq h ∈ h.
Proof.
  induction h as [|s h IH]; [done|]. intros [H0 Hh]%Forall_cons _. cbn [max_seq].
  destruct h as [|t h]; [cbn; rewrite Z.max_l by lia; left|].
  destruct (Z.max_spec s (max_seq (t :: h))) as [[_ ->]|[_ ->]]; [right; by apply IH|left].
Qed.

(** Members of a set of distinct sequences from 0 on are at most as many as the
    largest plus one, and exactly as many when there is no gap. *)
Lemma history_segment h m : history h -> (forall s, s ∈ h -> s <= m) -> -1 <= m ->
  zlen h <= m + 1 /\ (zlen h = m + 1 -> forall s, 0 <= s <= m -> s ∈ h).
Proof.
  intros [Hnd H0] Hm H1. assert (Hsub : h ⊆+ seqZ 0 (m + 1)).
  { apply NoDup_submseteq; [done|]. intros s Hs. apply elem_of_seqZ.
    rewrite Forall_forall in H0. specialize (H0 s Hs). specialize (Hm s Hs). lia. }
  apply submseteq_length in Hsub as Hl. rewrite length_seqZ in Hl. split; [lia|].
  intros He s Hs. assert (Hp : h ≡ₚ seqZ 0 (m + 1)).
  { apply submseteq_length_Permutation; [done|]. rewrite length_seqZ. lia. }
  rewrite Hp. apply elem_of_seqZ. lia.
Qed.

Lemma gate_of_le h : gate_of h <= max_seq h.
Proof. induction h as [|s h IH]; [done|]. cbn [gate_of]. case_match; cbn [max_seq] in *; lia. Qed.
Lemma gate_of_ge h : -1 <= gate_of h.
Proof. induction h as [|s h IH]; [done|]. cbn [gate_of]. case_match; [apply max_seq_ge|done]. Qed.

Lemma history_tail s h : history (s :: h) -> history h /\ (s ∉ h) /\ 0 <= s.
Proof. intros [[? ?]%NoDup_cons [? ?]%Forall_cons]. done. Qed.

(** Everything up to the gate has been released. *)
Lemma gate_of_sound h s : history h -> 0 <= s <= gate_of h -> s ∈ h.
Proof.
  induction h as [|t h IH]; [cbn; lia|]. intros Hh Hs. pose proof (history_tail _ _ Hh) as (Hh' & _).
  cbn [gate_of] in Hs. destruct (Z.eqb_spec (zlen (t :: h)) (max_seq (t :: h) + 1)) as [He|He].
  - apply (history_segment (t :: h) (max_seq (t :: h))); try done; [apply max_seq_in|apply max_seq_ge].
  - right. by apply IH.
Qed.

(** When an initial segment has been released the gate is at its end. *)
Lemma gate_of_complete h : zlen h = max_seq h + 1 -> gate_of h = max_seq h.
Proof. destruct h as [|s h]; [done|]. intros He. cbn [gate_of]. by rewrite (proj2 (Z.eqb_eq _ _) He). Qed.

(** The invariant of the bookkeeping. *)
Record tracks (h : list Z) (c : consumer) : Prop := mk_tracks {
  tr_seq : c.(c_sequence) = gate_of h;
  tr_last : c.(c_last) = gate_of h;
  tr_max : c.(c_max) = max_seq h;
  tr_between : c.(c_between) = zlen h - 1 - c.(c_last) - (if c.(c_max) =? c.(c_last) then 0 else 1)
}.

Lemma gate_of_mono s h : gate_of h <= gate_of (s :: h).
Proof. cbn [gate_of]. case_match; [|done]. pose proof (gate_of_le h). cbn [max_seq]. lia. Qed.

Lemma windowed_max h : windowed h -> max_seq h - gate_of h <= 2147483648.
Proof.
  induction h as [|s h IH]; [cbn; lia|]. intros [Hs Hh]. specialize (IH Hh).
  pose proof (gate_of_mono s h). cbn [max_seq]. lia.
Qed.

Lemma tracks_nil : tracks [] new_consumer.
Proof. by constructor. Qed.

(** The count of what lies between the gate and the largest sequence. *)
Lemma history_between h : history h -> windowed h ->
  0 <= zlen h - 1 - gate_of h - (if max_seq h =? gate_of h then 0 else 1) <= 2147483648.
Proof.
  intros Hh Hw. pose proof (windowed_max h Hw). pose proof (gate_of_le h). pose proof (gate_of_ge h).
  destruct (history_segment h (max_seq h) Hh (max_seq_in h) (max_seq_ge h)) as [Hle _].
  assert (Hsub : seqZ 0 (gate_of h + 1) ⊆+ h).
  { apply NoDup_submseteq; [apply NoDup_seqZ|]. intros s Hs%elem_of_seqZ.
    apply gate_of_sound; [done|lia]. }
  apply submseteq_length in Hsub as Hl. rewrite length_seqZ in Hl.
  split; [|case_match; lia]. destruct (Z.eqb_spec (max_seq h) (gate_of h)); [lia|].
  assert (Hmax : max_seq h :: seqZ 0 (gate_of h + 1) ⊆+ h).
  { apply NoDup_submseteq.
    - constructor; [|apply NoDup_seqZ]. intros Hin%elem_of_seqZ. lia.
    - intros s [->|Hs%elem_of_seqZ]%elem_of_cons; [|apply gate_of_sound; [done|lia]].
      apply max_seq_elem; [apply Hh|]. intros ->. done. }
  apply submseteq_length in Hmax as Hl2. cbn in Hl2. rewrite length_seqZ in Hl2. lia.
Qed.

(** One release keeps the bookkeeping in step with the history. *)
Lemma tracks_release h c s : tracks h c -> history (s :: h) -> windowed (s :: h) ->
  tracks (s :: h) (release_seq false c s).
Proof.
  intros [Hs Hl Hm Hb] Hh [_ Hw]. pose proof (history_tail s h Hh) as (Hh' & Hnew & H0).
  pose proof (gate_of_le h) as Hle. pose proof (gate_of_ge h) as Hge.
  pose proof (history_between h Hh' Hw) as Hbt. rewrite <- Hl, <- Hm in Hbt.
  assert (Hgate : ~ s <= gate_of h) by (intros ?; apply Hnew, gate_of_sound; [done|lia]).
  assert (Hne : c.(c_max) <> s).
  { intros <-. apply Hnew. rewrite Hm. apply max_seq_elem; [apply Hh'|]. intros ->. cbn in *. lia. }
  assert (Hlen : zlen (s :: h) = zlen h + 1) by (cbn; lia).
  unfold release_seq. destruct (Z.ltb_spec c.(c_max) s) as [H1|H1].
  - assert (Hms : max_seq (s :: h) = s) by (cbn [max_seq]; lia).
    assert (Hbt' : (if c.(c_last) <? c.(c_max) then u32 (c.(c_between) + 1) else c.(c_between))
                   = zlen h - 1 - c.(c_last)).
    { rewrite Hb in *. destruct (Z.ltb_spec c.(c_last) c.(c_max));
        destruct (Z.eqb_spec c.(c_max) c.(c_last)); rewrite ?u32_small; lia. }
    rewrite Hbt'. destruct (Z.eqb_spec (s - c.(c_last) - 1) (zlen h - 1 - c.(c_last))) as [He|He].
    + assert (Hg : gate_of (s :: h) = s) by (rewrite gate_of_complete; lia).
      constructor; cbn [c_sequence c_last c_max c_between]; rewrite ?Hg, ?Hms, ?Z.eqb_refl; lia.
    + assert (Hg : gate_of (s :: h) = gate_of h)
        by (cbn [gate_of]; rewrite Hms; by rewrite (proj2 (Z.eqb_neq _ _)) by lia).
      constructor; cbn [c_sequence c_last c_max c_between]; rewrite ?Hg, ?Hms; try done.
      rewrite (proj2 (Z.eqb_neq s _)) by lia. lia.
  - assert (Hms : max_seq (s :: h) = c.(c_max)) by (cbn [max_seq]; lia).
    rewrite (proj2 (Z.ltb_lt c.(c_last) s)) by lia.
    rewrite (proj2 (Z.eqb_neq c.(c_max) c.(c_last))) in Hb, Hbt by lia. rewrite u32_small by lia.
    destruct (Z.eqb_spec (c.(c_max) - c.(c_last) - 1) (c.(c_between) + 1)) as [He|He].
    + assert (Hg : gate_of (s :: h) = c.(c_max)) by (rewrite gate_of_complete; lia).
      constructor; cbn [c_sequence c_last c_max c_between]; rewrite ?Hg, ?Hms, ?Z.eqb_refl; lia.
    + assert (Hg : gate_of (s :: h) = gate_of h)
        by (cbn [gate_of]; rewrite Hms; by rewrite (proj2 (Z.eqb_neq _ _)) by lia).
      constructor; cbn [c_sequence c_last c_max c_between]; rewrite ?Hg, ?Hms; try done.
      rewrite (proj2 (Z.eqb_neq _ _)) by lia. lia.
Qed.

Lemma released_tracks h : history h -> windowed h -> tracks h (released h).
Proof.
  induction h as [|s h IH]; [intros; apply tracks_nil|]. intros Hh Hw.
  apply (tracks_release h (released h) s); [|done|done].
  apply IH; [apply (history_tail s h Hh)|apply Hw].
Qed.

Lemma history_length h n : history h -> (forall s, 0 <= s < n -> s ∈ h) -> n <= zlen h.
Proof.
  intros _ Hall. assert (Hsub : seqZ 0 n ⊆+ h).
  { apply NoDup_submseteq; [apply NoDup_seqZ|]. intros s Hs%elem_of_seqZ. apply Hall. lia. }
  apply submseteq_length in Hsub. rewrite length_seqZ in Hsub. lia.
Qed.

(** In order, every release moves the gate. *)
Lemma gate_of_in_order h s : history (s :: h) -> max_seq h = gate_of h ->
  (forall q, 0 <= q < s -> q ∈ h) -> gate_of (s :: h) = s /\ max_seq (s :: h) = s.
Proof.
  intros Hh Hseg Hall. pose proof (history_tail s h Hh) as (Hh' & Hnew & H0).
  assert (Hlt : max_seq h < s).
  { destruct (decide (s <= max_seq h)); [|lia]. exfalso. apply Hnew, gate_of_sound; [done|lia]. }
  assert (Hm : max_seq (s :: h) = s) by (cbn [max_seq]; lia). split; [|done].
  rewrite gate_of_complete; [done|]. rewrite Hm. pose proof (history_length h s Hh' Hall).
  destruct (history_segment h (max_seq h) Hh' (max_seq_in h) (max_seq_ge h)) as [Hle _].
  cbn [length]. lia.
Qed.

Lemma release_seq_keeps ordered c s : c_next (release_seq ordered c s) = c.(c_next)
  /\ c_available (release_seq ordered c s) = c.(c_available).
Proof. unfold release_seq. by repeat case_match. Qed.

(** ** Properties *)

(** C20: out-of-order release: after any releases of distinct sequences the gate
    is the one of the history; everything up to it has been released, so no item
    in use is given to the producer again; and when what was released is an initial
    segment, in whatever order it came back, the gate is at its end. *)
Theorem release_gate (h : list Z) : history h -> windowed h ->
  (released h).(c_sequence) = gate_of h
  /\ (forall s, 0 <= s <= (released h).(c_sequence) -> s ∈ h)
  /\ (forall n, h ≡ₚ seqZ 0 n -> 0 <= n -> (released h).(c_sequence) = n - 1).
Proof.
  intros Hh Hw. destruct (released_tracks h Hh Hw) as [Hs _ _ _].
  split; [done|]. rewrite Hs. split; [intros s; by apply gate_of_sound|].
  intros n Hp Hn. assert (Hlen : zlen h = n) by (rewrite Hp, length_seqZ; lia).
  assert (Hm : max_seq h = n - 1).
  { destruct (decide (n = 0)) as [->|Hn0].
    - assert (h = []) as -> by (by apply Permutation_nil_r). done.
    - assert (Hin : n - 1 ∈ h) by (rewrite Hp; apply elem_of_seqZ; lia). apply max_seq_in in Hin.
      destruct (history_segment h (max_seq h) Hh (max_seq_in h) (max_seq_ge h)) as [Hle _].
      assert (Hmx : max_seq h ∈ seqZ 0 n).
      { rewrite <- Hp. apply max_seq_elem; [apply Hh|]. intros ->. cbn in Hlen. lia. }
      apply elem_of_seqZ in Hmx. lia. }
  rewrite gate_of_complete; lia.
Qed.

(** An item that came back early holds up the ones before it: as long as a
    sequence below it is missing, the gate does not move, even when a longer
    initial segment is back. *)
Theorem release_held_back (h h' : list Z) (s : Z) : history (h ++ h') -> windowed (h ++ h') ->
  (exists m, m ∈ h' /\ s < m) -> 0 <= s -> s ∉ h ++ h' ->
  (released (h ++ h')).(c_sequence) = (released h').(c_sequence).
Proof.
  intros Hh Hw (m & Hm & Hsm) H0 Hs. induction h as [|t h IH]; [done|].
  pose proof (history_tail t (h ++ h') Hh) as (Hh' & _). destruct Hw as [Ht Hw].
  cbn [app]. rewrite <- IH by (done || (intros Hin; apply Hs; by right)).
  destruct (released_tracks (t :: h ++ h') Hh (conj Ht Hw)) as [-> _ _ _].
  destruct (released_tracks (h ++ h') Hh' Hw) as [-> _ _ _].
  cbn [gate_of]. case_match eqn:He; [|done]. exfalso. apply Z.eqb_eq in He. apply Hs.
  destruct (history_segment (t :: h ++ h') (max_seq (t :: h ++ h')) Hh (max_seq_in _) (max_seq_ge _))
    as [_ Hall]. apply Hall; [done|]. split; [done|].
  assert (m <= max_seq (t :: h ++ h')); [|lia].
  apply max_seq_in. right. apply elem_of_app. by right.
Qed.

(** ** Witnesses *)

Lemma history_example : history [0; 2; 3; 1].
Proof. split; [apply (bool_decide_unpack _); by vm_compute|repeat constructor; lia]. Qed.

Lemma release_gate_witness :
  (released [0; 2; 3; 1]).(c_sequence) = 3 /\ (released [2; 3; 1]).(c_sequence) = -1.
Proof.
  split; [|reflexivity].
  destruct (release_gate [0; 2; 3; 1]) as (_ & _ & H).
  - exact history_example.
  - repeat split; vm_compute; congruence.
  - apply (H 4); [|lia]. apply (bool_decide_unpack _). vm_compute. exact I.
Defined.

(** Sequence 3 came back first, then 0 and 1: nothing is freed while 2 is out. *)
Lemma release_held_back_witness :
  (released [1; 0; 3]).(c_sequence) = -1 /\ (released [3]).(c_sequence) = -1.
Proof.
  split; [|reflexivity].
  etransitivity; [apply (release_held_back [1; 0] [3] 2)|reflexivity].
  - split; [apply (bool_decide_unpack _); by vm_compute|repeat constructor; lia].
  - repeat split; vm_compute; congruence.
  - exists 3. split; [left|lia].
  - lia.
  - intros Hin. cbn in Hin. repeat (apply elem_of_cons in Hin as [Hin|Hin]; [lia|]).
    by apply elem_of_nil in Hin.
Defined.
