(* ===== verification/Supplier.v ===== *)
(** Supplier.h and SupplierN.h: a ring of reusable items between one producer and
    one (Supplier) or up to eight (SupplierN) consumers.  The state is that of
    SupplierN; a Supplier is one with a single consumer and the methods without
    an [id].  Methods are atomic steps on the state; the two that can block
    answer [None] when they have to wait.  An item is reached through its place
    in the ring, which stands for the shared pointer the ring holds. *)
From stdpp Require Import pretty.
From S2P Require Import Prelude Sequencer Release.

(** The items: SupplyItem.h declares the methods below without their bodies. *)
Class SupplyItem (Item : Type) := {
  item_reset : Item -> Item;
  isFromConsumerGet : Item -> bool;
  setFromConsumerGet : Item -> bool -> Item;
  getProducerSequence : Item -> Z;
  setProducerSequence : Item -> Z -> Item;
  getConsumerSequence : Item -> Z -> Z;
  setConsumerSequence : Item -> Z -> Z -> Item;
  (** true when the last user has released the item *)
  decrementCounter : Item -> Z -> Item * bool
}.

(** What Supplier.h relies on: setters set, and touch nothing else it reads;
    [reset] prepares an item for the producer. *)
Class SupplyItemLaws (Item : Type) `{SupplyItem Item} := {
  reset_flag i : isFromConsumerGet (item_reset i) = false;
  flag_set i b : isFromConsumerGet (setFromConsumerGet i b) = b;
  flag_producer i s : isFromConsumerGet (setProducerSequence i s) = isFromConsumerGet i;
  flag_decrement i id : isFromConsumerGet (decrementCounter i id).1 = isFromConsumerGet i;
  producer_set i s : getProducerSequence (setProducerSequence i s) = s;
  producer_flag i b : getProducerSequence (setFromConsumerGet i b) = getProducerSequence i;
  producer_consumer i s id : getProducerSequence (setConsumerSequence i s id) = getProducerSequence i;
  producer_decrement i id : getProducerSequence (decrementCounter i id).1 = getProducerSequence i;
  consumer_set i s id : 0 <= id < 8 -> getConsumerSequence (setConsumerSequence i s id) id = s;
  consumer_other i s id id' : id' <> id ->
      getConsumerSequence (setConsumerSequence i s id) id' = getConsumerSequence i id';
  consumer_flag i b id : getConsumerSequence (setFromConsumerGet i b) id = getConsumerSequence i id;
  consumer_decrement i id id' :
      getConsumerSequence (decrementCounter i id).1 id' = getConsumerSequence i id'
}.

Section Supplier.
Context `{SequenceUtil} {Item : Type} `{SupplyItem Item}.

Record supplier := mk_supplier {
  ringSize : Z;                  (* the field getRingSize returns *)
  orderedRelease : bool;
  ringBuffer : sequencer;
  entries : list Item;           (* the ring's entries *)
  consumers : list consumer;
  alerted : bool                 (* the barrier's *)
}.

Definition consumerCount (s : supplier) : Z := zlen s.(consumers).
Definition gating (s : supplier) : list Z := map c_sequence s.(consumers).

Definition new_ring (size : Z) (eventFactory : nat -> Item) : result (sequencer * list Item) :=
  sq ← SingleProducerSequencer size;
  if negb (ceilingNextPowerOfTwo size =? size) then Throw "bufferSize must be a power of 2"
  else Ok (sq, map eventFactory (seq 0 (Z.to_nat size))).

(** The constructor of Supplier: its parameter hides the field [ringSize], which
    stays 0. *)
Definition new_Supplier (size : Z) (ordered : bool) (eventFactory : nat -> Item) : result supplier :=
  if size <? 1 then Throw "positive args only"
  else if negb (isPowerOf2 size) then Throw "ringSize must be a power of 2"
  else
    '(sq, es) ← new_ring size eventFactory;
    Ok (mk_supplier 0 ordered sq es [new_consumer] false).

Definition new_SupplierN (size : Z) (ordered : bool) (count : Z) (eventFactory : nat -> Item)
    : result supplier :=
  if 8 <? count then Throw "too many consumers, 8 max"
  else if (size <? 1) || (count <? 1) then Throw "positive args only"
  else if negb (isPowerOf2 size) then Throw "ringSize must be a power of 2"
  else
    '(sq, es) ← new_ring size eventFactory;
    Ok (mk_supplier size ordered sq es (replicate (Z.to_nat count) new_consumer) false).

Definition errorAlert (s : supplier) : supplier :=
  mk_supplier s.(ringSize) s.(orderedRelease) s.(ringBuffer) s.(entries) s.(consumers) true.

Definition getRingSize (s : supplier) : Z := s.(ringSize).
Definition getLastSequence (s : supplier) : Z := s.(ringBuffer).(m_cursor).
(** The product and the difference are signed 64-bit; the result is unsigned. *)
Definition getFillLevel (s : supplier) : Z :=
  let cursor := s.(ringBuffer).(m_cursor) in
  u64 (Z.quot (100 * (cursor - getMinimumSequence (gating s) cursor)) s.(ringBuffer).(m_bufferSize)).

Definition set_ring (s : supplier) (sq : sequencer) (es : list Item) : supplier :=
  mk_supplier s.(ringSize) s.(orderedRelease) sq es s.(consumers) s.(alerted).
Definition set_consumer (s : supplier) (id : nat) (c : consumer) (es : list Item) : supplier :=
  mk_supplier s.(ringSize) s.(orderedRelease) s.(ringBuffer) es (<[id := c]> s.(consumers)) s.(alerted).

Definition slot (s : supplier) (sequence : Z) : nat := entry_index s.(ringBuffer).(m_bufferSize) sequence.

(** ** The producer *)

(** Prepare the entry of a claimed sequence and store the sequence in it. *)
Definition take_item (prep : Item -> Item) (size : Z) (es : list Item) (seq : Z)
    : result (list Item * nat) :=
  let ix := entry_index size seq in
  item ← checked (es !! ix);
  Ok (<[ix := setProducerSequence (prep item) seq]> es, ix).

(** [for (seq = lo; seq <= hi; seq++)] *)
Fixpoint take_items (prep : Item -> Item) (size : Z) (es : list Item) (lo : Z) (n : nat)
    : result (list Item * list nat) :=
  match n with
  | O => Ok (es, [])
  | S n =>
    '(es, ix) ← take_item prep size es lo;
    '(es, ixs) ← take_items prep size es (lo + 1) n;
    Ok (es, ix :: ixs)
  end.

(** Claim one item ([None]: the ring is full, wait). *)
Definition claim_one (prep : Item -> Item) (s : supplier) : result (supplier * option nat) :=
  '(sq, seq) ← next s.(ringBuffer) (gating s) 1;
  match seq with
  | None => Ok (set_ring s sq s.(entries), None)
  | Some seq =>
    '(es, ix) ← take_item prep sq.(m_bufferSize) s.(entries) seq;
    Ok (set_ring s sq es, Some ix)
  end.

Definition claim_many (prep : Item -> Item) (s : supplier) (n : Z)
    : result (supplier * option (list nat)) :=
  '(sq, hi) ← next s.(ringBuffer) (gating s) n;
  match hi with
  | None => Ok (set_ring s sq s.(entries), None)
  | Some hi =>
    '(es, ixs) ← take_items prep sq.(m_bufferSize) s.(entries) (hi - (n - 1)) (Z.to_nat n);
    Ok (set_ring s sq es, Some ixs)
  end.

Definition get (s : supplier) := claim_one item_reset s.
Definition get_n (s : supplier) (n : Z) := claim_many item_reset s n.
Definition getAsIs (s : supplier) := claim_one (fun i => setFromConsumerGet i false) s.
Definition getAsIs_n (s : supplier) (n : Z) := claim_many (fun i => setFromConsumerGet i false) s n.

(** A null pointer is [None]. *)
Definition publish (s : supplier) (item : option nat) : result supplier :=
  match item with
  | None => Ok s
  | Some ix =>
    i ← checked (s.(entries) !! ix);
    Ok (set_ring s (sq_publish s.(ringBuffer) (getProducerSequence i)) s.(entries))
  end.

(** [publish(n, items)]; the sequencer publishes the sequence of the last one. *)
Definition publish_n (s : supplier) (n : Z) (items : option (list nat)) : result supplier :=
  match items with
  | None => Ok s
  | Some ixs =>
    if n <? 1 then Ok s
    else
      ix0 ← checked (ixs !! 0%nat);
      _ ← checked (s.(entries) !! ix0);
      ix ← checked (ixs !! Z.to_nat (n - 1));
      i ← checked (s.(entries) !! ix);
      Ok (set_ring s (sq_publish s.(ringBuffer) (getProducerSequence i)) s.(entries))
  end.

(** ** The consumers *)

(** What [barrier->waitFor] does: throw, wait, or return the highest sequence
    that is published. *)
Inductive barrier_wait := Alerted | Waiting | Available (sequence : Z).

Definition waitFor (s : supplier) (sequence : Z) : barrier_wait :=
  if s.(alerted) then Alerted
  else if sequence <=? s.(ringBuffer).(m_cursor) then Available s.(ringBuffer).(m_cursor)
  else Waiting.

(** What a consumer gets: nothing yet, a null pointer after an alert, or an item. *)
Inductive consumed := Wait | Null | Got (ix : nat).

Definition consume_at (s : supplier) (id : nat) : result (supplier * consumed) :=
  c ← checked (s.(consumers) !! id);
  let take (c : consumer) :=
    let ix := slot s c.(c_next) in
    i ← checked (s.(entries) !! ix);
    let i := setFromConsumerGet (setConsumerSequence i c.(c_next) (Z.of_nat id)) true in
    Ok (set_consumer s id (mk_consumer c.(c_sequence) c.(c_available) (c.(c_next) + 1) c.(c_last)
                             c.(c_max) c.(c_between)) (<[ix := i]> s.(entries)), Got ix) in
  if c.(c_available) <? c.(c_next) then
    match waitFor s c.(c_next) with
    | Alerted => Ok (s, Null)
    | Waiting => Ok (s, Wait)
    | Available a => take (mk_consumer c.(c_sequence) a c.(c_next) c.(c_last) c.(c_max) c.(c_between))
    end
  else take c.

Definition consumerGet (s : supplier) : result (supplier * consumed) := consume_at s 0.

(** [id] is unsigned; so is [consumerCount - 1]. *)
Definition SupplierN_consumerGet (s : supplier) (id : Z) : result (supplier * consumed) :=
  if u32 (consumerCount s - 1) <? id then
    Throw ("too many consumers, id = " +:+ pretty (u32 (consumerCount s - 1)) +:+ " max")
  else consume_at s (Z.to_nat id).

Definition release_at (s : supplier) (id : nat) (ix : nat) : result supplier :=
  i ← checked (s.(entries) !! ix);
  let seq := if isFromConsumerGet i then getConsumerSequence i (Z.of_nat id)
             else getProducerSequence i in
  let '(i, last) := decrementCounter i (Z.of_nat id) in
  c ← checked (s.(consumers) !! id);
  Ok (set_consumer s id (if last : bool then release_seq s.(orderedRelease) c seq else c)
        (<[ix := i]> s.(entries))).

Definition release (s : supplier) (item : option nat) : result supplier :=
  match item with None => Ok s | Some ix => release_at s 0 ix end.

Definition SupplierN_release (s : supplier) (item : option nat) (id : Z) : result supplier :=
  if u32 (consumerCount s - 1) <? id then
    Throw ("too many consumers, id = " +:+ pretty (u32 (consumerCount s - 1)) +:+ " max")
  else match item with None => Ok s | Some ix => release_at s (Z.to_nat id) ix end.
End Supplier.
Arguments supplier : clear implicits.

(** ** The whole: a producer, consumers and their promises *)

Section System.
Context {util : SequenceUtil} {util_laws : SequenceUtilLaws} {Item : Type}
  {item_ops : SupplyItem Item} {item_laws : SupplyItemLaws Item}.
(** Mode 1 of the class comment: items are only got and released by the producer
    side; otherwise (mode 2) an item is released by a consumer that got it. *)
Context (simple : bool).

(** The supply, and what each consumer has released so far (last one first). *)
Record world := mk_world { w_sup : supplier Item; w_hist : list (list Z) }.

Definition claimed (w : world) : Z := w.(w_sup).(ringBuffer).(m_nextValue).

(** Consumer [id] may release the item of sequence [seq]: it has been claimed, in
    mode 2 the consumer has got it, it has not released it before, and if release
    is ordered it has released what came before. *)
Definition may_release (w : world) (id : nat) (seq : Z) : Prop :=
  exists c h, w.(w_sup).(consumers) !! id = Some c /\ w.(w_hist) !! id = Some h
    /\ 0 <= seq <= claimed w /\ (simple = false -> seq < c.(c_next)) /\ (seq ∉ h)
    /\ (w.(w_sup).(orderedRelease) = true -> forall s, 0 <= s < seq -> s ∈ h).

Definition last_user (w : world) (id : nat) (ix : nat) : bool :=
  match w.(w_sup).(entries) !! ix with
  | Some i => (decrementCounter i (Z.of_nat id)).2
  | None => false
  end.

Inductive wstep : world -> world -> Prop :=
  | w_get w s r : get w.(w_sup) = Ok (s, r) -> wstep w (mk_world s w.(w_hist))
  | w_getAsIs w s r : getAsIs w.(w_sup) = Ok (s, r) -> wstep w (mk_world s w.(w_hist))
  | w_get_n w n s r : get_n w.(w_sup) n = Ok (s, r) -> wstep w (mk_world s w.(w_hist))
  | w_getAsIs_n w n s r : getAsIs_n w.(w_sup) n = Ok (s, r) -> wstep w (mk_world s w.(w_hist))
  | w_publish w seq s :
      0 <= seq -> claimed w - w.(w_sup).(ringBuffer).(m_bufferSize) < seq <= claimed w ->
      publish w.(w_sup) (Some (slot w.(w_sup) seq)) = Ok s -> wstep w (mk_world s w.(w_hist))
  | w_alert w : wstep w (mk_world (errorAlert w.(w_sup)) w.(w_hist))
  | w_consume w id s r : simple = false ->
      SupplierN_consumerGet w.(w_sup) id = Ok (s, r) -> wstep w (mk_world s w.(w_hist))
  | w_release w id seq s h : may_release w id seq -> w.(w_hist) !! id = Some h ->
      SupplierN_release w.(w_sup) (Some (slot w.(w_sup) seq)) (Z.of_nat id) = Ok s ->
      wstep w (mk_world s
        (if last_user w id (slot w.(w_sup) seq) then <[id := seq :: h]> w.(w_hist) else w.(w_hist))).

Inductive reachable : world -> Prop :=
  | r_new size ordered count factory s :
      ring_size size -> new_SupplierN size ordered count factory = Ok s ->
      reachable (mk_world s (replicate (Z.to_nat count) []))
  | r_step w w' : reachable w -> wstep w w' -> reachable w'.

(** ** The invariant *)

(** What holds of one consumer, given what has been claimed. *)
Record consumer_ok (ordered : bool) (top : Z) (c : consumer) (h : list Z) : Prop := mk_consumer_ok {
  co_gate : c.(c_sequence) = gate_of h;
  co_tracks : ordered = false -> tracks h c;
  co_ordered : ordered = true -> max_seq h = gate_of h;
  co_history : history h;
  co_window : windowed h;
  co_top s : s ∈ h -> s <= top;
  co_next : 0 <= c.(c_next) <= top + 1;
  co_avail : c.(c_available) <= top;
  co_got s : simple = false -> s ∈ h -> s < c.(c_next)
}.

(** The entry of a sequence that has not been overtaken. *)
Definition entry_ok (cs : list consumer) (seq : Z) (i : Item) : Prop :=
  getProducerSequence i = seq
  /\ (simple = true -> isFromConsumerGet i = false)
  /\ forall id c, cs !! id = Some c -> seq < c.(c_next) ->
       simple = false -> isFromConsumerGet i = true /\ getConsumerSequence i (Z.of_nat id) = seq.

Record winv (w : world) : Prop := mk_winv {
  wi_size : ring_size w.(w_sup).(ringBuffer).(m_bufferSize);
  wi_entries : length w.(w_sup).(entries) = Z.to_nat w.(w_sup).(ringBuffer).(m_bufferSize);
  wi_seq : sequencer_ok w.(w_sup).(ringBuffer) (gating w.(w_sup));
  wi_low : -1 <= claimed w;
  wi_cursor : w.(w_sup).(ringBuffer).(m_cursor) <= claimed w;
  wi_count : (1 <= length w.(w_sup).(consumers) <= 8)%nat;
  wi_cons : Forall2 (consumer_ok w.(w_sup).(orderedRelease) (claimed w))
              w.(w_sup).(consumers) w.(w_hist);
  wi_items seq : 0 <= seq -> claimed w - w.(w_sup).(ringBuffer).(m_bufferSize) < seq <= claimed w ->
      exists i, w.(w_sup).(entries) !! slot w.(w_sup) seq = Some i
        /\ entry_ok w.(w_sup).(consumers) seq i
}.

Lemma new_ring_ok size (factory : nat -> Item) s es : ring_size size -> new_ring size factory = Ok (s, es) ->
  s = mk_sequencer size (-1) (-1) (-1) /\ length es = Z.to_nat size.
Proof using Type.
  intros Hs. unfold new_ring, SingleProducerSequencer. apply ring_size_pos in Hs.
  rewrite (proj2 (Z.ltb_ge _ _)) by lia. destruct (isPowerOf2 size); [|done]. cbn.
  case_match; [done|]. intros [= <- <-]. split; [done|]. by rewrite length_map, length_seq.
Qed.

Lemma consumer_ok_new ordered : consumer_ok ordered (-1) new_consumer [].
Proof using Type.
  constructor; cbn; [done|intros _; apply tracks_nil|done|split; [apply NoDup_nil_2|apply Forall_nil_2]|done| |lia|lia|];
    intros; exfalso; by eapply elem_of_nil.
Qed.

Lemma winv_new size ordered count (factory : nat -> Item) s :
  ring_size size -> new_SupplierN size ordered count factory = Ok s ->
  winv (mk_world s (replicate (Z.to_nat count) [])).
Proof using Type*.
  intros Hs. unfold new_SupplierN. destruct (Z.ltb_spec 8 count); [done|].
  destruct (Z.ltb_spec size 1); [done|]. destruct (Z.ltb_spec count 1); [done|]. cbn [orb].
  destruct (isPowerOf2 size); [|done]. cbn [negb].
  destruct (new_ring size factory) as [[sq es]|e|] eqn:Hn; [|done..]. cbn. intros [= <-].
  apply new_ring_ok in Hn as [-> Hl]; [|done]. apply ring_size_pos in Hs as Hp.
  constructor; cbn [w_sup w_hist claimed ringBuffer entries consumers m_bufferSize m_nextValue m_cursor
    orderedRelease].
  - done.
  - done.
  - constructor; cbn; try lia. intros g [c [-> Hc]]%list_elem_of_fmap.
    apply elem_of_replicate in Hc as [-> _]. cbn. lia.
  - unfold claimed. cbn. lia.
  - unfold claimed. cbn. lia.
  - rewrite length_replicate. lia.
  - apply Forall2_replicate, consumer_ok_new.
  - unfold claimed. cbn. lia.
Qed.
(** ** Claims keep the invariant *)

Lemma take_items_spec prep size : ring_size size -> forall n lo (es : list Item),
  length es = Z.to_nat size -> Z.of_nat n <= size ->
  exists es', take_items prep size es lo n
      = Ok (es', map (fun k => entry_index size (lo + Z.of_nat k)) (seq 0 n))
    /\ length es' = length es
    /\ (forall q, lo <= q < lo + Z.of_nat n ->
          exists i, es' !! entry_index size q = Some (setProducerSequence (prep i) q))
    /\ (forall q, lo + Z.of_nat n - size <= q < lo -> es' !! entry_index size q = es !! entry_index size q).
Proof using Type.
  intros Hs. induction n as [|n IH]; intros lo es Hl Hn.
  { exists es. repeat split; try done. lia. }
  cbn [take_items]. unfold take_item. apply ring_size_pos in Hs as Hp.
  destruct (lookup_lt_is_Some_2 es (entry_index size lo)) as [i Hi];
    [rewrite Hl; by apply entry_index_lt|]. rewrite Hi. cbn [checked mbind result_bind].
  destruct (IH (lo + 1) (<[entry_index size lo := setProducerSequence (prep i) lo]> es))
    as (es' & He & Hl' & Hnew & Hold); [by rewrite length_insert|lia|].
  rewrite He. cbn [mbind result_bind]. exists es'. rewrite length_insert in Hl'. split; [|split; [done|split]].
  - do 2 f_equal. cbn [seq map]. rewrite Z.add_0_r. f_equal. rewrite <- seq_shift, map_map.
    apply map_ext. intros k. f_equal. lia.
  - intros q Hq. destruct (decide (q = lo)) as [->|Hne]; [|apply Hnew; lia].
    exists i. rewrite Hold by lia. rewrite list_lookup_insert_eq; [done|]. apply lookup_lt_Some in Hi. done.
  - intros q Hq. rewrite Hold by lia. rewrite list_lookup_insert_ne; [done|].
    intros Heq. apply entry_index_inj in Heq; [lia|done|lia].
Qed.

Lemma consumer_ok_mono ordered top top' c h : top <= top' ->
  consumer_ok ordered top c h -> consumer_ok ordered top' c h.
Proof using Type. intros Hle []. constructor; try done; try lia. intros s Hs. specialize (co_top0 s Hs). lia. Qed.

Lemma entry_ok_fresh cs top seq i (prep : Item -> Item) : (forall i, isFromConsumerGet (prep i) = false) ->
  (forall id c, cs !! id = Some c -> c.(c_next) <= top + 1) -> top < seq ->
  entry_ok cs seq (setProducerSequence (prep i) seq).
Proof using Type*.
  intros Hprep Hcs Hseq. split; [by apply producer_set|]. split; [by rewrite flag_producer, Hprep|].
  intros id c Hc Hlt. specialize (Hcs id c Hc). lia.
Qed.

Lemma consumers_next w id c : winv w -> w.(w_sup).(consumers) !! id = Some c ->
  exists h, w.(w_hist) !! id = Some h /\ consumer_ok w.(w_sup).(orderedRelease) (claimed w) c h.
Proof using Type. intros [] Hc. by eapply Forall2_lookup_l. Qed.

(** The ring after [n] sequences were claimed. *)
Lemma winv_claim w (prep : Item -> Item) n sq : winv w -> (forall i, isFromConsumerGet (prep i) = false) ->
  1 <= n -> sq.(m_bufferSize) = w.(w_sup).(ringBuffer).(m_bufferSize) -> n <= sq.(m_bufferSize) ->
  sequencer_ok sq (gating w.(w_sup)) -> sq.(m_nextValue) = claimed w + n ->
  (sq.(m_cursor) = w.(w_sup).(ringBuffer).(m_cursor) \/ sq.(m_cursor) = claimed w) ->
  exists es, take_items prep sq.(m_bufferSize) w.(w_sup).(entries) (claimed w + 1) (Z.to_nat n)
    = Ok (es, map (fun k => entry_index sq.(m_bufferSize) (claimed w + 1 + Z.of_nat k)) (seq 0 (Z.to_nat n)))
  /\ winv (mk_world (set_ring w.(w_sup) sq es) w.(w_hist)).
Proof using Type*.
  intros Hw Hprep Hn Hsz Hns Hok Hnext Hcur. pose proof Hw as [].
  rewrite <- Hsz in *. destruct (take_items_spec prep sq.(m_bufferSize) wi_size0 (Z.to_nat n) (claimed w + 1)
    w.(w_sup).(entries)) as (es & He & Hl & Hnew & Hold); [done|lia|].
  exists es. split; [done|]. rewrite Z2Nat.id in Hnew, Hold by lia.
  constructor; unfold claimed, slot, gating in *;
    cbn [w_sup w_hist set_ring ringBuffer entries consumers orderedRelease]; try done; try lia.
  - eapply Forall2_impl; [done|]. intros c h. apply consumer_ok_mono. lia.
  - intros q Hq0 Hq. destruct (decide (q <= w.(w_sup).(ringBuffer).(m_nextValue))) as [Hle|Hgt].
    + rewrite Hold by lia. rewrite Hsz in *. apply wi_items0; lia.
    + destruct (Hnew q) as [i Hi]; [lia|]. rewrite Hi. eexists. split; [done|].
      apply (entry_ok_fresh _ (claimed w)); [done| |unfold claimed; lia].
      intros id c Hc. destruct (consumers_next w id c Hw Hc) as (h & _ & []). lia.
Qed.

Lemma winv_wait w : winv w ->
  winv (mk_world (set_ring w.(w_sup)
    (mk_sequencer w.(w_sup).(ringBuffer).(m_bufferSize) (claimed w)
       w.(w_sup).(ringBuffer).(m_cachedValue) (claimed w)) w.(w_sup).(entries)) w.(w_hist)).
Proof using Type.
  intros []. constructor; unfold claimed, slot, gating in *;
    cbn [w_sup w_hist set_ring ringBuffer entries consumers orderedRelease m_bufferSize m_nextValue m_cursor];
    try done; try lia. destruct wi_seq0. by constructor.
Qed.

Lemma claim_many_spec w (prep : Item -> Item) n s r : winv w -> (forall i, isFromConsumerGet (prep i) = false) ->
  claim_many prep w.(w_sup) n = Ok (s, r) ->
  winv (mk_world s w.(w_hist))
  /\ match r with
     | None => gate w.(w_sup).(ringBuffer) (gating w.(w_sup))
                 < claimed w + n - w.(w_sup).(ringBuffer).(m_bufferSize)
               /\ s.(ringBuffer).(m_cursor) = claimed w
     | Some ixs => claimed w + n - w.(w_sup).(ringBuffer).(m_bufferSize)
                     <= gate w.(w_sup).(ringBuffer) (gating w.(w_sup))
                   /\ ixs = map (fun k => slot w.(w_sup) (claimed w + 1 + Z.of_nat k)) (seq 0 (Z.to_nat n))
     end.
Proof using Type*.
  intros Hw Hprep. unfold claim_many. pose proof (wi_seq w Hw) as Hok.
  destruct (decide (1 <= n <= w.(w_sup).(ringBuffer).(m_bufferSize))) as [Hn|Hn].
  - destruct (next_spec _ _ n Hok Hn) as [(Hroom & sq & -> & Hok' & Hsz & Hnext & Hcur)|(Hfull & ->)];
      cbn [mbind result_bind].
    + destruct (winv_claim w prep n sq Hw Hprep) as (es & He & Hw'); try done; [lia|rewrite Hsz; lia|].
      unfold claimed in *. replace (w.(w_sup).(ringBuffer).(m_nextValue) + n - (n - 1))
        with (w.(w_sup).(ringBuffer).(m_nextValue) + 1) by lia.
      rewrite He. cbn [mbind result_bind]. intros [= <- <-]. split; [done|]. split; [done|].
      unfold slot. by rewrite Hsz.
    + intros [= <- <-]. split; [by apply winv_wait|]. done.
  - unfold next. destruct (Z.ltb_spec n 1); [done|]. cbn [orb].
    by rewrite (proj2 (Z.ltb_lt _ n)) by lia.
Qed.
Lemma claim_one_many (prep : Item -> Item) s s' r : claim_one prep s = Ok (s', r) ->
  claim_many prep s 1 = Ok (s', (fun ix => [ix]) <$> r).
Proof using Type.
  unfold claim_one, claim_many. destruct (next _ _ 1) as [[sq [hi|]]|e|]; [|by intros [= <- <-]|done..].
  cbn [mbind result_bind Z.to_nat Pos.to_nat Pos.iter_op take_items].
  replace (hi - (1 - 1)) with hi by lia. change (Z.to_nat 1) with 1%nat. cbn [take_items].
  destruct (take_item _ _ _ _) as [[es ix]|e|]; [|done..]. cbn. by intros [= <- <-].
Qed.

Lemma claim_one_spec w (prep : Item -> Item) s r : winv w ->
  (forall i, isFromConsumerGet (prep i) = false) -> claim_one prep w.(w_sup) = Ok (s, r) ->
  winv (mk_world s w.(w_hist))
  /\ match r with
     | None => gate w.(w_sup).(ringBuffer) (gating w.(w_sup))
                 < claimed w + 1 - w.(w_sup).(ringBuffer).(m_bufferSize)
               /\ s.(ringBuffer).(m_cursor) = claimed w
     | Some ix => claimed w + 1 - w.(w_sup).(ringBuffer).(m_bufferSize)
                     <= gate w.(w_sup).(ringBuffer) (gating w.(w_sup))
                   /\ ix = slot w.(w_sup) (claimed w + 1)
     end.
Proof using Type*.
  intros Hw Hprep Hc. apply claim_one_many in Hc.
  destruct (claim_many_spec w prep 1 s _ Hw Hprep Hc) as [Hw' Hr]. split; [done|].
  destruct r as [ix|]; [|done]. cbn in Hr. destruct Hr as [Hroom [= Hix]]. split; [done|].
  by rewrite Hix, Z.add_0_r.
Qed.

(** ** The other steps keep it *)

Lemma winv_publish w seq s : winv w ->
  0 <= seq -> claimed w - w.(w_sup).(ringBuffer).(m_bufferSize) < seq <= claimed w ->
  publish w.(w_sup) (Some (slot w.(w_sup) seq)) = Ok s ->
  winv (mk_world s w.(w_hist)) /\ s.(ringBuffer).(m_cursor) = seq.
Proof using Type.
  intros Hw H0 Hseq. pose proof Hw as []. destruct (wi_items0 seq H0 Hseq) as (i & Hi & Hp & _).
  cbn [publish]. rewrite Hi. cbn [checked mbind result_bind]. rewrite Hp. intros [= <-]. split; [|done].
  constructor; unfold claimed, slot, gating in *;
    cbn [w_sup w_hist set_ring ringBuffer entries consumers orderedRelease sq_publish m_bufferSize
         m_nextValue m_cursor]; try done; try lia.
  destruct wi_seq0. by constructor.
Qed.

(** A consumer and the entry at one place change, the gates as before or higher. *)
Lemma winv_set w id c c' h h' seq (i i' : Item) :
  winv w -> w.(w_sup).(consumers) !! id = Some c -> w.(w_hist) !! id = Some h ->
  consumer_ok w.(w_sup).(orderedRelease) (claimed w) c' h' ->
  c.(c_sequence) <= c'.(c_sequence) <= claimed w ->
  0 <= seq -> claimed w - w.(w_sup).(ringBuffer).(m_bufferSize) < seq <= claimed w ->
  w.(w_sup).(entries) !! slot w.(w_sup) seq = Some i ->
  entry_ok (<[id := c']> w.(w_sup).(consumers)) seq i' ->
  (c'.(c_next) = c.(c_next) \/ (c.(c_next) = seq /\ c'.(c_next) = seq + 1)) ->
  winv (mk_world (set_consumer w.(w_sup) id c' (<[slot w.(w_sup) seq := i']> w.(w_sup).(entries)))
          (<[id := h']> w.(w_hist))).
Proof using Type.
  intros Hw Hc Hh Hok Hseq H0 Hlive Hi Hi' Hnext. pose proof Hw as [].
  apply ring_size_pos in wi_size0 as Hp.
  constructor; unfold claimed, slot, gating in *;
    cbn [w_sup w_hist set_consumer ringBuffer entries consumers orderedRelease]; try done.
  - by rewrite length_insert.
  - destruct wi_seq0 as [? ? ? Hg]. constructor; [done..|]. rewrite list_fmap_insert.
    intros g [k Hk]%list_elem_of_lookup_1. apply list_lookup_insert_Some in Hk as [(<- & <- & _)|[Hne Hk]].
    + assert (Hin : c_sequence c ∈ map c_sequence w.(w_sup).(consumers))
        by (apply list_elem_of_lookup_2 with id; by rewrite list_lookup_fmap, Hc).
      specialize (Hg _ Hin). lia.
    + apply Hg. by eapply list_elem_of_lookup_2.
  - by rewrite length_insert.
  - by apply Forall2_insert.
  - intros q Hq0 Hq. destruct (decide (q = seq)) as [->|Hne].
    + exists i'. rewrite list_lookup_insert_eq by (by eapply lookup_lt_Some). done.
    + destruct (wi_items0 q Hq0 Hq) as (j & Hj & Hp1 & Hp2 & Hp3). exists j.
      rewrite list_lookup_insert_ne
        by (intros Heq; apply entry_index_inj in Heq; [congruence|done|lia]).
      split; [done|]. split; [done|]. split; [done|].
      intros id' k Hk Hlt Hsim. apply list_lookup_insert_Some in Hk as [(<- & <- & _)|[Hne' Hk]].
      * apply (Hp3 id c Hc); [lia|done].
      * by apply (Hp3 id' k Hk).
Qed.
Lemma live_unreleased w id c h seq : winv w ->
  w.(w_sup).(consumers) !! id = Some c -> w.(w_hist) !! id = Some h ->
  0 <= seq -> (seq ∉ h) -> claimed w - w.(w_sup).(ringBuffer).(m_bufferSize) < seq.
Proof using Type.
  intros Hw Hc Hh H0 Hseq. destruct (consumers_next w id c Hw Hc) as (h2 & Hh2 & Hok).
  rewrite Hh in Hh2. injection Hh2 as <-. destruct (wi_seq w Hw) as [_ _ Hwrap Hg].
  assert (Hgate : c.(c_sequence) ∈ gating w.(w_sup))
    by (apply list_elem_of_lookup_2 with id; unfold gating; by rewrite list_lookup_fmap, Hc).
  specialize (Hg _ Hgate). rewrite (co_gate _ _ _ _ Hok) in Hg. unfold claimed.
  destruct (decide (seq <= gate_of h)) as [Hle|]; [|lia].
  exfalso. apply Hseq, gate_of_sound; [apply Hok|lia].
Qed.

Lemma id_in_range w id : winv w -> (u32 (consumerCount w.(w_sup) - 1) <? id) = false ->
  (Z.to_nat id < length w.(w_sup).(consumers))%nat /\ 0 <= Z.of_nat (Z.to_nat id) < 8.
Proof using Type.
  intros [] Hid%Z.ltb_ge. unfold consumerCount in Hid. rewrite u32_small in Hid by lia. lia.
Qed.

Lemma gate_claimed w id c h : winv w ->
  w.(w_sup).(consumers) !! id = Some c -> w.(w_hist) !! id = Some h -> gate_of h <= claimed w.
Proof using Type.
  intros Hw Hc Hh. destruct (consumers_next w id c Hw Hc) as (h2 & Hh2 & Hok).
  rewrite Hh in Hh2. injection Hh2 as <-. destruct h as [|x h]; [apply (wi_low w Hw)|].
  pose proof (gate_of_le (x :: h)).
  assert (Hm : max_seq (x :: h) ∈ x :: h) by (apply max_seq_elem; [apply Hok|done]).
  apply (co_top _ _ _ _ Hok) in Hm. lia.
Qed.

(** The entry of the next sequence of a consumer, and the state once it is taken. *)
Definition taken (s : supplier Item) (id : nat) (c : consumer) (a : Z) (i : Item) : supplier Item :=
  set_consumer s id (mk_consumer c.(c_sequence) a (c.(c_next) + 1) c.(c_last) c.(c_max) c.(c_between))
    (<[slot s c.(c_next) := setFromConsumerGet (setConsumerSequence i c.(c_next) (Z.of_nat id)) true]>
       s.(entries)).

Lemma taken_spec w id c h a : winv w -> simple = false -> (id < 8)%nat ->
  w.(w_sup).(consumers) !! id = Some c -> w.(w_hist) !! id = Some h -> c.(c_next) <= a <= claimed w ->
  exists i, w.(w_sup).(entries) !! slot w.(w_sup) c.(c_next) = Some i
    /\ getProducerSequence i = c.(c_next)
    /\ winv (mk_world (taken w.(w_sup) id c a i) w.(w_hist)).
Proof using Type*.
  intros Hw Hsim Hid Hc Hh Ha. destruct (consumers_next w id c Hw Hc) as (h2 & Hh2 & Hok).
  rewrite Hh in Hh2. injection Hh2 as <-. pose proof Hok as [].
  assert (Hk : c.(c_next) ∉ h) by (intros Hin; specialize (co_got0 _ Hsim Hin); lia).
  assert (Hlive := live_unreleased w id c h c.(c_next) Hw Hc Hh (proj1 co_next0) Hk).
  destruct (wi_items w Hw c.(c_next) ltac:(lia) ltac:(lia)) as (i & Hi & Hp & _ & Hothers).
  exists i. split; [done|]. split; [done|]. pose proof (gate_claimed w id c h Hw Hc Hh).
  rewrite <- (list_insert_id w.(w_hist) id h Hh).
  eapply winv_set; try done; cbn [c_next c_sequence c_available]; try lia.
  - constructor; cbn [c_sequence c_next c_available]; try done; try lia.
    + intros Ho. destruct (co_tracks0 Ho). by constructor.
    + intros q Hs Hq. specialize (co_got0 q Hs Hq). lia.
  - split; [by rewrite producer_flag, producer_consumer|]. split; [congruence|].
    intros id' k Hk' Hlt' _. rewrite flag_set. split; [done|]. rewrite consumer_flag.
    destruct (decide (id' = id)) as [->|Hne]; [apply consumer_set; lia|].
    rewrite consumer_other by lia. rewrite list_lookup_insert_ne in Hk' by done.
    by apply (Hothers id' k Hk' Hlt').
Qed.

(** A consumer gets the item after the last one it got: the place in the ring, the
    counts, and what the item says of itself. *)
Lemma consume_spec w id s r : winv w -> simple = false ->
  SupplierN_consumerGet w.(w_sup) id = Ok (s, r) ->
  winv (mk_world s w.(w_hist))
  /\ match r with
     | Got ix => exists c a i, w.(w_sup).(consumers) !! Z.to_nat id = Some c
         /\ w.(w_sup).(entries) !! ix = Some i
         /\ s = taken w.(w_sup) (Z.to_nat id) c a i
         /\ ix = slot w.(w_sup) c.(c_next) /\ 0 <= c.(c_next) <= claimed w
         /\ getProducerSequence i = c.(c_next)
     | _ => s = w.(w_sup)
     end.
Proof using Type*.
  intros Hw Hsim. unfold SupplierN_consumerGet. destruct (_ <? id) eqn:Hid; [done|].
  destruct (id_in_range w id Hw Hid) as [Hlt Hid8].
  unfold consume_at. destruct (lookup_lt_is_Some_2 _ _ Hlt) as [c Hc]. rewrite Hc.
  cbn [checked mbind result_bind].
  destruct (consumers_next w _ c Hw Hc) as (h & Hh & Hok).
  assert (Hgot : forall a, c.(c_next) <= a <= claimed w -> forall s r,
    (i ← checked (w.(w_sup).(entries) !! slot w.(w_sup) c.(c_next));
     Ok (taken w.(w_sup) (Z.to_nat id) c a i, Got (slot w.(w_sup) c.(c_next)))) = Ok (s, r) ->
    winv (mk_world s w.(w_hist)) /\ exists i, r = Got (slot w.(w_sup) c.(c_next))
      /\ w.(w_sup).(entries) !! slot w.(w_sup) c.(c_next) = Some i
      /\ s = taken w.(w_sup) (Z.to_nat id) c a i /\ getProducerSequence i = c.(c_next)).
  { intros a Ha s' r'. destruct (taken_spec w (Z.to_nat id) c h a) as (i & Hi & Hp & Hw'); try done; [lia|].
    rewrite Hi. cbn [checked mbind result_bind]. intros [= <- <-]. split; [done|]. by exists i. }
  assert (H0 : 0 <= c.(c_next)) by apply Hok.
  destruct (Z.ltb_spec c.(c_available) c.(c_next)) as [Hav|Hav].
  - unfold waitFor. destruct (alerted _); [intros [= <- <-]; by destruct w|].
    destruct (Z.leb_spec c.(c_next) w.(w_sup).(ringBuffer).(m_cursor)) as [Hcur|];
      [|intros [= <- <-]; by destruct w].
    pose proof (wi_cursor w Hw) as Hcl. intros Hs.
    destruct (Hgot w.(w_sup).(ringBuffer).(m_cursor) (conj Hcur Hcl) s r Hs) as (Hw' & i & -> & Hi & -> & Hp).
    split; [done|]. eexists c, _, i. repeat split; done || lia.
  - pose proof (co_avail _ _ _ _ Hok) as Hcl. destruct c as [sq av nx la mx be]. cbn in *. intros Hs.
    destruct (Hgot av (conj Hav Hcl) s r Hs) as (Hw' & i & -> & Hi & -> & Hp).
    split; [done|]. eexists _, av, i. repeat split; done || (cbn; lia).
Qed.
(** What a consumer keeps track of after a release. *)
Lemma consumer_ok_release ordered top c h seq : consumer_ok ordered top c h ->
  seq ∉ h -> 0 <= seq <= top -> (simple = false -> seq < c.(c_next)) ->
  (ordered = true -> forall s, 0 <= s < seq -> s ∈ h) -> seq - gate_of h <= 2147483648 ->
  consumer_ok ordered top (release_seq ordered c seq) (seq :: h)
  /\ c.(c_sequence) <= (release_seq ordered c seq).(c_sequence).
Proof using Type.
  intros [] Hnew Hseq Hgot Hord Hwin. destruct (release_seq_keeps ordered c seq) as [Hn Ha].
  assert (Hh : history (seq :: h)).
  { split; [apply NoDup_cons; split; [done|apply co_history0]|].
    apply Forall_cons; split; [lia|apply co_history0]. }
  assert (Hgate : (release_seq ordered c seq).(c_sequence) = gate_of (seq :: h)
    /\ (ordered = false -> tracks (seq :: h) (release_seq ordered c seq))
    /\ (ordered = true -> max_seq (seq :: h) = gate_of (seq :: h))).
  { destruct ordered.
    - destruct (gate_of_in_order h seq Hh (co_ordered0 eq_refl) (Hord eq_refl)) as [-> ->]. done.
    - assert (Ht : tracks (seq :: h) (release_seq false c seq)) by (by apply tracks_release; [apply co_tracks0|..]).
      split; [apply Ht|done]. }
  destruct Hgate as (Hg & Ht & Hm). split.
  - constructor; rewrite ?Hn, ?Ha; [done|done|done|done|done| |done|done|].
    + intros s [->|Hs]%elem_of_cons; [lia|by apply co_top0].
    + intros s Hs [->|Hin]%elem_of_cons; [by apply Hgot|by apply co_got0].
  - rewrite Hg, co_gate0. apply gate_of_mono.
Qed.

(** The sequence released is the one the item was got with. *)
Lemma release_spec w id seq s h : winv w -> may_release w id seq -> w.(w_hist) !! id = Some h ->
  SupplierN_release w.(w_sup) (Some (slot w.(w_sup) seq)) (Z.of_nat id) = Ok s ->
  winv (mk_world s (if last_user w id (slot w.(w_sup) seq) then <[id := seq :: h]> w.(w_hist)
                    else w.(w_hist)))
  /\ exists c, w.(w_sup).(consumers) !! id = Some c
       /\ s.(consumers) !! id
          = Some (if last_user w id (slot w.(w_sup) seq)
                  then release_seq w.(w_sup).(orderedRelease) c seq else c).
Proof using Type*.
  intros Hw (c & h2 & Hc & Hh2 & Hseq & Hgot & Hnew & Hord) Hh. rewrite Hh in Hh2. injection Hh2 as <-.
  unfold SupplierN_release. destruct (_ <? _); [done|]. rewrite Nat2Z.id. unfold release_at, last_user.
  destruct (consumers_next w id c Hw Hc) as (h2 & Hh2 & Hok). rewrite Hh in Hh2. injection Hh2 as <-.
  pose proof (live_unreleased w id c h seq Hw Hc Hh (proj1 Hseq) Hnew) as Hlive.
  destruct (wi_items w Hw seq ltac:(lia) ltac:(lia)) as (i & Hi & Hp & Hflag & Hcons).
  rewrite Hi. cbn [checked mbind result_bind].
  assert (Hread : (if isFromConsumerGet i then getConsumerSequence i (Z.of_nat id)
                   else getProducerSequence i) = seq).
  { destruct simple eqn:Hsim; [by rewrite (Hflag eq_refl)|].
    destruct (Hcons id c Hc (Hgot eq_refl) eq_refl) as [-> ->]. done. }
  rewrite Hread. destruct (decrementCounter i (Z.of_nat id)) as [i' last] eqn:Hdec.
  rewrite Hc. cbn [checked mbind result_bind snd]. intros [= <-].
  assert (Hid : (id < length w.(w_sup).(consumers))%nat) by (by eapply lookup_lt_Some).
  split; [|exists c; split; [done|]; cbn; rewrite list_lookup_insert_eq; by destruct last].
  assert (Hi' : i' = (decrementCounter i (Z.of_nat id)).1) by (by rewrite Hdec).
  assert (Hent : forall c', c'.(c_next) = c.(c_next) ->
    entry_ok (<[id := c']> w.(w_sup).(consumers)) seq i').
  { intros c' Hn. rewrite Hi'. split; [by rewrite producer_decrement|].
    split; [by rewrite flag_decrement|]. intros id' k Hk Hlt Hs.
    rewrite flag_decrement, consumer_decrement.
    apply list_lookup_insert_Some in Hk as [(<- & <- & _)|[_ Hk]].
    - apply (Hcons id c Hc); [lia|done].
    - by apply (Hcons id' k Hk). }
  destruct last.
  - assert (Hwin : seq - gate_of h <= 2147483648).
    { destruct (wi_seq w Hw) as [_ _ Hwrap Hg]. pose proof (ring_size_pos _ (wi_size w Hw)).
      assert (Hgate : c.(c_sequence) ∈ gating w.(w_sup))
        by (apply list_elem_of_lookup_2 with id; unfold gating; by rewrite list_lookup_fmap, Hc).
      specialize (Hg _ Hgate). rewrite (co_gate _ _ _ _ Hok) in Hg. unfold claimed in *. lia. }
    destruct (consumer_ok_release _ _ c h seq Hok Hnew Hseq Hgot Hord Hwin) as [Hok' Hmono].
    eapply winv_set; try done; [|lia|lia| |].
    + split; [done|]. rewrite (co_gate _ _ _ _ Hok'). pose proof (gate_of_le (seq :: h)).
      pose proof (max_seq_elem (seq :: h) (proj2 (co_history _ _ _ _ Hok')) ltac:(done)) as Hm.
      apply (co_top _ _ _ _ Hok') in Hm. lia.
    + apply Hent, release_seq_keeps.
    + left. apply release_seq_keeps.
  - rewrite <- (list_insert_id w.(w_hist) id h Hh).
    eapply winv_set; try done; [|lia|lia|by apply Hent|by left].
    rewrite (co_gate _ _ _ _ Hok). pose proof (gate_claimed w id c h Hw Hc Hh). lia.
Qed.

Lemma asIs_flag (i : Item) : isFromConsumerGet (setFromConsumerGet i false) = false.
Proof using Type*. apply flag_set. Qed.

Lemma wstep_inv w w' : winv w -> wstep w w' -> winv w'.
Proof using Type*.
  intros Hw Hstep. destruct Hstep as [w s r Hg|w s r Hg|w n s r Hg|w n s r Hg|w seq s H0 Hq Hp|w|w id s r Hs Hg|w id seq s h Hm Hh Hr].
  - by eapply claim_one_spec; [|apply reset_flag|].
  - by eapply claim_one_spec; [|apply asIs_flag|].
  - by eapply claim_many_spec; [|apply reset_flag|].
  - by eapply claim_many_spec; [|apply asIs_flag|].
  - by eapply winv_publish.
  - destruct Hw. by constructor.
  - by eapply consume_spec.
  - by eapply release_spec.
Qed.

Lemma reachable_inv w : reachable w -> winv w.
Proof using Type*.
  induction 1 as [size ordered count factory s Hs Hn|w w' _ IH Hstep];
    [by eapply winv_new|by eapply wstep_inv].
Qed.
(** ** Properties *)

Lemma consumer_of w id h : winv w -> w.(w_hist) !! id = Some h ->
  exists c, w.(w_sup).(consumers) !! id = Some c /\ c.(c_sequence) ∈ gating w.(w_sup)
    /\ consumer_ok w.(w_sup).(orderedRelease) (claimed w) c h.
Proof using Type.
  intros [] Hh. destruct (Forall2_lookup_r _ _ _ _ _ wi_cons0 Hh) as (c & Hc & Hok).
  exists c. split; [done|]. split; [|done]. apply list_elem_of_lookup_2 with id.
  unfold gating. by rewrite list_lookup_fmap, Hc.
Qed.

(** C6: an item is handed out only when nobody uses it any more: the place that
    [get] returns was released by every consumer for every earlier sequence that
    used it, whatever order the items came back in. *)
Theorem get_exclusive w s ix : reachable w -> get w.(w_sup) = Ok (s, Some ix) ->
  ix = slot w.(w_sup) (claimed w + 1)
  /\ forall id h q, w.(w_hist) !! id = Some h -> 0 <= q <= claimed w -> slot w.(w_sup) q = ix -> q ∈ h.
Proof using Type*.
  intros Hr%reachable_inv Hg. destruct (claim_one_spec w item_reset s (Some ix) Hr reset_flag Hg)
    as (_ & Hroom & ->).
  split; [done|]. intros id h q Hh Hq Hslot.
  destruct (consumer_of w id h Hr Hh) as (c & _ & Hin & Hok). apply gate_of_sound; [apply Hok|].
  rewrite <- (co_gate _ _ _ _ Hok). pose proof (fold_min_le _ _ w.(w_sup).(ringBuffer).(m_nextValue) Hin).
  unfold gate, slot in *. destruct (decide (claimed w + 1 - w.(w_sup).(ringBuffer).(m_bufferSize) < q)).
  - apply entry_index_inj in Hslot; [lia|apply Hr|lia].
  - lia.
Qed.

(** [get] never fails, and it waits exactly as long as some consumer has not
    released everything up to the sequence that used the place last. *)
Theorem get_waits w : reachable w ->
  exists s r, get w.(w_sup) = Ok (s, r)
    /\ (r = None <-> exists id h, w.(w_hist) !! id = Some h
          /\ gate_of h < claimed w + 1 - w.(w_sup).(ringBuffer).(m_bufferSize)).
Proof using Type*.
  intros Hr%reachable_inv. pose proof (wi_seq w Hr) as Hok. pose proof (so_size _ _ Hok) as Hsz.
  assert (Htot : exists s r, get w.(w_sup) = Ok (s, r)).
  { unfold get, claim_one.
    destruct (next_spec _ _ 1 Hok ltac:(lia)) as [(_ & sq & -> & Hok' & Hs & Hn & Hc)|(_ & ->)];
      cbn [mbind result_bind]; [|by eexists _, _].
    destruct (winv_claim w item_reset 1 sq Hr reset_flag) as (es & He & _); try done; [lia|].
    change (Z.to_nat 1) with 1%nat in He. cbn [take_items] in He. unfold claimed in He.
    destruct (take_item _ _ _ _) as [[es' ix]|e|]; [|done..]. cbn. by eexists _, _. }
  destruct Htot as (s & r & Hg). exists s, r. split; [done|].
  destruct (claim_one_spec w item_reset s r Hr reset_flag Hg) as [_ Hres]. unfold gate in Hres. split.
  - intros ->. destruct Hres as [Hfull _].
    apply fold_min_lt in Hfull as Hex; [|unfold claimed; lia].
    destruct Hex as (g & Hin & Hlt). apply list_elem_of_lookup_1 in Hin as [id Hid].
    unfold gating in Hid. rewrite list_lookup_fmap in Hid.
    destruct (w.(w_sup).(consumers) !! id) as [c|] eqn:Hc; [|done]. injection Hid as <-.
    destruct (consumers_next w id c Hr Hc) as (h & Hh & Hco). exists id, h. split; [done|].
    by rewrite <- (co_gate _ _ _ _ Hco).
  - intros (id & h & Hh & Hlt). destruct r as [ix|]; [|done]. destruct Hres as [Hroom _].
    destruct (consumer_of w id h Hr Hh) as (c & _ & Hin & Hco). rewrite <- (co_gate _ _ _ _ Hco) in Hlt.
    pose proof (fold_min_le _ _ w.(w_sup).(ringBuffer).(m_nextValue) Hin). lia.
Qed.

(** C19: each consumer gets the items in the order in which the producer claimed
    them, every one of them and each once: what it gets is the item of the
    sequence after the last one it got, still untouched by later claims. *)
Theorem consumerGet_fifo w id s ix : reachable w -> simple = false ->
  SupplierN_consumerGet w.(w_sup) id = Ok (s, Got ix) ->
  exists c c' i, w.(w_sup).(consumers) !! Z.to_nat id = Some c
    /\ s.(consumers) !! Z.to_nat id = Some c' /\ c'.(c_next) = c.(c_next) + 1
    /\ ix = slot w.(w_sup) c.(c_next)
    /\ claimed w - w.(w_sup).(ringBuffer).(m_bufferSize) < c.(c_next) <= claimed w
    /\ w.(w_sup).(entries) !! ix = Some i /\ getProducerSequence i = c.(c_next).
Proof using Type*.
  intros Hr%reachable_inv Hsim Hg. destruct (consume_spec w id s _ Hr Hsim Hg)
    as (Hw' & c & a & i & Hc & Hi & -> & -> & Hn & Hp).
  destruct (consumers_next w _ c Hr Hc) as (h & Hh & Hok).
  assert (Hnew : c.(c_next) ∉ h).
  { intros Hin. pose proof (co_got _ _ _ _ Hok _ Hsim Hin). lia. }
  pose proof (live_unreleased w _ c h _ Hr Hc Hh (proj1 Hn) Hnew).
  eexists c, _, i. split; [done|]. split.
  { cbn. rewrite list_lookup_insert_eq; [done|]. by eapply lookup_lt_Some. }
  repeat split; done || lia.
Qed.

(** In every reachable state the gate of a consumer is the one of what it has
    released, so that the bookkeeping of [release] is right for releases by many
    users in any order, interleaved with everything else. *)
Theorem supply_gates w id c h : reachable w ->
  w.(w_sup).(consumers) !! id = Some c -> w.(w_hist) !! id = Some h ->
  c.(c_sequence) = gate_of h /\ (forall q, 0 <= q <= c.(c_sequence) -> q ∈ h)
  /\ claimed w - w.(w_sup).(ringBuffer).(m_bufferSize) <= c.(c_sequence) <= claimed w.
Proof using Type*.
  intros Hr%reachable_inv Hc Hh. destruct (consumer_of w id h Hr Hh) as (c2 & Hc2 & Hin & Hok).
  rewrite Hc in Hc2. injection Hc2 as <-. split; [apply Hok|]. split.
  - intros q Hq. rewrite (co_gate _ _ _ _ Hok) in Hq. by apply gate_of_sound; [apply Hok|].
  - destruct (wi_seq w Hr) as [_ _ Hwrap Hg]. specialize (Hg _ Hin). unfold claimed. lia.
Qed.

(** A [get] that has to wait makes everything claimed so far visible to the
    consumers, also the items that were never published. *)
Theorem get_publishes w s id c : reachable w -> get w.(w_sup) = Ok (s, None) ->
  w.(w_sup).(alerted) = false -> w.(w_sup).(consumers) !! id = Some c -> c.(c_next) <= claimed w ->
  s.(ringBuffer).(m_cursor) = claimed w
  /\ exists s' ix, SupplierN_consumerGet s (Z.of_nat id) = Ok (s', Got ix).
Proof using Type*.
  intros Hr%reachable_inv Hg Hal Hc Hn.
  destruct (claim_one_spec w item_reset s None Hr reset_flag Hg) as (Hw' & _ & Hcur).
  split; [done|]. pose proof Hg as Hg'. unfold get, claim_one in Hg'.
  destruct (next _ _ _) as [[sq [x|]]|e|]; cbn [mbind result_bind] in Hg'; [|injection Hg' as <-|done..].
  { destruct (take_item _ _ _ _) as [[? ?]|e|]; discriminate Hg'. }
  assert (Hid : (id < length w.(w_sup).(consumers))%nat) by (by eapply lookup_lt_Some).
  pose proof (wi_count w Hr). unfold SupplierN_consumerGet, consumerCount. cbn [consumers set_ring].
  rewrite u32_small, (proj2 (Z.ltb_ge _ _)), Nat2Z.id by lia. unfold consume_at.
  cbn [consumers set_ring]. rewrite Hc. cbn [checked mbind result_bind].
  destruct (lookup_lt_is_Some_2 w.(w_sup).(entries) (slot (set_ring w.(w_sup) sq w.(w_sup).(entries)) c.(c_next)))
    as [i Hi].
  { rewrite (wi_entries w Hr). pose proof (wi_size _ Hw') as Hsz. cbn in Hsz.
    assert (Hsame : sq.(m_bufferSize) = w.(w_sup).(ringBuffer).(m_bufferSize)).
    { pose proof (wi_entries _ Hw') as He. cbn in He. rewrite (wi_entries w Hr) in He.
      pose proof (ring_size_pos _ Hsz). pose proof (ring_size_pos _ (wi_size w Hr)). lia. }
    rewrite <- Hsame. unfold slot. cbn. by apply entry_index_lt. }
  case_match.
  - unfold waitFor. cbn [alerted set_ring ringBuffer]. rewrite Hal. cbn in Hcur. rewrite Hcur.
    rewrite (proj2 (Z.leb_le _ _)) by done. cbn [c_next entries set_ring]. rewrite Hi. cbn. by eexists _, _.
  - cbn [c_next entries set_ring]. rewrite Hi. cbn. by eexists _, _.
Qed.
End System.

(** The constructor of Supplier leaves the field [ringSize] at 0. *)
Lemma Supplier_getRingSize `{SequenceUtil} {Item} `{SupplyItem Item} size ordered (f : nat -> Item) s :
  new_Supplier size ordered f = Ok s -> getRingSize s = 0.
Proof.
  unfold new_Supplier. repeat case_match; try done.
  destruct (new_ring size f) as [[sq es]|e|]; [|done..]. by intros [= <-].
Qed.

(** ** Witnesses *)

(** An item with its bookkeeping and one user at a time. *)
Record item_example := mk_item_example { ie_flag : bool; ie_producer : Z; ie_consumers : Z -> Z }.

Definition items_example : SupplyItem item_example := {|
  item_reset := fun i => mk_item_example false i.(ie_producer) i.(ie_consumers);
  isFromConsumerGet := ie_flag;
  setFromConsumerGet := fun i b => mk_item_example b i.(ie_producer) i.(ie_consumers);
  getProducerSequence := ie_producer;
  setProducerSequence := fun i s => mk_item_example i.(ie_flag) s i.(ie_consumers);
  getConsumerSequence := fun i id => i.(ie_consumers) id;
  setConsumerSequence := fun i s id =>
    mk_item_example i.(ie_flag) i.(ie_producer) (fun k => if k =? id then s else i.(ie_consumers) k);
  decrementCounter := fun i _ => (i, true)
|}.

Lemma items_example_laws : @SupplyItemLaws item_example items_example.
Proof.
  constructor; try done; cbn; intros; [by rewrite Z.eqb_refl|by rewrite (proj2 (Z.eqb_neq _ _))].
Qed.

#[local] Existing Instances util_example util_example_laws items_example items_example_laws.

Definition after_get (w : world) : world :=
  match get w.(w_sup) with Ok (s, _) => mk_world s w.(w_hist) | _ => w end.
Definition after_publish (seq : Z) (w : world) : world :=
  match publish w.(w_sup) (Some (slot w.(w_sup) seq)) with Ok s => mk_world s w.(w_hist) | _ => w end.
Definition after_consume (id : Z) (w : world) : world :=
  match SupplierN_consumerGet w.(w_sup) id with Ok (s, _) => mk_world s w.(w_hist) | _ => w end.

Lemma reach_get simple w : reachable simple w -> reachable simple (after_get w).
Proof.
  intros Hw. unfold after_get. destruct (get _) as [[s r]|e|] eqn:Hg; [|done..].
  eapply r_step; [done|]. by eapply w_get.
Qed.

Lemma reach_consume w id : reachable false w -> reachable false (after_consume id w).
Proof.
  intros Hw. unfold after_consume. destruct (SupplierN_consumerGet _ _) as [[s r]|e|] eqn:Hg; [|done..].
  eapply r_step; [done|]. by eapply w_consume.
Qed.

Lemma reach_publish simple w seq : reachable simple w -> 0 <= seq ->
  claimed w - w.(w_sup).(ringBuffer).(m_bufferSize) < seq <= claimed w ->
  reachable simple (after_publish seq w).
Proof.
  intros Hw H0 Hseq. unfold after_publish. destruct (publish _ _) as [s|e|] eqn:Hg; [|done..].
  eapply r_step; [done|]. by eapply w_publish.
Qed.

Lemma reach_release simple w id seq s h : reachable simple w -> may_release simple w id seq ->
  w.(w_hist) !! id = Some h ->
  SupplierN_release w.(w_sup) (Some (slot w.(w_sup) seq)) (Z.of_nat id) = Ok s ->
  last_user w id (slot w.(w_sup) seq) = true ->
  reachable simple (mk_world s (<[id := seq :: h]> w.(w_hist))).
Proof.
  intros Hw Hm Hh Hr Hl. eapply r_step; [done|].
  pose proof (w_release simple w id seq s h Hm Hh Hr) as Hs. by rewrite Hl in Hs.
Qed.

(** A ring of two items and one consumer. *)
Definition factory_example (k : nat) : item_example := mk_item_example false (-1) (fun _ => -1).
Definition start_example : world :=
  mk_world (mk_supplier 2 false (mk_sequencer 2 (-1) (-1) (-1)) (map factory_example (seq 0 2))
              [new_consumer] false) [[]].

Lemma start_example_reachable simple : reachable simple start_example.
Proof.
  apply (r_new simple 2 false 1 factory_example); [|reflexivity]. exists 1. split; [lia|reflexivity].
Qed.

(** Both items claimed, the first one published, got by the consumer. *)
Definition busy_example : world := after_consume 0 (after_publish 0 (after_get (after_get start_example))).

Lemma busy_example_reachable : reachable false busy_example.
Proof.
  apply reach_consume, reach_publish; [do 2 apply reach_get; apply start_example_reachable|lia|].
  vm_compute. split; congruence.
Qed.

(** The same after the consumer has released the first item. *)
Definition free_example : world :=
  match release busy_example.(w_sup) (Some 0%nat) with
  | Ok s => mk_world s [[0]]
  | _ => busy_example
  end.

Lemma free_example_reachable : reachable false free_example.
Proof.
  apply (reach_release false busy_example 0 0 _ []); [exact busy_example_reachable| |reflexivity..].
  eexists _, []. split; [reflexivity|]. split; [reflexivity|]. split; [vm_compute; split; congruence|].
  split; [intros _; vm_compute; reflexivity|]. split; [apply not_elem_of_nil|]. vm_compute. congruence.
Qed.

Lemma get_exclusive_witness : exists s,
  get free_example.(w_sup) = Ok (s, Some 0%nat) /\ 0 ∈ [0].
Proof.
  assert (Hg : exists s, get free_example.(w_sup) = Ok (s, Some 0%nat)).
  { eexists. vm_compute. reflexivity. }
  destruct Hg as [s Hg]. exists s. split; [exact Hg|].
  destruct (get_exclusive false free_example s 0%nat free_example_reachable Hg) as [_ H].
  apply (H 0%nat [0] 0); [vm_compute; reflexivity|vm_compute; split; congruence|vm_compute; reflexivity].
Defined.

Lemma get_waits_witness : exists s,
  get busy_example.(w_sup) = Ok (s, None) /\ gate_of [] < 2 - 2.
Proof.
  destruct (get_waits false busy_example busy_example_reachable) as (s & r & Hg & [Hr _]).
  vm_compute in Hg. injection Hg as <- <-. eexists. split; [vm_compute; reflexivity|].
  destruct (Hr eq_refl) as (id & h & Hh & Hlt). clear Hr. vm_compute in Hh, Hlt.
  destruct id as [|[|id]]; [|discriminate Hh..]. injection Hh as <-. exact Hlt.
Defined.

Lemma consumerGet_fifo_witness : exists s i,
  SupplierN_consumerGet (after_publish 0 (after_get start_example)).(w_sup) 0 = Ok (s, Got 0)
  /\ (after_publish 0 (after_get start_example)).(w_sup).(entries) !! 0%nat = Some i
  /\ getProducerSequence i = 0.
Proof.
  destruct (consumerGet_fifo false (after_publish 0 (after_get start_example)) 0
    (match SupplierN_consumerGet (after_publish 0 (after_get start_example)).(w_sup) 0 with
     | Ok (s, _) => s | _ => start_example.(w_sup) end) 0%nat)
    as (c & c' & i & Hc & _ & _ & _ & _ & Hi & Hp).
  - apply reach_publish; [apply reach_get, start_example_reachable|lia|vm_compute; split; congruence].
  - reflexivity.
  - reflexivity.
  - injection Hc as <-. eexists _, i. split; [reflexivity|]. split; [exact Hi|exact Hp].
Defined.

Lemma supply_gates_witness : exists c,
  free_example.(w_sup).(consumers) !! 0%nat = Some c /\ c.(c_sequence) = gate_of [0].
Proof.
  eexists. split; [reflexivity|].
  refine (proj1 (supply_gates false free_example 0 _ [0] free_example_reachable _ _)); reflexivity.
Defined.

(** Two items claimed, none published: a third [get] makes the consumer get the first. *)
Lemma get_publishes_witness : exists s s' ix,
  get (after_get (after_get start_example)).(w_sup) = Ok (s, None)
  /\ SupplierN_consumerGet s 0 = Ok (s', Got ix)
  /\ (after_get (after_get start_example)).(w_sup).(ringBuffer).(m_cursor) = -1.
Proof.
  destruct (get_publishes false (after_get (after_get start_example))
    (match get (after_get (after_get start_example)).(w_sup) with
     | Ok (s, _) => s | _ => start_example.(w_sup) end) 0 new_consumer)
    as (_ & s' & ix & Hg).
  - do 2 apply reach_get. apply start_example_reachable.
  - reflexivity.
  - reflexivity.
  - reflexivity.
  - vm_compute. congruence.
  - eexists _, s', ix. split; [reflexivity|]. split; [exact Hg|reflexivity].
Defined.
