(* ===== verification/MultiProducer.v ===== *)
(** MultiProducerSequencer.h: several producers claim places of the ring, fill
    them and publish them in any order.  A call is cut into steps, one for each
    access to what the threads share (the cursor, the cache of the slowest
    consumer, a place of the array of published places), and the steps of the producers
    and of the consumers come in any order.  Accesses are sequentially consistent, also
    those of the array, which the code does not make atomic; the gating sequences are a
    fixed, non-empty list.  A consumer may look up to the cursor of the moment, which is
    never behind the one it has read. *)
From S2P Require Import Prelude Sequencer.

(** Util::log2, which is only declared. *)
Class UtilLog2 := util_log2 : Z -> Z.
Class UtilLog2Laws `{UtilLog2} := util_log2_spec k : 0 <= k -> util_log2 (2 ^ k) = k.

(** ** The fields the threads share *)

Record multi := mk_multi {
  mp_cursor : Z;
  gatingSequenceCache : Z;
  availableBuffer : list Z
}.

(** What is set by the constructor and stays. *)
Record multi_ring := mk_ring {
  mp_bufferSize : Z;
  indexMask : Z;
  indexShift : Z
}.

Section Calls.
Context `{SequenceUtil} `{UtilLog2}.

Definition MultiProducerSequencer (bufferSize : Z) : result (multi_ring * multi) :=
  _ ← SingleProducerSequencer bufferSize;
  Ok (mk_ring bufferSize (bufferSize - 1) (util_log2 bufferSize),
      mk_multi InitialCursorValue InitialCursorValue (replicate (Z.to_nat bufferSize) (-1))).
End Calls.

Definition calculateAvailabilityFlag (r : multi_ring) (sequence : Z) : Z :=
  i32 (Z.shiftr (u64 sequence) r.(indexShift)).

Definition calculateIndex (r : multi_ring) (sequence : Z) : Z := Z.land (i32 sequence) r.(indexMask).

Definition setAvailable (r : multi_ring) (sequence : Z) (m : multi) : multi :=
  mk_multi m.(mp_cursor) m.(gatingSequenceCache)
    (<[Z.to_nat (calculateIndex r sequence) := calculateAvailabilityFlag r sequence]>
       m.(availableBuffer)).

Definition mp_isAvailable (r : multi_ring) (sequence : Z) (m : multi) : bool :=
  bool_decide (m.(availableBuffer) !! Z.to_nat (calculateIndex r sequence)
               = Some (calculateAvailabilityFlag r sequence)).

(** The scan over [n] sequences from [sequence] on. *)
Fixpoint scan_published (r : multi_ring) (m : multi) (n : nat) (sequence : Z) : Z :=
  match n with
  | O => sequence - 1
  | S n => if mp_isAvailable r sequence m then scan_published r m n (sequence + 1) else sequence - 1
  end.

Definition getHighestPublishedSequence (r : multi_ring) (m : multi) (lowerBound availableSequence : Z) : Z :=
  if availableSequence <? lowerBound then availableSequence
  else scan_published r m (Z.to_nat (availableSequence - lowerBound + 1)) lowerBound.

Definition mp_claim (sequence : Z) (m : multi) : multi :=
  mk_multi sequence m.(gatingSequenceCache) m.(availableBuffer).

(** ** The calls of a producer, step by step *)

(** next(n), tryNext(n) and hasAvailableCapacity(n). *)
Inductive mp_call := NEXT | TRYNEXT | CAPACITY.

#[export] Instance mp_call_eq_dec : EqDecision mp_call.
Proof. solve_decision. Defined.

Inductive mp_pc :=
  | Idle
  | Head (c : mp_call) (n : Z)                 (* at the top of the loop *)
  | HaveCurrent (c : mp_call) (n current : Z)  (* the cursor was read *)
  | NeedGating (c : mp_call) (n current : Z)   (* the cache does not answer *)
  | HaveGating (c : mp_call) (n current gating : Z)
  | TryClaim (c : mp_call) (n current : Z)     (* before compareAndSet *)
  | Answer (capacity : bool)                   (* false of tryNext: the exception *)
  | Claimed (lo hi : Z)                        (* next returned hi *)
  | Publishing (l hi : Z).                     (* the loop of publish *)

(** What comes after a test of the capacity that succeeds. *)
Definition capacity_left (c : mp_call) (n current : Z) : mp_pc :=
  match c with CAPACITY => Answer true | _ => TryClaim c n current end.

(** [wrapPoint > cachedGatingSequence || cachedGatingSequence > current] *)
Definition cache_fails (r : multi_ring) (n current cached : Z) : bool :=
  (cached <? current + n - r.(mp_bufferSize)) || (current <? cached).

(** The next access of a thread.  [gating] is what getMinimumSequence reads: the
    value of each gating sequence at some moment of the scan. *)
Definition mp_step `{SequenceUtil} (r : multi_ring) (gating : list Z) (m : multi) (pc : mp_pc)
    : multi * mp_pc :=
  match pc with
  | Head c n => (m, HaveCurrent c n m.(mp_cursor))
  | HaveCurrent c n current =>
    (m, if cache_fails r n current m.(gatingSequenceCache) then NeedGating c n current
        else capacity_left c n current)
  | NeedGating c n current =>
    let minSequence := getMinimumSequence gating current in
    (m, match c with
        | NEXT => if minSequence <? current + n - r.(mp_bufferSize) then Head c n
                  else HaveGating c n current minSequence
        | _ => HaveGating c n current minSequence
        end)
  | HaveGating c n current g =>
    (mk_multi m.(mp_cursor) g m.(availableBuffer),
     match c with
     | NEXT => Head c n
     | _ => if g <? current + n - r.(mp_bufferSize) then Answer false else capacity_left c n current
     end)
  | TryClaim c n current =>
    if m.(mp_cursor) =? current then
      (mk_multi (current + n) m.(gatingSequenceCache) m.(availableBuffer), Claimed (current + 1) (current + n))
    else (m, Head c n)
  | Publishing l hi =>
    if l <=? hi then (setAvailable r l m, Publishing (l + 1) hi) else (m, Idle)
  | Answer _ => (m, Idle)
  | Idle => (m, Idle)
  | Claimed lo hi => (m, Claimed lo hi)
  end.

(** ** The world *)

Record mp_world := mk_mp_world {
  w_scanned : list Z;         (* how far each consumer has found the places published *)
  w_multi : multi;
  w_gating : list Z;          (* how far each consumer is *)
  w_threads : list mp_pc;
  w_published : list Z        (* every sequence that was published (a ghost) *)
}.

Inductive mp_action :=
  | Call (i : nat) (c : mp_call) (n : Z)
  | Step (i : nat) (seen : list Z)
  | Publish (i : nat)
  | Look (j : nat)
  | Consume (j : nat) (upto : Z).

(** No call is under way. *)
Definition resting (pc : mp_pc) : bool := match pc with Idle | Answer _ => true | _ => false end.

(** The values a scan of the gating sequences can see: they never decrease. *)
Definition seen_before (seen gating : list Z) : bool :=
  bool_decide (Forall2 (fun s g => -1 <= s <= g) seen gating).

(** An action of a thread; [None] when it is not possible.  A claim of [n < 1]
    throws and changes nothing.  A consumer looks at the places behind its own one by
    one, as the loop of getHighestPublishedSequence does, while others go on, and moves
    on as far as it has found them published. *)
Definition act `{SequenceUtil} (r : multi_ring) (a : mp_action) (w : mp_world) : option mp_world :=
  match a with
  | Call i c n =>
    pc ← w.(w_threads) !! i;
    if negb (resting pc) then None
    else
      Some (mk_mp_world w.(w_scanned) w.(w_multi) w.(w_gating)
              (if bool_decide (c <> CAPACITY) && (n <? 1) then w.(w_threads)
               else <[i := Head c n]> w.(w_threads)) w.(w_published))
  | Step i seen =>
    pc ← w.(w_threads) !! i;
    if seen_before seen w.(w_gating) then
      let '(m, pc') := mp_step r seen w.(w_multi) pc in
      Some (mk_mp_world w.(w_scanned) m w.(w_gating) (<[i := pc']> w.(w_threads))
              (match pc with
               | Publishing l hi => if l <=? hi then l :: w.(w_published) else w.(w_published)
               | _ => w.(w_published) end))
    else None
  | Publish i =>
    pc ← w.(w_threads) !! i;
    match pc with
    | Claimed lo hi =>
      Some (mk_mp_world w.(w_scanned) w.(w_multi) w.(w_gating) (<[i := Publishing lo hi]> w.(w_threads)) w.(w_published))
    | _ => None
    end
  | Look j =>
    h ← w.(w_scanned) !! j;
    if decide (h + 1 <= w.(w_multi).(mp_cursor)) then
      Some (if mp_isAvailable r (h + 1) w.(w_multi)
            then mk_mp_world (<[j := h + 1]> w.(w_scanned)) w.(w_multi) w.(w_gating) w.(w_threads) w.(w_published)
            else w)
    else None
  | Consume j upto =>
    g ← w.(w_gating) !! j;
    h ← w.(w_scanned) !! j;
    if decide (g <= upto <= h) then
      Some (mk_mp_world w.(w_scanned) w.(w_multi) (<[j := upto]> w.(w_gating)) w.(w_threads) w.(w_published))
    else None
  end.

Fixpoint acts `{SequenceUtil} (r : multi_ring) (l : list mp_action) (w : mp_world) : option mp_world :=
  match l with
  | [] => Some w
  | a :: l => w ← act r a w; acts r l w
  end.

(** ** Indices and flags *)

(** A ring of [2 ^ k] places. *)
Definition ring_of (k : Z) : multi_ring := mk_ring (2 ^ k) (2 ^ k - 1) k.

Section Places.
Context (k : Z) (Hk : 0 <= k <= 30).
#[local] Abbreviation size := (2 ^ k).
#[local] Abbreviation r := (ring_of k).

Lemma size_pos : 0 < size.
Proof using Hk. apply Z.pow_pos_nonneg; lia. Qed.

Lemma size_divides n : k <= n -> (size | 2 ^ n).
Proof using Hk. intros. exists (2 ^ (n - k)). rewrite <- Z.pow_add_r by lia. f_equal. lia. Qed.

Lemma calculateIndex_spec s : calculateIndex r s = s mod size.
Proof using Hk.
  rewrite <- (entry_index_mod size) by (by exists k). unfold entry_index, calculateIndex.
  cbn [indexMask ring_of]. rewrite Z2Nat.id; [done|]. apply Z.land_nonneg. right. pose proof size_pos. lia.
Qed.

Lemma index_range s : 0 <= s mod size < size.
Proof using Hk. apply Z.mod_pos_bound, size_pos. Qed.

Lemma calculateAvailabilityFlag_spec s : calculateAvailabilityFlag r s = i32 (s / size).
Proof using Hk.
  pose proof size_pos. unfold calculateAvailabilityFlag. cbn [indexShift ring_of].
  rewrite Z.shiftr_div_pow2 by lia. unfold u64.
  replace 18446744073709551616 with (size * 2 ^ (64 - k))
    by (rewrite <- Z.pow_add_r by lia; replace (k + (64 - k)) with 64 by lia; done).
  rewrite Z.rem_mul_r by (try apply Z.pow_pos_nonneg; lia).
  rewrite (Z.mul_comm size), Z.div_add by lia.
  rewrite (Z.div_small (s mod size)) by apply index_range. rewrite Z.add_0_l.
  unfold i32. f_equal. rewrite <- Zplus_mod_idemp_l.
  rewrite Z.mod_mod_divide; [by rewrite Zplus_mod_idemp_l|].
  exists (2 ^ (32 - k)). change 4294967296 with (2 ^ 32).
  rewrite <- Z.pow_add_r by lia. f_equal. lia.
Qed.

(** The flag tells a sequence from the one that had its place a round before. *)
Lemma flag_before s : calculateAvailabilityFlag r s <> calculateAvailabilityFlag r (s - size).
Proof using Hk.
  pose proof size_pos. rewrite !calculateAvailabilityFlag_spec.
  replace (s - size) with (s + (-1) * size) by lia. rewrite Z.div_add by lia. wrap_lia.
Qed.

(** Two sequences of one round have different places. *)
Lemma same_place s t : s mod size = t mod size -> - size < s - t < size -> s = t.
Proof using Hk.
  intros Hm Hd. apply (entry_index_inj size); [by exists k|lia|].
  apply Nat2Z.inj. by rewrite !entry_index_mod by (by exists k).
Qed.

Lemma flag_initial s : - size <= s < 0 -> calculateAvailabilityFlag r s = -1.
Proof using Hk.
  intros Hs. pose proof size_pos. rewrite calculateAvailabilityFlag_spec.
  replace (s / size) with (-1); [done|]. apply (Z.div_unique _ _ _ (s + size)); lia.
Qed.
End Places.

(** ** What holds in every world that can be reached *)

Section Worlds.
Context {SU : SequenceUtil} {SL : SequenceUtilLaws} (k : Z) (Hk : 0 <= k <= 30).
#[local] Abbreviation size := (2 ^ k).
#[local] Abbreviation r := (ring_of k).

(** The sequences a thread has claimed and not yet published. *)
Definition owns (pc : mp_pc) (s : Z) : Prop :=
  match pc with Claimed lo hi | Publishing lo hi => lo <= s <= hi | _ => False end.

(** What a thread knows, from what it has read. *)
Definition pc_ok (cursor : Z) (gating : list Z) (pc : mp_pc) : Prop :=
  match pc with
  | Head c n => c = CAPACITY \/ 1 <= n
  | HaveCurrent c n cur | NeedGating c n cur => (c = CAPACITY \/ 1 <= n) /\ -1 <= cur <= cursor
  | HaveGating c n cur g =>
    (c = CAPACITY \/ 1 <= n) /\ -1 <= cur <= cursor /\ g <= cur /\ Forall (fun x => g <= x) gating
  | TryClaim c n cur =>
    1 <= n <= size /\ -1 <= cur <= cursor /\ Forall (fun x => cur + n - size <= x) gating
  | Claimed lo hi => lo <= hi < lo + size
  | _ => True
  end.

Definition was_published (w : mp_world) (s : Z) : Prop := s < 0 \/ s ∈ w.(w_published).
#[local] Instance was_published_dec w s : Decision (was_published w s).
Proof. unfold was_published. apply _. Defined.

Record mp_inv (w : mp_world) : Prop := mk_mp_inv {
  i_some : w.(w_gating) <> [];
  i_cache : Forall (fun g => w.(w_multi).(gatingSequenceCache) <= g) w.(w_gating);
  i_gate : Forall (fun g => -1 <= g <= w.(w_multi).(mp_cursor)
             /\ w.(w_multi).(mp_cursor) - size <= g) w.(w_gating);
  i_behind : Forall (fun g => forall s, 0 <= s <= g -> s ∈ w.(w_published)) w.(w_gating);
  i_length : length w.(w_multi).(availableBuffer) = Z.to_nat size;
  i_avail s : w.(w_multi).(mp_cursor) - size < s <= w.(w_multi).(mp_cursor) ->
    w.(w_multi).(availableBuffer) !! Z.to_nat (s mod size)
      = Some (calculateAvailabilityFlag r (if decide (was_published w s) then s else s - size));
  i_published : Forall (fun s => 0 <= s <= w.(w_multi).(mp_cursor)) w.(w_published);
  i_owned i pc s : w.(w_threads) !! i = Some pc -> owns pc s ->
    0 <= s <= w.(w_multi).(mp_cursor) /\ s ∉ w.(w_published);
  i_excl i j pi pj s : w.(w_threads) !! i = Some pi -> w.(w_threads) !! j = Some pj ->
    owns pi s -> owns pj s -> i = j;
  i_total s : 0 <= s <= w.(w_multi).(mp_cursor) ->
    s ∈ w.(w_published) \/ exists i pc, w.(w_threads) !! i = Some pc /\ owns pc s;
  i_pc i pc : w.(w_threads) !! i = Some pc -> pc_ok w.(w_multi).(mp_cursor) w.(w_gating) pc;
  i_scanned j h : w.(w_scanned) !! j = Some h ->
    -1 <= h <= w.(w_multi).(mp_cursor) /\ forall s, 0 <= s <= h -> s ∈ w.(w_published);
  i_ahead j g h : w.(w_gating) !! j = Some g -> w.(w_scanned) !! j = Some h -> g <= h;
  i_both : length w.(w_scanned) = length w.(w_gating)
}.

Lemma pc_ok_mono cursor cursor' gating gating' pc : cursor <= cursor' ->
  Forall2 Z.le gating gating' -> pc_ok cursor gating pc -> pc_ok cursor' gating' pc.
Proof using.
  clear Hk. intros Hc Hg.
  assert (Hall : forall x, Forall (fun g => x <= g) gating -> Forall (fun g => x <= g) gating').
  { intros x. clear Hc. induction Hg as [|g g' gs gs' Hle _ IH]; [done|].
    intros [Hx Hxs]%Forall_cons. apply Forall_cons. split; [lia|by apply IH]. }
  destruct pc; cbn; try done.
  - intros [? ?]. split; [done|lia].
  - intros [? ?]. split; [done|lia].
  - intros (? & ? & ? & ?). split; [done|]. split; [lia|]. split; [done|by apply Hall].
  - intros (? & ? & ?). split; [done|]. split; [lia|by apply Hall].
Qed.

(** A step after which a thread owns what it owned, and no place changes. *)
Lemma quiet w i pc pc' cache : mp_inv w -> w.(w_threads) !! i = Some pc ->
  (forall s, owns pc' s <-> owns pc s) -> pc_ok w.(w_multi).(mp_cursor) w.(w_gating) pc' ->
  Forall (fun g => cache <= g) w.(w_gating) ->
  mp_inv (mk_mp_world w.(w_scanned) (mk_multi w.(w_multi).(mp_cursor) cache w.(w_multi).(availableBuffer))
            w.(w_gating) (<[i := pc']> w.(w_threads)) w.(w_published)).
Proof using.
  intros [] Hi Ho Hpc Hcache.
  assert (Hl : forall j pj, <[i := pc']> w.(w_threads) !! j = Some pj ->
    (j = i /\ pj = pc') \/ (j <> i /\ w.(w_threads) !! j = Some pj)).
  { intros j pj. destruct (decide (j = i)) as [->|Hne].
    - rewrite list_lookup_insert_eq by (by eapply lookup_lt_Some). intros [= <-]. by left.
    - rewrite list_lookup_insert_ne by done. by right. }
  constructor; cbn [w_multi w_gating w_threads w_published mp_cursor gatingSequenceCache availableBuffer];
    try done.
  - intros j pj s [[-> ->]|[_ Hj]]%Hl Hs; [apply Ho in Hs|]; by eapply i_owned0.
  - intros j j' pj pj' s [[-> ->]|[Hne Hj]]%Hl [[-> ->]|[Hne' Hj']]%Hl Hs Hs'; try done;
      try apply Ho in Hs; try apply Ho in Hs'; by eapply i_excl0.
  - intros s [|(j & pj & Hj & Hs)]%i_total0; [by left|right].
    destruct (decide (j = i)) as [->|Hne].
    + exists i, pc'. rewrite list_lookup_insert_eq by (by eapply lookup_lt_Some). split; [done|].
      apply Ho. by simplify_eq.
    + exists j, pj. by rewrite list_lookup_insert_ne.
  - intros j pj [[-> ->]|[_ Hj]]%Hl; [done|by eapply i_pc0].
Qed.

Lemma gating_some (P : Z -> Prop) (l : list Z) : l <> [] -> Forall P l -> exists g, g ∈ l /\ P g.
Proof using. destruct l as [|g l]; [done|]. intros _ [? _]%Forall_cons. exists g. split; [left|done]. Qed.

Lemma claim_inv w i c n cur : mp_inv w -> w.(w_threads) !! i = Some (TryClaim c n cur) ->
  w.(w_multi).(mp_cursor) = cur ->
  mp_inv (mk_mp_world w.(w_scanned) (mk_multi (cur + n) w.(w_multi).(gatingSequenceCache) w.(w_multi).(availableBuffer))
            w.(w_gating) (<[i := Claimed (cur + 1) (cur + n)]> w.(w_threads)) w.(w_published)).
Proof using Hk.
  intros Hinv Hi Hcur. pose proof Hinv as []. pose proof (size_pos k Hk) as Hsz.
  pose proof (i_pc0 _ _ Hi) as (Hn & Hc & Hg). rewrite Hcur in *.
  destruct (gating_some _ _ i_some0 (proj2 (Forall_and _ _) (conj Hg i_gate0))) as (g & Hin & Hgn & Hgc & _).
  constructor; cbn [w_multi w_gating w_threads w_published mp_cursor gatingSequenceCache availableBuffer]; try done.
  - rewrite Forall_forall in *. intros x Hx. specialize (Hg x Hx). specialize (i_gate0 x Hx). lia.
  - intros s Hs. destruct (decide (s <= cur)).
    + rewrite i_avail0 by lia. done.
    + rewrite decide_False.
      2:{ intros [|Hp]; [lia|]. rewrite Forall_forall in i_published0. specialize (i_published0 s Hp). lia. }
      replace (s mod size) with ((s - size) mod size)
        by (rewrite <- (Z.mod_add (s - size) 1 size) by lia; f_equal; lia).
      rewrite i_avail0 by lia. rewrite decide_True; [done|]. unfold was_published.
      destruct (decide (s - size < 0)); [by left|right]. rewrite Forall_forall in i_behind0.
      apply (i_behind0 g Hin). lia.
  - eapply Forall_impl; [exact i_published0|]. cbn. lia.
  - intros j pj s [(-> & <- & _)|[_ Hj]]%list_lookup_insert_Some Hs; cbn in Hs.
    + split; [lia|]. intros Hp. rewrite Forall_forall in i_published0. specialize (i_published0 s Hp). lia.
    + destruct (i_owned0 _ _ _ Hj Hs). split; [lia|done].
  - intros j j' pj pj' s [(-> & <- & _)|[Hne Hj]]%list_lookup_insert_Some
      [(-> & <- & _)|[Hne' Hj']]%list_lookup_insert_Some Hs Hs'; try done; cbn in Hs, Hs'.
    + destruct (i_owned0 _ _ _ Hj' Hs'). lia.
    + destruct (i_owned0 _ _ _ Hj Hs). lia.
    + by eapply i_excl0.
  - intros s Hs. destruct (decide (s <= cur)).
    + destruct (i_total0 s ltac:(lia)) as [|(j & pj & Hj & Ho)]; [by left|right]. exists j, pj.
      rewrite list_lookup_insert_ne; [done|]. intros ->. rewrite Hi in Hj. by simplify_eq.
    + right. exists i, (Claimed (cur + 1) (cur + n)).
      rewrite list_lookup_insert_eq by (by eapply lookup_lt_Some). split; [done|]. cbn. lia.
  - intros j pj [(-> & <- & _)|[_ Hj]]%list_lookup_insert_Some; cbn [pc_ok]; [lia|].
    eapply pc_ok_mono; [|reflexivity|by eapply i_pc0]. lia.
  - intros j h Hj. destruct (i_scanned0 j h Hj). split; [lia|done].
Qed.

Lemma publish_inv w i l hi : mp_inv w -> w.(w_threads) !! i = Some (Publishing l hi) -> l <= hi ->
  mp_inv (mk_mp_world w.(w_scanned) (setAvailable r l w.(w_multi)) w.(w_gating)
            (<[i := Publishing (l + 1) hi]> w.(w_threads)) (l :: w.(w_published))).
Proof using Hk.
  intros Hinv Hi Hl. pose proof Hinv as []. pose proof (size_pos k Hk) as Hsz.
  destruct (i_owned0 i _ l Hi ltac:(unfold owns; lia)) as [Hlr Hlp].
  destruct (gating_some _ _ i_some0 (proj2 (Forall_and _ _) (conj i_behind0 i_gate0))) as (g & Hin & Hgb & _ & Hgc).
  assert (Hlg : g < l) by (destruct (decide (l <= g)); [destruct Hlp; apply Hgb; lia|lia]).
  constructor; cbn [w_multi w_gating w_threads w_published setAvailable mp_cursor gatingSequenceCache availableBuffer]; try done.
  - eapply Forall_impl; [exact i_behind0|]. cbn. intros x Hx s Hs. right. by apply Hx.
  - by rewrite length_insert.
  - intros s Hs. rewrite calculateIndex_spec by done. pose proof (index_range k Hk s). pose proof (index_range k Hk l).
    destruct (decide (s = l)) as [->|Hne].
    + rewrite list_lookup_insert_eq by lia. rewrite decide_True; [done|]. right. left.
    + rewrite list_lookup_insert_ne.
      2:{ intros He. apply Hne. apply (same_place k Hk); lia. }
      rewrite i_avail0 by done. f_equal. f_equal. apply decide_ext.
      unfold was_published. cbn. rewrite elem_of_cons. split; [tauto|]. by intros [|[|]]; [left| |right].
  - by constructor.
  - intros j pj s [(-> & <- & _)|[Hne Hj]]%list_lookup_insert_Some Hs.
    + cbn in Hs. destruct (i_owned0 j (Publishing l hi) s Hi ltac:(unfold owns; lia)). split; [done|].
      rewrite not_elem_of_cons. split; [lia|done].
    + destruct (i_owned0 _ _ _ Hj Hs). split; [done|]. rewrite not_elem_of_cons. split; [|done].
      intros ->. apply Hne. apply (i_excl0 _ _ _ _ l Hi Hj); [unfold owns; lia|done].
  - intros j j' pj pj' s [(-> & <- & _)|[Hne Hj]]%list_lookup_insert_Some
      [(-> & <- & _)|[Hne' Hj']]%list_lookup_insert_Some Hs Hs'; try done; cbn in Hs, Hs'.
    + apply (i_excl0 _ _ _ _ s Hi Hj'); [unfold owns; lia|done].
    + apply (i_excl0 _ _ _ _ s Hj Hi); [done|unfold owns; lia].
    + by eapply i_excl0.
  - intros s [|(j & pj & Hj & Ho)]%i_total0; [left; by right|].
    destruct (decide (j = i)) as [->|Hne].
    + rewrite Hi in Hj. simplify_eq. cbn in Ho. destruct (decide (s = l)) as [->|]; [left; left|right].
      exists i, (Publishing (l + 1) hi). rewrite list_lookup_insert_eq by (by eapply lookup_lt_Some).
      split; [done|]. cbn. lia.
    + right. exists j, pj. by rewrite list_lookup_insert_ne.
  - intros j pj [(-> & <- & _)|[_ Hj]]%list_lookup_insert_Some; [done|by eapply i_pc0].
  - intros j h Hj. destruct (i_scanned0 j h Hj) as [? Hp]. split; [done|]. intros s Hs. right. by apply Hp.
Qed.

(** ** Availability *)

Lemma isAvailable_published w s : mp_inv w ->
  w.(w_multi).(mp_cursor) - size < s <= w.(w_multi).(mp_cursor) -> 0 <= s ->
  mp_isAvailable r s w.(w_multi) = true <-> s ∈ w.(w_published).
Proof using Hk.
  intros Hinv Hs H0. unfold mp_isAvailable. rewrite bool_decide_eq_true, calculateIndex_spec by done.
  rewrite (i_avail _ Hinv s Hs). destruct (decide (was_published w s)) as [[?|Hp]|Hp]; [lia|done|].
  split.
  - intros He%(inj Some). symmetry in He. by apply flag_before in He.
  - intros Hin. destruct Hp. by right.
Qed.

Lemma scan_published_spec w n s : mp_inv w -> 0 <= s -> w.(w_multi).(mp_cursor) - size < s ->
  s + Z.of_nat n <= w.(w_multi).(mp_cursor) + 1 ->
  let h := scan_published r w.(w_multi) n s in
  s - 1 <= h <= s - 1 + Z.of_nat n /\ (forall x, s <= x <= h -> x ∈ w.(w_published))
  /\ (h < s - 1 + Z.of_nat n -> h + 1 ∉ w.(w_published)).
Proof using Hk.
  intros Hinv. revert s. induction n as [|n IH]; intros s H0 Hw Hn; cbn [scan_published].
  { split; [lia|]. split; [lia|lia]. }
  pose proof (isAvailable_published w s Hinv ltac:(lia) H0) as Ha.
  destruct (mp_isAvailable r s w.(w_multi)).
  - destruct (IH (s + 1) ltac:(lia) ltac:(lia) ltac:(lia)) as (Hr & Hall & Hnext).
    split; [lia|]. split.
    + intros x Hx. destruct (decide (x = s)) as [->|]; [by apply Ha|]. apply Hall. lia.
    + intros. apply Hnext. lia.
  - split; [lia|]. split; [lia|]. intros _. replace (s - 1 + 1) with s by lia. intros Hp.
    by apply Ha in Hp.
Qed.

(** What a consumer that has processed [g] may go on to. *)
Lemma highest_published w g : mp_inv w -> g ∈ w.(w_gating) ->
  let h := getHighestPublishedSequence r w.(w_multi) (g + 1) w.(w_multi).(mp_cursor) in
  g <= h <= w.(w_multi).(mp_cursor) /\ (forall s, g < s <= h -> s ∈ w.(w_published))
  /\ (h < w.(w_multi).(mp_cursor) -> h + 1 ∉ w.(w_published)).
Proof using Hk.
  intros Hinv Hg. pose proof (i_gate _ Hinv) as Hgate. rewrite Forall_forall in Hgate.
  destruct (Hgate g Hg) as [[? ?] ?]. unfold getHighestPublishedSequence.
  destruct (Z.ltb_spec w.(w_multi).(mp_cursor) (g + 1)).
  { split; [lia|]. split; [lia|lia]. }
  destruct (scan_published_spec w (Z.to_nat (w.(w_multi).(mp_cursor) - (g + 1) + 1)) (g + 1) Hinv)
    as (Hr & Hall & Hnext); [lia..|].
  split; [lia|]. split; [intros; apply Hall; lia|]. intros. apply Hnext. lia.
Qed.

(** ** Every action keeps the invariant *)

Lemma consume_inv w j g h upto : mp_inv w -> w.(w_gating) !! j = Some g -> w.(w_scanned) !! j = Some h -> g <= upto <= h ->
  mp_inv (mk_mp_world w.(w_scanned) w.(w_multi) (<[j := upto]> w.(w_gating)) w.(w_threads) w.(w_published)).
Proof using Hk.
  intros Hinv Hj Hh Hup. assert (Hg : g ∈ w.(w_gating)) by (by eapply list_elem_of_lookup_2).
  destruct (i_scanned _ Hinv j h Hh) as [Hhc Hall]. destruct Hinv.
  assert (Hmono : Forall2 Z.le w.(w_gating) (<[j := upto]> w.(w_gating))).
  { rewrite <- (list_insert_id w.(w_gating) j g Hj) at 1. apply Forall2_insert; [reflexivity|lia]. }
  pose proof (proj1 (Forall_forall _ _) i_gate0 g Hg) as ((? & ?) & ?).
  pose proof (proj1 (Forall_forall _ _) i_cache0 g Hg) as Hc. cbn in Hc.
  constructor; cbn [w_scanned w_multi w_gating w_threads w_published]; try done.
  - intros He. apply (f_equal length) in He. rewrite length_insert in He.
    apply lookup_lt_Some in Hj. cbn in He. lia.
  - apply Forall_insert; [done|lia].
  - apply Forall_insert; [done|lia].
  - apply Forall_insert; [done|]. intros s Hs. apply Hall. lia.
  - intros i pc Hi. eapply pc_ok_mono; [reflexivity|exact Hmono|by eapply i_pc0].
  - intros i g' h' [(-> & <- & _)|[Hne Hi]]%list_lookup_insert_Some Hh'; [|by eapply i_ahead0]. simplify_eq. lia.
  - by rewrite length_insert.
Qed.

(** One place looked at. *)
Lemma look_inv w j h : mp_inv w -> w.(w_scanned) !! j = Some h -> h + 1 <= w.(w_multi).(mp_cursor) ->
  mp_isAvailable r (h + 1) w.(w_multi) = true ->
  mp_inv (mk_mp_world (<[j := h + 1]> w.(w_scanned)) w.(w_multi) w.(w_gating) w.(w_threads) w.(w_published)).
Proof using Hk.
  intros Hinv Hh Hc Ha. destruct (i_scanned _ Hinv j h Hh) as [Hhr Hall].
  destruct (lookup_lt_is_Some_2 w.(w_gating) j) as [g Hg].
  { rewrite <- (i_both _ Hinv). by eapply lookup_lt_Some. }
  pose proof (i_ahead _ Hinv j g h Hg Hh) as Hgh.
  pose proof (proj1 (Forall_forall _ _) (i_gate _ Hinv) g ltac:(by eapply list_elem_of_lookup_2)) as [_ Hgate]. cbn in Hgate.
  apply (isAvailable_published w (h + 1) Hinv) in Ha; [|lia..]. destruct Hinv.
  constructor; cbn [w_scanned w_multi w_gating w_threads w_published]; try done.
  - intros i x [(-> & <- & _)|[Hne Hi]]%list_lookup_insert_Some; [|by apply (i_scanned0 i x)]. split; [lia|].
    intros s Hs. destruct (decide (s = h + 1)) as [->|]; [done|]. apply Hall. lia.
  - intros i g' x Hi [(-> & <- & _)|[Hne Hi']]%list_lookup_insert_Some; [|by eapply i_ahead0]. simplify_eq. lia.
  - by rewrite length_insert.
Qed.

Lemma seen_minimum seen gating cur : seen_before seen gating = true ->
  Forall (fun g => getMinimumSequence seen cur <= g) gating.
Proof using SL.
  unfold seen_before. rewrite bool_decide_eq_true. intros Hf. rewrite getMinimumSequence_spec.
  induction Hf as [|s g seen gating Hsg _ IH]; [done|]. cbn. apply Forall_cons. split; [lia|].
  eapply Forall_impl; [exact IH|]. cbn. lia.
Qed.

Lemma capacity_left_ok cursor gating c n cur : c = CAPACITY \/ 1 <= n -> n <= size -> -1 <= cur <= cursor ->
  Forall (fun g => cur + n - size <= g) gating -> pc_ok cursor gating (capacity_left c n cur).
Proof using. intros Hn Hs Hc Hg. destruct c; cbn; try done; (split; [|done]); by destruct Hn. Qed.

Lemma owns_nothing pc pc' : (forall s, ~ owns pc s) -> (forall s, ~ owns pc' s) ->
  forall s, owns pc' s <-> owns pc s.
Proof using. intros H1 H2 s. split; intros Ho; [by destruct (H2 s)|by destruct (H1 s)]. Qed.

Lemma capacity_left_owns c n cur s : ~ owns (capacity_left c n cur) s.
Proof using. destruct c; intros []. Qed.

(** A step of a thread. *)
Lemma step_inv w i pc seen : mp_inv w -> w.(w_threads) !! i = Some pc ->
  seen_before seen w.(w_gating) = true ->
  let '(m, pc') := mp_step r seen w.(w_multi) pc in
  mp_inv (mk_mp_world w.(w_scanned) m w.(w_gating) (<[i := pc']> w.(w_threads))
            (match pc with
             | Publishing l hi => if l <=? hi then l :: w.(w_published) else w.(w_published)
             | _ => w.(w_published) end)).
Proof using Hk SL.
  intros Hinv Hi Hseen. pose proof (i_pc _ Hinv _ _ Hi) as Hpc. pose proof (i_cache _ Hinv) as Hca.
  pose proof (seen_minimum seen w.(w_gating)) as Hmin.
  assert (Hsame : forall pc', (forall s, owns pc' s <-> owns pc s) ->
    pc_ok w.(w_multi).(mp_cursor) w.(w_gating) pc' ->
    mp_inv (mk_mp_world w.(w_scanned) w.(w_multi) w.(w_gating) (<[i := pc']> w.(w_threads)) w.(w_published))).
  { intros pc' Ho Hp. pose proof (quiet w i pc pc' _ Hinv Hi Ho Hp Hca) as Hq.
    by destruct w as [? [] ? ? ?]. }
  destruct pc as [|c n|c n cur|c n cur|c n cur g|c n cur|b|lo hi|l hi]; cbn [mp_step pc_ok] in *.
  - by apply Hsame.
  - apply Hsame; [done|]. split; [done|]. pose proof (i_gate _ Hinv) as Hg.
    destruct (gating_some _ _ (i_some _ Hinv) Hg) as (g & _ & ? & _). lia.
  - destruct Hpc as [Hn Hc]. unfold cache_fails.
    destruct (_ || _) eqn:Hf; [by apply Hsame|]. apply orb_false_iff in Hf as [Hf%Z.ltb_ge Hf'%Z.ltb_ge].
    cbn [mp_bufferSize ring_of] in Hf.
    apply Hsame; [apply owns_nothing; [by intros ? []|apply capacity_left_owns]|].
    apply capacity_left_ok; try done; [lia|]. eapply Forall_impl; [exact Hca|]. cbn. lia.
  - destruct Hpc as [Hn Hc].
    assert (Hok : pc_ok w.(w_multi).(mp_cursor) w.(w_gating) (HaveGating c n cur (getMinimumSequence seen cur)))
      by (split; [done|split; [done|split; [rewrite getMinimumSequence_spec; apply fold_min_init|by apply Hmin]]]).
    destruct c; [destruct (_ <? _)| |]; by apply Hsame.
  - destruct Hpc as (Hn & Hc & Hgc & Hg).
    assert (Hq : forall pc', (forall s, ~ owns pc' s) -> pc_ok w.(w_multi).(mp_cursor) w.(w_gating) pc' ->
      mp_inv (mk_mp_world w.(w_scanned) (mk_multi w.(w_multi).(mp_cursor) g w.(w_multi).(availableBuffer))
                w.(w_gating) (<[i := pc']> w.(w_threads)) w.(w_published))).
    { intros pc' Ho Hp. apply (quiet w i _ pc' g Hinv Hi); try done.
      by apply owns_nothing; [intros ? []|]. }
    assert (Hw : pc_ok w.(w_multi).(mp_cursor) w.(w_gating)
      (if g <? cur + n - size then Answer false else capacity_left c n cur)).
    { destruct (Z.ltb_spec g (cur + n - size)); [done|]. apply capacity_left_ok; try done; [lia|].
      eapply Forall_impl; [exact Hg|]. cbn. lia. }
    destruct c; apply Hq; try done; try (by intros ? []); cbn [mp_bufferSize ring_of];
      destruct (_ <? _); intros ? [].
  - destruct (Z.eqb_spec w.(w_multi).(mp_cursor) cur) as [He|].
    + by apply (claim_inv w i c n cur).
    + apply Hsame; [done|]. cbn. right. lia.
  - by apply Hsame.
  - by apply Hsame.
  - destruct (Z.leb_spec l hi); [by apply publish_inv|]. apply Hsame; [|done].
    apply owns_nothing; [cbn; lia|by intros ? []].
Qed.

Lemma call_inv w i pc c n : mp_inv w -> w.(w_threads) !! i = Some pc -> resting pc = true ->
  bool_decide (c <> CAPACITY) && (n <? 1) = false ->
  mp_inv (mk_mp_world w.(w_scanned) w.(w_multi) w.(w_gating) (<[i := Head c n]> w.(w_threads)) w.(w_published)).
Proof using.
  intros Hinv Hi Hr Hn.
  pose proof (quiet w i pc (Head c n) w.(w_multi).(gatingSequenceCache) Hinv Hi) as Hq.
  destruct w as [? [] ? ? ?]. apply Hq.
  - apply owns_nothing; [by destruct pc; try done; intros ? []|by intros ? []].
  - cbn. apply andb_false_iff in Hn as [Hc|Hc%Z.ltb_ge]; [left|right; lia].
    apply bool_decide_eq_false in Hc. by apply dec_stable.
  - apply Hinv.
Qed.

Lemma act_inv a w w' : mp_inv w -> act r a w = Some w' -> mp_inv w'.
Proof using Hk SL.
  intros Hinv. destruct a as [i c n|i seen|i|j|j upto]; cbn [act].
  - intros (pc & Hi & Hr)%option_bind_Some. destruct (resting pc) eqn:Hre; [|done]. cbn [negb] in Hr.
    injection Hr as <-. destruct (_ && _) eqn:Hn; [by destruct w|by eapply call_inv].
  - intros (pc & Hi & Hr)%option_bind_Some. destruct (seen_before _ _) eqn:Hs; [|done].
    pose proof (step_inv w i pc seen Hinv Hi Hs) as Hst. destruct (mp_step _ _ _ _) as [m pc'].
    by injection Hr as <-.
  - intros (pc & Hi & Hr)%option_bind_Some. destruct pc; try done. injection Hr as <-.
    pose proof (quiet w i _ (Publishing lo hi) w.(w_multi).(gatingSequenceCache) Hinv Hi) as Hq.
    destruct w as [? [] ? ? ?]. apply Hq; try done. apply Hinv.
  - intros (h & Hh & Hr)%option_bind_Some. destruct (decide _); [|done]. injection Hr as <-.
    destruct (mp_isAvailable _ _ _) eqn:Ha; [|done]. by eapply look_inv.
  - intros (g & Hj & Hr)%option_bind_Some. apply option_bind_Some in Hr as (h & Hh & Hr).
    destruct (decide _); [|done]. injection Hr as <-. by eapply consume_inv.
Qed.

Lemma acts_inv l : forall w w', mp_inv w -> acts r l w = Some w' -> mp_inv w'.
Proof using Hk SL.
  induction l as [|a l IH]; intros w w' Hinv; cbn [acts]; [by intros [= <-]|].
  intros (w1 & Ha & Hr)%option_bind_Some. eapply IH; [|exact Hr]. by eapply act_inv.
Qed.

(** ** A producer that runs alone *)

(** [w] with another cache and the thread [i] at [pc]. *)
Definition at_pc (w : mp_world) (i : nat) (cache : Z) (pc : mp_pc) : mp_world :=
  mk_mp_world w.(w_scanned) (mk_multi w.(w_multi).(mp_cursor) cache w.(w_multi).(availableBuffer)) w.(w_gating)
    (<[i := pc]> w.(w_threads)) w.(w_published).

Lemma at_pc_self w i pc : w.(w_threads) !! i = Some pc ->
  at_pc w i w.(w_multi).(gatingSequenceCache) pc = w.
Proof using. intros Hi. unfold at_pc. rewrite list_insert_id by done. by destruct w as [? [] ? ? ?]. Qed.

Lemma at_pc_step w i cache pc seen : (i < length w.(w_threads))%nat ->
  seen_before seen w.(w_gating) = true -> (forall l hi, pc <> Publishing l hi) ->
  act r (Step i seen) (at_pc w i cache pc)
    = let '(m, pc') := mp_step r seen (mk_multi w.(w_multi).(mp_cursor) cache w.(w_multi).(availableBuffer)) pc in
      Some (mk_mp_world w.(w_scanned) m w.(w_gating) (<[i := pc']> w.(w_threads)) w.(w_published)).
Proof using.
  intros Hi Hs Hp. cbn [act at_pc w_threads w_gating w_multi w_published].
  rewrite list_lookup_insert_eq by done. cbn [mbind option_bind]. rewrite Hs.
  destruct (mp_step _ _ _ _) as [m pc']. rewrite list_insert_insert_eq. f_equal. f_equal.
  destruct pc; try done. by destruct (Hp l hi).
Qed.

(** A step that leaves the cursor and the places alone. *)
Lemma at_pc_quiet w i cache pc seen cache' pc' : (i < length w.(w_threads))%nat ->
  seen_before seen w.(w_gating) = true -> (forall l hi, pc <> Publishing l hi) ->
  mp_step r seen (mk_multi w.(w_multi).(mp_cursor) cache w.(w_multi).(availableBuffer)) pc
    = (mk_multi w.(w_multi).(mp_cursor) cache' w.(w_multi).(availableBuffer), pc') ->
  act r (Step i seen) (at_pc w i cache pc) = Some (at_pc w i cache' pc').
Proof using. intros Hi Hs Hp Hst. rewrite at_pc_step by done. by rewrite Hst. Qed.

(** [n] steps of the thread [i]. *)
Definition steps_alone (n : nat) (i : nat) (gating : list Z) : list mp_action :=
  replicate n (Step i gating).

Definition claims_after (n : nat) (i : nat) (places : Z) (w : mp_world) : Prop :=
  exists w', acts r (steps_alone n i w.(w_gating)) w = Some w'
    /\ w'.(w_threads) !! i
       = Some (Claimed (w.(w_multi).(mp_cursor) + 1) (w.(w_multi).(mp_cursor) + places)).

Lemma seen_now w : mp_inv w -> seen_before w.(w_gating) w.(w_gating) = true.
Proof using.
  intros Hinv. apply bool_decide_eq_true. pose proof (i_gate _ Hinv) as Hg. clear - Hg.
  induction Hg as [|g l Hg _ IH]; [done|]. constructor; [lia|done].
Qed.

(** From the head of the loop, with a cache that answers: three accesses. *)
Lemma claim_fast w i n cache : mp_inv w -> (i < length w.(w_threads))%nat ->
  cache_fails r n w.(w_multi).(mp_cursor) cache = false ->
  claims_after 3 i n (at_pc w i cache (Head NEXT n)).
Proof using.
  intros Hinv Hi Hf. pose proof (seen_now w Hinv) as Hs. unfold claims_after.
  cbn [steps_alone replicate acts at_pc w_gating].
  rewrite (at_pc_quiet w i cache _ w.(w_gating) cache (HaveCurrent NEXT n w.(w_multi).(mp_cursor))) by done.
  cbn [mbind option_bind].
  rewrite (at_pc_quiet w i cache _ w.(w_gating) cache (TryClaim NEXT n w.(w_multi).(mp_cursor)))
    by (done || (cbn [mp_step gatingSequenceCache]; by rewrite Hf)).
  cbn [mbind option_bind]. rewrite at_pc_step by done. cbn [mp_step mp_cursor]. rewrite Z.eqb_refl.
  eexists. split; [done|]. cbn. by apply list_lookup_insert_eq.
Qed.

(** A cache that does not answer is refreshed first: four accesses more. *)
Lemma claim_refresh w i n : mp_inv w -> w.(w_threads) !! i = Some (Head NEXT n) ->
  cache_fails r n w.(w_multi).(mp_cursor) w.(w_multi).(gatingSequenceCache) = true ->
  Forall (fun g => w.(w_multi).(mp_cursor) + n - size <= g) w.(w_gating) ->
  n <= size -> claims_after 7 i n w.
Proof using SL.
  intros Hinv Hi Hf Hg Hn. pose proof (seen_now w Hinv) as Hs.
  assert (Hl : (i < length w.(w_threads))%nat) by (by eapply lookup_lt_Some).
  set (cur := w.(w_multi).(mp_cursor)) in *. set (g := getMinimumSequence w.(w_gating) cur).
  assert (Hge : cur + n - size <= g <= cur).
  { unfold g. rewrite getMinimumSequence_spec. split; [|apply fold_min_init].
    apply fold_min_glb; [lia|]. intros x Hx. by apply (proj1 (Forall_forall _ _) Hg). }
  rewrite <- (at_pc_self w i (Head NEXT n) Hi) at 1.
  unfold claims_after. change (steps_alone 7 i) with (fun gs => Step i gs :: Step i gs :: Step i gs
    :: Step i gs :: steps_alone 3 i gs). cbn [acts at_pc w_gating].
  set (cache := w.(w_multi).(gatingSequenceCache)) in *.
  rewrite (at_pc_quiet w i cache _ w.(w_gating) cache (HaveCurrent NEXT n cur)) by done.
  cbn [mbind option_bind].
  rewrite (at_pc_quiet w i cache _ w.(w_gating) cache (NeedGating NEXT n cur))
    by (done || (cbn [mp_step gatingSequenceCache]; by rewrite Hf)).
  cbn [mbind option_bind].
  rewrite (at_pc_quiet w i cache _ w.(w_gating) cache (HaveGating NEXT n cur g)).
  2-4: done. 2:{ cbn [mp_step mp_bufferSize ring_of]. fold g. by rewrite (proj2 (Z.ltb_ge g _)) by lia. }
  cbn [mbind option_bind].
  rewrite (at_pc_quiet w i cache _ w.(w_gating) g (Head NEXT n)) by done. cbn [mbind option_bind].
  apply (claim_fast w i n g Hinv Hl). fold cur. unfold cache_fails. cbn [mp_bufferSize ring_of].
  apply orb_false_iff. split; apply Z.ltb_ge; lia.
Qed.

(** The world before the first call. *)
Definition mp_start (m : multi) (consumers producers : nat) : mp_world :=
  mk_mp_world (replicate consumers InitialCursorValue) m (replicate consumers InitialCursorValue) (replicate producers Idle) [].

Lemma start_inv `{UtilLog2Laws} rr m consumers producers : (0 < consumers)%nat ->
  MultiProducerSequencer size = Ok (rr, m) -> rr = r /\ mp_inv (mp_start m consumers producers).
Proof using Hk SL.
  intros Hc Hm. unfold MultiProducerSequencer in Hm.
  apply result_bind_Ok in Hm as (? & _ & [= <- <-]). rewrite util_log2_spec by lia. split; [done|].
  pose proof (size_pos k Hk). assert (Hno : forall i pc s, replicate producers Idle !! i = Some pc -> owns pc s -> False).
  { intros i pc s [-> _]%lookup_replicate. done. }
  constructor; cbn [mp_start w_scanned w_multi w_gating w_threads w_published mp_cursor gatingSequenceCache availableBuffer].
  - destruct consumers; [lia|done].
  - by apply Forall_replicate.
  - apply Forall_replicate. unfold InitialCursorValue. lia.
  - apply Forall_replicate. unfold InitialCursorValue. lia.
  - apply length_replicate.
  - intros s Hs. unfold InitialCursorValue in Hs. pose proof (index_range k Hk s).
    rewrite lookup_replicate_2 by lia. rewrite decide_True by (left; lia).
    by rewrite flag_initial by (done || lia).
  - by apply Forall_nil_2.
  - intros i pc s Hi Ho. by destruct (Hno _ _ _ Hi Ho).
  - intros i j pi pj s Hi _ Ho _. by destruct (Hno _ _ _ Hi Ho).
  - intros s Hs. unfold InitialCursorValue in Hs. lia.
  - by intros i pc [-> _]%lookup_replicate.
  - intros j h [-> _]%lookup_replicate. unfold InitialCursorValue. split; [lia|]. intros s Hs. lia.
  - intros j g h [-> _]%lookup_replicate [-> _]%lookup_replicate. done.
  - by rewrite !length_replicate.
Qed.
End Worlds.

(** ** What the sequencer promises *)

Section Promises.
Context {SU : SequenceUtil} {SL : SequenceUtilLaws} {UL : UtilLog2} {ULL : UtilLog2Laws}.
Context (bufferSize : Z) (rr : multi_ring) (m : multi) (consumers producers : nat).
Context (Hsize : ring_size bufferSize) (Hcons : (0 < consumers)%nat).
Context (Hnew : MultiProducerSequencer bufferSize = Ok (rr, m)).

Lemma mp_reachable_inv l w : acts rr l (mp_start m consumers producers) = Some w ->
  exists k, 0 <= k <= 30 /\ bufferSize = 2 ^ k /\ rr = ring_of k /\ mp_inv k w.
Proof using All.
  intros Hl. destruct Hsize as (k & Hk & Hb). rewrite Hb in Hnew.
  destruct (start_inv k Hk rr m consumers producers Hcons Hnew) as [Hr Hinv]. subst rr.
  exists k. split; [done|]. split; [done|]. split; [done|]. by apply (acts_inv k Hk l _ w Hinv).
Qed.

(** C17: Whatever the order of the steps of all producers and consumers: a sequence
    that a producer has claimed and not yet published is claimed by no other
    producer, is not published, and its place in the ring is free, since every
    consumer is done with the sequence that had the place a round before; and no
    sequence up to the cursor is lost, each is published or some producer's. *)
Theorem mp_claims_exclusive l w :
  acts rr l (mp_start m consumers producers) = Some w ->
  (forall i pc s, w.(w_threads) !! i = Some pc -> owns pc s ->
     (s ∉ w.(w_published))
     /\ (forall j pj, w.(w_threads) !! j = Some pj -> owns pj s -> j = i)
     /\ Forall (fun g => g < s <= g + bufferSize) w.(w_gating))
  /\ (forall s, 0 <= s <= w.(w_multi).(mp_cursor) ->
     s ∈ w.(w_published) \/ exists i pc, w.(w_threads) !! i = Some pc /\ owns pc s).
Proof using All.
  intros Hl. destruct (mp_reachable_inv l w Hl) as (k & Hk & -> & -> & Hinv). split; [|apply Hinv].
  intros i pc s Hi Ho. destruct (i_owned _ _ Hinv _ _ _ Hi Ho) as [Hs Hp]. split; [done|]. split.
  - intros j pj Hj Hoj. by apply (i_excl _ _ Hinv j i pj pc s).
  - pose proof (i_gate _ _ Hinv) as Hg. pose proof (i_behind _ _ Hinv) as Hb.
    rewrite Forall_forall in *. intros g Hin. specialize (Hg g Hin). specialize (Hb g Hin). cbn in Hb.
    split; [|lia]. destruct (decide (s <= g)); [|lia]. destruct Hp. apply Hb. lia.
Qed.

(** C18: Whatever the order of the steps, getHighestPublishedSequence shows a consumer
    that has processed everything up to [g] exactly the sequences that follow and
    are published without a gap: all up to its answer are published, and the next
    one, if there is one, is not.  A consumer whose loop is interrupted between the
    places it looks at has still found published ones only. *)
Theorem mp_consumer_sees_published l w g :
  acts rr l (mp_start m consumers producers) = Some w -> g ∈ w.(w_gating) ->
  let h := getHighestPublishedSequence rr w.(w_multi) (g + 1) w.(w_multi).(mp_cursor) in
  g <= h <= w.(w_multi).(mp_cursor) /\ (forall s, g < s <= h -> s ∈ w.(w_published))
  /\ (h < w.(w_multi).(mp_cursor) -> h + 1 ∉ w.(w_published))
  /\ (forall j found s, w.(w_scanned) !! j = Some found -> 0 <= s <= found -> s ∈ w.(w_published)).
Proof using All.
  intros Hl Hg. destruct (mp_reachable_inv l w Hl) as (k & Hk & _ & -> & Hinv).
  destruct (highest_published k Hk w g Hinv Hg) as (H1 & H2 & H3). cbn. split_and!; [lia|lia|done|done|].
  intros j found s Hj. apply (i_scanned _ _ Hinv j found Hj).
Qed.

(** A claim of more places than the ring has is not rejected, and never granted:
    next(n) spins for ever. *)
Lemma mp_oversize_never_granted l w i c n cur :
  acts rr l (mp_start m consumers producers) = Some w ->
  w.(w_threads) !! i = Some (TryClaim c n cur) -> n <= bufferSize.
Proof using All.
  intros Hl Hi. destruct (mp_reachable_inv l w Hl) as (k & Hk & -> & -> & Hinv).
  destruct (i_pc _ _ Hinv _ _ Hi) as (Hn & _). lia.
Qed.

(** C37: When the ring has room for [n] more sequences beyond what the slowest consumer
    still needs, a producer at the head of next(n) that is not interrupted has claimed
    them after at most seven accesses to what is shared, however old the cache is. *)
Theorem mp_next_returns l w i n :
  acts rr l (mp_start m consumers producers) = Some w ->
  w.(w_threads) !! i = Some (Head NEXT n) ->
  Forall (fun g => w.(w_multi).(mp_cursor) + n - bufferSize <= g) w.(w_gating) ->
  exists t w', (t <= 7)%nat /\ acts rr (replicate t (Step i w.(w_gating))) w = Some w'
    /\ w'.(w_threads) !! i
       = Some (Claimed (w.(w_multi).(mp_cursor) + 1) (w.(w_multi).(mp_cursor) + n)).
Proof using All.
  intros Hl Hi Hg. destruct (mp_reachable_inv l w Hl) as (k & Hk & -> & -> & Hinv).
  destruct (cache_fails (ring_of k) n w.(w_multi).(mp_cursor) w.(w_multi).(gatingSequenceCache)) eqn:Hf.
  - assert (Hn : n <= 2 ^ k).
    { destruct (gating_some _ _ (i_some _ _ Hinv) (proj2 (Forall_and _ _) (conj Hg (i_gate _ _ Hinv))))
        as (g & _ & ? & ? & _). lia. }
    destruct (claim_refresh k w i n Hinv Hi Hf Hg Hn) as (w' & ? & ?). by exists 7%nat, w'.
  - pose proof (claim_fast k w i n _ Hinv ltac:(by eapply lookup_lt_Some) Hf) as Hc.
    rewrite at_pc_self in Hc by done. destruct Hc as (w' & ? & ?). exists 3%nat, w'.
    split; [lia|done].
Qed.
End Promises.

(** ** Two producers and a consumer on a ring of four places *)

Section Examples.
#[local] Existing Instances util_example util_example_laws.
#[local] Instance log2_example : UtilLog2 := Z.log2.
#[local] Instance log2_example_laws : UtilLog2Laws.
Proof. intros k Hk. by apply Z.log2_pow2. Qed.

Definition ring_example : multi_ring := mk_ring 4 3 2.
Definition multi_example : multi := mk_multi (-1) (-1) [-1; -1; -1; -1].

Lemma new_example : MultiProducerSequencer 4 = Ok (ring_example, multi_example).
Proof. reflexivity. Qed.

Lemma four_places : ring_size 4.
Proof. exists 2. split; [lia|reflexivity]. Qed.

(** Both producers read the cursor before one of them claims; the other tries again. *)
Definition race : list mp_action :=
  [Call 0 NEXT 1; Call 1 NEXT 2; Step 0 [-1]; Step 1 [-1]; Step 0 [-1]; Step 1 [-1];
   Step 1 [-1]; Step 0 [-1]; Step 0 [-1]; Step 0 [-1]; Step 0 [-1]].

Definition raced : mp_world :=
  mk_mp_world [-1] (mk_multi 2 (-1) [-1; -1; -1; -1]) [-1] [Claimed 2 2; Claimed 0 1] [].

Lemma mp_claims_exclusive_witness :
  acts ring_example race (mp_start multi_example 1 2) = Some raced
  /\ forall pj, owns pj 2 -> raced.(w_threads) !! 1%nat = Some pj -> 1%nat = 0%nat.
Proof.
  assert (Hr : acts ring_example race (mp_start multi_example 1 2) = Some raced) by reflexivity.
  split; [exact Hr|]. intros pj Ho Hj.
  pose proof (mp_claims_exclusive 4 ring_example multi_example 1 2 four_places Nat.lt_0_1 new_example
    race raced Hr) as [Hx _].
  destruct (Hx 0%nat (Claimed 2 2) 2 eq_refl) as (_ & Hy & _); [split; reflexivity || discriminate|].
  exact (Hy 1%nat pj Hj Ho).
Defined.

(** The claim of 2 is published before those of 0 and 1: the consumer sees nothing
    until they are published too. *)
Definition published_2 : mp_world :=
  mk_mp_world [-1] (mk_multi 2 (-1) [-1; -1; 0; -1]) [-1] [Publishing 3 2; Claimed 0 1] [2].

Lemma mp_consumer_sees_published_witness :
  acts ring_example (race ++ [Publish 0; Step 0 [-1]]) (mp_start multi_example 1 2) = Some published_2
  /\ getHighestPublishedSequence ring_example published_2.(w_multi) 0 2 = -1
  /\ (0 ∉ published_2.(w_published)).
Proof.
  assert (Hr : acts ring_example (race ++ [Publish 0; Step 0 [-1]]) (mp_start multi_example 1 2)
    = Some published_2) by reflexivity.
  split; [exact Hr|]. split; [reflexivity|].
  destruct (mp_consumer_sees_published 4 ring_example multi_example 1 2 four_places Nat.lt_0_1 new_example
    (race ++ [Publish 0; Step 0 [-1]]) published_2 (-1) Hr) as (_ & _ & Hn & _); [left|].
  apply Hn. reflexivity.
Defined.

(** A consumer looks while the other producer publishes 0 and 1: it finds 0, not yet 1,
    then 1, and goes on to it. *)
Example looks_between :
  (λ w, (w.(w_scanned), w.(w_gating), w.(w_published))) <$>
    acts ring_example (race ++ [Publish 1; Step 1 [-1]; Look 0; Look 0; Step 1 [-1]; Look 0; Consume 0 1; Look 0])
      (mp_start multi_example 1 2) = Some ([1], [1], [1; 0]).
Proof. reflexivity. Qed.

Definition called : mp_world :=
  mk_mp_world [-1] multi_example [-1] [Head NEXT 3; Idle] [].

Lemma mp_next_returns_witness :
  exists t w', (t <= 7)%nat
    /\ acts ring_example (replicate t (Step 0 [-1])) called = Some w'
    /\ w'.(w_threads) !! 0%nat = Some (Claimed 0 2).
Proof.
  apply (mp_next_returns 4 ring_example multi_example 1 2 four_places Nat.lt_0_1 new_example
    [Call 0 NEXT 3] called 0%nat 3).
  - reflexivity.
  - reflexivity.
  - apply Forall_cons_2; [discriminate|apply Forall_nil_2].
Defined.
End Examples.
