(* ===== verification/BoundedQueue.v ===== *)
(** The fixed-size blocking queue of ersap_grpc_assemble.hpp.  Each method holds
    the mutex while it looks at or changes the contents, so that a method is one
    atomic step; one that waits on a condition variable is enabled when its
    condition holds. *)
From S2P Require Import Prelude.

Section Queue.
Context {T : Type}.

Record queue := mk_queue { content : list T; capacity : Z }.

Definition new_queue (capacity : Z) : queue := mk_queue [] capacity.

(** [None]: wait for [not_full]. *)
Definition push (q : queue) (item : T) : option queue :=
  if zlen q.(content) <? q.(capacity) then Some (mk_queue (q.(content) ++ [item]) q.(capacity)) else None.

Definition try_push (q : queue) (item : T) : queue * bool :=
  if zlen q.(content) =? q.(capacity) then (q, false)
  else (mk_queue (q.(content) ++ [item]) q.(capacity), true).

(** [None]: wait for [not_empty]. *)
Definition pop (q : queue) : option (queue * T) :=
  match q.(content) with [] => None | x :: xs => Some (mk_queue xs q.(capacity), x) end.

Definition try_pop (q : queue) : queue * option T :=
  match q.(content) with [] => (q, None) | x :: xs => (mk_queue xs q.(capacity), Some x) end.

Definition size (q : queue) : Z := zlen q.(content).

(** Threads that use the queue: the queue, what was put in and what was taken out
    so far, in order. *)
Record traffic := mk_traffic { tr_queue : queue; tr_in : list T; tr_out : list T }.

Inductive qstep : traffic -> traffic -> Prop :=
  | q_push q i o x q' : push q x = Some q' ->
      qstep (mk_traffic q i o) (mk_traffic q' (i ++ [x]) o)
  | q_try_push q i o x q' b : try_push q x = (q', b) ->
      qstep (mk_traffic q i o) (mk_traffic q' (if b then i ++ [x] else i) o)
  | q_pop q i o x q' : pop q = Some (q', x) ->
      qstep (mk_traffic q i o) (mk_traffic q' i (o ++ [x]))
  | q_try_pop q i o x q' : try_pop q = (q', x) ->
      qstep (mk_traffic q i o) (mk_traffic q' i (o ++ option_list x)).

Inductive traffic_from (cap : Z) : traffic -> Prop :=
  | t_new : traffic_from cap (mk_traffic (new_queue cap) [] [])
  | t_step t t' : traffic_from cap t -> qstep t t' -> traffic_from cap t'.

Lemma traffic_inv cap t : 0 <= cap -> traffic_from cap t ->
  t.(tr_queue).(capacity) = cap /\ zlen t.(tr_queue).(content) <= cap
  /\ t.(tr_in) = t.(tr_out) ++ t.(tr_queue).(content).
Proof.
  intros Hcap. induction 1 as [|t t' _ (Hc & Hl & Hf) Hs]; [done|].
  destruct Hs as [q i o x q' Hp|q i o x q' b Hp|q i o x q' Hp|q i o x q' Hp]; cbn in *.
  - unfold push in Hp. destruct (Z.ltb_spec (zlen q.(content)) q.(capacity)); [|done].
    injection Hp as <-. cbn. rewrite length_app, Hf, <- app_assoc. cbn. split; [done|]. split; [lia|done].
  - unfold try_push in Hp. destruct (Z.eqb_spec (zlen q.(content)) q.(capacity)); injection Hp as <- <-; [done|].
    cbn. rewrite length_app, Hf, <- app_assoc. cbn. split; [done|]. split; [lia|done].
  - unfold pop in Hp. destruct q.(content) as [|y ys] eqn:Hq; [done|]. injection Hp as <- <-. cbn.
    rewrite Hf, <- app_assoc. cbn in *. split; [done|]. split; [lia|done].
  - unfold try_pop in Hp. destruct q.(content) as [|y ys] eqn:Hq; injection Hp as <- <-; cbn.
    + rewrite app_nil_r, Hq. done.
    + rewrite Hf, <- app_assoc. cbn in *. split; [done|]. split; [lia|done].
Qed.

(** C39: the queue is a bounded buffer, whatever threads do: what was put in comes
    out in the same order, nothing is lost or doubled, never more than [capacity]
    items wait, and with a capacity of one or more a producer and a consumer are
    never both blocked; a failed [try_push] or [try_pop] means full or empty. *)
Theorem queue_bounded_fifo (cap : Z) (t : traffic) (x : T) : 0 <= cap -> traffic_from cap t ->
  t.(tr_in) = t.(tr_out) ++ t.(tr_queue).(content)
  /\ 0 <= size t.(tr_queue) <= cap
  /\ (1 <= cap -> is_Some (push t.(tr_queue) x) \/ is_Some (pop t.(tr_queue)))
  /\ ((try_push t.(tr_queue) x).2 = false <-> size t.(tr_queue) = cap)
  /\ ((try_pop t.(tr_queue)).2 = None <-> size t.(tr_queue) = 0).
Proof.
  intros Hcap Ht. destruct (traffic_inv cap t Hcap Ht) as (Hc & Hl & Hf).
  unfold size, push, pop, try_push, try_pop. rewrite Hc.
  split; [done|]. split; [lia|]. split; [|split].
  - intros H1. destruct (Z.ltb_spec (zlen t.(tr_queue).(content)) cap); [left; by eexists|].
    right. destruct t.(tr_queue).(content); [cbn in *; lia|by eexists].
  - destruct (Z.eqb_spec (zlen t.(tr_queue).(content)) cap); cbn; naive_solver.
  - destruct t.(tr_queue).(content); cbn; [done|]. split; [done|lia].
Qed.
End Queue.
Arguments queue : clear implicits.
Arguments traffic : clear implicits.

Lemma queue_bounded_fifo_witness :
  (try_push (mk_queue [1; 2] 2) 3).2 = false
  /\ [1; 2] = [] ++ content (mk_queue [1; 2] 2).
Proof.
  assert (Ht : traffic_from 2 (mk_traffic (mk_queue [1; 2] 2) [1; 2] [])).
  { apply (t_step 2 (mk_traffic (mk_queue [1] 2) [1] [])); [|by apply (q_push _ [1] [] 2)].
    apply (t_step 2 (mk_traffic (mk_queue [] 2) [] [])); [apply t_new|by apply (q_push _ [] [] 1)]. }
  destruct (queue_bounded_fifo 2 _ 3 ltac:(lia) Ht) as (H1 & _ & _ & [_ H2] & _).
  split; [apply H2; reflexivity|exact H1].
Defined.
