(* ===== verification/GrpcSim.v ===== *)
(** The simulated traffic of ersap_grpc_packetize.hpp and ersap_grpc_assemble.hpp:
    sendPacketizedBuf sends packets of junk that carry the total number of packets
    and their own number; getReassembledBuffer counts them and writes the order
    in which they came into the buffer.  The headers, the sorting into ticks and
    the statistics are those of Wire.v and Assemble.v. *)
From S2P Require Import Prelude Bytes ByteOrder Wire Socket Sender Packetize Assemble.

(** ** sendPacketizedBuf *)

Record sim_job := mk_sim_job {
  sj_dataLen : Z;
  sj_maxUdpPayload : Z;
  sj_backendTime : Z;
  sj_tick : Z; sj_protocol : Z; sj_entropy : Z; sj_version : Z; sj_dataId : Z;
  sj_delay : Z; sj_delayPrescale : Z; sj_delayCounter : Z
}.

(** The locals that change, and what has happened: packets taken by the kernel,
    sleeps, calls of send. *)
Record sim_sender := mk_sim_sender {
  ss_remainingBytes : Z;
  ss_localOffset : Z;
  ss_packetCounter : Z;
  ss_remainingPackets : Z;
  ss_buffer : list Z;
  ss_delayCounter : Z;
  ss_net : list (list Z);
  ss_naps : nat;
  ss_calls : nat
}.

Record sim_sent := mk_sim_sent {
  so_ret : Z;
  so_packetsSent : Z;
  so_delayCounter : Z;
  so_net : list (list Z);
  so_naps : nat
}.

Section SimSend.
Context {host : Host} {sock : Socket}.

(** [(dataLen + maxUdpPayload - 1) / maxUdpPayload] in unsigned 32-bit arithmetic. *)
Definition sim_totalPackets (j : sim_job) : option Z :=
  let m := u32 j.(sj_maxUdpPayload) in
  if decide (m = 0) then None else Some (u32 (j.(sj_dataLen) + m - 1) / m).

(** Before the loop; [storage] is what the uninitialised buffer of 10000 bytes holds. *)
Definition sim_enter (j : sim_job) (storage : list Z) : option (sim_sender * Z) :=
  totalPackets ← sim_totalPackets j;
  b ← grpc_setLbMetadata storage 0 j.(sj_tick) j.(sj_version) j.(sj_protocol) j.(sj_entropy);
  b ← put32 b HEADER_BYTES (htonl j.(sj_backendTime));
  b ← put32 b (HEADER_BYTES + 4) (htonl totalPackets);
  Some (mk_sim_sender j.(sj_dataLen) 0 0 totalPackets b j.(sj_delayCounter) [] 0 0, totalPackets).

Definition sim_step (j : sim_job) (totalPackets : Z) (s : sim_sender) : outcome sim_sender sim_sent :=
  if 0 <? s.(ss_remainingPackets) then
    let remainingPackets := s.(ss_remainingPackets) - 1 in
    let m := u32 j.(sj_maxUdpPayload) in
    let bytesToWrite := if m <? s.(ss_remainingBytes) then m else s.(ss_remainingBytes) in
    let packetCounter := u32 (s.(ss_packetCounter) + 1) in
    match
      b ← grpc_setReMetadata s.(ss_buffer) LB_HEADER_BYTES s.(ss_localOffset) j.(sj_dataLen)
            j.(sj_tick) j.(sj_version) j.(sj_dataId);
      b ← put32 b (HEADER_BYTES + 8) (htonl packetCounter);
      pkt ← load b 0 (u32 (bytesToWrite + HEADER_BYTES));
      Some (b, pkt)
    with
    | None => Stuck
    | Some (b, pkt) =>
      match sock_send SEND s.(ss_calls) pkt with
      | SendErr _ =>
        Halt (mk_sim_sent (-1) (u32 (totalPackets - remainingPackets - 1)) s.(ss_delayCounter)
                s.(ss_net) s.(ss_naps))
      | Sent _ =>
        let '(dc, naps) := delay_prescaled j.(sj_delay) j.(sj_delayPrescale) s.(ss_delayCounter)
                             s.(ss_naps) in
        Next (mk_sim_sender (u32 (s.(ss_remainingBytes) - bytesToWrite))
                (u32 (s.(ss_localOffset) + bytesToWrite)) packetCounter remainingPackets b dc
                (s.(ss_net) ++ [pkt]) naps (S s.(ss_calls)))
      end
    end
  else Halt (mk_sim_sent 0 totalPackets s.(ss_delayCounter) s.(ss_net) s.(ss_naps)).

Definition sendPacketizedBuf (j : sim_job) (storage : list Z) (fuel : nat)
    : outcome sim_sender sim_sent :=
  match sim_enter j storage with
  | None => Stuck
  | Some (s, totalPackets) => run (sim_step j totalPackets) fuel s
  end.
End SimSend.

(** ** getReassembledBuffer *)

(** The vector: its memory (as long as its capacity) and its size; [fresh n] is
    the memory a reallocation for [n] elements finds. *)
Record vec := mk_vec { vec_data : list Z; vec_size : nat }.

Record sim_reader := mk_sim_reader {
  sr_tick : Z;
  sr_prescale : Z
}.

Record sim_result := mk_sim_result {
  sr_ret : Z;
  sr_vec : vec;
  sr_tick_out : Z;
  sr_dataId : option Z;
  sr_stats : option packetRecvStats
}.

(** The locals; [sv_pkt] is the packet buffer of 9100 bytes. *)
Record sim_receiver := mk_sim_receiver {
  sv_sorter : sorter;
  sv_vec : vec;
  sv_bufLen : Z;
  sv_pkt : list Z
}.

Section SimReceive.
Context {host : Host} (fresh : Z -> list Z).

(** [vec.reserve(n)]: the elements are kept, not what lies behind them. *)
Definition reserve (v : vec) (n : Z) : vec :=
  if zlen v.(vec_data) <? n then
    mk_vec (take v.(vec_size) v.(vec_data) ++ drop v.(vec_size) (fresh n)) v.(vec_size)
  else v.

Definition sim_error (r : sim_reader) (e : errorCodes) (s : sim_receiver)
    : outcome sim_receiver sim_result :=
  Halt (mk_sim_result (error_code e) s.(sv_vec) r.(sr_tick) None s.(sv_sorter).(stats)).

(** From the parsed header to the decision whether to copy: [None] when the packet
    is of another source. *)
Definition sim_sort (s : sorter) (pktData : option (Z * Z * Z)) (id offset length tick : Z)
    : option (sorter * option (bool * Z)) :=
  let prevLength := s.(length_) in
  let s := mk_sorter s.(prevTick) length s.(pktCount) s.(totalPkts) s.(dumpTick) s.(veryFirstRead)
             (if s.(veryFirstRead) then id else s.(srcId)) s.(totalBytesRead) s.(discPackets)
             s.(discBytes) s.(discBufs) s.(stats) in
  if negb (id =? s.(srcId)) then Some (s, None)
  else
    '(_, totalPkts', pktSequence) ← pktData;
    let prevTotalPkts := s.(totalPkts) in
    let s := mk_sorter s.(prevTick) s.(length_) s.(pktCount) totalPkts' s.(dumpTick)
               s.(veryFirstRead) s.(srcId) s.(totalBytesRead) s.(discPackets) s.(discBytes)
               s.(discBufs) s.(stats) in
    '(s, accept) ← sort_tick s prevLength prevTotalPkts id offset tick;
    Some (s, Some (accept, pktSequence)).

Definition getReassembledBuffer_step (r : sim_reader) (s : sim_receiver) (ev : recv_event)
    : outcome sim_receiver sim_result :=
  let s := mk_sim_receiver (begin_read s.(sv_sorter)) s.(sv_vec) s.(sv_bufLen) s.(sv_pkt) in
  match ev with
  | RecvErr _ => sim_error r RECV_MSG s
  | Datagram bytes =>
    let got := received 9100 bytes in
    let pkt := splice 0 got s.(sv_pkt) in
    let bytesRead := zlen got in
    if bytesRead <? RECV_HEADER then sim_error r INTERNAL_ERROR s
    else
      let dataBytes := bytesRead - RECV_HEADER in
      match
        '(_, id, offset, length, tick) ← parseReHeader pkt;
        '(st, what) ← sim_sort s.(sv_sorter) (parsePacketData (drop (Z.to_nat RECV_HEADER) pkt))
                        id offset length tick;
        Some (st, what, id, offset, length, tick)
      with
      | None => Stuck
      | Some (st, None, _, _, _, _) | Some (st, Some (false, _), _, _, _, _) =>
        Next (mk_sim_receiver st s.(sv_vec) s.(sv_bufLen) pkt)
      | Some (st, Some (true, pktSequence), id, offset, length, tick) =>
        let '(v, bufLen) :=
          if st.(veryFirstRead) && (s.(sv_bufLen) <? length) then (reserve s.(sv_vec) length, length)
          else (s.(sv_vec), s.(sv_bufLen)) in
        match
          d ← load pkt RECV_HEADER dataBytes;
          m ← store v.(vec_data) offset d;
          put32 m (12 + u32 (4 * st.(pktCount))) pktSequence
        with
        | None => Stuck
        | Some m =>
          let v := mk_vec m v.(vec_size) in
          let st := count_packet st dataBytes tick in
          if st.(totalPkts) <=? st.(pktCount) then
            match final_stats st r.(sr_tick) r.(sr_prescale) tick with
            | None => Stuck
            | Some stats => Halt (mk_sim_result st.(totalBytesRead) v tick (Some id) stats)
            end
          else Next (mk_sim_receiver st v bufLen pkt)
        end
      end
  end.

(** [pkt0]: what the uninitialised packet buffer holds. *)
Definition getReassembledBuffer (r : sim_reader) (stats : option packetRecvStats) (v : vec)
    (pkt0 : list Z) (evs : list recv_event) : outcome sim_receiver sim_result :=
  feed (getReassembledBuffer_step r)
    (mk_sim_receiver (sorter_start 0 0 stats) v (zlen v.(vec_data)) pkt0) evs.
End SimReceive.

(** ** What the simulator sends *)

Definition sim_job_ok (j : sim_job) : Prop :=
  is_u32 j.(sj_dataLen) /\ is_u64 j.(sj_tick) /\ 0 < j.(sj_maxUdpPayload) <= 10000 - HEADER_BYTES
  /\ j.(sj_dataLen) + j.(sj_maxUdpPayload) <= 4294967296.

Lemma seqZ_S k : 0 <= k -> seqZ 0 (k + 1) = seqZ 0 k ++ [k].
Proof. intros. by rewrite seqZ_app by lia. Qed.

Section SimSpec.
Context {host : Host} (j : sim_job) (storage : list Z).
Context (Hj : sim_job_ok j) (Hst : length storage = Z.to_nat 10000).

Definition sim_total : Z := (j.(sj_dataLen) + j.(sj_maxUdpPayload) - 1) / j.(sj_maxUdpPayload).

(** The headers, the reserved bytes being those of the uninitialised buffer. *)
Definition sim_lb : list Z :=
  [76; 66; u8 j.(sj_version); u8 j.(sj_protocol)] ++ take 2 (drop 4 storage)
    ++ be_bytes 2 (u16 j.(sj_entropy)) ++ be_bytes 8 j.(sj_tick).
Definition sim_re (off : Z) : list Z :=
  [u8 (Z.shiftl j.(sj_version) 4)] ++ take 1 (drop 17 storage) ++ be_bytes 2 j.(sj_dataId)
    ++ be_bytes 4 off ++ be_bytes 4 j.(sj_dataLen) ++ be_bytes 8 j.(sj_tick).

(** The number of data bytes of packet [k], from 0 on. *)
Definition sim_bytes (k : Z) : Z :=
  Z.min j.(sj_maxUdpPayload) (j.(sj_dataLen) - k * j.(sj_maxUdpPayload)).

(** The data: backend time, number of packets, number of the packet, junk. *)
Definition sim_payload (k : Z) : list Z :=
  take (Z.to_nat (sim_bytes k))
    (be_bytes 4 j.(sj_backendTime) ++ be_bytes 4 sim_total ++ be_bytes 4 (k + 1) ++ drop 48 storage).

Definition sim_packet (k : Z) : list Z :=
  sim_lb ++ sim_re (k * j.(sj_maxUdpPayload)) ++ sim_payload k.

Lemma length_sim_lb : length sim_lb = 16%nat.
Proof using Hst.
  unfold sim_lb. rewrite !length_app, !length_be_bytes, length_take, length_drop, Hst. cbn [length]. lia.
Qed.
Lemma length_sim_re off : length (sim_re off) = 20%nat.
Proof using Hst.
  unfold sim_re. rewrite !length_app, !length_be_bytes, length_take, length_drop, Hst. cbn [length]. lia.
Qed.

Lemma sim_max_u32 : u32 j.(sj_maxUdpPayload) = j.(sj_maxUdpPayload).
Proof using Hj. clear Hst. destruct Hj as (_ & _ & ? & _). unfold HEADER_BYTES in *. apply u32_small. lia. Qed.

Lemma sim_total_spec : sim_totalPackets j = Some sim_total
  /\ 0 <= sim_total < 4294967296
  /\ (forall k, 0 <= k < sim_total -> k * j.(sj_maxUdpPayload) < j.(sj_dataLen))
  /\ j.(sj_dataLen) <= sim_total * j.(sj_maxUdpPayload).
Proof using Hj.
  clear Hst. unfold sim_totalPackets. rewrite sim_max_u32. destruct Hj as ([? ?] & _ & Hm & Hs).
  unfold HEADER_BYTES in Hm. rewrite decide_False by lia. rewrite u32_small by lia.
  unfold sim_total. set (L := j.(sj_dataLen)) in *. set (m := j.(sj_maxUdpPayload)) in *.
  pose proof (Z.div_mod (L + m - 1) m ltac:(lia)). pose proof (Z.mod_pos_bound (L + m - 1) m ltac:(lia)).
  split; [done|]. split; [|split].
  - split; [apply Z.div_pos; lia|]. apply Z.div_lt_upper_bound; nia.
  - intros k Hk. nia.
  - nia.
Qed.

(** The locals after [k] packets. *)
Definition sim_buffer (re x : list Z) : list Z :=
  sim_lb ++ re ++ (be_bytes 4 j.(sj_backendTime) ++ be_bytes 4 sim_total) ++ x ++ drop 48 storage.

Record sim_at (k : Z) (s : sim_sender) : Prop := mk_sim_at {
  at_range : 0 <= k <= sim_total;
  at_left : s.(ss_remainingPackets) = sim_total - k;
  at_bytes : k < sim_total -> s.(ss_remainingBytes) = j.(sj_dataLen) - k * j.(sj_maxUdpPayload);
  at_offset : k < sim_total -> s.(ss_localOffset) = k * j.(sj_maxUdpPayload);
  at_counter : s.(ss_packetCounter) = k;
  at_buffer : exists re x, s.(ss_buffer) = sim_buffer re x /\ length re = 20%nat /\ length x = 4%nat
      /\ take 1 (drop 1 re) = take 1 (drop 17 storage);
  at_net : s.(ss_net) = map sim_packet (seqZ 0 k);
  at_calls : Z.of_nat s.(ss_calls) = k
}.

(** Writing the header and the number of a packet gives the packet. *)
Lemma sim_write re x k : length re = 20%nat -> length x = 4%nat ->
  take 1 (drop 1 re) = take 1 (drop 17 storage) -> 0 <= k < sim_total ->
  exists b,
    (b ← grpc_setReMetadata (sim_buffer re x) LB_HEADER_BYTES (k * j.(sj_maxUdpPayload)) j.(sj_dataLen)
           j.(sj_tick) j.(sj_version) j.(sj_dataId);
     b ← put32 b (HEADER_BYTES + 8) (htonl (k + 1));
     pkt ← load b 0 (sim_bytes k + HEADER_BYTES);
     Some (b, pkt)) = Some (b, sim_packet k)
    /\ b = sim_buffer (sim_re (k * j.(sj_maxUdpPayload))) (be_bytes 4 (k + 1)).
Proof using Hj Hst.
  intros Hre Hx Hres Hk. destruct sim_total_spec as (_ & Ht & Hlt & _). specialize (Hlt k Hk).
  destruct Hj as ([? ?] & Htick & Hm & _). pose proof length_sim_lb as Hlb.
  unfold LB_HEADER_BYTES, HEADER_BYTES in *.
  assert (Hd : length (drop 48 storage) = Z.to_nat 9952) by (rewrite length_drop, Hst; lia).
  rewrite grpc_setReMetadata_spec; [|done|lia|unfold sim_buffer; rewrite !length_app, Hlb, Hre; lia].
  change (Z.to_nat 16) with 16%nat. cbn [mbind option_bind].
  set (hdr := _ ++ _). assert (Hhdr : hdr = sim_re (k * j.(sj_maxUdpPayload))).
  { unfold hdr, sim_re. do 2 f_equal. rewrite <- Hres. unfold sim_buffer.
    rewrite drop_app_ge by lia. rewrite Hlb. cbn [Nat.sub Nat.add].
    rewrite drop_app_le by lia. rewrite take_app_le; [done|]. rewrite length_drop. lia. }
  rewrite Hhdr. unfold sim_buffer at 1.
  rewrite splice_mid; [|by rewrite Hlb|by rewrite length_sim_re, Hre].
  unfold put32. rewrite order_bytes_htonl, be_bytes_u32.
  set (info := be_bytes 4 j.(sj_backendTime) ++ be_bytes 4 sim_total).
  assert (Hi : length info = 8%nat) by (unfold info; rewrite length_app, !length_be_bytes; done).
  replace (sim_lb ++ sim_re (k * j.(sj_maxUdpPayload)) ++ info ++ x ++ drop 48 storage)
    with ((sim_lb ++ sim_re (k * j.(sj_maxUdpPayload)) ++ info) ++ x ++ drop 48 storage)
    by (by rewrite <- !app_assoc).
  rewrite store_mid; [|rewrite !length_app, Hlb, length_sim_re, Hi; lia|by rewrite length_be_bytes].
  cbn [mbind option_bind]. eexists. split; [|unfold sim_buffer; by rewrite <- !app_assoc].
  assert (Hn : 0 <= sim_bytes k <= 9964) by (unfold sim_bytes; lia).
  rewrite load_spec; [|lia|lia|rewrite !length_app, Hlb, length_sim_re, Hi, length_be_bytes, Hd; lia].
  cbn [mbind option_bind]. change (Z.to_nat 0) with 0%nat. rewrite drop_0.
  match goal with |- context [take ?n ?l] => enough (take n l = sim_packet k) as -> by (by rewrite <- !app_assoc) end.
  unfold sim_packet, sim_payload, info. rewrite <- !app_assoc.
  rewrite take_app_ge by lia. f_equal. rewrite Hlb.
  rewrite take_app_ge by (rewrite length_sim_re; lia). f_equal. rewrite length_sim_re.
  f_equal. lia.
Qed.
(** The uninitialised buffer, cut where the fields are. *)
Lemma storage_parts : storage =
  take 16 storage ++ take 20 (drop 16 storage) ++ take 4 (drop 36 storage) ++ take 4 (drop 40 storage)
    ++ take 4 (drop 44 storage) ++ drop 48 storage.
Proof using.
  rewrite <- (take_drop 16 storage) at 1. f_equal.
  assert (forall n m, drop n storage = take m (drop n storage) ++ drop (n + m) storage) as Hcut.
  { intros n m. rewrite <- drop_drop. by rewrite take_drop. }
  etrans; [apply (Hcut 16%nat 20%nat)|f_equal]. etrans; [apply (Hcut 36%nat 4%nat)|f_equal].
  etrans; [apply (Hcut 40%nat 4%nat)|f_equal]. apply (Hcut 44%nat 4%nat).
Qed.

Lemma sim_enter_spec : exists re x,
  sim_enter j storage =
    Some (mk_sim_sender j.(sj_dataLen) 0 0 sim_total (sim_buffer re x) j.(sj_delayCounter) [] 0 0, sim_total)
  /\ length re = 20%nat /\ length x = 4%nat /\ take 1 (drop 1 re) = take 1 (drop 17 storage).
Proof using Hj Hst.
  pose proof sim_total_spec as (Htot & _). destruct Hj as (_ & Htick & _ & _).
  assert (Hl : forall n m, (n + m <= Z.to_nat 10000)%nat -> length (take m (drop n storage)) = m)
    by (intros; rewrite length_take, length_drop, Hst; lia).
  assert (H16 : length (take 16 storage) = 16%nat) by (rewrite length_take, Hst; lia).
  exists (take 20 (drop 16 storage)), (take 4 (drop 44 storage)).
  split; [|split; [by apply Hl; lia|split; [by apply Hl; lia|]]].
  - unfold sim_enter. rewrite Htot. cbn [mbind option_bind].
    assert (Hsp : splice 0 sim_lb storage = sim_lb ++ drop 16 storage).
    { rewrite <- (take_drop 16 storage) at 1.
      apply (splice_mid 0 [] (take 16 storage) sim_lb); [done|by rewrite length_sim_lb, H16]. }
    rewrite grpc_setLbMetadata_spec by (done || lia). cbn [mbind option_bind].
    change (Z.to_nat 0) with 0%nat. cbn [Nat.add]. fold sim_lb. rewrite Hsp.
    assert (Hp : drop 16 storage = _) by (apply (app_inv_head (take 16 storage)); rewrite take_drop; apply storage_parts).
    rewrite Hp at 1.
    unfold put32, HEADER_BYTES. rewrite !order_bytes_htonl. cbn [app].
    rewrite app_assoc. rewrite store_mid;
      [|rewrite length_app, length_sim_lb, Hl by lia; lia|rewrite length_be_bytes, Hl by lia; done].
    cbn [mbind option_bind]. rewrite (app_assoc _ (be_bytes 4 _)). rewrite store_mid;
      [|rewrite !length_app, length_sim_lb, length_be_bytes, Hl by lia; lia
       |rewrite length_be_bytes, Hl by lia; done].
    cbn [mbind option_bind]. unfold sim_buffer. rewrite !be_bytes_u32. by rewrite <- !app_assoc.
  - rewrite skipn_firstn_comm, drop_drop, take_take. done.
Qed.
(** What the routine has done when it returns. *)
Definition sim_done {sock : Socket} (r : sim_sent) : Prop := exists m,
  0 <= m <= sim_total /\ r.(so_net) = map sim_packet (seqZ 0 m) /\ r.(so_packetsSent) = m
  /\ ((r.(so_ret) = 0 /\ m = sim_total)
     \/ (r.(so_ret) = -1 /\ m < sim_total /\ exists e, sock_send SEND (Z.to_nat m) (sim_packet m) = SendErr e)).

Lemma sim_step_at {sock : Socket} s k : sim_at k s ->
  match sim_step j sim_total s with
  | Next s' => sim_at (k + 1) s' /\ k < sim_total
  | Halt r => sim_done r
  | Stuck => False
  end.
Proof using Hj Hst.
  intros [Hk Hleft Hbytes Hoff Hcnt (re & x & Hbuf & Hre & Hx & Hres) Hnet Hcalls].
  pose proof sim_total_spec as (_ & Ht & Hlt & Hge). pose proof sim_max_u32 as Hmx.
  destruct (decide (k = sim_total)) as [->|Hne]; unfold sim_step; rewrite Hleft.
  { rewrite (proj2 (Z.ltb_ge _ _)) by lia. exists sim_total. split_and!; [lia|lia|done|done|by left]. }
  specialize (Hbytes ltac:(lia)). specialize (Hoff ltac:(lia)). specialize (Hlt k ltac:(lia)).
  assert (Hnext : k + 1 < sim_total -> (k + 1) * j.(sj_maxUdpPayload) < j.(sj_dataLen))
    by (intros; pose proof sim_total_spec as (_ & _ & Hl & _); apply Hl; lia).
  pose proof Hj as ([H0 Hmax] & _ & Hm & Hsum). unfold HEADER_BYTES in Hm.
  rewrite (proj2 (Z.ltb_lt _ _)) by lia. rewrite Hmx, Hbytes, Hbuf, Hoff, Hcnt.
  replace (if _ <? _ then _ else _) with (sim_bytes k)
    by (unfold sim_bytes; destruct (Z.ltb_spec (j.(sj_maxUdpPayload)) (j.(sj_dataLen) - k * j.(sj_maxUdpPayload))); lia).
  assert (Hn : 0 < sim_bytes k <= 9964) by (unfold sim_bytes; lia).
  rewrite (u32_small (k + 1)), (u32_small (sim_bytes k + HEADER_BYTES)) by (unfold HEADER_BYTES; lia).
  destruct (sim_write re x k Hre Hx Hres ltac:(lia)) as (b & -> & Hb).
  replace (Z.to_nat k) with (ss_calls s) by lia.
  destruct (sock_send SEND (ss_calls s) (sim_packet k)) as [n|e] eqn:Hs.
  - destruct (delay_prescaled _ _ _ _) as [dc naps]. split; [|lia].
    split; cbn [ss_remainingPackets ss_remainingBytes ss_localOffset ss_packetCounter ss_buffer ss_net ss_calls].
    + lia.
    + lia.
    + intros Hk1. specialize (Hnext Hk1). unfold sim_bytes. rewrite u32_small; lia.
    + intros Hk1. specialize (Hnext Hk1). unfold sim_bytes. rewrite u32_small; lia.
    + done.
    + exists (sim_re (k * j.(sj_maxUdpPayload))), (be_bytes 4 (k + 1)).
      split_and!; [done|apply length_sim_re|apply length_be_bytes|].
      unfold sim_re. rewrite drop_app_ge by done. cbn [length Nat.sub]. rewrite drop_0.
      rewrite take_app_le, take_take; [done|].
      rewrite length_take, length_drop, Hst. lia.
    + by rewrite Hnet, seqZ_S, map_app by lia.
    + lia.
  - exists k. rewrite u32_small by lia. split_and!; [lia|lia|exact Hnet|cbn; lia|].
    right. split_and!; [done|lia|]. exists e. by replace (Z.to_nat k) with (ss_calls s) by lia.
Qed.
End SimSpec.

(** C24: sendPacketizedBuf always returns: it has sent the packets of the buffer in
    order, as many as it says, each with the load-balancer and reassembly headers
    and the backend time, the total number of packets and its own number in
    network order; all of them unless the kernel refused one, and then it has
    stopped there and returns an error. *)
Theorem sendPacketizedBuf_sends {host : Host} {sock : Socket} (j : sim_job) (storage : list Z) :
  sim_job_ok j -> length storage = Z.to_nat 10000 ->
  exists r, returns (sendPacketizedBuf j storage) r /\ sim_done j storage r.
Proof.
  intros Hj Hst. destruct (sim_enter_spec j storage Hj Hst) as (re & x & He & Hre & Hx & Hres).
  unfold sendPacketizedBuf. rewrite He.
  set (s0 := mk_sim_sender _ _ _ _ _ _ _ _ _).
  assert (H0 : sim_at j storage 0 s0).
  { pose proof (sim_total_spec j Hj) as (_ & Ht & _).
    split; try done; cbn [ss_remainingPackets ss_remainingBytes ss_localOffset ss_buffer s0]; try lia.
    by exists re, x. }
  destruct (terminates_total (sim_step j (sim_total j)) (fun s => exists k, sim_at j storage k s)
              (fun s => Z.to_nat s.(ss_remainingPackets)) (sim_done j storage) s0) as (r & Hr & Hq).
  - intros s [k Hk]. pose proof (sim_step_at j storage Hj Hst s k Hk) as Hs.
    destruct (sim_step j _ s) as [s'| |]; [|done|done]. destruct Hs as [Hs Hlt].
    split; [by exists (k + 1)|]. destruct Hk, Hs. lia.
  - by exists 0.
  - exists r. split; [by apply returns_run|done].
Qed.


(** 2500 bytes in packets of 1000 over a path of 9000 bytes. *)
Definition sim_job_example : sim_job := mk_sim_job 2500 1000 7 42 1 3 2 5 0 0 0.

Lemma sendPacketizedBuf_sends_witness :
  sim_job_ok sim_job_example /\ exists r,
    returns (@sendPacketizedBuf ENDIAN_LITTLE (path_mtu 9000) sim_job_example (replicate (Z.to_nat 10000) 0)) r
    /\ @sim_done sim_job_example (replicate (Z.to_nat 10000) 0) (path_mtu 9000) r.
Proof.
  assert (Hok : sim_job_ok sim_job_example)
    by (unfold sim_job_ok, HEADER_BYTES, is_u32, is_u64; cbn; lia).
  split; [exact Hok|].
  apply (@sendPacketizedBuf_sends ENDIAN_LITTLE (path_mtu 9000)); [exact Hok|apply length_replicate].
Defined.
