(* ===== verification/GrpcOrder.v ===== *)
(** The order of arrival that getReassembledBuffer writes into the buffer, and
    the composition of the simulated sender with the simulated receiver. *)
From S2P Require Import Prelude Bytes ByteOrder Wire Socket Sender Packetize Assemble GrpcSim.

(** ** The packets of one tick *)

Record sim_piece := mk_sim_piece {
  q_version : Z; q_reserved : Z; q_offset : Z; q_backend : Z; q_seq : Z; q_junk : list Z
}.

Section Order.
Context {host : Host} (fresh : Z -> list Z) (Hfresh : forall n, 0 <= n -> zlen (fresh n) = n).
Context (r : sim_reader) (id tick L T : Z).
Context (Hid : is_u16 id) (Htick : is_u64 tick) (Hne : tick <> UINT_MAX) (HL : is_u32 L).
Context (HT : 1 <= T) (Hroom : 12 + 4 * T <= L).

Definition q_data (q : sim_piece) : list Z :=
  be_bytes 4 q.(q_backend) ++ be_bytes 4 T ++ be_bytes 4 q.(q_seq) ++ q.(q_junk).

Definition q_bytes (q : sim_piece) : list Z :=
  re_bytes q.(q_offset) L tick q.(q_version) id q.(q_reserved) ++ q_data q.

(** A piece of the buffer that fits into the packet buffer. *)
Definition q_ok (q : sim_piece) : Prop :=
  0 <= q.(q_offset) /\ q.(q_offset) + zlen (q_data q) <= L /\ zlen (q_data q) <= 9080
  /\ is_u32 q.(q_seq) /\ is_u32 q.(q_backend).

Lemma length_q_data q : zlen (q_data q) = 12 + zlen q.(q_junk).
Proof using. unfold q_data. rewrite !length_app, !length_be_bytes. lia. Qed.

Lemma parsePacketData_spec bt n sq rest : is_u32 bt -> is_u32 n -> is_u32 sq ->
  parsePacketData (be_bytes 4 bt ++ be_bytes 4 n ++ be_bytes 4 sq ++ rest) = Some (bt, n, sq).
Proof using.
  intros Hb Hn Hs. unfold parsePacketData, get32.
  rewrite !app_assoc. rewrite <- (app_assoc (be_bytes 4 bt)).
  read_field 4%nat bt. read_field 4%nat n. read_field 4%nat sq.
  cbn [fmap option_fmap option_map mbind option_bind]. by rewrite !ntohl_be.
Qed.

(** What is done with a packet when it has been taken apart. *)
Definition q_read (q : sim_piece) (pkt : list Z) : Prop :=
  length pkt = Z.to_nat 9100 /\ (exists v, parseReHeader pkt = Some (v, id, q.(q_offset), L, tick))
  /\ parsePacketData (drop (Z.to_nat RECV_HEADER) pkt) = Some (q.(q_backend), T, q.(q_seq))
  /\ load pkt RECV_HEADER (zlen (q_data q)) = Some (q_data q).

Lemma q_received q pkt0 : q_ok q -> length pkt0 = Z.to_nat 9100 ->
  received 9100 (q_bytes q) = q_bytes q /\ zlen (q_bytes q) = RECV_HEADER + zlen (q_data q)
  /\ q_read q (splice 0 (q_bytes q) pkt0).
Proof using Hid Htick HL HT Hroom.
  intros (Ho & Hend & Hn & Hs & Hb) H0. unfold RECV_HEADER, RE_HEADER_BYTES.
  assert (Hl : zlen (q_bytes q) = 20 + zlen (q_data q))
    by (unfold q_bytes; rewrite length_app, length_re_bytes; lia).
  split; [apply received_all; lia|]. split; [done|].
  assert (Hsp : splice 0 (q_bytes q) pkt0 = re_bytes q.(q_offset) L tick q.(q_version) id q.(q_reserved)
            ++ q_data q ++ drop (length (q_bytes q)) pkt0).
  { unfold splice. cbn [take app Nat.add]. unfold q_bytes at 1. by rewrite <- app_assoc. }
  unfold is_u32, is_u64 in *. split; [rewrite length_splice; lia|]. rewrite Hsp. split; [|split].
  - eexists. apply parseReHeader_spec; unfold is_u32, is_u64; try done; lia.
  - unfold RECV_HEADER, RE_HEADER_BYTES. rewrite drop_app_length' by (by rewrite length_re_bytes).
    unfold q_data. rewrite <- !app_assoc. apply parsePacketData_spec; unfold is_u32; lia.
  - unfold RECV_HEADER, RE_HEADER_BYTES. rewrite load_spec by (rewrite ?length_app, ?length_re_bytes; lia).
    rewrite drop_app_length' by (by rewrite length_re_bytes). by rewrite take_app_length' by lia.
Qed.
(** ** A tick, packet by packet *)

Context (stats0 : option packetRecvStats).
Context (Hstats : stats0 = None \/ r.(sr_tick) = 18446744073709551615).

(** When [k] packets with [B] bytes have been taken; [first] before the first. *)
Definition mid_sorter (prev k B : Z) (first : bool) : sorter :=
  mk_sorter prev L k T false first id B 0 0 0 stats0.

(** The routine waits for packet [k]. *)
Definition waiting (k B : Z) (st : sorter) : Prop :=
  (k = 0 /\ B = 0 /\ exists pc src, st = sorter_start pc src stats0)
  \/ (1 <= k /\ st = mid_sorter tick k B false).

(** The offset a packet may have: the first is at the start, the others leave
    the record of the order alone. *)
Definition in_place (k : Z) (q : sim_piece) : Prop :=
  if decide (k = 0) then q.(q_offset) = 0 else 12 + 4 * T <= q.(q_offset).

Lemma q_sort k B st q : waiting k B st -> in_place k q -> 0 <= k ->
  exists prev, sim_sort (begin_read st) (Some (q.(q_backend), T, q.(q_seq))) id q.(q_offset) L tick
    = Some (mid_sorter prev k B (bool_decide (k = 0)), Some (true, q.(q_seq))).
Proof using Hne.
  clear Hfresh Hstats. intros [(-> & -> & pc & src & ->)|[Hk ->]] Hq _.
  - unfold in_place in Hq. rewrite decide_True in Hq by done. rewrite Hq. exists UINT_MAX.
    unfold sim_sort, sorter_start, begin_read. cbn [veryFirstRead srcId]. rewrite Z.eqb_refl.
    cbn [negb mbind option_bind]. unfold sort_tick. cbn [prevTick].
    by rewrite (proj2 (Z.eqb_neq tick UINT_MAX)).
  - exists tick. unfold sim_sort, mid_sorter, begin_read. cbn [veryFirstRead srcId]. rewrite Z.eqb_refl.
    cbn [negb mbind option_bind]. unfold sort_tick. cbn [prevTick dumpTick]. rewrite Z.eqb_refl.
    rewrite bool_decide_false by lia. done.
Qed.

(** The data and its number are written; the numbers of earlier packets stay. *)
Lemma q_write k m q pkt : q_ok q -> q_read q pkt -> in_place k q -> 0 <= k < T -> L <= zlen m ->
  exists m',
    (d ← load pkt RECV_HEADER (zlen (q_data q)); m ← store m q.(q_offset) d;
     put32 m (12 + u32 (4 * k)) q.(q_seq)) = Some m'
    /\ length m' = length m /\ field m' (12 + 4 * k) (order_bytes host_order 4 q.(q_seq))
    /\ forall i bs, 0 <= i < k -> length bs = 4%nat -> field m (12 + 4 * i) bs -> field m' (12 + 4 * i) bs.
Proof using HL Hroom.
  clear Hfresh Hstats. intros (Ho & Hend & _) (_ & _ & _ & Hd) Hq Hk Hm. unfold is_u32 in HL.
  rewrite Hd. cbn [mbind option_bind].
  pose proof (store_spec m q.(q_offset) (q_data q) ltac:(lia) ltac:(lia)) as H1.
  set (m1 := splice _ _ _) in H1. pose proof (store_length _ _ _ _ H1) as Hl1.
  rewrite H1. cbn [mbind option_bind]. rewrite u32_small by lia. unfold put32.
  pose proof (store_spec m1 (12 + 4 * k) (order_bytes host_order 4 q.(q_seq)) ltac:(lia)
                ltac:(rewrite length_order_bytes; lia)) as H2.
  set (m2 := splice _ _ m1) in H2. pose proof (store_length _ _ _ _ H2) as Hl2.
  exists m2. split; [done|]. split; [congruence|]. split; [by eapply field_stored|].
  intros i bs Hi Hbs Hf. unfold in_place in Hq. rewrite decide_False in Hq by lia.
  eapply field_kept; [eapply field_kept; [done|done|lia]|done|lia].
Qed.
(** The memory of the vector when the first packet has been looked at. *)
Definition entered (k : Z) (v : vec) (m : list Z) : Prop :=
  L <= zlen m /\ if decide (k = 0) then m = (reserve fresh v L).(vec_data) else v.(vec_data) = m.

Definition q_stats (B : Z) : option packetRecvStats :=
  (fun st => add_stats st T B 0 0 0 0) <$> stats0.

(** One packet: its number is recorded, and the last one ends the tick. *)
Lemma q_step k B s q m : q_ok q -> in_place k q -> 0 <= k < T ->
  waiting k B s.(sv_sorter) -> entered k s.(sv_vec) m -> length s.(sv_pkt) = Z.to_nat 9100 ->
  s.(sv_bufLen) = zlen s.(sv_vec).(vec_data) \/ 1 <= k ->
  (k + 1 = T -> room_for stats0 T (B + zlen (q_data q)) 0 0 0 0) ->
  exists m', length m' = length m
    /\ field m' (12 + 4 * k) (order_bytes host_order 4 q.(q_seq))
    /\ (forall i bs, 0 <= i < k -> length bs = 4%nat -> field m (12 + 4 * i) bs -> field m' (12 + 4 * i) bs)
    /\ exists bl pkt, length pkt = Z.to_nat 9100
    /\ getReassembledBuffer_step fresh r s (Datagram (q_bytes q)) =
      if k + 1 =? T then
        Halt (mk_sim_result (B + zlen (q_data q)) (mk_vec m' s.(sv_vec).(vec_size)) tick (Some id)
                (q_stats (B + zlen (q_data q))))
      else Next (mk_sim_receiver (mid_sorter tick (k + 1) (B + zlen (q_data q)) false)
                   (mk_vec m' s.(sv_vec).(vec_size)) bl pkt).
Proof using Hid Htick Hne HL HT Hroom Hstats.
  clear Hfresh. intros Hq Hp Hk Hw [Hm He] Hpkt Hbl Hfit.
  destruct (q_received q _ Hq Hpkt) as (Hrec & Hlen & Hread).
  destruct (q_sort k B _ q Hw Hp ltac:(lia)) as (prev & Hsort).
  destruct (q_write k m q _ Hq Hread Hp Hk Hm) as (m' & Hwr & Hl & Hf & Hkeep).
  exists m'. split; [done|]. split; [done|]. split; [done|].
  destruct Hread as (Hl' & (vs & Hparse) & Hpd & _).
  set (pkt := splice 0 (q_bytes q) s.(sv_pkt)) in *.
  assert (Hu : u32 (k + 1) = k + 1) by (unfold is_u32 in HL; apply u32_small; lia).
  assert (exists bl, (if bool_decide (k = 0) && (s.(sv_bufLen) <? L)
            then (reserve fresh s.(sv_vec) L, L) else (s.(sv_vec), s.(sv_bufLen)))
          = (mk_vec m s.(sv_vec).(vec_size), bl)) as [bl Hv].
  { destruct (decide (k = 0)) as [->|Hk0].
    - destruct Hbl as [Hbl|?]; [|lia]. rewrite He.
      rewrite bool_decide_true, Hbl by done. cbn [andb]. unfold reserve.
      destruct (zlen (vec_data (sv_vec s)) <? L); [by eexists|].
      eexists. f_equal. by destruct (sv_vec s).
    - rewrite bool_decide_false by done. cbn [andb]. eexists.
      rewrite <- He. f_equal. by destruct (sv_vec s). }
  exists bl, pkt. split; [done|]. unfold getReassembledBuffer_step. rewrite Hrec, Hlen.
  rewrite (proj2 (Z.ltb_ge _ RECV_HEADER)) by lia.
  replace (RECV_HEADER + zlen (q_data q) - RECV_HEADER) with (zlen (q_data q)) by lia.
  cbn [sv_sorter sv_vec sv_bufLen sv_pkt]. fold pkt. rewrite Hparse, Hpd. cbn [mbind option_bind].
  rewrite Hsort. cbn [mbind option_bind]. unfold mid_sorter at 1 2. cbn [veryFirstRead pktCount].
  rewrite Hv. cbn [vec_data vec_size].
  change (pktCount (mid_sorter prev k B (bool_decide (k = 0)))) with k. rewrite Hwr.
  unfold count_packet, mid_sorter. cbn [length_ pktCount totalPkts dumpTick srcId totalBytesRead
    discPackets discBytes discBufs Assemble.stats]. rewrite Hu.
  destruct (Z.eqb_spec (k + 1) T) as [HkT|HkT].
  - rewrite (proj2 (Z.leb_le _ _)) by lia.
    pose proof (final_stats_no_estimate (mk_reader 0 r.(sr_tick) r.(sr_prescale)) tick
      (mk_sorter tick L (k + 1) T false false id (B + zlen (q_data q)) 0 0 0 stats0)) as Hfs.
    cbn [expectedTick tickPrescale] in Hfs. rewrite Hfs
      by (exact Hstats || (cbn; rewrite HkT; by apply Hfit)). clear Hfs.
    cbn [pktCount totalBytesRead discPackets discBytes discBufs Assemble.stats]. by rewrite HkT.
  - by rewrite (proj2 (Z.leb_gt _ _)) by lia.
Qed.
Definition q_sum (qs : list sim_piece) : Z := foldr (fun q a => zlen (q_data q) + a) 0 qs.

(** A later packet of the tick. *)
Definition q_later (q : sim_piece) : Prop := q_ok q /\ 12 + 4 * T <= q.(q_offset).

Lemma later_in_place k q : 1 <= k -> q_later q -> in_place k q.
Proof using. intros Hk [_ Hq]. unfold in_place. by rewrite decide_False by lia. Qed.

Lemma last_fit qs q k B : k + 1 + zlen qs = T -> room_for stats0 T (B + q_sum (q :: qs)) 0 0 0 0 ->
  k + 1 = T -> room_for stats0 T (B + zlen (q_data q)) 0 0 0 0.
Proof using Type.
  intros Hl Hf Hk. destruct qs; [|cbn in Hl; lia]. unfold q_sum in Hf. cbn [foldr] in Hf.
  by rewrite Z.add_0_r in Hf.
Qed.

Lemma order_feed qs : forall q k B s m, k + 1 + zlen qs = T -> 0 <= k ->
  q_ok q -> in_place k q -> Forall q_later qs ->
  waiting k B s.(sv_sorter) -> entered k s.(sv_vec) m -> length s.(sv_pkt) = Z.to_nat 9100 ->
  s.(sv_bufLen) = zlen s.(sv_vec).(vec_data) \/ 1 <= k ->
  room_for stats0 T (B + q_sum (q :: qs)) 0 0 0 0 ->
  exists m', feed (getReassembledBuffer_step fresh r) s (map (Datagram ∘ q_bytes) (q :: qs))
      = Halt (mk_sim_result (B + q_sum (q :: qs)) (mk_vec m' s.(sv_vec).(vec_size)) tick (Some id)
                (q_stats (B + q_sum (q :: qs))))
    /\ length m' = length m
    /\ (forall i bs, 0 <= i < k -> length bs = 4%nat -> field m (12 + 4 * i) bs -> field m' (12 + 4 * i) bs)
    /\ forall i q', (q :: qs) !! i = Some q' ->
         field m' (12 + 4 * (k + Z.of_nat i)) (order_bytes host_order 4 q'.(q_seq)).
Proof using Hid Htick Hne HL HT Hroom Hstats.
  clear Hfresh. induction qs as [|q1 qs IH]; intros q k B s m Hlen Hk Hq Hp Hqs Hw He Hpkt Hbl Hfit;
    destruct (q_step k B s q m Hq Hp ltac:(cbn in Hlen; lia) Hw He Hpkt Hbl (last_fit _ _ _ _ Hlen Hfit))
      as (m1 & Hl1 & Hf1 & Hkeep1 & bl & pkt & Hpkt' & Hstep);
    cbn [map compose feed]; rewrite Hstep; cbn [length] in Hlen.
  - rewrite (proj2 (Z.eqb_eq _ _)) by lia. exists m1. cbn [q_sum foldr].
    split; [by rewrite Z.add_0_r|]. split; [done|]. split; [done|]. intros [|i] q' Hi; [|done].
    injection Hi as <-. by rewrite Z.add_0_r.
  - rewrite (proj2 (Z.eqb_neq _ _)) by lia. apply Forall_cons in Hqs as [Hq1 Hqs].
    destruct (IH q1 (k + 1) (B + zlen (q_data q)) (mk_sim_receiver (mid_sorter tick (k + 1)
      (B + zlen (q_data q)) false) (mk_vec m1 (vec_size (sv_vec s))) bl pkt) m1)
      as (m' & Hm' & Hl' & Hkeep & Hnew).
    + lia.
    + lia.
    + apply Hq1.
    + apply later_in_place; [lia|done].
    + done.
    + right. split; [lia|done].
    + split; [|by rewrite decide_False by lia]. rewrite Hl1. apply He.
    + done.
    + right. lia.
    + unfold q_sum in Hfit |- *. cbn [foldr] in Hfit |- *. by rewrite <- Z.add_assoc.
    + exists m'. cbn [q_sum foldr] in *. rewrite Z.add_assoc. split; [exact Hm'|].
      split; [by rewrite Hl'|]. split.
      * intros i bs Hi Hbs Hf. apply Hkeep; [lia|done|]. by apply Hkeep1.
      * intros [|i] q' Hi; cbn [lookup list_lookup] in Hi.
        -- injection Hi as <-. rewrite Z.add_0_r. apply Hkeep; [lia|apply length_order_bytes|done].
        -- replace (k + Z.of_nat (S i)) with (k + 1 + Z.of_nat i) by lia. by apply Hnew.
Qed.

(** The routine on a whole tick whose first packet comes first. *)
Lemma order_tick q qs v pkt0 : (v.(vec_size) <= length v.(vec_data))%nat -> 1 + zlen qs = T -> q_ok q -> q.(q_offset) = 0 -> Forall q_later qs ->
  length pkt0 = Z.to_nat 9100 -> room_for stats0 T (q_sum (q :: qs)) 0 0 0 0 ->
  exists m, getReassembledBuffer fresh r stats0 v pkt0 (map (Datagram ∘ q_bytes) (q :: qs))
      = Halt (mk_sim_result (q_sum (q :: qs)) (mk_vec m v.(vec_size)) tick (Some id) (q_stats (q_sum (q :: qs))))
    /\ length m = length (reserve fresh v L).(vec_data)
    /\ forall i q', (q :: qs) !! i = Some q' ->
         field m (12 + 4 * Z.of_nat i) (order_bytes host_order 4 q'.(q_seq)).
Proof using Type*.
  intros Hcap Hlen Hq H0 Hqs Hpkt Hfit.
  destruct (order_feed qs q 0 0 (mk_sim_receiver (sorter_start 0 0 stats0) v (zlen v.(vec_data)) pkt0)
    (reserve fresh v L).(vec_data)) as (m & Hm & Hl & _ & Hf); try done.
  - left. split; [done|]. split; [done|]. by exists 0, 0.
  - split; [|done]. unfold is_u32 in HL. unfold reserve. destruct (Z.ltb_spec (zlen (vec_data v)) L); [|lia].
    cbn [vec_data]. rewrite length_app, length_take, length_drop.
    pose proof (Hfresh L ltac:(lia)). lia.
  - by left.
  - by exists m.
Qed.
End Order.

(** ** From the simulated sender to the simulated receiver *)

Section Compose.
Context {host : Host} (j : sim_job) (storage : list Z).
Context (Hj : sim_job_ok j) (Hst : length storage = Z.to_nat 10000) (Hok : bytes_ok storage).
Context (Hid : is_u16 j.(sj_dataId)) (Hbt : is_u32 j.(sj_backendTime)).
Context (Hmax : j.(sj_maxUdpPayload) <= 9080) (Hne : j.(sj_tick) <> UINT_MAX).
Context (Hroom : 12 + 4 * sim_total j <= sim_bytes j 0) (Hlast : 12 <= sim_bytes j (sim_total j - 1)).

(** Packet [k] as it reaches the receiver. *)
Definition piece (k : Z) : sim_piece :=
  mk_sim_piece j.(sj_version) (nth 17 storage 0) (k * j.(sj_maxUdpPayload)) j.(sj_backendTime) (k + 1)
    (take (Z.to_nat (sim_bytes j k - 12)) (drop 48 storage)).

Abbreviation job_data := (q_data (sim_total j)).
Abbreviation job_bytes := (q_bytes j.(sj_dataId) j.(sj_tick) j.(sj_dataLen) (sim_total j)).

Lemma sim_bytes_mid k : 0 <= k < sim_total j - 1 -> sim_bytes j k = j.(sj_maxUdpPayload).
Proof using All.
  intros Hk. destruct (sim_total_spec j Hj) as (_ & _ & Hlt & _).
  specialize (Hlt (k + 1) ltac:(lia)). unfold sim_bytes. lia.
Qed.

Lemma sim_bytes_ge k : 0 <= k < sim_total j -> 12 <= sim_bytes j k <= 9080.
Proof using All.
  intros Hk. split; [|unfold sim_bytes; lia].
  destruct (decide (k = sim_total j - 1)) as [->|]; [done|].
  rewrite (sim_bytes_mid k) by lia. destruct (decide (sim_total j = 1)); [lia|].
  rewrite <- (sim_bytes_mid 0) by lia. lia.
Qed.

Lemma piece_data k : 0 <= k < sim_total j -> job_data (piece k) = sim_payload j storage k.
Proof using All.
  intros Hk. pose proof (sim_bytes_ge k Hk) as Hb. unfold q_data, sim_payload, piece. cbn [q_backend q_seq q_junk].
  rewrite !take_app, !length_be_bytes, (take_ge (be_bytes 4 j.(sj_backendTime))) by (rewrite length_be_bytes; lia).
  rewrite (take_ge (be_bytes 4 (sim_total j))), (take_ge (be_bytes 4 (k + 1))) by (rewrite length_be_bytes; lia).
  do 4 f_equal. lia.
Qed.

Lemma length_piece_data k : 0 <= k < sim_total j -> zlen (job_data (piece k)) = sim_bytes j k.
Proof using All.
  intros Hk. pose proof (sim_bytes_ge k Hk). rewrite length_q_data. cbn [q_junk piece].
  rewrite length_take, length_drop. lia.
Qed.

(** The load balancer takes its header off. *)
Lemma piece_bytes k : 0 <= k < sim_total j ->
  drop 16 (sim_packet j storage k) = job_bytes (piece k).
Proof using All.
  intros Hk. unfold sim_packet, q_bytes. rewrite piece_data by done.
  rewrite drop_app_length' by (by rewrite length_sim_lb).
  unfold sim_re, re_bytes, piece. cbn [q_offset q_version q_reserved].
  f_equal. rewrite app_assoc. f_equal.
  assert (H17 : exists b, storage !! 17%nat = Some b) by (apply lookup_lt_is_Some; lia).
  destruct H17 as [b Hb]. rewrite (drop_S _ _ _ Hb). cbn [take]. rewrite take_0.
  pose proof (proj1 (Forall_lookup _ _) Hok _ _ Hb) as Hbyte. cbn in Hbyte.
  rewrite (nth_lookup_Some _ _ _ _ Hb). by rewrite (u8_small b).
Qed.

Lemma piece_ok k : 0 <= k < sim_total j -> q_ok j.(sj_dataLen) (sim_total j) (piece k).
Proof using All.
  intros Hk. pose proof (sim_bytes_ge k Hk). destruct (sim_total_spec j Hj) as (_ & Ht & Hlt & _).
  specialize (Hlt k Hk). destruct Hj as (? & _ & Hm & _).
  unfold q_ok. rewrite length_piece_data by done. cbn [piece q_offset q_seq q_backend].
  unfold is_u32, sim_bytes in *. split_and!; try lia; try apply Hbt.
Qed.

Definition total_bytes (ks : list Z) : Z := foldr (fun k a => sim_bytes j k + a) 0 ks.

Lemma total_bytes_app a b : total_bytes (a ++ b) = total_bytes a + total_bytes b.
Proof using Type. clear - j. induction a as [|k a IH]; cbn; [done|]. unfold total_bytes in *. lia. Qed.

Lemma total_bytes_perm a b : a ≡ₚ b -> total_bytes a = total_bytes b.
Proof using Type. clear - j. unfold total_bytes. induction 1; cbn; lia. Qed.

Lemma total_bytes_first (n : nat) : Z.of_nat n <= sim_total j ->
  total_bytes (seqZ 0 (Z.of_nat n)) = Z.min (Z.of_nat n * j.(sj_maxUdpPayload)) j.(sj_dataLen).
Proof using All.
  destruct (sim_total_spec j Hj) as (_ & _ & Hlt & _). destruct Hj as ([? ?] & _ & Hm & _).
  induction n as [|n IH]; intros Hn; [change (0 = Z.min 0 j.(sj_dataLen)); lia|].
  replace (Z.of_nat (S n)) with (Z.of_nat n + 1) by lia. rewrite seqZ_S, total_bytes_app, IH by lia.
  specialize (Hlt (Z.of_nat n) ltac:(lia)). unfold total_bytes, sim_bytes. cbn [foldr]. lia.
Qed.

Lemma total_bytes_all : total_bytes (seqZ 0 (sim_total j)) = j.(sj_dataLen).
Proof using All.
  destruct (sim_total_spec j Hj) as (_ & Ht & _ & Hge).
  pose proof (total_bytes_first (Z.to_nat (sim_total j))) as Hf. rewrite Z2Nat.id in Hf by lia.
  rewrite Hf by lia. lia.
Qed.

Lemma q_sum_pieces ks : Forall (fun k => 0 <= k < sim_total j) ks ->
  q_sum (sim_total j) (map piece ks) = total_bytes ks.
Proof using All.
  unfold q_sum, total_bytes. induction 1 as [|k ks Hk _ IH]; [done|].
  cbn [map foldr]. by rewrite length_piece_data, IH.
Qed.
End Compose.

(** C11: what sendPacketizedBuf sends and a load balancer forwards, in any order after the
    first packet, is a complete buffer for getReassembledBuffer: it returns the
    length the sender was given, its tick and source, and the vector holds, from
    byte 12 on, the numbers of the packets in the order in which they came.
    This asks for room for all numbers in the first packet and for at least 12
    bytes in the last one, and, if statistics are kept, for room in their counters. *)
Theorem sim_order_recovered {host : Host} (j : sim_job) (storage pkt0 : list Z) (order : list Z)
    (fresh : Z -> list Z) (r : sim_reader) (v : vec) (stats0 : option packetRecvStats) :
  sim_job_ok j -> length storage = Z.to_nat 10000 -> bytes_ok storage ->
  is_u16 j.(sj_dataId) -> is_u32 j.(sj_backendTime) -> j.(sj_maxUdpPayload) <= 9080 ->
  j.(sj_tick) <> UINT_MAX ->
  12 + 4 * sim_total j <= sim_bytes j 0 -> 12 <= sim_bytes j (sim_total j - 1) ->
  (forall n, 0 <= n -> zlen (fresh n) = n) -> (v.(vec_size) <= length v.(vec_data))%nat ->
  stats0 = None \/ r.(sr_tick) = 18446744073709551615 ->
  room_for stats0 (sim_total j) j.(sj_dataLen) 0 0 0 0 ->
  length pkt0 = Z.to_nat 9100 -> order ≡ₚ seqZ 1 (sim_total j - 1) ->
  exists m,
    getReassembledBuffer fresh r stats0 v pkt0
      (map (fun k => Datagram (drop 16 (sim_packet j storage k))) (0 :: order))
    = Halt (mk_sim_result j.(sj_dataLen) (mk_vec m v.(vec_size)) j.(sj_tick) (Some j.(sj_dataId))
              (q_stats (sim_total j) stats0 j.(sj_dataLen)))
    /\ forall i k, (0 :: order) !! i = Some k ->
         field m (12 + 4 * Z.of_nat i) (order_bytes host_order 4 (k + 1)).
Proof.
  intros Hj Hst Hok Hid Hbt Hmax Hne Hroom Hlast Hfresh Hcap Hstats Hfit Hpkt Hord.
  destruct (sim_total_spec j Hj) as (_ & Ht & Hlt & Hge). pose proof Hj as (HL & Htick & Hm & _).
  assert (HT : 1 <= sim_total j). { destruct (decide (sim_total j = 0)) as [E|]; [|lia]. rewrite E in *.
    unfold sim_bytes in Hroom. lia. }
  assert (Hall : Forall (fun k => 0 <= k < sim_total j) (0 :: order)).
  { constructor; [lia|]. rewrite Hord. apply Forall_forall. intros k Hk%elem_of_seqZ. lia. }
  assert (Hl : length order = Z.to_nat (sim_total j - 1)) by (rewrite Hord; apply length_seqZ).
  assert (Hlater : Forall (q_later j.(sj_dataLen) (sim_total j)) (map (piece j storage) order)).
  { apply Forall_map, Forall_forall. intros k Hk. split.
    - apply piece_ok; try done. rewrite Hord in Hk. apply elem_of_seqZ in Hk. lia.
    - rewrite Hord in Hk. apply elem_of_seqZ in Hk. cbn [piece q_offset].
      pose proof (sim_bytes_mid j storage). unfold sim_bytes in Hroom. nia. }
  assert (Hs : total_bytes j (0 :: order) = j.(sj_dataLen)).
  { rewrite <- (total_bytes_all j storage) by done. apply total_bytes_perm.
    rewrite Hord, (seqZ_cons 0) by lia. by rewrite Z.sub_1_r. }
  destruct (order_tick fresh Hfresh r j.(sj_dataId) j.(sj_tick) j.(sj_dataLen) (sim_total j) Hid Htick Hne HL
    HT ltac:(unfold sim_bytes in Hroom; lia) stats0 Hstats (piece j storage 0) (map (piece j storage) order) v pkt0)
    as (m & Hr & _ & Hf); try done.
  - rewrite length_map. lia.
  - apply piece_ok; try done; lia.
  - change (piece j storage 0 :: map (piece j storage) order) with (map (piece j storage) (0 :: order)).
    rewrite (q_sum_pieces j storage) by done. by rewrite Hs.
  - change (piece j storage 0 :: map (piece j storage) order) with (map (piece j storage) (0 :: order)) in *.
    rewrite (q_sum_pieces j storage) in Hr by done.
    exists m. split.
    + rewrite Hs, map_map in Hr. rewrite <- Hr. f_equal. apply map_ext_in. intros k Hk.
      cbn [compose]. f_equal. apply (piece_bytes j storage); try done.
      apply (proj1 (Forall_forall _ _) Hall). by apply list_elem_of_In.
    + intros i k Hi. apply (Hf i (piece j storage k)). by rewrite list_lookup_fmap, Hi.
Qed.


(** The first packet of the next tick discards the one that is not complete. *)
Lemma sort_next_tick id k B tick1 L1 T1 tick2 L2 T2 stats0 b sq : tick1 <> tick2 ->
  is_u32 L1 -> is_u32 T1 ->
  sim_sort (begin_read (mid_sorter id L1 T1 stats0 tick1 k B false)) (Some (b, T2, sq)) id 0 L2 tick2
  = Some (mk_sorter tick1 L2 0 T2 false false id 0 T1 L1 1 stats0, Some (true, sq)).
Proof.
  unfold is_u32. intros Hne HL HT. unfold sim_sort, mid_sorter, begin_read, sort_tick.
  cbn [veryFirstRead srcId prevTick mbind option_bind]. rewrite Z.eqb_refl.
  rewrite (proj2 (Z.eqb_neq tick2 tick1)) by done. cbn [negb]. unfold discard.
  cbn [discPackets discBytes discBufs veryFirstRead negb Z.eqb totalPkts length_].
  repeat (rewrite int64_ok by (unfold is_i64; lia); cbn [mbind option_bind]). by rewrite !Z.add_0_l.
Qed.

(** The capacity of the vector is looked at for the first packet of a call only: when
    the first tick is not completed, the data of a larger tick that follows are
    written past the end of the vector's memory. *)
Theorem getReassembledBuffer_overrun {host : Host} (fresh : Z -> list Z) (r : sim_reader) (v : vec)
    (stats0 : option packetRecvStats) (pkt0 : list Z) (id tick1 L1 T1 tick2 L2 T2 : Z) (q1 q2 : sim_piece) :
  is_u16 id -> is_u64 tick1 -> is_u64 tick2 -> is_u32 L1 -> is_u32 L2 ->
  tick1 <> UINT_MAX -> tick1 <> tick2 -> 2 <= T1 -> 1 <= T2 -> 12 + 4 * T1 <= L1 -> 12 + 4 * T2 <= L2 ->
  (forall n, 0 <= n -> zlen (fresh n) = n) -> (v.(vec_size) <= length v.(vec_data))%nat ->
  stats0 = None \/ r.(sr_tick) = 18446744073709551615 ->
  length pkt0 = Z.to_nat 9100 -> q_ok L1 T1 q1 -> q1.(q_offset) = 0 -> q_ok L2 T2 q2 -> q2.(q_offset) = 0 ->
  Z.max (zlen v.(vec_data)) L1 < zlen (q_data T2 q2) ->
  getReassembledBuffer fresh r stats0 v pkt0
    [Datagram (q_bytes id tick1 L1 T1 q1); Datagram (q_bytes id tick2 L2 T2 q2)] = Stuck.
Proof.
  intros Hid Ht1 Ht2 HL1 HL2 Hne Hneq HT1 HT2 Hr1 Hr2 Hfresh Hcap Hstats Hpkt Hq1 H01 Hq2 H02 Hbig.
  set (m := (reserve fresh v L1).(vec_data)).
  assert (Hm : zlen m = Z.max (zlen v.(vec_data)) L1).
  { unfold m, reserve, is_u32 in *. destruct (Z.ltb_spec (zlen (vec_data v)) L1); [|lia].
    cbn [vec_data]. rewrite length_app, length_take, length_drop. pose proof (Hfresh L1 ltac:(lia)). lia. }
  destruct (q_step fresh r id tick1 L1 T1 Hid Ht1 Hne HL1 ltac:(lia) Hr1 stats0 Hstats 0 0
    (mk_sim_receiver (sorter_start 0 0 stats0) v (zlen v.(vec_data)) pkt0) q1 m)
    as (m1 & Hl1 & _ & _ & bl & pkt & Hpkt1 & Hstep); try done.
  - lia.
  - left. split; [done|]. split; [done|]. by exists 0, 0.
  - split; [lia|done].
  - by left.
  - lia.
  - unfold getReassembledBuffer. cbn [feed]. rewrite Hstep, (proj2 (Z.eqb_neq _ _)) by lia.
    destruct (q_received id tick2 L2 T2 Hid Ht2 HL2 HT2 Hr2 q2 pkt Hq2 Hpkt1)
      as (Hrec & Hlen & _ & (vs & Hparse) & Hpd & Hdata).
    unfold getReassembledBuffer_step. rewrite Hrec, Hlen.
    rewrite (proj2 (Z.ltb_ge _ RECV_HEADER)) by lia.
    replace (RECV_HEADER + zlen (q_data T2 q2) - RECV_HEADER) with (zlen (q_data T2 q2)) by lia.
    cbn [sv_sorter sv_vec sv_bufLen sv_pkt]. rewrite Hparse, Hpd, H02. cbn [mbind option_bind].
    rewrite sort_next_tick by (done || (unfold is_u32 in *; lia)). cbn [mbind option_bind veryFirstRead andb vec_data].
    rewrite Hdata. cbn [mbind option_bind]. by rewrite store_None by lia.
Qed.

(** 2500 bytes in packets of 1000; the last packet comes before the second. *)
Lemma sim_order_recovered_witness :
  exists m,
    @getReassembledBuffer ENDIAN_LITTLE (fun n => replicate (Z.to_nat n) 0) (mk_sim_reader 18446744073709551615 1)
      None (mk_vec [] 0) (replicate (Z.to_nat 9100) 0)
      (map (fun k => Datagram (drop 16 (sim_packet sim_job_example (replicate (Z.to_nat 10000) 0) k))) [0; 2; 1])
    = Halt (mk_sim_result 2500 (mk_vec m 0) 42 (Some 5) None)
    /\ forall i k, [0; 2; 1] !! i = Some k -> field m (12 + 4 * Z.of_nat i) (order_bytes ENDIAN_LITTLE 4 (k + 1)).
Proof.
  apply (@sim_order_recovered ENDIAN_LITTLE sim_job_example (replicate (Z.to_nat 10000) 0)
    (replicate (Z.to_nat 9100) 0) [2; 1] (fun n => replicate (Z.to_nat n) 0)
    (mk_sim_reader 18446744073709551615 1) (mk_vec [] 0) None).
  - unfold sim_job_ok, HEADER_BYTES, is_u32, is_u64; cbn; lia.
  - apply length_replicate.
  - apply Forall_replicate. lia.
  - unfold is_u16; cbn; lia.
  - unfold is_u32; cbn; lia.
  - cbn; lia.
  - done.
  - vm_compute. discriminate.
  - vm_compute. discriminate.
  - intros n Hn. rewrite length_replicate. lia.
  - cbn. lia.
  - by left.
  - exact I.
  - apply length_replicate.
  - change (seqZ 1 (sim_total sim_job_example - 1)) with [1; 2]. apply perm_swap.
Defined.

Lemma getReassembledBuffer_overrun_witness :
  @getReassembledBuffer ENDIAN_LITTLE (fun n => replicate (Z.to_nat n) 0) (mk_sim_reader 0 1)
    None (mk_vec [] 0) (replicate (Z.to_nat 9100) 0)
    [Datagram (q_bytes 5 42 20 2 (mk_sim_piece 2 0 0 7 1 [])); 
     Datagram (q_bytes 5 43 300 1 (mk_sim_piece 2 0 0 7 1 (replicate 200 9)))] = Stuck.
Proof.
  apply (@getReassembledBuffer_overrun ENDIAN_LITTLE); unfold q_ok, is_u16, is_u32, is_u64; cbn; try lia.
  all: first [by left | vm_compute; discriminate | intros n Hn; rewrite length_replicate; lia
              | apply length_replicate].
Defined.
