(* ===== verification/EtSystem.v ===== *)
(** The ET system as getBuffers of ejfat_assemble_ersap_et.hpp uses it.  The library
    is only declared in the repository (et.h, et_fifo.h); its calls are a class on
    a world of their own, with laws in terms of what an event holds.  At the end a
    small system that meets the laws, for the theorems to be tried on. *)
From stdpp Require Import gmap.
From S2P Require Import Prelude Bytes.

(** The calls of et.h and et_fifo.h the routine makes.  A pointer that is null on
    failure is an option; [et_fifo_getBufIds] is [None] for a negative result.
    Writing through the pointer that [et_event_getdata] gives is [et_memcpy],
    [None] when it is outside the memory of the event. *)
Class EtSystem := {
  et_world : Type;
  et_event : Type;
  et_data : Type;
  et_fifo_entry : Type;
  et_fifo_entry_eq_dec :: EqDecision et_fifo_entry;
  et_fifo_getBufSize : et_world -> Z;
  et_fifo_getIdCount : et_world -> Z;
  et_fifo_getBufIds : et_world -> option (list Z);
  et_fifo_entryCreate : et_world -> option et_fifo_entry * et_world;
  et_fifo_newEntry : et_fifo_entry -> et_world -> Z * et_world;
  et_fifo_putEntry : et_fifo_entry -> et_world -> et_world;
  et_fifo_getBufs : et_fifo_entry -> et_world -> list et_event;
  et_fifo_setHasData : et_event -> Z -> et_world -> et_world;
  et_fifo_allHaveData : et_fifo_entry -> et_world -> bool;
  et_event_getdata : et_event -> et_world -> et_data;
  et_event_getlength : et_event -> et_world -> Z;
  et_event_setlength : et_event -> Z -> et_world -> et_world;
  et_event_getcontrol : et_event -> et_world -> list Z;
  et_event_setcontrol : et_event -> list Z -> et_world -> et_world;
  et_memcpy : et_data -> Z -> list Z -> et_world -> option et_world;
  et_perror : Z -> string
}.

(** The order in which an unordered container of the C++ library keeps its members
    after an insertion. *)
Class HashOrder := hash_insert : forall A : Type, A -> list A -> list A.
Arguments hash_insert {_ A} x l.
Class HashOrderLaws `{HashOrder} :=
  hash_insert_perm : forall A (x : A) (l : list A), hash_insert x l ≡ₚ x :: l.

Definition ET_OK : Z := 0.
Definition ET_STATION_SELECT_INTS : nat := 6.

(** The entries the ET system has created; a new one is none of them, and the
    other calls create none. *)
Class EtEntryLaws `{EtSystem} := {
  et_known : et_world -> list et_fifo_entry;
  known_create w e w' : et_fifo_entryCreate w = (Some e, w') ->
    (e ∉ et_known w) /\ et_known w' = e :: et_known w;
  known_newEntry e w : et_known (et_fifo_newEntry e w).2 = et_known w;
  known_putEntry e w : et_known (et_fifo_putEntry e w) = et_known w;
  known_setHasData ev b w : et_known (et_fifo_setHasData ev b w) = et_known w;
  known_setlength ev n w : et_known (et_event_setlength ev n w) = et_known w;
  known_setcontrol ev con w : et_known (et_event_setcontrol ev con w) = et_known w;
  known_memcpy d off bs w w' : et_memcpy d off bs w = Some w' -> et_known w' = et_known w
}.

Create Rewrite HintDb et.
#[export] Hint Rewrite @known_newEntry @known_putEntry @known_setHasData @known_setlength
  @known_setcontrol : et.

(** What the fields of an event hold that the calls read and set. *)
Record et_view := mk_view {
  v_length : Z;
  v_control : list Z;
  v_memory : list Z
}.

(** [w'] is [w] with the event [ev] holding [v]. *)
Definition changes {E W} `{EqDecision E} (view : E -> W -> et_view) (ev : E) (v : et_view) (w w' : W)
    : Prop :=
  forall ev', view ev' w' = if decide (ev' = ev) then v else view ev' w.

(** The setters set what the getters get; the second control word of an event tells
    whether it has data, as the comments of getBuffers say; an event has memory of
    its own; no call changes the events of an entry in use. *)
Class EtEventLaws `{EtSystem} := {
  et_event_eq_dec :: EqDecision et_event;
  et_view_of : et_event -> et_world -> et_view;
  getlength_view ev w : et_event_getlength ev w = (et_view_of ev w).(v_length);
  getcontrol_view ev w : et_event_getcontrol ev w = (et_view_of ev w).(v_control);
  view_setlength ev n w :
    let v := et_view_of ev w in
    changes et_view_of ev (mk_view n v.(v_control) v.(v_memory)) w (et_event_setlength ev n w);
  view_setcontrol ev con w :
    let v := et_view_of ev w in
    changes et_view_of ev (mk_view v.(v_length) con v.(v_memory)) w (et_event_setcontrol ev con w);
  view_setHasData ev b w :
    let v := et_view_of ev w in
    changes et_view_of ev (mk_view v.(v_length) (<[1%nat := b]> v.(v_control)) v.(v_memory)) w
      (et_fifo_setHasData ev b w);
  view_memcpy ev off bs w mem :
    let v := et_view_of ev w in
    store v.(v_memory) off bs = Some mem ->
    exists w', et_memcpy (et_event_getdata ev w) off bs w = Some w'
      /\ changes et_view_of ev (mk_view v.(v_length) v.(v_control) mem) w w';
  getdata_setlength ev ev' n w : et_event_getdata ev (et_event_setlength ev' n w) = et_event_getdata ev w;
  getdata_setcontrol ev ev' c w : et_event_getdata ev (et_event_setcontrol ev' c w) = et_event_getdata ev w;
  getdata_setHasData ev ev' b w : et_event_getdata ev (et_fifo_setHasData ev' b w) = et_event_getdata ev w;
  getdata_memcpy ev d off bs w w' : et_memcpy d off bs w = Some w' ->
    et_event_getdata ev w' = et_event_getdata ev w;
  getBufs_setlength en ev n w : et_fifo_getBufs en (et_event_setlength ev n w) = et_fifo_getBufs en w;
  getBufs_setcontrol en ev c w : et_fifo_getBufs en (et_event_setcontrol ev c w) = et_fifo_getBufs en w;
  getBufs_setHasData en ev b w : et_fifo_getBufs en (et_fifo_setHasData ev b w) = et_fifo_getBufs en w;
  getBufs_memcpy en d off bs w w' : et_memcpy d off bs w = Some w' ->
    et_fifo_getBufs en w' = et_fifo_getBufs en w;
  allHaveData_view en w :
    et_fifo_allHaveData en w = true <->
    Forall (fun ev => (et_view_of ev w).(v_control) !!! 1%nat <> 0) (et_fifo_getBufs en w)
}.

(** ** A small ET system

    Entries and events are numbers; an entry gets new events each time it is filled. *)
Module Small.
Record small := mk_small {
  m_ids : list Z;
  m_size : Z;
  m_events : gmap nat et_view;
  m_bufs : gmap nat (list nat);
  m_known : list nat;
  m_next : nat;
  m_put : list nat
}.

Definition view (ev : nat) (w : small) : et_view :=
  default (mk_view 0 (replicate 6 0) []) (w.(m_events) !! ev).

Definition put_view (ev : nat) (v : et_view) (w : small) : small :=
  mk_small w.(m_ids) w.(m_size) (<[ev := v]> w.(m_events)) w.(m_bufs) w.(m_known) w.(m_next)
    w.(m_put).

Definition new_view (size id : Z) : et_view :=
  mk_view 0 [id; 0; 0; 0; 0; 0] (replicate (Z.to_nat size) 0).

Fixpoint new_events (size : Z) (ids : list Z) (n : nat) (evs : gmap nat et_view) : gmap nat et_view :=
  match ids with
  | [] => evs
  | id :: ids => new_events size ids (S n) (<[n := new_view size id]> evs)
  end.

Definition newEntry (e : nat) (w : small) : Z * small :=
  let n := length w.(m_ids) in
  (0, mk_small w.(m_ids) w.(m_size) (new_events w.(m_size) w.(m_ids) w.(m_next) w.(m_events))
        (<[e := seq w.(m_next) n]> w.(m_bufs)) w.(m_known) (w.(m_next) + n) w.(m_put)).

Definition entryCreate (w : small) : option nat * small :=
  let e := S (foldr Nat.max 0%nat w.(m_known)) in
  (Some e, mk_small w.(m_ids) w.(m_size) w.(m_events) w.(m_bufs) (e :: w.(m_known)) w.(m_next)
             w.(m_put)).

Definition getBufs (e : nat) (w : small) : list nat := default [] (w.(m_bufs) !! e).

#[export] Instance et_small : EtSystem := {
  et_world := small;
  et_event := nat;
  et_data := nat;
  et_fifo_entry := nat;
  et_fifo_getBufSize w := w.(m_size);
  et_fifo_getIdCount w := zlen w.(m_ids);
  et_fifo_getBufIds w := Some w.(m_ids);
  et_fifo_entryCreate := entryCreate;
  et_fifo_newEntry := newEntry;
  et_fifo_putEntry e w := mk_small w.(m_ids) w.(m_size) w.(m_events) w.(m_bufs) w.(m_known)
                            w.(m_next) (e :: w.(m_put));
  et_fifo_getBufs := getBufs;
  et_fifo_setHasData ev b w := let v := view ev w in
    put_view ev (mk_view v.(v_length) (<[1%nat := b]> v.(v_control)) v.(v_memory)) w;
  et_fifo_allHaveData e w :=
    forallb (fun ev => negb ((view ev w).(v_control) !!! 1%nat =? 0)) (getBufs e w);
  et_event_getdata ev w := ev;
  et_event_getlength ev w := (view ev w).(v_length);
  et_event_setlength ev n w := let v := view ev w in
    put_view ev (mk_view n v.(v_control) v.(v_memory)) w;
  et_event_getcontrol ev w := (view ev w).(v_control);
  et_event_setcontrol ev con w := let v := view ev w in
    put_view ev (mk_view v.(v_length) con v.(v_memory)) w;
  et_memcpy ev off bs w := let v := view ev w in
    mem ← store v.(v_memory) off bs; Some (put_view ev (mk_view v.(v_length) v.(v_control) mem) w);
  et_perror err := "ET error"
}.

Lemma put_view_changes ev v w : changes view ev v w (put_view ev v w).
Proof.
  intros ev'. unfold view, put_view. cbn. case_decide as Hd.
  - subst. by rewrite lookup_insert_eq.
  - by rewrite lookup_insert_ne.
Qed.

Lemma memcpy_inv (d : nat) off bs (w w' : small) : et_memcpy d off bs w = Some w' ->
  exists v, w' = put_view d v w.
Proof. intros (mem & _ & [= <-])%option_bind_Some. by eexists. Qed.

Lemma entryCreate_fresh l : S (foldr Nat.max 0%nat l) ∉ l.
Proof.
  assert (Hle : forall x, x ∈ l -> (x <= foldr Nat.max 0 l)%nat).
  { induction l as [|y l IH]; intros x; [by intros ?%elem_of_nil|].
    intros [->|Hx]%elem_of_cons; cbn; [lia|]. specialize (IH x Hx). lia. }
  intros Hin%Hle. lia.
Qed.

#[export] Program Instance small_entries : EtEntryLaws := { et_known w := w.(m_known) }.
Next Obligation. intros w e w' [= <- <-]. split; [apply entryCreate_fresh|done]. Qed.
Next Obligation. done. Qed.
Next Obligation. done. Qed.
Next Obligation. done. Qed.
Next Obligation. done. Qed.
Next Obligation. done. Qed.
Next Obligation. by intros ? ? ? ? ? (v & ->)%memcpy_inv. Qed.

#[export] Program Instance small_events : EtEventLaws := { et_view_of := view }.
Next Obligation. done. Qed.
Next Obligation. done. Qed.
Next Obligation. intros. apply put_view_changes. Qed.
Next Obligation. intros. apply put_view_changes. Qed.
Next Obligation. intros. apply put_view_changes. Qed.
Next Obligation.
  cbn. intros ev off bs w mem ->. cbn. eexists. split; [done|]. apply put_view_changes.
Qed.
Next Obligation. done. Qed.
Next Obligation. done. Qed.
Next Obligation. done. Qed.
Next Obligation. done. Qed.
Next Obligation. done. Qed.
Next Obligation. done. Qed.
Next Obligation. done. Qed.
Next Obligation. by intros ? ? ? ? ? ? (v & ->)%memcpy_inv. Qed.
Next Obligation.
  intros en w. cbn. rewrite <- Is_true_true, forallb_True. apply Forall_iff. intros ev.
  rewrite Is_true_true, negb_true_iff, Z.eqb_neq. done.
Qed.

#[export] Instance small_order : HashOrder := fun A x l => x :: l.
#[export] Instance small_order_laws : HashOrderLaws.
Proof. intros A x l. reflexivity. Qed.
End Small.
