(* ===== verification/EtFifo.v ===== *)
(** getBuffers of ejfat_assemble_ersap_et.hpp: packets of several data sources and
    of several ticks are put together in buffers (events) of an ET system used as a
    fifo; one fifo entry holds the events of a tick, one event for each source.
    This file has the routine, on the calls of the ET library of EtSystem.v, and
    what holds of its book-keeping for any datagrams; EtFill.v shows what it does
    with the packets of a tick. *)
From stdpp Require Import gmap pretty.
From S2P Require Import Prelude Bytes ByteOrder Wire Socket Assemble EtSystem.

(** Signed 32-bit arithmetic whose overflow is undefined. *)
Definition int32 (z : Z) : option Z :=
  if decide (-2147483648 <= z < 2147483648) then Some z else None.

(** [std::unordered_map] from a tick to its entry, in the order of iteration. *)
Fixpoint find_tick {A} (tick : Z) (l : list (Z * A)) : option A :=
  match l with
  | [] => None
  | (t, a) :: l => if t =? tick then Some a else find_tick tick l
  end.
Definition erase_tick {A} (tick : Z) (l : list (Z * A)) : list (Z * A) :=
  filter (fun x => x.1 <> tick) l.

(** [bufIdReverseMap]: from a source id to its index. *)
Fixpoint reverse_ids (i : nat) (ids : list Z) (m : gmap Z nat) : gmap Z nat :=
  match ids with
  | [] => m
  | id :: ids => reverse_ids (S i) ids (<[id := i]> m)
  end.
Definition bufIdReverseMap (ids : list Z) : gmap Z nat := reverse_ids 0 ids ∅.

(** ** Statistics: the map holds pointers to the counters of the sources. *)

Definition count_accepted (len packets : Z) (st : packetRecvStats) : option packetRecvStats :=
  built ← int64 (st.(builtBuffers) + 1);
  accepted ← int64 (st.(acceptedPackets) + packets);
  Some (mk_stats st.(endTime) st.(startTime) st.(readTime) st.(droppedPackets) accepted
    st.(discardedPackets) st.(badSrcIdPackets) st.(droppedBytes) (i64 (st.(acceptedBytes) + len))
    st.(discardedBytes) st.(droppedBuffers) st.(discardedBuffers) built st.(cpuPkt) st.(cpuBuf)).

Definition count_discarded (len packets : Z) (st : packetRecvStats) : option packetRecvStats :=
  bufs ← int64 (st.(discardedBuffers) + 1);
  pkts ← int64 (st.(discardedPackets) + packets);
  Some (mk_stats st.(endTime) st.(startTime) st.(readTime) st.(droppedPackets) st.(acceptedPackets)
    pkts st.(badSrcIdPackets) st.(droppedBytes) st.(acceptedBytes)
    (i64 (st.(discardedBytes) + len)) st.(droppedBuffers) bufs st.(builtBuffers)
    st.(cpuPkt) st.(cpuBuf)).

(** [statMap[id]->...]: an id without counters is a null pointer. *)
Definition update_stats (statMap : gmap Z nat) (id : Z) (f : packetRecvStats -> option packetRecvStats)
    (h : gmap nat packetRecvStats) : option (gmap nat packetRecvStats) :=
  ptr ← statMap !! id; st ← h !! ptr; st ← f st; Some (<[ptr := st]> h).

Section GetBuffers.
Context {host : Host} {ET : EtSystem} {HO : HashOrder}.

(** The arrays with one element for each data source. *)
Record source := mk_source {
  packetCnts : Z;
  bytesWritten : Z;
  events : et_event;
  bufs : et_data;
  controls : list Z
}.

(** What does not change while packets are read. *)
Record et_setup := mk_setup {
  bufIds : list Z;
  bufSizeMax : Z;
  prescale : Z;
  statMap : option (gmap Z nat)
}.

(** The locals that live from one packet to the next ([sources] is [None] until
    the arrays are filled), the counters of the caller and the ET system. *)
Record fifo_state := mk_fifo {
  packetBuffer : list Z;
  prevTick : Z;
  biggestTick : Z;
  invalidPkts : Z;
  entry : et_fifo_entry;
  sources : option (list source);
  buffers : list (Z * et_fifo_entry);
  freeEntries : list et_fifo_entry;
  counters : gmap nat packetRecvStats;
  world : et_world
}.

(** [freeEntries.insert(entry)]: nothing when it is there already. *)
Definition insert_free (e : et_fifo_entry) (free : list et_fifo_entry) : list et_fifo_entry :=
  if decide (e ∈ free) then free else hash_insert e free.

(** recvfrom into the packet buffer, which keeps what is behind the packet. *)
Definition receive (pkt : list Z) (s : fifo_state) : fifo_state :=
  mk_fifo (splice 0 pkt s.(packetBuffer)) s.(prevTick) s.(biggestTick) s.(invalidPkts) s.(entry)
    s.(sources) s.(buffers) s.(freeEntries) s.(counters) s.(world).

Definition load_source (w : et_world) (ev : et_event) : source :=
  mk_source 0 0 ev (et_event_getdata ev w) (et_event_getcontrol ev w).

Definition load_sources (p : et_setup) (en : et_fifo_entry) (w : et_world) : result (list source) :=
  let evts := et_fifo_getBufs en w in
  if (length evts <? length p.(bufIds))%nat then UB
  else Ok (map (load_source w) (take (length p.(bufIds)) evts)).

(** A free entry, or a new one when there is none. *)
Definition take_entry (s : fifo_state)
    : result (et_fifo_entry * list et_fifo_entry * et_world) :=
  match s.(freeEntries) with
  | [] => match et_fifo_entryCreate s.(world) with
          | (None, _) => Throw "out of memory"
          | (Some e, w) => Ok (e, [], w)
          end
  | e :: free => Ok (e, free, s.(world))
  end.

(** A packet of another tick than the last one: its entry becomes the current one. *)
Definition switch_tick (p : et_setup) (tick : Z) (s : fifo_state) : result fifo_state :=
  if tick =? s.(prevTick) then Ok s
  else
    match find_tick tick s.(buffers) with
    | Some en =>
      srcs ← load_sources p en s.(world);
      Ok (mk_fifo s.(packetBuffer) tick s.(biggestTick) s.(invalidPkts) en (Some srcs)
            s.(buffers) s.(freeEntries) s.(counters) s.(world))
    | None =>
      '(en, free, w) ← take_entry s;
      let '(err, w) := et_fifo_newEntry en w in
      if negb (err =? ET_OK) then Throw (et_perror err)
      else
        srcs ← load_sources p en w;
        Ok (mk_fifo s.(packetBuffer) tick (if s.(biggestTick) <? tick then tick else s.(biggestTick))
              s.(invalidPkts) en (Some srcs) (hash_insert (tick, en) s.(buffers)) free
              s.(counters) w)
    end.

(** The data of the packet into the event of its source, and the source's counts. *)
Definition store_packet (p : et_setup) (i : nat) (bufLen bufOffset nBytes : Z) (s : fifo_state)
    : result (source * fifo_state) :=
  srcs ← checked s.(sources);
  so ← checked (srcs !! i);
  if p.(bufSizeMax) <? bufLen then
    Throw ("ET event too small, make > " +:+ pretty bufLen +:+ " bytes")%string
  else
    d ← checked (load s.(packetBuffer) RECV_HEADER nBytes);
    w ← checked (et_memcpy so.(bufs) bufOffset d s.(world));
    let totalBytesWritten := u64 (so.(bytesWritten) + nBytes) in
    let w := et_event_setlength so.(events) totalBytesWritten w in
    let packetCount := i32 (so.(packetCnts) + 1) in
    let con := <[5%nat := packetCount]> so.(controls) in
    let w := et_event_setcontrol so.(events) con w in
    let so := mk_source packetCount totalBytesWritten so.(events) so.(bufs) so.(controls) in
    Ok (so, mk_fifo s.(packetBuffer) s.(prevTick) s.(biggestTick) s.(invalidPkts) s.(entry)
              (Some (<[i := so]> srcs)) s.(buffers) s.(freeEntries) s.(counters) w).

(** Every source of a complete tick is counted, with the length and the number of
    packets (the sixth control word) of its event. *)
Fixpoint accept_all (sm : gmap Z nat) (l : list (Z * et_event)) (w : et_world)
    (h : gmap nat packetRecvStats) : option (gmap nat packetRecvStats) :=
  match l with
  | [] => Some h
  | (id, ev) :: l =>
    packets ← et_event_getcontrol ev w !! 5%nat;
    h ← update_stats sm id (count_accepted (et_event_getlength ev w) packets) h;
    accept_all sm l w h
  end.

Definition accept_stats (p : et_setup) (en : et_fifo_entry) (w : et_world)
    (h : gmap nat packetRecvStats) : option (gmap nat packetRecvStats) :=
  match p.(statMap) with
  | None => Some h
  | Some sm =>
    let evs := et_fifo_getBufs en w in
    if (length evs <? length p.(bufIds))%nat then None
    else accept_all sm (zip p.(bufIds) evs) w h
  end.

(** The last packet of a source: when every event of the entry has its data, the
    entry goes to the readers of the fifo. *)
Definition complete_source (p : et_setup) (tick bufLen : Z) (so : source) (s : fifo_state)
    : result fifo_state :=
  if so.(bytesWritten) <? bufLen then Ok s
  else
    let w := et_fifo_setHasData so.(events) 1 s.(world) in
    if et_fifo_allHaveData s.(entry) w then
      h ← checked (accept_stats p s.(entry) w s.(counters));
      Ok (mk_fifo s.(packetBuffer) s.(prevTick) s.(biggestTick) s.(invalidPkts) s.(entry)
            s.(sources) (erase_tick tick s.(buffers)) (insert_free s.(entry) s.(freeEntries)) h
            (et_fifo_putEntry s.(entry) w))
    else
      Ok (mk_fifo s.(packetBuffer) s.(prevTick) s.(biggestTick) s.(invalidPkts) s.(entry)
            s.(sources) s.(buffers) s.(freeEntries) s.(counters) w).

(** [tik + 4 * tickPrescale < biggestTick]: the product is an int, the sum unsigned. *)
Definition stale (tickPrescale biggest tik : Z) : option bool :=
  q ← int32 (4 * tickPrescale);
  Some (u64 (tik + q) <? biggest).

(** The statistics of a discarded entry.  The variables named are those of the
    packet just stored: [entry], and [event] for every source. *)
Fixpoint discard_all (sm : gmap Z nat) (ids : list Z) (event : et_event) (w : et_world)
    (h : gmap nat packetRecvStats) : option (gmap nat packetRecvStats) :=
  match ids with
  | [] => Some h
  | id :: ids =>
    packets ← et_event_getcontrol event w !! 5%nat;
    h ← update_stats sm id (count_discarded (et_event_getlength event w) packets) h;
    discard_all sm ids event w h
  end.

Definition discard_stats (p : et_setup) (event : et_event) (s : fifo_state)
    : option (gmap nat packetRecvStats) :=
  match p.(statMap) with
  | None => Some s.(counters)
  | Some sm =>
    if (length (et_fifo_getBufs s.(entry) s.(world)) <? length p.(bufIds))%nat then None
    else discard_all sm p.(bufIds) event s.(world) s.(counters)
  end.

(** House cleaning: the entries of ticks far behind go to the readers as they are. *)
Fixpoint house_clean (p : et_setup) (event : et_event) (l : list (Z * et_fifo_entry))
    (s : fifo_state) : result (list (Z * et_fifo_entry) * fifo_state) :=
  match l with
  | [] => Ok ([], s)
  | (tik, entrie) :: l =>
    b ← checked (stale p.(prescale) s.(biggestTick) tik);
    if (b : bool) then
      h ← checked (discard_stats p event s);
      house_clean p event l
        (mk_fifo s.(packetBuffer) s.(prevTick) s.(biggestTick) s.(invalidPkts) s.(entry)
           s.(sources) s.(buffers) (insert_free entrie s.(freeEntries)) h
           (et_fifo_putEntry entrie s.(world)))
    else
      '(kept, s) ← house_clean p event l s;
      Ok ((tik, entrie) :: kept, s)
  end.

Definition clean (p : et_setup) (event : et_event) (s : fifo_state) : result fifo_state :=
  '(kept, s) ← house_clean p event s.(buffers) s;
  Ok (mk_fifo s.(packetBuffer) s.(prevTick) s.(biggestTick) s.(invalidPkts) s.(entry)
        s.(sources) kept s.(freeEntries) s.(counters) s.(world)).

(** A packet of an expected source. *)
Definition process (p : et_setup) (i : nat) (bufLen bufOffset tick nBytes : Z) (s : fifo_state)
    : result fifo_state :=
  s ← switch_tick p tick s;
  '(so, s) ← store_packet p i bufLen bufOffset nBytes s;
  s ← complete_source p tick bufLen so s;
  clean p so.(events) s.

Definition getBuffers_step (p : et_setup) (s : fifo_state) (ev : recv_event)
    : outcome fifo_state string :=
  match ev with
  | RecvErr _ => Halt "recvmsg failed"
  | Datagram bytes =>
    let pkt := received 9100 bytes in
    let nBytes := zlen pkt - RECV_HEADER in
    let s := receive pkt s in
    match parseReHeader s.(packetBuffer) with
    | None => Stuck
    | Some (_, dataId, bufOffset, bufLen, tick) =>
      match bufIdReverseMap p.(bufIds) !! dataId with
      | None =>
        if 100 <? s.(invalidPkts) + 1 then Halt "received over 100 pkts w/ wrong data id"
        else Next (mk_fifo s.(packetBuffer) s.(prevTick) s.(biggestTick) (s.(invalidPkts) + 1)
                     s.(entry) s.(sources) s.(buffers) s.(freeEntries) s.(counters) s.(world))
      | Some i =>
        match process p i bufLen bufOffset tick nBytes s with
        | Ok s => Next s
        | Throw e => Halt e
        | UB => Stuck
        end
      end
    end
  end.

(** The list of empty entries: [n] more of them. *)
Fixpoint create_entries (n : nat) (e : et_fifo_entry) (free : list et_fifo_entry) (w : et_world)
    : result (et_fifo_entry * list et_fifo_entry * et_world) :=
  match n with
  | O => Ok (e, free, w)
  | S n =>
    match et_fifo_entryCreate w with
    | (None, _) => Throw "no memory"
    | (Some e, w) => create_entries n e (insert_free e free) w
    end
  end.

Definition no_sources : string :=
  "data sources were NOT specified when calling et_fifo_openProducer()".

(** Up to the loop.  [packetBuffer0] and [entry0] are what the locals hold before
    they are assigned. *)
Definition getBuffers_enter (packetBuffer0 : list Z) (entry0 : et_fifo_entry) (tickPrescale : Z)
    (stats : option (gmap Z nat)) (h : gmap nat packetRecvStats) (w : et_world)
    : result (et_setup * fifo_state) :=
  let bufSizeMax := et_fifo_getBufSize w in
  let srcIdCount := et_fifo_getIdCount w in
  if srcIdCount <? 1 then Throw no_sources
  else
    match et_fifo_getBufIds w with
    | None => Throw no_sources
    | Some ids =>
      if negb (zlen ids =? srcIdCount) then UB
      else
        '(e, free, w) ← create_entries 10 entry0 [] w;
        Ok (mk_setup ids bufSizeMax tickPrescale stats,
            mk_fifo packetBuffer0 18446744073709551615 0 0 e None [] free h w)
    end.

(** The routine, given what recvfrom returns call after call.  It ends only by
    throwing; [Next] is the state in which it waits for a packet. *)
Definition getBuffers (packetBuffer0 : list Z) (entry0 : et_fifo_entry) (tickPrescale : Z)
    (stats : option (gmap Z nat)) (h : gmap nat packetRecvStats) (w : et_world)
    (evs : list recv_event) : outcome fifo_state string :=
  match getBuffers_enter packetBuffer0 entry0 tickPrescale stats h w with
  | Ok (p, s) => feed (getBuffers_step p) s evs
  | Throw e => Halt e
  | UB => Stuck
  end.
End GetBuffers.

(** ** The maps of ticks *)

Lemma find_tick_elem {A} t (l : list (Z * A)) a : find_tick t l = Some a -> (t, a) ∈ l.
Proof.
  induction l as [|[t' a'] l IH]; [done|]. cbn. destruct (Z.eqb_spec t' t) as [->|].
  - intros [= ->]. left.
  - intros. right. by apply IH.
Qed.

Lemma find_tick_None {A} t (l : list (Z * A)) : find_tick t l = None <-> t ∉ l.*1.
Proof.
  induction l as [|[t' a'] l IH]; cbn; [split; [intros _; apply not_elem_of_nil|done]|].
  rewrite not_elem_of_cons, <- IH. destruct (Z.eqb_spec t' t) as [->|]; split; try done.
  - by intros [].
  - by intros [].
Qed.

Lemma find_tick_iff {A} t (l : list (Z * A)) a : NoDup l.*1 -> find_tick t l = Some a <-> (t, a) ∈ l.
Proof.
  intros Hnd. split; [apply find_tick_elem|]. induction l as [|[t' a'] l IH]; [by intros ?%elem_of_nil|].
  cbn in Hnd. apply NoDup_cons in Hnd as [Hn Hnd]. cbn. intros [[= -> ->]|Hin]%elem_of_cons.
  - by rewrite Z.eqb_refl.
  - destruct (Z.eqb_spec t' t) as [->|]; [|by apply IH]. destruct Hn.
    apply list_elem_of_fmap. by exists (t, a).
Qed.

(** A tick that is there once is found in any order. *)
Lemma find_tick_perm {A} t (l l' : list (Z * A)) a : l' ≡ₚ l -> find_tick t l = Some a ->
  (forall b, (t, b) ∈ l' -> b = a) -> find_tick t l' = Some a.
Proof.
  intros Hp Hf Hu. apply find_tick_elem in Hf. rewrite <- Hp in Hf. clear Hp.
  induction l' as [|[t' b] l' IH]; [by apply elem_of_nil in Hf|]. cbn.
  destruct (Z.eqb_spec t' t) as [->|Hne]; [f_equal; apply Hu; left|].
  apply elem_of_cons in Hf as [[= ? _]|Hf]; [by subst|]. apply IH; [done|].
  intros b' Hb. apply Hu. by right.
Qed.

Section FilterKeys.
Context {A : Type} (P : Z -> Prop) `{forall t, Decision (P t)}.

Lemma find_tick_filter t (l : list (Z * A)) :
  find_tick t (filter (fun x => P x.1) l) = if decide (P t) then find_tick t l else None.
Proof.
  induction l as [|[t' a'] l IH]; [by case_decide|]. rewrite filter_cons. cbn [fst find_tick].
  destruct (Z.eqb_spec t' t) as [->|Hne].
  - case_decide; [by cbn; rewrite Z.eqb_refl|]. by rewrite IH.
  - destruct (decide (P t')); [|done]. cbn [find_tick]. by rewrite (proj2 (Z.eqb_neq _ _) Hne).
Qed.

Lemma NoDup_filter_keys (l : list (Z * A)) : NoDup l.*1 -> NoDup (filter (fun x => P x.1) l).*1.
Proof.
  induction l as [|[t a] l IH]; [done|]. intros [Hn Hnd]%NoDup_cons. rewrite filter_cons.
  cbn [fst]. case_decide; [|by apply IH]. apply NoDup_cons. split; [|by apply IH].
  intros (x & Hx & Hin)%list_elem_of_fmap. apply Hn, list_elem_of_fmap. exists x. split; [done|].
  by apply list_elem_of_filter in Hin as [_ ?].
Qed.

Lemma entries_split (l : list (Z * A)) :
  l.*2 ≡ₚ (filter (fun x => P x.1) l).*2 ++ (filter (fun x => ~ P x.1) l).*2.
Proof. by rewrite <- fmap_app, filter_app_complement. Qed.
End FilterKeys.

Lemma erase_tick_keys {A} t (l : list (Z * A)) : NoDup l.*1 -> NoDup (erase_tick t l).*1.
Proof. intros Hl. exact (NoDup_filter_keys (fun t' => t' <> t) l Hl). Qed.

Lemma find_erase {A} t t' (l : list (Z * A)) :
  find_tick t' (erase_tick t l) = if decide (t' = t) then None else find_tick t' l.
Proof.
  unfold erase_tick. etransitivity; [exact (find_tick_filter (fun k => k <> t) t' l)|].
  destruct (decide (t' = t)) as [->|]; [by rewrite decide_False by auto|by rewrite decide_True].
Qed.

(** Nothing to erase. *)
Lemma erase_tick_none {A} t (l : list (Z * A)) : t ∉ l.*1 -> filter (fun x => x.1 <> t) l = l.
Proof.
  induction l as [|[t' a] l IH]; [done|]. intros [Hne Hn]%not_elem_of_cons.
  cbn in Hne. rewrite filter_cons. cbn [fst]. rewrite decide_True by done. by rewrite IH.
Qed.

Lemma erase_tick_perm {A} t (l : list (Z * A)) a : NoDup l.*1 -> find_tick t l = Some a ->
  l.*2 ≡ₚ a :: (erase_tick t l).*2.
Proof.
  unfold erase_tick. induction l as [|[t' a'] l IH]; [done|]. intros [Hn Hnd]%NoDup_cons.
  rewrite filter_cons. cbn [fst find_tick]. destruct (Z.eqb_spec t' t) as [->|Hne].
  - intros [= ->]. rewrite decide_False by (intros []; done). cbn. f_equiv.
    by rewrite erase_tick_none.
  - intros Hf. rewrite decide_True by done. cbn. rewrite (IH Hnd Hf). apply Permutation_swap.
Qed.

(** ** Book-keeping of the entries *)

Section Entries.
Context {host : Host} {ET : EtSystem} {EL : EtEntryLaws} {HO : HashOrder} {HL : HashOrderLaws}.
Context (p : et_setup) (known0 : list et_fifo_entry).

Definition not_stale (biggest tik : Z) : Prop := stale p.(prescale) biggest tik = Some false.
#[local] Instance not_stale_dec biggest tik : Decision (not_stale biggest tik).
Proof. unfold not_stale. apply _. Defined.

(** Every entry created by the routine is at one place: in the map of ticks, once,
    or free; the current entry is that of the last tick, or free. *)
Record entries_ok (s : fifo_state) : Prop := mk_entries_ok {
  eo_keys : NoDup s.(buffers).*1;
  eo_known : NoDup (et_known s.(world));
  eo_held : s.(buffers).*2 ++ s.(freeEntries) ++ known0 ≡ₚ et_known s.(world);
  eo_current : s.(sources) = None \/ find_tick s.(prevTick) s.(buffers) = Some s.(entry)
    \/ (find_tick s.(prevTick) s.(buffers) = None /\ s.(entry) ∈ s.(freeEntries))
}.

Lemma insert_free_perm e free : e ∉ free -> insert_free e free ≡ₚ e :: free.
Proof using HL. intros. unfold insert_free. rewrite decide_False by done. apply hash_insert_perm. Qed.

Lemma insert_free_elem e free : e ∈ free -> insert_free e free = free.
Proof. intros. unfold insert_free. by rewrite decide_True. Qed.
Lemma house_clean_spec event l : forall s kept s', house_clean p event l s = Ok (kept, s') ->
  NoDup (l.*2 ++ s.(freeEntries)) ->
  kept = filter (fun x => not_stale s.(biggestTick) x.1) l
  /\ s'.(freeEntries) ≡ₚ (filter (fun x => ~ not_stale s.(biggestTick) x.1) l).*2 ++ s.(freeEntries)
  /\ et_known s'.(world) = et_known s.(world) /\ s'.(buffers) = s.(buffers)
  /\ s'.(prevTick) = s.(prevTick) /\ s'.(biggestTick) = s.(biggestTick)
  /\ s'.(entry) = s.(entry) /\ s'.(sources) = s.(sources).
Proof using All.
  induction l as [|[t e] l IH]; intros s kept s'; cbn [house_clean]; [by intros [= <- <-]|].
  intros ([] & Hb & Hr)%result_bind_Ok Hnd.
  - apply result_bind_Ok in Hr as (h & _ & Hr). cbn in Hnd. apply NoDup_cons in Hnd as [Hn Hnd].
    assert (He : insert_free e s.(freeEntries) ≡ₚ e :: s.(freeEntries)).
    { apply insert_free_perm. intros ?. apply Hn, elem_of_app. by right. }
    apply IH in Hr as (Hk & Hf & Hw & Hrest);
      [|cbn; rewrite He, <- Permutation_middle; by apply NoDup_cons].
    cbn in Hk, Hf, Hw.
    assert (Hs : ~ not_stale s.(biggestTick) t).
    { unfold not_stale. by destruct (stale _ _ _) as [[]|]. }
    rewrite !filter_cons. cbn [fst]. rewrite decide_False by done. rewrite decide_True by done.
    cbn. split; [done|]. rewrite Hf, He, <- Permutation_middle, Hw.
    autorewrite with et. done.
  - apply result_bind_Ok in Hr as ([k s1] & Hr & [= <- <-]).
    cbn in Hnd. apply NoDup_cons in Hnd as [_ Hnd]. apply IH in Hr as (-> & Hf & Hw & ?); [|done].
    assert (Hs : not_stale s.(biggestTick) t).
    { unfold not_stale. by destruct (stale _ _ _) as [[]|]; inversion Hb. }
    rewrite !filter_cons. cbn [fst]. rewrite decide_True by done.
    rewrite (decide_False (P := ~ _)) by auto. done.
Qed.

Lemma entries_nodup s : entries_ok s -> NoDup (s.(buffers).*2 ++ s.(freeEntries)).
Proof using All.
  intros []. apply (NoDup_app _ known0). rewrite <- app_assoc. by rewrite eo_held0.
Qed.

Lemma clean_entries event s s' : entries_ok s -> clean p event s = Ok s' ->
  entries_ok s' /\ Forall (not_stale s'.(biggestTick)) s'.(buffers).*1.
Proof using All.
  intros Hok ([kept s1] & Hh & [= <-])%result_bind_Ok.
  pose proof (entries_nodup s Hok) as Hnd.
  apply house_clean_spec in Hh as (-> & Hf & Hw & Hb & Hp & Hbig & He & Hs); [|done].
  destruct Hok as [Hk Hkn Hh Hc]. split.
  - constructor; cbn; rewrite ?Hw; try done.
    + by apply NoDup_filter_keys.
    + rewrite Hf, <- Hh, (entries_split (not_stale s.(biggestTick)) s.(buffers)).
      by rewrite <- !app_assoc.
    + rewrite Hs, Hp, He. destruct Hc as [|Hc]; [by left|right].
      rewrite find_tick_filter. destruct Hc as [Hc|[Hc Hin]].
      * destruct (decide _) as [Hd|Hd]; [by left|]. right. split; [done|]. rewrite Hf.
        apply elem_of_app. left. apply list_elem_of_fmap. exists (s.(prevTick), s.(entry)).
        split; [done|]. apply list_elem_of_filter. split; [done|]. by apply find_tick_elem.
      * right. split; [by destruct (decide _)|]. rewrite Hf. apply elem_of_app. by right.
  - cbn. rewrite Hbig. apply Forall_forall. intros t (x & -> & Hx)%list_elem_of_fmap.
    by apply list_elem_of_filter in Hx as [? _].
Qed.
Lemma switch_entries tick s s' : entries_ok s -> switch_tick p tick s = Ok s' ->
  entries_ok s' /\ s'.(prevTick) = tick.
Proof using All.
  intros Hok. unfold switch_tick. destruct (Z.eqb_spec tick s.(prevTick)) as [->|_].
  { intros [= <-]. done. }
  destruct Hok as [Hk Hn Hh _]. destruct (find_tick tick s.(buffers)) as [en|] eqn:Hf.
  - intros (srcs & _ & [= <-])%result_bind_Ok. split; [|done]. constructor; cbn; auto.
  - intros ([[en free] w] & Ht & Hr)%result_bind_Ok.
    assert (Hw : en :: s.(buffers).*2 ++ free ++ known0 ≡ₚ et_known w /\ NoDup (et_known w)).
    { unfold take_entry in Ht. destruct s.(freeEntries) as [|e free'].
      - destruct (et_fifo_entryCreate s.(world)) as [[e|] w0] eqn:Hc; [|done].
        injection Ht as <- <- <-. apply known_create in Hc as [? ->].
        split; [by rewrite <- Hh|by apply NoDup_cons].
      - injection Ht as <- <- <-. split; [|done]. rewrite <- Hh. cbn. apply Permutation_middle. }
    pose proof (known_newEntry en w) as Hkn.
    destruct (et_fifo_newEntry en w) as [err w1]. cbn in Hkn. destruct (negb _); [done|].
    apply result_bind_Ok in Hr as (srcs & _ & [= <-]). split; [|done].
    destruct Hw as [Hp Hd]. constructor; cbn; rewrite ?Hkn; try done.
    + rewrite hash_insert_perm. apply NoDup_cons. split; [by apply find_tick_None|done].
    + by rewrite hash_insert_perm.
    + right. left. apply find_tick_iff; rewrite hash_insert_perm; [|left].
      apply NoDup_cons. split; [by apply find_tick_None|done].
Qed.

Lemma store_entries i bufLen off n s so s' : entries_ok s ->
  store_packet p i bufLen off n s = Ok (so, s') ->
  entries_ok s' /\ s'.(prevTick) = s.(prevTick) /\ s'.(sources) <> None.
Proof using All.
  intros [Hk Hn Hh Hc]. unfold store_packet.
  intros (srcs & Hs & (sr & _ & Hr)%result_bind_Ok)%result_bind_Ok.
  destruct (_ <? _); [done|]. apply result_bind_Ok in Hr as (d & _ & (w & Hw & Hr)%result_bind_Ok).
  injection Hr as <- <-. split; [|done].
  destruct (et_memcpy _ _ _ _) as [w1|] eqn:Hm; [|done]. injection Hw as ->.
  apply known_memcpy in Hm.
  constructor; cbn; autorewrite with et; rewrite ?Hm; try done.
  right. destruct Hc as [Hc|Hc]; [|done]. by rewrite Hc in Hs.
Qed.

Lemma complete_entries bufLen so s s' : entries_ok s -> s.(sources) <> None ->
  complete_source p s.(prevTick) bufLen so s = Ok s' -> entries_ok s'.
Proof using All.
  intros Hok Hs. pose proof (entries_nodup s Hok) as Hnd. destruct Hok as [Hk Hn Hh Hc].
  destruct Hc as [|Hc]; [done|]. unfold complete_source.
  destruct (_ <? _); [by intros [= <-]; constructor; auto|].
  destruct (et_fifo_allHaveData _ _).
  2:{ intros [= <-]. constructor; cbn; autorewrite with et; auto. }
  intros (h & _ & [= <-])%result_bind_Ok. destruct Hc as [Hc|[Hc Hin]].
  - pose proof (erase_tick_perm _ _ _ Hk Hc) as Hp.
    assert (He : insert_free s.(entry) s.(freeEntries) ≡ₚ s.(entry) :: s.(freeEntries)).
    { apply insert_free_perm. rewrite Hp in Hnd. cbn in Hnd.
      apply NoDup_cons in Hnd as [Hni _]. intros ?. apply Hni, elem_of_app. by right. }
    constructor; cbn; autorewrite with et; try done.
    + by apply erase_tick_keys.
    + rewrite He, <- Hh, Hp. cbn. by rewrite <- Permutation_middle.
    + right. right. split; [by rewrite find_erase, decide_True|]. rewrite He. left.
  - rewrite insert_free_elem by done. unfold erase_tick.
    rewrite erase_tick_none by by apply find_tick_None.
    constructor; cbn; autorewrite with et; auto.
Qed.

(** What holds whenever the routine waits for a packet. *)
Definition waiting_ok (s : fifo_state) : Prop :=
  entries_ok s /\ Forall (not_stale s.(biggestTick)) s.(buffers).*1.

Lemma step_entries s ev : waiting_ok s ->
  forall s', getBuffers_step p s ev = Next s' -> waiting_ok s'.
Proof using All.
  intros [Hok Hst] s'. destruct ev as [bytes|]; [|done]. unfold getBuffers_step.
  set (s0 := receive _ s). assert (Hok0 : entries_ok s0) by (by destruct Hok; constructor).
  destruct (parseReHeader _) as [[[[[v id] off] len] tick]|]; [|done].
  destruct (bufIdReverseMap p.(bufIds) !! id) as [i|].
  2:{ destruct (_ <? _); [done|]. intros [= <-]. split; [by destruct Hok; constructor|done]. }
  destruct (process _ _ _ _ _ _ _) as [sp| |] eqn:Hp; [|done..]. intros [= <-]. unfold process in Hp.
  apply result_bind_Ok in Hp as (s1 & [K1 <-]%(switch_entries _ _ _ Hok0) & Hp).
  apply result_bind_Ok in Hp as ([so s2] & (K2 & Ht & Hs)%(store_entries _ _ _ _ _ _ _ K1) & Hp).
  rewrite <- Ht in Hp. apply result_bind_Ok in Hp as (s3 & K3%complete_entries & Hp); [|done..].
  by apply (clean_entries so.(events) s3).
Qed.

Lemma create_entries_ok n : forall e free w e' free' w', create_entries n e free w = Ok (e', free', w') ->
  NoDup (et_known w) -> free ++ known0 ≡ₚ et_known w ->
  NoDup (et_known w') /\ free' ++ known0 ≡ₚ et_known w' /\ length free' = (n + length free)%nat.
Proof using EL HL.
  induction n as [|n IH]; intros e free w e' free' w'; cbn; [by intros [= <- <- <-]|].
  destruct (et_fifo_entryCreate w) as [[e1|] w1] eqn:Hc; [|done]. intros Hr Hnd Hp.
  apply known_create in Hc as [Hn Hk].
  assert (He : insert_free e1 free ≡ₚ e1 :: free).
  { apply insert_free_perm. intros Hin. apply Hn. rewrite <- Hp. apply elem_of_app. by left. }
  apply IH in Hr as (? & ? & Hl); rewrite ?Hk in *.
  - split; [done|]. split; [done|]. rewrite Hl, He. cbn. lia.
  - by apply NoDup_cons.
  - rewrite He. cbn. by rewrite Hp.
Qed.
End Entries.

Section Kept.
Context {host : Host} {ET : EtSystem} {EL : EtEntryLaws} {HO : HashOrder} {HL : HashOrderLaws}.

(** C21: Whatever packets arrive, every ET entry the routine holds is at one place:
    it is the entry of exactly one tick, or free; no entry is lost (those held are
    all the ET system has created since the start), and whenever the routine
    waits, no tick it still collects is far behind the biggest one. *)
Theorem getBuffers_entries_kept pb0 e0 tickPrescale stats h w evs s :
  NoDup (et_known w) ->
  getBuffers pb0 e0 tickPrescale stats h w evs = Next s ->
  NoDup s.(buffers).*1 /\ NoDup (s.(buffers).*2 ++ s.(freeEntries))
  /\ (s.(buffers).*2 ++ s.(freeEntries)) ++ et_known w ≡ₚ et_known s.(world)
  /\ Forall (fun t => stale tickPrescale s.(biggestTick) t = Some false) s.(buffers).*1.
Proof using EL HL.
  intros Hnd. unfold getBuffers.
  destruct (getBuffers_enter _ _ _ _ _ _) as [[p s0]| |] eqn:He; [|done..].
  assert (Hs0 : waiting_ok p (et_known w) s0 /\ p.(prescale) = tickPrescale).
  { unfold getBuffers_enter in He. destruct (_ <? _); [done|].
    destruct (et_fifo_getBufIds w) as [ids|]; [|done]. destruct (negb _); [done|].
    apply result_bind_Ok in He as ([[e free] w1] & Hc & [= <- <-]).
    apply (create_entries_ok (et_known w)) in Hc as (? & ? & _); [|done..].
    split; [|done]. split; [|by constructor]. constructor; cbn; auto. constructor. }
  destruct Hs0 as [Hs0 <-]. intros Hf.
  apply (feed_waiting _ (waiting_ok p (et_known w))) in Hf as [Hok Hst]; [|by intros; eapply step_entries|done].
  split; [apply Hok|]. split; [by apply (entries_nodup p (et_known w))|]. split; [|done].
  rewrite <- app_assoc. apply Hok.
Qed.
End Kept.

Section Examples.
Import Small.
#[local] Instance little_host : Host := ENDIAN_LITTLE.

(** Ticks 1 to 3 of two sources, then tick 20: the older ones are given up. *)
Definition ticks_example : list recv_event :=
  map (fun '(t, id) => Datagram (packet_bytes (mk_packet 2 0 id 0 4 t [1; 2; 3; 4])))
    [(1, 7); (2, 7); (2, 9); (3, 9); (20, 7)].

Definition small_example : small := mk_small [7; 9] 16 ∅ ∅ [] 0 [].

#[local] Abbreviation run_example :=
  (getBuffers (ET := et_small) (replicate 64 0) O 2 None ∅ small_example ticks_example).

Lemma run_example_ticks : match run_example with Next s => s.(buffers).*1 | _ => [] end = [20].
Proof. vm_compute. reflexivity. Qed.

Lemma getBuffers_entries_kept_witness :
  exists s, run_example = Next s /\ s.(buffers).*1 = [20]
    /\ NoDup (s.(buffers).*2 ++ s.(freeEntries)).
Proof.
  pose proof run_example_ticks as Hr.
  assert (Hk : forall s, run_example = Next s -> NoDup (s.(buffers).*2 ++ s.(freeEntries))).
  { intros s Hs. refine (proj1 (proj2 (getBuffers_entries_kept (ET := et_small) (replicate 64 0) O 2 None ∅
      small_example ticks_example s _ Hs))). apply NoDup_nil_2. }
  destruct run_example as [s| |]; [|discriminate Hr|discriminate Hr].
  exists s. split; [reflexivity|]. split; [exact Hr|by apply Hk].
Defined.
End Examples.
