(* ===== verification/EtFill.v ===== *)
(** What getBuffers does with the packets of one tick: as long as packets of that
    tick come one after the other, in any order and from all sources, the entry is
    filled and given to the readers with the last of them; when the tick is taken up
    again after packets of another one, the routine has forgotten what it had. *)
From stdpp Require Import gmap pretty.
From S2P Require Import Prelude Bytes ByteOrder Wire Socket Assemble EtSystem EtFifo.

(** ** Generic facts *)

Lemma reverse_ids_other ids : forall i m id, id ∉ ids -> reverse_ids i ids m !! id = m !! id.
Proof.
  induction ids as [|x ids IH]; intros i m id; [done|]. intros [Hne Hn]%not_elem_of_cons. cbn.
  rewrite IH by done. by rewrite lookup_insert_ne.
Qed.

Lemma reverse_ids_lookup ids : forall k i m id, NoDup ids -> ids !! k = Some id ->
  reverse_ids i ids m !! id = Some (i + k)%nat.
Proof.
  induction ids as [|x ids IH]; intros k i m id; [done|]. intros [Hn Hnd]%NoDup_cons.
  destruct k as [|k]; cbn.
  - intros [= ->]. rewrite reverse_ids_other by done. rewrite lookup_insert_eq. f_equal. lia.
  - intros Hk. rewrite (IH k) by done. f_equal. lia.
Qed.

Lemma bufIdReverseMap_spec ids k id : NoDup ids -> ids !! k = Some id ->
  bufIdReverseMap ids !! id = Some k.
Proof. intros. unfold bufIdReverseMap. by rewrite (reverse_ids_lookup ids k). Qed.

Section Changes.
Context {E W : Type} `{EqDecision E} (view : E -> W -> et_view).

Lemma changes_same ev v w w' : changes view ev v w w' -> view ev w' = v.
Proof. intros H. rewrite (H ev). by rewrite decide_True. Qed.

Lemma changes_other ev ev' v w w' : changes view ev v w w' -> ev' <> ev -> view ev' w' = view ev' w.
Proof. intros H Hne. rewrite (H ev'). by rewrite decide_False. Qed.

Lemma changes_trans ev v v' w w' w'' :
  changes view ev v w w' -> changes view ev v' w' w'' -> changes view ev v' w w''.
Proof. intros H1 H2 ev'. rewrite (H2 ev'), (H1 ev'). by case_decide. Qed.
End Changes.

Lemma bytes_in_app id a b : bytes_in id (a ++ b) = bytes_in id a + bytes_in id b.
Proof. induction a as [|p a IH]; cbn [bytes_in app]; [lia|]. case_match; lia. Qed.
Lemma count_if_app f a b : count_if f (a ++ b) = count_if f a + count_if f b.
Proof. induction a as [|p a IH]; cbn [count_if app]; [lia|]. case_match; lia. Qed.
Lemma covered_app id a b k : covered id (a ++ b) k <-> covered id a k \/ covered id b k.
Proof. unfold covered. by rewrite Exists_app. Qed.

Section Store.
Context {host : Host} {ET : EtSystem} {EV : EtEventLaws} {HO : HashOrder}.

(** The events of entries, and where their data are, stay. *)
Definition same_events (w w' : et_world) : Prop :=
  (forall ev, et_event_getdata ev w' = et_event_getdata ev w)
  /\ (forall e, et_fifo_getBufs e w' = et_fifo_getBufs e w).

Lemma same_events_trans w w' w'' : same_events w w' -> same_events w' w'' -> same_events w w''.
Proof. intros [H1 H2] [H3 H4]. split; intros; [by rewrite H3|by rewrite H4]. Qed.

(** The source and the state after a packet with the data [d]. *)
Definition fed (so : source) (n : Z) : source :=
  mk_source (i32 (so.(packetCnts) + 1)) (u64 (so.(bytesWritten) + n)) so.(events) so.(bufs)
    so.(controls).

Definition fed_control (so : source) : list Z := <[5%nat := i32 (so.(packetCnts) + 1)]> so.(controls).

Definition with_world (s : fifo_state) (srcs : list source) (w : et_world) : fifo_state :=
  mk_fifo s.(packetBuffer) s.(prevTick) s.(biggestTick) s.(invalidPkts) s.(entry) (Some srcs)
    s.(buffers) s.(freeEntries) s.(counters) w.

Lemma store_packet_spec p s srcs i so bufLen off d mem :
  s.(sources) = Some srcs -> srcs !! i = Some so -> bufLen <= p.(bufSizeMax) ->
  load s.(packetBuffer) RECV_HEADER (zlen d) = Some d ->
  so.(bufs) = et_event_getdata so.(events) s.(world) ->
  store (et_view_of so.(events) s.(world)).(v_memory) off d = Some mem ->
  exists w, store_packet p i bufLen off (zlen d) s
      = Ok (fed so (zlen d), with_world s (<[i := fed so (zlen d)]> srcs) w)
    /\ changes et_view_of so.(events)
         (mk_view (u64 (so.(bytesWritten) + zlen d)) (fed_control so) mem) s.(world) w
    /\ same_events s.(world) w.
Proof using EV.
  intros Hs Hi Hlen Hd Hb Hm. destruct (view_memcpy _ _ _ _ _ Hm) as (w1 & Hw1 & Hc1).
  eexists. unfold store_packet. rewrite Hs. cbn [checked mbind result_bind]. rewrite Hi.
  cbn [checked mbind result_bind]. rewrite (proj2 (Z.ltb_ge _ _)) by lia. rewrite Hd.
  cbn [checked mbind result_bind]. rewrite Hb, Hw1. cbn [checked mbind result_bind].
  split; [by unfold fed; rewrite Hb|]. split.
  - pose proof (view_setlength so.(events) (u64 (so.(bytesWritten) + zlen d)) w1) as Hc2.
    pose proof (view_setcontrol so.(events) (fed_control so)
      (et_event_setlength so.(events) (u64 (so.(bytesWritten) + zlen d)) w1)) as Hc3.
    cbv zeta in Hc2, Hc3.
    rewrite (changes_same _ _ _ _ _ Hc2) in Hc3. rewrite (changes_same _ _ _ _ _ Hc1) in Hc2, Hc3.
    eapply changes_trans; [|exact Hc3]. eapply changes_trans; [exact Hc1|exact Hc2].
  - split; intros.
    + rewrite getdata_setcontrol, getdata_setlength. by eapply getdata_memcpy.
    + rewrite getBufs_setcontrol, getBufs_setlength. by eapply getBufs_memcpy.
Qed.

(** Nothing to clean. *)
Lemma clean_none p event s :
  Forall (fun t => stale p.(prescale) s.(biggestTick) t = Some false) s.(buffers).*1 ->
  clean p event s = Ok s.
Proof using.
  intros Hst. unfold clean.
  assert (Hh : forall l, Forall (fun t => stale p.(prescale) s.(biggestTick) t = Some false) l.*1 ->
    house_clean p event l s = Ok (l, s)).
  { induction l as [|[t e] l IH]; [done|]. intros [Ht Hl]%Forall_cons. cbn in Ht |- *.
    rewrite Ht. cbn. by rewrite IH. }
  rewrite (Hh _ Hst). by destruct s.
Qed.
End Store.

(** ** Collecting a tick *)

(** The control words of an event after the packets [done]; [con] is what they were
    when the routine turned to the tick. *)
Definition control_after (con : list Z) (id len : Z) (done : list packet) : list Z :=
  if decide (bytes_in id done = 0) then con
  else
    let c := <[5%nat := count_if (is_piece id) done]> con in
    if decide (bytes_in id done = len) then <[1%nat := 1]> c else c.

Section Tick.
Context {host : Host} {ET : EtSystem} {EV : EtEventLaws} {HO : HashOrder}.
Context (p : et_setup) (tick : Z) (en : et_fifo_entry) (datas : list (list Z)) (wb : et_world).

(** The source with index [i]: its id, the buffer it sends and the event for it. *)
Definition src (i : nat) (id : Z) (data : list Z) (ev : et_event) : Prop :=
  p.(bufIds) !! i = Some id /\ datas !! i = Some data /\ et_fifo_getBufs en wb !! i = Some ev.

(** Every source has an event, with room for its buffer. *)
Record tick_ok : Prop := mk_tick_ok {
  to_ids : NoDup p.(bufIds);
  to_datas : length datas = length p.(bufIds);
  to_bufs : length (et_fifo_getBufs en wb) = length p.(bufIds);
  to_events : NoDup (et_fifo_getBufs en wb);
  to_stats : p.(statMap) = None;
  to_fits i id data ev : src i id data ev ->
    0 < zlen data <= p.(bufSizeMax) /\ zlen data < 2147483648
    /\ zlen data <= zlen (et_view_of ev wb).(v_memory)
    /\ length (et_view_of ev wb).(v_control) = ET_STATION_SELECT_INTS
}.

(** A piece of the buffer of the source [i], in one UDP packet. *)
Definition packet_from (i : nat) (pk : packet) : Prop :=
  exists id data ev, src i id data ev /\ packet_ok pk /\ piece_of data id tick pk
    /\ zlen pk.(p_data) <= 9080.

(** An event and the counts of its source after the packets [done]. *)
Record source_ok (done : list packet) (so : source) (id : Z) (data : list Z) (ev : et_event)
    (w : et_world) : Prop := mk_source_ok {
  so_event : so.(events) = ev;
  so_data : so.(bufs) = et_event_getdata ev w;
  so_controls : so.(controls) = (et_view_of ev wb).(v_control);
  so_cnt : so.(packetCnts) = count_if (is_piece id) done;
  so_bytes : so.(bytesWritten) = bytes_in id done;
  so_count : 0 <= count_if (is_piece id) done <= bytes_in id done;
  so_le : bytes_in id done <= zlen data;
  so_control : (et_view_of ev w).(v_control)
    = control_after (et_view_of ev wb).(v_control) id (zlen data) done;
  so_length : bytes_in id done <> 0 -> (et_view_of ev w).(v_length) = bytes_in id done;
  so_room : length (et_view_of ev w).(v_memory) = length (et_view_of ev wb).(v_memory);
  so_memory k : covered id done k -> agrees data (et_view_of ev w).(v_memory) k
}.

(** A packet of another source changes nothing here. *)
Lemma source_other done so id data ev ev' v w w' pk :
  source_ok done so id data ev w -> pk.(p_id) <> id -> ev <> ev' ->
  changes et_view_of ev' v w w' -> same_events w w' ->
  source_ok (done ++ [pk]) so id data ev w'.
Proof using All.
  intros [] Hid Hev Hc Hs.
  assert (Hp : is_piece id pk = false) by (unfold is_piece; by apply Z.eqb_neq).
  assert (Hb : bytes_in id (done ++ [pk]) = bytes_in id done)
    by (rewrite bytes_in_app; cbn [bytes_in]; rewrite Hp; lia).
  assert (Hn : count_if (is_piece id) (done ++ [pk]) = count_if (is_piece id) done)
    by (rewrite count_if_app; cbn [count_if]; rewrite Hp; lia).
  pose proof (changes_other _ _ _ _ _ _ Hc Hev) as Hv.
  constructor; rewrite ?Hv, ?Hb, ?Hn; auto.
  - by rewrite (proj1 Hs).
  - rewrite so_control0. unfold control_after. by rewrite Hb, Hn.
  - intros k [Hk|Hk]%covered_app; [by apply so_memory0|].
    apply Exists_cons in Hk as [[? _]|Hk%Exists_nil]; done.
Qed.

(** A packet of this source. *)
Lemma source_fed done so id data ev w pk :
  source_ok done so id data ev w -> packet_ok pk -> piece_of data id tick pk ->
  zlen data < 2147483648 -> zlen data <= zlen (et_view_of ev wb).(v_memory) ->
  bytes_in id done + zlen pk.(p_data) <= zlen data ->
  let n := zlen pk.(p_data) in
  exists mem, store (et_view_of ev w).(v_memory) pk.(p_offset) pk.(p_data) = Some mem
    /\ u64 (so.(bytesWritten) + n) = bytes_in id (done ++ [pk])
    /\ forall w', changes et_view_of ev (mk_view (bytes_in id (done ++ [pk]))
          (if decide (bytes_in id (done ++ [pk]) = zlen data) then <[1%nat := 1]> (fed_control so)
           else fed_control so) mem) w w' ->
        same_events w w' -> source_ok (done ++ [pk]) (fed so n) id data ev w'.
Proof using All.
  intros [] Hok Hp Hd Hr Hle n.
  destruct (store_piece data id tick (et_view_of ev w).(v_memory) pk Hok Hp) as
    (mem & Hm & Hl & Hkeep & Hnew & _).
  { destruct Hp as (_ & _ & _ & _ & ? & _). lia. }
  destruct Hp as (Hid & _ & _ & Hpos & _).
  assert (Hpc : is_piece id pk = true) by (unfold is_piece; by rewrite Hid, Z.eqb_refl).
  assert (Hb : bytes_in id (done ++ [pk]) = bytes_in id done + n)
    by (rewrite bytes_in_app; cbn [bytes_in]; rewrite Hpc; lia).
  assert (Hn : count_if (is_piece id) (done ++ [pk]) = count_if (is_piece id) done + 1)
    by (rewrite count_if_app; cbn [count_if]; rewrite Hpc; lia).
  assert (Hu : u64 (so.(bytesWritten) + n) = bytes_in id (done ++ [pk]))
    by (rewrite so_bytes0, Hb; apply u64_small; lia).
  assert (Hi : i32 (so.(packetCnts) + 1) = count_if (is_piece id) (done ++ [pk]))
    by (rewrite so_cnt0, Hn; apply i32_small; lia).
  exists mem. split; [done|]. split; [done|]. intros w' Hc Hs.
  pose proof (changes_same _ _ _ _ _ Hc) as Hv.
  constructor; rewrite ?Hv; cbn; rewrite ?Hu, ?Hi; auto; try lia.
  - by rewrite (proj1 Hs).
  - unfold control_after, fed_control. rewrite (decide_False (P := bytes_in id (done ++ [pk]) = 0)) by lia. by rewrite Hi, so_controls0.
  - intros k [Hk|Hk]%covered_app; [by apply Hkeep, so_memory0|].
    apply Exists_cons in Hk as [[_ Hk]|Hk%Exists_nil]; [by apply Hnew|done].
Qed.

Lemma received_9100 pk : packet_ok pk -> zlen pk.(p_data) <= 9080 ->
  received 9100 (packet_bytes pk) = packet_bytes pk
  /\ zlen (packet_bytes pk) - RECV_HEADER = zlen pk.(p_data).
Proof using host.
  intros Hok Hn. destruct (received_packet pk Hok) as (_ & Hl & _).
  unfold RECV_HEADER, RE_HEADER_BYTES in *. split; [apply received_all; lia|lia].
Qed.

Lemma receive_packet s pk : packet_ok pk -> zlen pk.(p_data) <= 9080 ->
  (exists v, parseReHeader (receive (packet_bytes pk) s).(packetBuffer)
     = Some (v, pk.(p_id), pk.(p_offset), pk.(p_length), pk.(p_tick)))
  /\ load (receive (packet_bytes pk) s).(packetBuffer) RECV_HEADER (zlen pk.(p_data))
     = Some pk.(p_data).
Proof using host.
  intros Hok Hn. destruct (received_packet pk Hok) as (_ & Hl & _).
  assert (Hb : (receive (packet_bytes pk) s).(packetBuffer)
    = packet_bytes pk ++ drop (length (packet_bytes pk)) s.(packetBuffer)) by done.
  rewrite Hb. clear Hb. generalize (drop (length (packet_bytes pk)) s.(packetBuffer)) as rest.
  intros rest. split.
  - destruct Hok as (? & ? & ? & ? & _). unfold packet_bytes, re_packet.
    rewrite <- app_assoc. rewrite parseReHeader_spec by done. by eexists.
  - rewrite load_app_l; [apply load_packet|..]; unfold RECV_HEADER, RE_HEADER_BYTES in *; lia.
Qed.

(** A packet of a source with the index [i], after parsing. *)
Lemma step_process s i pk : NoDup p.(bufIds) -> packet_from i pk ->
  getBuffers_step p s (Datagram (packet_bytes pk))
    = match process p i pk.(p_length) pk.(p_offset) tick (zlen pk.(p_data))
              (receive (packet_bytes pk) s) with
      | Ok s => Next s | Throw e => Halt e | UB => Stuck end.
Proof using All.
  intros Hnd (id & data & ev & (Hid & _) & Hok & Hp & Hn). unfold getBuffers_step.
  destruct (received_9100 pk Hok Hn) as [-> ->].
  destruct (proj1 (receive_packet s pk Hok Hn)) as [v ->].
  destruct Hp as (-> & -> & _). by rewrite (bufIdReverseMap_spec _ i).
Qed.

(** The events of the entry, and the arrays of the routine, after [done]. *)
Definition collected (done : list packet) (srcs : list source) (w : et_world) : Prop :=
  et_fifo_getBufs en w = et_fifo_getBufs en wb
  /\ forall i id data ev, src i id data ev ->
       exists so, srcs !! i = Some so /\ source_ok done so id data ev w.

(** The state while the tick is collected. *)
Record collecting (done : list packet) (s : fifo_state) : Prop := mk_collecting {
  co_tick : s.(prevTick) = tick;
  co_entry : s.(entry) = en;
  co_find : find_tick tick s.(buffers) = Some en;
  co_fresh : Forall (fun t => stale p.(prescale) s.(biggestTick) t = Some false) s.(buffers).*1;
  co_sources : exists srcs, s.(sources) = Some srcs /\ collected done srcs s.(world)
}.

(** Every source had its data before, or has sent all of them now. *)
Definition has_all (done : list packet) : Prop :=
  forall i id data ev, src i id data ev ->
    (et_view_of ev wb).(v_control) !!! 1%nat <> 0 \/ bytes_in id done = zlen data.

Lemma control_after_flag con id len done : length con = ET_STATION_SELECT_INTS -> 0 < len ->
  control_after con id len done !!! 1%nat <> 0 <-> con !!! 1%nat <> 0 \/ bytes_in id done = len.
Proof using.
  intros Hl Hlen. unfold control_after. destruct (decide _) as [Hd|Hd].
  { split; [by left|]. intros [|]; [done|lia]. }
  cbv zeta. destruct (decide _) as [He|He].
  - rewrite list_lookup_total_insert_eq by (rewrite length_insert, Hl; unfold ET_STATION_SELECT_INTS; lia).
    split; [by right|done].
  - rewrite list_lookup_total_insert_ne by done. split; [by left|]. by intros [|].
Qed.

Lemma all_have_data done srcs w : tick_ok -> collected done srcs w ->
  et_fifo_allHaveData en w = true <-> has_all done.
Proof using All.
  intros Hto [Hb Hs]. rewrite allHaveData_view, Hb, Forall_lookup. split.
  - intros H i id data ev Hsrc. destruct (Hs _ _ _ _ Hsrc) as (so & _ & Hso).
    destruct Hsrc as (Hi & Hd & He). specialize (H i ev He). rewrite (so_control _ _ _ _ _ _ Hso) in H.
    destruct (to_fits Hto i id data ev ltac:(done)) as (? & _ & _ & ?).
    by apply control_after_flag in H; [|done|lia].
  - intros H i ev He.
    assert (Hi : (i < length p.(bufIds))%nat)
      by (rewrite <- (to_bufs Hto); by eapply lookup_lt_Some).
    destruct (lookup_lt_is_Some_2 p.(bufIds) i Hi) as [id Hid].
    destruct (lookup_lt_is_Some_2 datas i ltac:(rewrite (to_datas Hto); lia)) as [data Hdata].
    assert (Hsrc : src i id data ev) by done.
    destruct (Hs _ _ _ _ Hsrc) as (so & _ & Hso). rewrite (so_control _ _ _ _ _ _ Hso).
    destruct (to_fits Hto i id data ev Hsrc) as (? & _ & _ & ?).
    apply control_after_flag; [done|lia|]. by apply (H i id data ev).
Qed.

(** The entry goes to the readers. *)
Definition finished (s : fifo_state) (srcs : list source) (w : et_world) : fifo_state :=
  mk_fifo s.(packetBuffer) s.(prevTick) s.(biggestTick) s.(invalidPkts) s.(entry) (Some srcs)
    (erase_tick tick s.(buffers)) (insert_free s.(entry) s.(freeEntries)) s.(counters)
    (et_fifo_putEntry s.(entry) w).

Definition is_last (pk : packet) (done : list packet) : bool :=
  bool_decide (bytes_in pk.(p_id) done = pk.(p_length)).

(** The arrays and the events after one more packet. *)
Lemma collected_more done srcs w i pk id data ev so mem w' : tick_ok ->
  collected done srcs w -> src i id data ev -> srcs !! i = Some so -> source_ok done so id data ev w ->
  packet_ok pk -> piece_of data id tick pk ->
  bytes_in id done + zlen pk.(p_data) <= zlen data ->
  store (et_view_of ev w).(v_memory) pk.(p_offset) pk.(p_data) = Some mem ->
  changes et_view_of ev (mk_view (bytes_in id (done ++ [pk]))
    (if decide (bytes_in id (done ++ [pk]) = zlen data) then <[1%nat := 1]> (fed_control so)
     else fed_control so) mem) w w' ->
  same_events w w' ->
  collected (done ++ [pk]) (<[i := fed so (zlen pk.(p_data))]> srcs) w'.
Proof using All.
  intros Hto [Hb Hs] Hsrc Hso Hok Hpk Hp Hle Hm Hc Hsame. split; [by rewrite (proj2 Hsame)|].
  intros j id' data' ev' Hsrc'. destruct (decide (j = i)) as [->|Hne].
  - assert (id' = id /\ data' = data /\ ev' = ev) as (-> & -> & ->).
    { destruct Hsrc as (? & ? & ?), Hsrc' as (? & ? & ?). naive_solver. }
    exists (fed so (zlen pk.(p_data))). split.
    { apply list_lookup_insert_eq. by eapply lookup_lt_Some. }
    destruct (to_fits Hto _ _ _ _ Hsrc) as (_ & Hd & Hr & _).
    destruct (source_fed _ _ _ _ _ _ _ Hok Hpk Hp Hd Hr Hle) as (mem' & Hm' & _ & Hfed).
    rewrite Hm in Hm'. injection Hm' as <-. by apply Hfed.
  - destruct (Hs _ _ _ _ Hsrc') as (so' & Hso' & Hok'). exists so'.
    split; [by rewrite list_lookup_insert_ne by done|].
    assert (id <> id').
    { intros ->. apply Hne. destruct Hsrc as (? & _), Hsrc' as (? & _).
      by eapply (NoDup_lookup _ j i id' (to_ids Hto)). }
    assert (ev <> ev').
    { intros ->. apply Hne. destruct Hsrc as (_ & _ & ?), Hsrc' as (_ & _ & ?).
      by eapply (NoDup_lookup _ j i ev' (to_events Hto)). }
    eapply source_other; try done. by destruct Hp as (-> & _).
Qed.

Lemma erase_keys P (l : list (Z * et_fifo_entry)) : Forall P l.*1 -> Forall P (erase_tick tick l).*1.
Proof using.
  rewrite !Forall_forall. intros H t (x & -> & Hx)%list_elem_of_fmap. apply H, list_elem_of_fmap.
  exists x. split; [done|]. by apply list_elem_of_filter in Hx as [_ ?].
Qed.

(** The event is marked when it was the last packet of its source. *)
Definition marked (last : bool) (ev : et_event) (w : et_world) : et_world :=
  if last then et_fifo_setHasData ev 1 w else w.

Lemma complete_clean s srcs so bufLen w : p.(statMap) = None ->
  Forall (fun t => stale p.(prescale) s.(biggestTick) t = Some false) s.(buffers).*1 ->
  so.(bytesWritten) <= bufLen ->
  let l := bool_decide (so.(bytesWritten) = bufLen) in
  let w' := marked l so.(events) w in
  complete_source p tick bufLen so (with_world s srcs w) ≫= clean p so.(events)
    = Ok (if l && et_fifo_allHaveData s.(entry) w' then finished s srcs w' else with_world s srcs w').
Proof using EV.
  intros Hsm Hst Hle l w'. unfold complete_source, w', l.
  destruct (Z.ltb_spec so.(bytesWritten) bufLen) as [Hlt|Hge].
  - rewrite bool_decide_eq_false_2 by lia. cbn [andb marked mbind result_bind]. by apply clean_none.
  - rewrite bool_decide_eq_true_2 by lia. cbn [andb marked]. cbn [with_world entry world].
    destruct (et_fifo_allHaveData _ _).
    + unfold accept_stats. rewrite Hsm. cbn [checked mbind result_bind].
      rewrite clean_none; [done|]. cbn. by apply erase_keys.
    + cbn [mbind result_bind]. by apply clean_none.
Qed.

Lemma marked_changes (last : bool) ev v w w' : changes et_view_of ev v w w' ->
  changes et_view_of ev
    (mk_view v.(v_length) (if last then <[1%nat := 1]> v.(v_control) else v.(v_control)) v.(v_memory))
    w (marked last ev w').
Proof using EV.
  intros Hc. destruct last; cbn [marked]; [|by destruct v]. eapply changes_trans; [exact Hc|].
  pose proof (view_setHasData ev 1 w') as Hc2. cbv zeta in Hc2.
  by rewrite (changes_same _ _ _ _ _ Hc) in Hc2.
Qed.

Lemma marked_events last ev w w' : same_events w w' -> same_events w (marked last ev w').
Proof using EV.
  destruct last; cbn [marked]; [|done]. intros H. eapply same_events_trans; [exact H|].
  split; intros; [by rewrite getdata_setHasData|by rewrite getBufs_setHasData].
Qed.

Lemma process_collect done s i pk : tick_ok -> collecting done s -> packet_from i pk ->
  bytes_in pk.(p_id) done + zlen pk.(p_data) <= pk.(p_length) ->
  load s.(packetBuffer) RECV_HEADER (zlen pk.(p_data)) = Some pk.(p_data) ->
  exists srcs w, collected (done ++ [pk]) srcs w
    /\ process p i pk.(p_length) pk.(p_offset) tick (zlen pk.(p_data)) s
       = Ok (if is_last pk (done ++ [pk]) && et_fifo_allHaveData s.(entry) w then finished s srcs w
             else with_world s srcs w).
Proof using All.
  intros Hto [Htick Hen Hf Hst (srcs & Hsrcs & Hcol)] (id & data & ev & Hsrc & Hpk & Hp & Hn) Hle Hload.
  destruct (proj2 Hcol _ _ _ _ Hsrc) as (so & Hso & Hok).
  pose proof Hp as (Hid & Htk & Hlen & _). rewrite Hid, Hlen in *.
  destruct (to_fits Hto _ _ _ _ Hsrc) as (Hd0 & Hd & Hr & Hc6).
  destruct (source_fed _ _ _ _ _ _ _ Hok Hpk Hp Hd Hr Hle) as (mem & Hm & Htot & _).
  pose proof Hok as [Hev Hbufs _ _ _ _ _ _ _ _ _].
  destruct (store_packet_spec p s srcs i so (zlen data) pk.(p_offset) pk.(p_data) mem)
    as (w1 & Hstore & Hc1 & Hs1); rewrite ?Hev; try done; try lia.
  rewrite Hev, Htot in Hc1.
  set (l := bool_decide (bytes_in id (done ++ [pk]) = zlen data)).
  exists (<[i := fed so (zlen pk.(p_data))]> srcs), (marked l ev w1). split.
  - apply (collected_more done srcs s.(world) i pk id data ev so mem); try done.
    + apply (marked_changes l) in Hc1. cbn [v_length v_control v_memory] in Hc1. unfold l in *.
      by case_bool_decide; [rewrite decide_True in *|rewrite decide_False in *].
    + by apply marked_events.
  - assert (Hb : bytes_in id (done ++ [pk]) <= zlen data).
    { rewrite bytes_in_app. cbn [bytes_in]. destruct (is_piece id pk); lia. }
    unfold process, switch_tick. rewrite Htick, Z.eqb_refl. cbn [mbind result_bind].
    rewrite Hstore. cbn [mbind result_bind].
    pose proof (complete_clean s (<[i := fed so (zlen pk.(p_data))]> srcs)
      (fed so (zlen pk.(p_data))) (zlen data) w1 (to_stats Hto) Hst) as Hcc.
    cbn [fed bytesWritten events] in Hcc. rewrite Htot, Hev in Hcc. cbn [fed events]. rewrite Hev.
    etransitivity; [exact (Hcc ltac:(lia))|]. unfold is_last. by rewrite Hid, Hlen.
Qed.

Lemma step_collect done s i pk : tick_ok -> collecting done s -> packet_from i pk ->
  bytes_in pk.(p_id) done + zlen pk.(p_data) <= pk.(p_length) ->
  let s0 := receive (packet_bytes pk) s in
  exists srcs w, collected (done ++ [pk]) srcs w
    /\ getBuffers_step p s (Datagram (packet_bytes pk))
       = Next (if is_last pk (done ++ [pk]) && et_fifo_allHaveData en w then finished s0 srcs w
               else with_world s0 srcs w).
Proof using All.
  intros Hto Hco Hp Hle s0. assert (Hco0 : collecting done s0) by (by destruct Hco; constructor).
  pose proof Hp as (_ & _ & _ & _ & Hpk & _ & Hn).
  destruct (process_collect done s0 i pk Hto Hco0 Hp Hle) as (srcs & w & Hc & Hpr).
  { by apply (receive_packet s pk Hpk Hn). }
  exists srcs, w. split; [done|]. rewrite (step_process s i pk (to_ids Hto) Hp). fold s0. rewrite Hpr.
  by rewrite (co_entry _ _ Hco0).
Qed.

Lemma collecting_more done s srcs pk w : collecting done s ->
  collected (done ++ [pk]) srcs w -> collecting (done ++ [pk]) (with_world s srcs w).
Proof using. intros [] Hc. constructor; try done. by exists srcs. Qed.

(** As long as one source has not sent all its data the entry is kept. *)
Lemma feed_collect i0 id0 data0 ev0 ps : tick_ok -> src i0 id0 data0 ev0 ->
  (et_view_of ev0 wb).(v_control) !!! 1%nat = 0 ->
  Forall (fun pk => exists i, packet_from i pk) ps ->
  forall done s, collecting done s ->
  (forall i id data ev, src i id data ev -> bytes_in id (done ++ ps) <= zlen data) ->
  bytes_in id0 (done ++ ps) < zlen data0 ->
  exists s', feed (getBuffers_step p) s (map (fun pk => Datagram (packet_bytes pk)) ps) = Next s'
    /\ collecting (done ++ ps) s' /\ s'.(buffers) = s.(buffers)
    /\ s'.(freeEntries) = s.(freeEntries).
Proof using All.
  intros Hto Hsrc0 Hflag. induction 1 as [|pk ps [i Hp] _ IH]; intros done s Hco Hsum Hlt.
  { exists s. by rewrite app_nil_r. }
  assert (Hassoc : done ++ pk :: ps = (done ++ [pk]) ++ ps) by by rewrite <- app_assoc.
  rewrite Hassoc in *.
  assert (Hle : bytes_in pk.(p_id) done + zlen pk.(p_data) <= pk.(p_length)).
  { destruct Hp as (id & data & ev & Hsrc & _ & Hp & _). specialize (Hsum _ _ _ _ Hsrc).
    destruct Hp as (Hid & _ & -> & _). rewrite Hid. rewrite !bytes_in_app in Hsum.
    cbn [bytes_in] in Hsum. unfold is_piece in Hsum. rewrite Hid, Z.eqb_refl in Hsum.
    pose proof (bytes_in_nonneg id ps). lia. }
  destruct (step_collect done s i pk Hto Hco Hp Hle) as (srcs & w & Hc & Hstep).
  assert (Hno : et_fifo_allHaveData en w = false).
  { apply not_true_iff_false. rewrite (all_have_data _ _ _ Hto Hc). intros Hall.
    destruct (Hall _ _ _ _ Hsrc0) as [|Hb]; [done|]. rewrite bytes_in_app, Hb in Hlt.
    pose proof (bytes_in_nonneg id0 ps). lia. }
  rewrite Hno, andb_false_r in Hstep. cbn [map feed]. rewrite Hstep.
  destruct (IH (done ++ [pk]) (with_world (receive (packet_bytes pk) s) srcs w))
    as (s' & Hf & Hco' & Hbuf & Hfree); [|done|done|].
  - apply collecting_more; [|done]. by destruct Hco; constructor.
  - by exists s'.
Qed.
End Tick.

Section Open.
Context {host : Host} {ET : EtSystem} {EV : EtEventLaws} {HO : HashOrder}.

Lemma switch_receive p tick b s s0 : switch_tick p tick s = Ok s0 ->
  switch_tick p tick (receive b s) = Ok (receive b s0).
Proof.
  unfold switch_tick, take_entry. cbn [receive prevTick buffers freeEntries world].
  destruct (_ =? _); [by intros [= <-]|]. destruct (find_tick _ _).
  { by intros (srcs & -> & [= <-])%result_bind_Ok. }
  intros ([[en free] w] & -> & Hr)%result_bind_Ok. cbn [mbind result_bind].
  destruct (et_fifo_newEntry en w) as [err w1]. destruct (negb _); [done|].
  by apply result_bind_Ok in Hr as (srcs & -> & [= <-]).
Qed.

Lemma step_open p tick en datas wb s s0 i pk : NoDup p.(bufIds) ->
  switch_tick p tick s = Ok s0 -> s0.(prevTick) = tick -> packet_from p tick en datas wb i pk ->
  getBuffers_step p s (Datagram (packet_bytes pk)) = getBuffers_step p s0 (Datagram (packet_bytes pk)).
Proof using EV.
  intros Hnd Hsw Ht Hp. rewrite !(step_process p tick en datas wb _ i pk Hnd Hp). unfold process.
  rewrite (switch_receive p tick (packet_bytes pk) s s0 Hsw).
  assert (switch_tick p tick (receive (packet_bytes pk) s0) = Ok (receive (packet_bytes pk) s0)) as ->.
  { unfold switch_tick. cbn [receive prevTick]. by rewrite Ht, Z.eqb_refl. }
  done.
Qed.

(** The arrays when the routine turns to an entry: nothing received. *)
Lemma loaded p en datas w srcs : tick_ok p en datas w -> load_sources p en w = Ok srcs ->
  collected p en datas w [] srcs w.
Proof using EV.
  intros Hto. unfold load_sources. rewrite (to_bufs _ _ _ _ Hto), Nat.ltb_irrefl.
  rewrite take_ge by (rewrite (to_bufs _ _ _ _ Hto); lia). intros [= <-]. split; [done|].
  intros i id data ev Hsrc. exists (load_source w ev). split.
  { rewrite list_lookup_fmap. by destruct Hsrc as (_ & _ & ->). }
  destruct (to_fits _ _ _ _ Hto _ _ _ _ Hsrc) as (? & _).
  constructor; cbn; try done; try lia.
  - apply getcontrol_view.
  - by intros k Hk%Exists_nil.
Qed.

Lemma load_sources_ok p en datas w : tick_ok p en datas w ->
  exists srcs, load_sources p en w = Ok srcs /\ collected p en datas w [] srcs w.
Proof using EV.
  intros Hto. destruct (load_sources p en w) as [srcs|e|] eqn:Hl.
  - exists srcs. split; [done|]. by apply loaded.
  - unfold load_sources in Hl. by destruct (_ <? _)%nat.
  - unfold load_sources in Hl. by rewrite (to_bufs _ _ _ _ Hto), Nat.ltb_irrefl in Hl.
Qed.

Definition datagrams (ps : list packet) : list recv_event :=
  map (fun pk => Datagram (packet_bytes pk)) ps.

Lemma feed_open p tick en datas wb s s0 i pk ps : NoDup p.(bufIds) ->
  switch_tick p tick s = Ok s0 -> s0.(prevTick) = tick -> packet_from p tick en datas wb i pk ->
  feed (getBuffers_step p) s (datagrams (pk :: ps)) = feed (getBuffers_step p) s0 (datagrams (pk :: ps)).
Proof using EV.
  intros. cbn [datagrams map feed]. by rewrite (step_open p tick en datas wb s s0 i).
Qed.

(** What the readers of the fifo find: every event marked, with the length and the
    bytes of the buffer of its source and the number of packets it came in. *)
Definition delivered (p : et_setup) (en : et_fifo_entry) (datas : list (list Z)) (w0 : et_world)
    (ps : list packet) (w : et_world) : Prop :=
  et_fifo_getBufs en w = et_fifo_getBufs en w0 /\
  forall i id data ev, src p en datas w0 i id data ev ->
    let v := et_view_of ev w in
    v.(v_length) = zlen data /\ take (length data) v.(v_memory) = data
    /\ v.(v_control) = <[1%nat := 1]> (<[5%nat := count_if (is_piece id) ps]>
                                         (et_view_of ev w0).(v_control)).

Lemma collected_delivered p en datas w0 ps srcs w : tick_ok p en datas w0 ->
  collected p en datas w0 ps srcs w ->
  (forall i id data ev, src p en datas w0 i id data ev ->
     bytes_in id ps = zlen data /\ forall k, (k < length data)%nat -> covered id ps k) ->
  delivered p en datas w0 ps w.
Proof.
  intros Hto [Hb Hs] Hall. split; [done|]. intros i id data ev Hsrc v.
  destruct (Hs _ _ _ _ Hsrc) as (so & _ & []). destruct (Hall _ _ _ _ Hsrc) as [Hsum Hcov].
  destruct (to_fits _ _ _ _ Hto _ _ _ _ Hsrc) as (? & _ & Hr & _).
  split; [|split].
  - rewrite <- Hsum. apply so_length0. lia.
  - apply list_eq. intros k. destruct (decide (k < length data)%nat).
    + rewrite lookup_take_lt by done. by apply so_memory0, Hcov.
    + rewrite lookup_take_ge by lia. by rewrite lookup_ge_None_2 by lia.
  - unfold v. rewrite so_control0. unfold control_after. rewrite decide_False by lia.
    by rewrite decide_True.
Qed.
End Open.

Section Theorems.
Context {host : Host} {ET : EtSystem} {EV : EtEventLaws} {HO : HashOrder} {HL : HashOrderLaws}.

Definition fresh_for (p : et_setup) (biggest : Z) (ticks : list Z) : Prop :=
  Forall (fun t => stale p.(prescale) biggest t = Some false) ticks.

Lemma switch_new p s tick datas en free w0 w1 : tick_ok p en datas w1 ->
  s.(prevTick) <> tick -> find_tick tick s.(buffers) = None ->
  take_entry s = Ok (en, free, w0) -> et_fifo_newEntry en w0 = (ET_OK, w1) ->
  fresh_for p (Z.max s.(biggestTick) tick) (tick :: s.(buffers).*1) ->
  exists s0, switch_tick p tick s = Ok s0 /\ collecting p tick en datas w1 [] s0
    /\ s0.(buffers) = hash_insert (tick, en) s.(buffers) /\ s0.(freeEntries) = free.
Proof using EV HL.
  intros Hto Ht Hf Hte Hne Hst. destruct (load_sources_ok p en datas w1 Hto) as (srcs & Hl & Hc).
  unfold switch_tick. rewrite (proj2 (Z.eqb_neq tick _)) by done. rewrite Hf, Hte.
  cbn [mbind result_bind]. rewrite Hne. cbn [ET_OK Z.eqb negb]. rewrite Hl.
  cbn [mbind result_bind]. eexists. split; [done|]. split; [|done].
  assert (Hmax : (if s.(biggestTick) <? tick then tick else s.(biggestTick)) = Z.max s.(biggestTick) tick).
  { destruct (Z.ltb_spec s.(biggestTick) tick); lia. }
  constructor; cbn; try done.
  - apply find_tick_perm with ((tick, en) :: s.(buffers)); [by rewrite hash_insert_perm| |].
    + cbn. by rewrite Z.eqb_refl.
    + intros e Hin. rewrite hash_insert_perm in Hin. apply elem_of_cons in Hin as [[= ->]|Hin]; [done|].
      exfalso. apply (proj1 (find_tick_None _ _) Hf). apply list_elem_of_fmap. by exists (tick, e).
  - rewrite Hmax. by rewrite hash_insert_perm.
  - by exists srcs.
Qed.

Lemma feed_before p tick en datas w1 s0 pre suf : tick_ok p en datas w1 ->
  Forall (fun ev => (et_view_of ev w1).(v_control) !!! 1%nat = 0) (et_fifo_getBufs en w1) ->
  Forall (fun pk => exists i, packet_from p tick en datas w1 i pk) (pre ++ suf) ->
  (forall i id data ev, src p en datas w1 i id data ev -> bytes_in id (pre ++ suf) = zlen data) ->
  collecting p tick en datas w1 [] s0 -> suf <> [] ->
  exists s', feed (getBuffers_step p) s0 (datagrams pre) = Next s'
    /\ collecting p tick en datas w1 pre s' /\ s'.(buffers) = s0.(buffers)
    /\ s'.(freeEntries) = s0.(freeEntries).
Proof using EV.
  intros Hto Hz [Hpre Hsuf]%Forall_app Hsum Hco Hne. destruct suf as [|pk suf]; [done|].
  apply Forall_cons in Hsuf as [(i & id & data & ev & Hsrc & _ & Hp & _) _].
  assert (Hflag : (et_view_of ev w1).(v_control) !!! 1%nat = 0).
  { rewrite Forall_lookup in Hz. destruct Hsrc as (_ & _ & He). by eapply Hz. }
  destruct (feed_collect p tick en datas w1 i id data ev pre Hto Hsrc Hflag Hpre [] s0 Hco)
    as (s' & ?); [| |by exists s'].
  - intros j id' data' ev' Hs. rewrite <- (Hsum _ _ _ _ Hs). cbn [app]. rewrite bytes_in_app.
    pose proof (bytes_in_nonneg id' (pk :: suf)). lia.
  - rewrite <- (Hsum _ _ _ _ Hsrc). cbn [app]. rewrite bytes_in_app. cbn [bytes_in].
    destruct Hp as (Hid & _ & _ & Hpos & _). unfold is_piece. rewrite Hid, Z.eqb_refl.
    pose proof (bytes_in_nonneg id suf). lia.
Qed.

(** C12: The packets of a new tick, from all sources and in any order, with no packet
    of another tick between them, fill the events of a fifo entry: with the last
    packet, and not before, the entry goes to the readers with every event marked
    and holding the length, the bytes and the number of packets of its source; the
    map of ticks is as before and the entry is free again. *)
Theorem getBuffers_fills_entry p s tick datas ps en free w0 w1 :
  tick_ok p en datas w1 ->
  s.(prevTick) <> tick -> find_tick tick s.(buffers) = None ->
  take_entry s = Ok (en, free, w0) -> et_fifo_newEntry en w0 = (ET_OK, w1) ->
  Forall (fun ev => (et_view_of ev w1).(v_control) !!! 1%nat = 0) (et_fifo_getBufs en w1) ->
  fresh_for p (Z.max s.(biggestTick) tick) (tick :: s.(buffers).*1) ->
  ps <> [] -> Forall (fun pk => exists i, packet_from p tick en datas w1 i pk) ps ->
  (forall i id data ev, src p en datas w1 i id data ev ->
     bytes_in id ps = zlen data /\ forall k, (k < length data)%nat -> covered id ps k) ->
  (exists s' w, feed (getBuffers_step p) s (datagrams ps) = Next s'
     /\ delivered p en datas w1 ps w /\ s'.(world) = et_fifo_putEntry en w
     /\ s'.(buffers) ≡ₚ s.(buffers) /\ s'.(freeEntries) = insert_free en free)
  /\ forall pre suf, ps = pre ++ suf -> pre <> [] -> suf <> [] ->
       exists s', feed (getBuffers_step p) s (datagrams pre) = Next s'
         /\ find_tick tick s'.(buffers) = Some en.
Proof using EV HL.
  intros Hto Ht Hf Hte Hne Hz Hst Hps Hpk Hall.
  destruct (switch_new p s tick datas en free w0 w1) as (s0 & Hsw & Hco & Hb0 & Hf0); try done.
  assert (Hopen : forall pre suf, ps = pre ++ suf -> pre <> [] ->
    feed (getBuffers_step p) s (datagrams pre) = feed (getBuffers_step p) s0 (datagrams pre)).
  { intros [|pk pre] suf -> Hn; [done|]. apply Forall_cons in Hpk as [[i Hi] _].
    apply (feed_open p tick en datas w1 s s0 i); try done; [apply Hto|apply Hco]. }
  assert (Hbefore : forall pre suf, ps = pre ++ suf -> suf <> [] -> exists s',
    feed (getBuffers_step p) s0 (datagrams pre) = Next s' /\ collecting p tick en datas w1 pre s'
    /\ s'.(buffers) = s0.(buffers) /\ s'.(freeEntries) = s0.(freeEntries)).
  { intros pre suf -> Hn. apply (feed_before _ _ _ _ _ _ _ suf); try done.
    intros. by eapply Hall. }
  split.
  - destruct (exists_last Hps) as (pre & pk & ->).
    destruct (Hbefore pre [pk] eq_refl ltac:(done)) as (s1 & Hfeed & Hc1 & Hb1 & Hf1).
    rewrite (Hopen _ [] (eq_sym (app_nil_r _)) Hps). unfold datagrams in *. rewrite map_app, feed_app, Hfeed.
    apply Forall_app in Hpk as [_ [[i Hi] _]%Forall_cons].
    pose proof Hi as (id & data & ev & Hsrc & _ & (Hid & _ & Hlen & _) & _).
    pose proof (proj1 (Hall _ _ _ _ Hsrc)) as Hsum.
    destruct (step_collect p tick en datas w1 pre s1 i pk Hto Hc1 Hi) as (srcs & w & Hc & Hstep).
    { rewrite Hid, Hlen. rewrite bytes_in_app in Hsum. cbn [bytes_in] in Hsum.
      unfold is_piece in Hsum. rewrite Hid, Z.eqb_refl in Hsum. lia. }
    unfold is_last in Hstep. rewrite Hid, Hlen, bool_decide_eq_true_2 in Hstep by done.
    rewrite (proj2 (all_have_data p tick en datas w1 _ srcs w Hto Hc)) in Hstep.
    2:{ intros j id' data' ev' Hs. right. by eapply Hall. }
    cbn [map feed]. rewrite Hstep. eexists _, w. split; [done|].
    split; [by eapply collected_delivered|]. split; [cbn; by rewrite (co_entry _ _ _ _ _ _ _ Hc1)|].
    cbn [andb finished buffers freeEntries receive entry]. rewrite Hb1, Hf1, Hb0, Hf0.
    split; [|by rewrite (co_entry _ _ _ _ _ _ _ Hc1)].
    unfold erase_tick. rewrite hash_insert_perm, filter_cons. cbn [fst].
    rewrite decide_False by (intros []; done). by rewrite erase_tick_none by by apply find_tick_None.
  - intros pre suf -> Hpre Hsuf. destruct (Hbefore pre suf eq_refl Hsuf) as (s1 & Hfeed & Hc1 & _).
    exists s1. rewrite (Hopen pre suf) by done. split; [done|]. apply Hc1.
Qed.

(** A tick that is taken up again after a packet of another tick starts from
    nothing: what was received of it before is not counted.  If fewer bytes of a
    source follow than its buffer has, its event is not marked, the entry is not
    given to the readers, however much was received before, and the length of the
    event is that of what came last. *)
Theorem getBuffers_forgets_tick p s tick datas en i id data ev ps :
  tick_ok p en datas s.(world) ->
  s.(prevTick) <> tick -> find_tick tick s.(buffers) = Some en ->
  fresh_for p s.(biggestTick) s.(buffers).*1 ->
  src p en datas s.(world) i id data ev ->
  (et_view_of ev s.(world)).(v_control) !!! 1%nat = 0 ->
  Forall (fun pk => exists j, packet_from p tick en datas s.(world) j pk) ps ->
  (forall j id' data' ev', src p en datas s.(world) j id' data' ev' -> bytes_in id' ps <= zlen data') ->
  bytes_in id ps < zlen data ->
  exists s', feed (getBuffers_step p) s (datagrams ps) = Next s'
    /\ find_tick tick s'.(buffers) = Some en
    /\ et_event_getcontrol ev s'.(world) !!! 1%nat = 0
    /\ (0 < bytes_in id ps -> et_event_getlength ev s'.(world) = bytes_in id ps).
Proof using EV.
  intros Hto Ht Hf Hst Hsrc Hz Hps Hsum Hlt. rewrite <- getcontrol_view in Hz.
  destruct ps as [|pk ps]; [by exists s; repeat split; try done; cbn; lia|].
  destruct (load_sources_ok p en datas s.(world) Hto) as (srcs & Hl & Hc).
  set (s0 := mk_fifo s.(packetBuffer) tick s.(biggestTick) s.(invalidPkts) en (Some srcs)
               s.(buffers) s.(freeEntries) s.(counters) s.(world)).
  assert (Hsw : switch_tick p tick s = Ok s0).
  { unfold switch_tick. rewrite (proj2 (Z.eqb_neq tick _)) by done. by rewrite Hf, Hl. }
  apply Forall_cons in Hps as Hpk. destruct Hpk as [[j Hj] _].
  rewrite (feed_open p tick en datas s.(world) s s0 j) by (done || apply Hto).
  destruct (feed_collect p tick en datas s.(world) i id data ev (pk :: ps) Hto Hsrc
    ltac:(by rewrite <- getcontrol_view) Hps [] s0) as (s' & Hfeed & Hco & _); try done.
  { constructor; try done. by exists srcs. }
  exists s'. split; [exact Hfeed|]. split; [apply Hco|].
  destruct (co_sources _ _ _ _ _ _ _ Hco) as (srcs' & _ & _ & Hs).
  destruct (Hs _ _ _ _ Hsrc) as (so & _ & []). destruct (to_fits _ _ _ _ Hto _ _ _ _ Hsrc) as (Hd & _ & _ & H6).
  rewrite getcontrol_view, getlength_view. split; [|intros; by apply so_length0; cbn [app]; lia].
  rewrite so_control0. apply dec_stable. rewrite control_after_flag by (done || lia).
  rewrite <- getcontrol_view. intros [|]; [done|cbn [app] in *; lia].
Qed.

(** What an unknown packet leaves as it was. *)
Definition same_collection (s s' : fifo_state) : Prop :=
  s'.(prevTick) = s.(prevTick) /\ s'.(biggestTick) = s.(biggestTick) /\ s'.(entry) = s.(entry)
  /\ s'.(sources) = s.(sources) /\ s'.(buffers) = s.(buffers)
  /\ s'.(freeEntries) = s.(freeEntries) /\ s'.(counters) = s.(counters) /\ s'.(world) = s.(world).

Lemma step_unknown p s pk : packet_ok pk -> zlen pk.(p_data) <= 9080 -> pk.(p_id) ∉ p.(bufIds) ->
  getBuffers_step p s (Datagram (packet_bytes pk)) =
    if 100 <? s.(invalidPkts) + 1 then Halt "received over 100 pkts w/ wrong data id"
    else Next (mk_fifo (receive (packet_bytes pk) s).(packetBuffer) s.(prevTick) s.(biggestTick)
                 (s.(invalidPkts) + 1) s.(entry) s.(sources) s.(buffers) s.(freeEntries)
                 s.(counters) s.(world)).
Proof.
  intros Hok Hn Hid. unfold getBuffers_step. destruct (received_9100 pk Hok Hn) as [-> _].
  destruct (proj1 (receive_packet s pk Hok Hn)) as [v ->].
  unfold bufIdReverseMap. rewrite reverse_ids_other by done. by rewrite lookup_empty.
Qed.

(** Packets of unknown sources are only counted; the routine gives up with the
    one after the hundredth. *)
Theorem getBuffers_unknown_sources p s ps :
  Forall (fun pk => packet_ok pk /\ zlen pk.(p_data) <= 9080 /\ pk.(p_id) ∉ p.(bufIds)) ps ->
  s.(invalidPkts) <= 100 ->
  if 100 <? s.(invalidPkts) + zlen ps then
    feed (getBuffers_step p) s (datagrams ps) = Halt "received over 100 pkts w/ wrong data id"
  else exists s', feed (getBuffers_step p) s (datagrams ps) = Next s'
         /\ s'.(invalidPkts) = s.(invalidPkts) + zlen ps /\ same_collection s s'.
Proof.
  intros Hps. revert s. induction Hps as [|pk ps (Hok & Hn & Hid) _ IH]; intros s Hs.
  { rewrite (proj2 (Z.ltb_ge _ _)) by (cbn; lia). exists s. split; [done|]. split; [cbn; lia|done]. }
  cbn [datagrams map feed]. rewrite (step_unknown p s pk Hok Hn Hid).
  destruct (Z.ltb_spec 100 (s.(invalidPkts) + 1)).
  { rewrite (proj2 (Z.ltb_lt _ _)); [done|]. cbn [length]. lia. }
  match goal with |- context [feed _ ?s1 _] => specialize (IH s1) end.
  cbn [invalidPkts] in IH. specialize (IH ltac:(lia)).
  replace (s.(invalidPkts) + 1 + zlen ps) with (s.(invalidPkts) + zlen (pk :: ps)) in IH
    by (cbn [length]; lia).
  destruct (_ <? _); [done|]. destruct IH as (s' & ? & ? & ?). by exists s'.
Qed.
End Theorems.

(** ** On the small ET system *)

Section Examples.
Import Small.
#[local] Instance little_host : Host := ENDIAN_LITTLE.

Definition dummy : fifo_state (ET := et_small) :=
  mk_fifo (ET := et_small) [] 0 0 0 (0 : nat) None [] [] ∅ (mk_small [] 0 ∅ ∅ [] 0 []).

(** The loop's start, with the sources [ids] and events of 16 bytes. *)
Definition start (ids : list Z) : fifo_state (ET := et_small) :=
  match getBuffers_enter (ET := et_small) (replicate 64 0) (0 : nat) 1 None ∅
          (mk_small ids 16 ∅ ∅ [] 0 []) with
  | Ok (_, s) => s
  | _ => dummy
  end.

Definition setup (ids : list Z) : et_setup := mk_setup ids 16 1 None.

(** The state after the packets [ps]. *)
Definition after (ids : list Z) (ps : list packet) : fifo_state (ET := et_small) :=
  match feed (getBuffers_step (setup ids)) (start ids) (datagrams ps) with
  | Next s => s
  | _ => dummy
  end.

Definition piece (tick id : Z) (data : list Z) (off len : nat) : packet :=
  mk_packet 2 0 id (Z.of_nat off) (zlen data) tick (take len (drop off data)).

Lemma piece_from tick (data : list Z) off len p en datas wb i id ev :
  src (ET := et_small) p en datas wb i id data ev ->
  0 <= id < 65536 -> 0 <= tick < 1000 -> (off + len <= length data)%nat -> (0 < len)%nat ->
  zlen data < 1000 ->
  packet_from (ET := et_small) p tick en datas wb i (piece tick id data off len).
Proof.
  intros Hs Hid Ht Hl Hp Hn. exists id, data, ev. split; [done|].
  assert (Hlen : length (take len (drop off data)) = len) by (rewrite length_take, length_drop; lia).
  split; [|split].
  - unfold packet_ok, is_u16, is_u32, is_u64, RECV_HEADER, RE_HEADER_BYTES. cbn. rewrite Hlen. lia.
  - unfold piece_of. cbn. rewrite Hlen, Nat2Z.id. repeat split; try done; lia.
  - cbn. rewrite Hlen. lia.
Qed.

Lemma small_sources en (wb : small) i id data ev :
  forall d1 d2 e1 e2, getBufs en wb = [e1; e2] ->
  src (ET := et_small) (setup [7; 9]) en [d1; d2] wb i id data ev ->
  (i = 0%nat /\ id = 7 /\ data = d1 /\ ev = e1) \/ (i = 1%nat /\ id = 9 /\ data = d2 /\ ev = e2).
Proof.
  intros d1 d2 e1 e2 Hb (Hi & Hd & He). cbn in He, Hi. rewrite Hb in He.
  destruct i as [|[|i]]; cbn in *; [left|right|done]; naive_solver.
Qed.

(** Two sources send the buffers [data7] and [data9]. *)
Definition data7 : list Z := [1; 2; 3; 4].
Definition data9 : list Z := [5; 6; 7].
Definition world1 : small := (newEntry 10 (start [7; 9]).(world)).2.

Lemma tick_ok_example en (w : small) e1 e2 : getBufs en w = [e1; e2] -> e1 <> e2 ->
  length (view e1 w).(v_memory) = 16%nat -> length (view e2 w).(v_memory) = 16%nat ->
  length (view e1 w).(v_control) = 6%nat -> length (view e2 w).(v_control) = 6%nat ->
  tick_ok (ET := et_small) (setup [7; 9]) en [data7; data9] w.
Proof.
  intros Hb Hne M1 M2 C1 C2. constructor; try done.
  - apply NoDup_cons. split; [by intros ?%list_elem_of_singleton|]. apply NoDup_singleton.
  - cbn. by rewrite Hb.
  - cbn. rewrite Hb. apply NoDup_cons. split; [by intros ?%list_elem_of_singleton|]. apply NoDup_singleton.
  - intros i id data ev Hs. change (et_view_of ev w) with (view ev w).
    destruct (small_sources en w i id data ev data7 data9 e1 e2 Hb Hs) as [(-> & -> & -> & ->)|(-> & -> & -> & ->)].
    + rewrite M1, C1. unfold ET_STATION_SELECT_INTS. cbn. lia.
    + rewrite M2, C2. unfold ET_STATION_SELECT_INTS. cbn. lia.
Qed.

Lemma src_example en (w : small) e1 e2 : getBufs en w = [e1; e2] ->
  src (ET := et_small) (setup [7; 9]) en [data7; data9] w 0 7 data7 e1
  /\ src (ET := et_small) (setup [7; 9]) en [data7; data9] w 1 9 data9 e2.
Proof. intros Hb. unfold src. cbn. by rewrite Hb. Qed.

Definition packets3 : list packet :=
  [piece 3 7 data7 2 2; piece 3 9 data9 0 3; piece 3 7 data7 0 2].

Lemma getBuffers_fills_entry_witness :
  exists s w, feed (getBuffers_step (ET := et_small) (setup [7; 9])) (start [7; 9]) (datagrams packets3) = Next s
    /\ delivered (ET := et_small) (setup [7; 9]) (10%nat : et_fifo_entry) [data7; data9] world1 packets3 w
    /\ s.(world) = et_fifo_putEntry (EtSystem := et_small) (10%nat : nat) w.
Proof.
  destruct (src_example 10 world1 0 1 eq_refl) as [S1 S2].
  destruct (getBuffers_fills_entry (ET := et_small) (setup [7; 9]) (start [7; 9]) 3 [data7; data9] packets3
    (10%nat : nat) [9; 8; 7; 6; 5; 4; 3; 2; 1]%nat (start [7; 9]).(world) world1)
    as [(s & w & H1 & H2 & H3 & _) _].
  - by apply (tick_ok_example 10 world1 0 1).
  - vm_compute. congruence.
  - vm_compute. reflexivity.
  - vm_compute. reflexivity.
  - vm_compute. reflexivity.
  - vm_compute. repeat constructor.
  - apply Forall_cons_2; [vm_compute; reflexivity|apply Forall_nil_2].
  - discriminate.
  - unfold packets3. apply Forall_cons_2; [|apply Forall_cons_2; [|apply Forall_cons_2; [|apply Forall_nil_2]]].
    + exists 0%nat. apply (piece_from _ _ _ _ _ _ _ _ _ _ _ S1); cbn; lia.
    + exists 1%nat. apply (piece_from _ _ _ _ _ _ _ _ _ _ _ S2); cbn; lia.
    + exists 0%nat. apply (piece_from _ _ _ _ _ _ _ _ _ _ _ S1); cbn; lia.
  - intros i id data ev Hs.
    destruct (small_sources 10 world1 i id data ev data7 data9 0 1 eq_refl Hs) as [(_ & -> & -> & _)|(_ & -> & -> & _)].
    + split; [reflexivity|]. intros k Hk. cbn in Hk. unfold covered, packets3.
      do 4 (destruct k as [|k]; [rewrite !Exists_cons; cbn; lia|]). lia.
    + split; [reflexivity|]. intros k Hk. cbn in Hk. unfold covered, packets3.
      do 3 (destruct k as [|k]; [rewrite !Exists_cons; cbn; lia|]). lia.
  - exists s, w. split; [exact H1|]. split; [exact H2|exact H3].
Defined.

(** Tick 4 comes between the packets of tick 3. *)
Definition interrupted : fifo_state (ET := et_small) :=
  after [7; 9] [piece 3 7 data7 0 2; piece 4 7 data7 0 2].

Lemma getBuffers_forgets_tick_witness :
  exists s, feed (getBuffers_step (ET := et_small) (setup [7; 9])) interrupted
      (datagrams [piece 3 7 data7 2 2; piece 3 9 data9 0 3]) = Next s
    /\ find_tick 3 s.(buffers) = Some (10%nat : nat)
    /\ et_event_getlength (EtSystem := et_small) (0%nat : nat) s.(world) = 2.
Proof.
  assert (Hb : getBufs 10 interrupted.(world) = [0; 1]%nat) by (vm_compute; reflexivity).
  destruct (src_example 10 interrupted.(world) 0 1 Hb) as [S1 S2].
  destruct (getBuffers_forgets_tick (ET := et_small) (setup [7; 9]) interrupted 3 [data7; data9]
    (10%nat : nat) 0 7 data7 (0%nat : nat) [piece 3 7 data7 2 2; piece 3 9 data9 0 3])
    as (s & H1 & H2 & _ & H4).
  - by apply (tick_ok_example 10 interrupted.(world) 0 1 Hb); vm_compute.
  - vm_compute. congruence.
  - vm_compute. reflexivity.
  - assert (interrupted.(buffers) = [(4, 9%nat : nat); (3, 10%nat : nat)]) as -> by (vm_compute; reflexivity).
    apply Forall_cons_2; [vm_compute; reflexivity|]. apply Forall_cons_2; [vm_compute; reflexivity|].
    apply Forall_nil_2.
  - exact S1.
  - vm_compute. reflexivity.
  - apply Forall_cons_2; [|apply Forall_cons_2; [|apply Forall_nil_2]].
    + exists 0%nat. apply (piece_from _ _ _ _ _ _ _ _ _ _ _ S1); cbn; lia.
    + exists 1%nat. apply (piece_from _ _ _ _ _ _ _ _ _ _ _ S2); cbn; lia.
  - intros i id data ev Hs.
    destruct (small_sources 10 _ i id data ev data7 data9 0 1 Hb Hs) as [(_ & -> & -> & _)|(_ & -> & -> & _)];
      cbn; lia.
  - reflexivity.
  - exists s. split; [exact H1|]. split; [exact H2|]. apply H4. reflexivity.
Defined.

Lemma getBuffers_unknown_sources_witness :
  feed (getBuffers_step (ET := et_small) (setup [7; 9])) (start [7; 9])
    (datagrams (replicate 101 (piece 3 8 data7 0 4))) = Halt "received over 100 pkts w/ wrong data id".
Proof.
  apply (getBuffers_unknown_sources (ET := et_small) (setup [7; 9]) (start [7; 9])
    (replicate 101 (piece 3 8 data7 0 4))).
  - apply Forall_replicate. unfold packet_ok, is_u16, is_u32, is_u64, RECV_HEADER, RE_HEADER_BYTES.
    cbn. split; [lia|]. split; [lia|]. rewrite !not_elem_of_cons. split; [lia|]. split; [lia|].
    apply not_elem_of_nil.
  - vm_compute. congruence.
Defined.

(** A packet that comes twice: its tick is complete, and the last one received, so
    that the routine writes into the events it has given to the readers, and gives
    them the entry once more. *)
Lemma duplicate_puts_twice :
  (after [7] [piece 3 7 data7 0 4; piece 3 7 data7 0 4]).(world).(m_put) = [10; 10]%nat.
Proof. vm_compute. reflexivity. Qed.

(** Tick 1 is given up when tick 10 comes: 2 bytes of source 7 and none of source 9
    were received of it, but both sources are charged with the 3 bytes of the packet
    of tick 10. *)
Lemma discard_charges_current_event :
  match feed (getBuffers_step (mk_setup [7; 9] 16 1 (Some (<[7 := 0%nat]> {[9 := 1%nat]}))))
          (mk_fifo (ET := et_small) (replicate 64 0) 0 0 0 (10 : nat) None [] [10; 9]%nat
             (<[0%nat := clearStats (mk_stats 0 0 0 0 0 0 0 0 0 0 0 0 0 0 0)]>
                {[1%nat := clearStats (mk_stats 0 0 0 0 0 0 0 0 0 0 0 0 0 0 0)]})
             (start [7; 9]).(world))
          (datagrams [piece 1 7 data7 0 2; piece 10 9 data9 0 3]) with
  | Next s => (discardedBytes <$> s.(counters) !! 0%nat, discardedBytes <$> s.(counters) !! 1%nat)
  | _ => (None, None)
  end = (Some 3, Some 3).
Proof. vm_compute. reflexivity. Qed.
End Examples.
