(* ===== verification/EvioSwap.v ===== *)
(** Swapping the byte order of evio data: EvioSwap.h (swapEvent, swapBank,
    swapSegment, swapTagsegment and swapData on words of memory).  A structure
    is a header followed by data or by structures; its swap is the same tree
    with every word of a header and every element of the data swapped. *)
From S2P Require Import Prelude Bytes ByteOrder.

(** ** Memory *)

(** The words at [src] and, unless the destination is null, at [dst].  The
    routines move both pointers by the same number of words, so one index
    serves for both. *)
Record area := mk_area { a_src : list Z; a_dst : option (list Z) }.

(** The routines of ByteOrder.h and CompositeData.h for arrays, of which the
    repository holds declarations only: what they make of the words they read. *)
Class SwapRoutines := {
  byteSwap16 : list Z -> list Z;
  byteSwap32 : list Z -> list Z;
  byteSwap64 : list Z -> list Z;
  byteNoSwap32 : list Z -> list Z;
  swapAll : bool -> list Z -> result (list Z)
}.

(** Answers of routines that recurse: [None] when the fuel was not enough. *)
Definition answer (A : Type) : Type := option (result A).
Definition and_then {A B} (x : answer A) (f : A -> answer B) : answer B :=
  match x with
  | Some (Ok a) => f a
  | Some (Throw e) => Some (Throw e)
  | Some UB => Some UB
  | None => None
  end.
Notation "x <~ e ; k" := (and_then e (fun x => k)) (at level 100, e at next level, right associativity)
  : dift_scope.

Inductive kind := Bank | Segment | Tagsegment.
#[export] Instance kind_eq_dec : EqDecision kind.
Proof. solve_decision. Defined.

Section Swap.
Context {routines : SwapRoutines}.

(** [n] words from index [off] on are read, and written to the destination, or
    in place when there is none. *)
Definition apply_words (f : list Z -> result (list Z)) (m : area) (off n : Z) : answer area :=
  ws <~ Some (checked (load m.(a_src) off n));
  ws' <~ Some (f ws);
  match m.(a_dst) with
  | None => s <~ Some (checked (store m.(a_src) off ws')); Some (Ok (mk_area s None))
  | Some d => d <~ Some (checked (store d off ws')); Some (Ok (mk_area m.(a_src) (Some d)))
  end.

(** The source of byteNoSwap32 is const: nothing is to be done in place. *)
Definition noSwap (m : area) (off n : Z) : answer area :=
  match m.(a_dst) with
  | None => Some (Ok m)
  | Some _ => apply_words (fun ws => Ok (byteNoSwap32 ws)) m off n
  end.

Definition word_at (ws : list Z) (i : Z) : answer Z :=
  match load ws i 1 with Some [w] => Some (Ok w) | _ => Some UB end.

(** Where words are written. *)
Definition dest (m : area) : list Z := match m.(a_dst) with Some d => d | None => m.(a_src) end.

(** What byteSwap32 returns points at: the destination, or the source in place. *)
Definition swapped_at (m : area) (i : Z) : answer Z := word_at (dest m) i.
Definition source_at (m : area) (i : Z) : answer Z := word_at m.(a_src) i.

(** ** Headers *)

Definition header_size (k : kind) : Z := match k with Bank => 2 | _ => 1 end.

(** The header's fields, and the data behind it. *)
Definition swapBank_with (swapData : area -> Z -> Z -> Z -> answer area) (toLocal : bool)
    (m : area) (off : Z) : answer area :=
  m <~ (if toLocal then apply_words (Ok ∘ byteSwap32) m off 2 else Some (Ok m));
  p0 <~ (if toLocal then swapped_at m off else source_at m off);
  p1 <~ (if toLocal then swapped_at m (off + 1) else source_at m (off + 1));
  let dataLength := u32 (p0 - 1) in
  let dataType := Z.land (Z.shiftr p1 8) 0x3f in
  m <~ (if toLocal then Some (Ok m) else apply_words (Ok ∘ byteSwap32) m off 2);
  swapData m (off + 2) dataType dataLength.

Definition swapSegment_with (swapData : area -> Z -> Z -> Z -> answer area) (toLocal : bool)
    (m : area) (off : Z) : answer area :=
  m <~ (if toLocal then apply_words (Ok ∘ byteSwap32) m off 1 else Some (Ok m));
  p0 <~ (if toLocal then swapped_at m off else source_at m off);
  let dataLength := Z.land p0 0xffff in
  let dataType := Z.land (Z.shiftr p0 16) 0x3f in
  m <~ (if toLocal then Some (Ok m) else apply_words (Ok ∘ byteSwap32) m off 1);
  swapData m (off + 1) dataType dataLength.

Definition swapTagsegment_with (swapData : area -> Z -> Z -> Z -> answer area) (toLocal : bool)
    (m : area) (off : Z) : answer area :=
  m <~ (if toLocal then apply_words (Ok ∘ byteSwap32) m off 1 else Some (Ok m));
  p0 <~ (if toLocal then swapped_at m off else source_at m off);
  let dataLength := Z.land p0 0xffff in
  let dataType := Z.land (Z.shiftr p0 16) 0xf in
  m <~ (if toLocal then Some (Ok m) else apply_words (Ok ∘ byteSwap32) m off 1);
  swapData m (off + 1) dataType dataLength.

Definition swap_with (swapData : area -> Z -> Z -> Z -> answer area) (toLocal : bool) (k : kind)
    : area -> Z -> answer area :=
  match k with
  | Bank => swapBank_with swapData toLocal
  | Segment => swapSegment_with swapData toLocal
  | Tagsegment => swapTagsegment_with swapData toLocal
  end.

(** The number of words of a structure, from its first word. *)
Definition frag_words (k : kind) (w : Z) : Z :=
  match k with Bank => u32 (w + 1) | _ => Z.land w 0xffff + 1 end.

(** The loop over the structures in a structure. *)
Fixpoint swap_loop (swap : area -> Z -> answer area) (toLocal : bool) (k : kind) (fuel : nat)
    (m : area) (off length l : Z) : answer area :=
  if l <? length then
    match fuel with
    | O => None
    | S fuel =>
      if toLocal then
        m <~ swap m (off + l);
        w <~ swapped_at m (off + l);
        swap_loop swap toLocal k fuel m off length (u32 (l + frag_words k w))
      else
        w <~ source_at m (off + l);
        m <~ swap m (off + l);
        swap_loop swap toLocal k fuel m off length (u32 (l + frag_words k w))
    end
  else Some (Ok m).

Definition container (type : Z) : option kind :=
  if (type =? 0xe) || (type =? 0x10) then Some Bank
  else if (type =? 0xd) || (type =? 0x20) then Some Segment
  else if type =? 0xc then Some Tagsegment
  else None.

(** [switch (type)] for the types that are not containers. *)
Definition swap_leaf (toLocal : bool) (m : area) (off type length : Z) : answer area :=
  if (type =? 1) || (type =? 2) || (type =? 0xb) then
    apply_words (Ok ∘ byteSwap32) m off length
  else if (type =? 0) || (type =? 3) || (type =? 6) || (type =? 7) then noSwap m off length
  else if (type =? 4) || (type =? 5) then
    apply_words (Ok ∘ byteSwap16) m off (u32 (2 * length) / 2)
  else if (type =? 8) || (type =? 9) || (type =? 0xa) then
    apply_words (Ok ∘ byteSwap64) m off (2 * (length / 2))
  else if type =? 0xf then apply_words (swapAll (negb toLocal)) m off length
  else noSwap m off length.

Fixpoint swapData (fuel : nat) (toLocal : bool) (m : area) (off type length : Z) : answer area :=
  match container type with
  | None => swap_leaf toLocal m off type length
  | Some k =>
    match fuel with
    | O => None
    | S fuel => swap_loop (swap_with (swapData fuel toLocal) toLocal k) toLocal k (S fuel) m off length 0
    end
  end.

Definition swapBank (fuel : nat) (toLocal : bool) (m : area) (off : Z) : answer area :=
  swapBank_with (swapData fuel toLocal) toLocal m off.
Definition swapSegment (fuel : nat) (toLocal : bool) (m : area) (off : Z) : answer area :=
  swapSegment_with (swapData fuel toLocal) toLocal m off.
Definition swapTagsegment (fuel : nat) (toLocal : bool) (m : area) (off : Z) : answer area :=
  swapTagsegment_with (swapData fuel toLocal) toLocal m off.
Definition swapEvent (fuel : nat) (tolocal : Z) (m : area) : answer area :=
  swapBank fuel (negb (tolocal =? 0)) m 0.
End Swap.

(** ** Structures and their swap *)

(** The two shorts of a word, and the two words of a long, change places
    byte by byte. *)
Definition swap_halves (w : Z) : Z := SWAP_16 (w mod 65536) + 65536 * SWAP_16 (w / 65536).
Fixpoint swap_pairs (ws : list Z) : list Z :=
  match ws with
  | a :: b :: ws => SWAP_32 b :: SWAP_32 a :: swap_pairs ws
  | ws => ws
  end.

Definition words_ok (ws : list Z) : Prop := Forall is_u32 ws.

(** What the declarations in ByteOrder.h promise: elements of the given width
    are swapped, with the meaning of the SWAP macros. *)
Class SwapLaws (routines : SwapRoutines) : Prop := {
  byteSwap16_law ws : words_ok ws -> byteSwap16 ws = map swap_halves ws;
  byteSwap32_law ws : words_ok ws -> byteSwap32 ws = map SWAP_32 ws;
  byteSwap64_law ws : words_ok ws -> Nat.Even (length ws) -> byteSwap64 ws = swap_pairs ws;
  byteNoSwap32_law ws : byteNoSwap32 ws = ws
}.

(** An evio structure: its last header word, and data or structures. *)
#[local] Unset Elimination Schemes.
Inductive structure :=
  | Leaf (k : kind) (h : Z) (ws : list Z)
  | Parent (k : kind) (h : Z) (kids : list structure).
#[local] Set Elimination Schemes.

Definition kind_of (t : structure) : kind := match t with Leaf k _ _ | Parent k _ _ => k end.
Definition type_of (k : kind) (h : Z) : Z :=
  match k with
  | Bank => Z.land (Z.shiftr h 8) 0x3f
  | Segment => Z.land (Z.shiftr h 16) 0x3f
  | Tagsegment => Z.land (Z.shiftr h 16) 0xf
  end.
Definition head_words (k : kind) (h n : Z) : list Z := match k with Bank => [n + 1; h] | _ => [h] end.
(** The length in the header is that of the contents. *)
Definition length_ok (k : kind) (h n : Z) : Prop :=
  match k with Bank => n + 1 < 4294967296 | _ => Z.land h 0xffff = n end.

Section Spec.
Context {routines : SwapRoutines}.

(** The data of a leaf in the other byte order. *)
Definition leaf_swapped (type : Z) (ws : list Z) : list Z :=
  if (type =? 1) || (type =? 2) || (type =? 0xb) then map SWAP_32 ws
  else if (type =? 4) || (type =? 5) then map swap_halves ws
  else if (type =? 8) || (type =? 9) || (type =? 0xa) then swap_pairs ws
  else if type =? 0xf then match swapAll true ws with Ok ws' => ws' | _ => [] end
  else ws.

(** The words of a structure, swapped or not. *)
Definition sw (b : bool) (w : Z) : Z := if b then SWAP_32 w else w.
Definition leaf_words (b : bool) (type : Z) (ws : list Z) : list Z := if b then leaf_swapped type ws else ws.
Fixpoint enc (b : bool) (t : structure) : list Z :=
  match t with
  | Leaf k h ws => map (sw b) (head_words k h (zlen ws)) ++ leaf_words b (type_of k h) ws
  | Parent k h kids =>
    let body := concat (map (enc b) kids) in map (sw b) (head_words k h (zlen body)) ++ body
  end.

(** Data of a type: 64-bit elements take two words each, the number of shorts
    fits its type, and composite data are data [swapAll] swaps back and forth. *)
Record data_ok (type : Z) (ws : list Z) : Prop := mk_data_ok {
  data_words : words_ok ws;
  data_shorts : type = 4 \/ type = 5 -> zlen ws < 2147483648;
  data_longs : 8 <= type <= 10 -> Nat.Even (length ws);
  data_composite : type = 0xf ->
    exists ws', swapAll true ws = Ok ws' /\ swapAll false ws' = Ok ws /\ length ws' = length ws
}.

(** Structures as the format has them. *)
#[local] Unset Elimination Schemes.
Inductive wf : structure -> Prop :=
  | wf_leaf k h ws : is_u32 h -> container (type_of k h) = None -> length_ok k h (zlen ws) ->
      data_ok (type_of k h) ws -> wf (Leaf k h ws)
  | wf_parent k h kids k' : is_u32 h -> container (type_of k h) = Some k' ->
      length_ok k h (zlen (concat (map (enc false) kids))) ->
      Forall wf kids -> Forall (fun t => kind_of t = k') kids ->
      wf (Parent k h kids).
#[local] Set Elimination Schemes.

(** How deep the routines recurse and how often the loops go around. *)
Fixpoint nodes (t : structure) : nat :=
  match t with Leaf _ _ _ => 0 | Parent _ _ kids => S (list_sum (map (fun t => S (nodes t)) kids)) end.
End Spec.

Lemma structure_ind' (P : structure -> Prop) :
  (forall k h ws, P (Leaf k h ws)) ->
  (forall k h kids, Forall P kids -> P (Parent k h kids)) -> forall t, P t.
Proof.
  intros HL HP. fix IH 1. intros [k h ws|k h kids]; [apply HL|]. apply HP.
  induction kids as [|t kids IHk]; constructor; [apply IH|exact IHk].
Qed.

(** ** The swaps undo themselves *)

Lemma SWAP_32_range w : is_u32 (SWAP_32 w).
Proof.
  unfold is_u32. rewrite SWAP_32_val. pose proof (le_val_bound (be_bytes 4 (u32 w)) (be_bytes_ok _ _)) as H.
  rewrite length_be_bytes in H. exact H.
Qed.

Lemma SWAP_32_involutive w : is_u32 w -> SWAP_32 (SWAP_32 w) = w.
Proof.
  intros Hw. rewrite (SWAP_32_val (SWAP_32 w)). rewrite (u32_small (SWAP_32 w)) by apply SWAP_32_range.
  rewrite SWAP_32_val, (u32_small w) by apply Hw. by apply (le_val_be_bytes_involutive 4).
Qed.

Lemma SWAP_16_range w : 0 <= SWAP_16 w < 65536.
Proof. apply u16_range. Qed.

Lemma SWAP_16_involutive w : 0 <= w < 65536 -> SWAP_16 (SWAP_16 w) = w.
Proof.
  intros. rewrite !SWAP_16_bswap, (u16_small w) by done.
  rewrite (u16_small (bswap_16 w)) by apply u16_range.
  rewrite (bswap_16_val (bswap_16 w)) by apply u16_range. rewrite bswap_16_val by done.
  Z.div_mod_to_equations. lia.
Qed.

Lemma swap_halves_range w : is_u32 w -> is_u32 (swap_halves w).
Proof.
  unfold is_u32, swap_halves. pose proof (SWAP_16_range (w mod 65536)).
  pose proof (SWAP_16_range (w / 65536)). lia.
Qed.

Lemma swap_halves_involutive w : is_u32 w -> swap_halves (swap_halves w) = w.
Proof.
  intros Hw. unfold is_u32 in Hw. unfold swap_halves at 1.
  assert (Hm : swap_halves w mod 65536 = SWAP_16 (w mod 65536)).
  { unfold swap_halves. rewrite Z.mul_comm, Z.mod_add by lia. apply Z.mod_small, SWAP_16_range. }
  assert (Hd : swap_halves w / 65536 = SWAP_16 (w / 65536)).
  { unfold swap_halves. rewrite Z.mul_comm, Z.div_add by lia.
    rewrite Z.div_small by apply SWAP_16_range. lia. }
  rewrite Hm, Hd, !SWAP_16_involutive by (Z.div_mod_to_equations; lia).
  Z.div_mod_to_equations. lia.
Qed.

Lemma map_involutive {A} (P : A -> Prop) (f : A -> A) ws :
  (forall w, P w -> f (f w) = w) -> Forall P ws -> map f (map f ws) = ws.
Proof. intros Hf. induction 1 as [|w ws Hw _ IH]; cbn; [done|]. by rewrite Hf, IH. Qed.

(** Lists by pairs of elements. *)
Lemma pair_ind {A} (P : list A -> Prop) : P [] -> (forall a, P [a]) ->
  (forall a b l, P l -> P (a :: b :: l)) -> forall l, P l.
Proof.
  intros H0 H1 H2. fix IH 1. intros [|a [|b l]]; [done|apply H1|]. apply H2, IH.
Qed.

Lemma length_swap_pairs ws : length (swap_pairs ws) = length ws.
Proof. induction ws as [| |a b ws IH] using pair_ind; cbn; congruence. Qed.

Lemma swap_pairs_involutive ws : words_ok ws -> swap_pairs (swap_pairs ws) = ws.
Proof.
  induction ws as [| |a b ws IH] using pair_ind; intros Hok; [done|done|].
  apply Forall_cons in Hok as [Ha Hok]. apply Forall_cons in Hok as [Hb Hok].
  cbn [swap_pairs]. by rewrite !SWAP_32_involutive, IH.
Qed.

Lemma swap_pairs_ok ws : words_ok ws -> words_ok (swap_pairs ws).
Proof.
  induction ws as [| |a b ws IH] using pair_ind; intros Hok; [done|done|].
  apply Forall_cons in Hok as [Ha Hok]. apply Forall_cons in Hok as [Hb Hok].
  repeat constructor; try apply SWAP_32_range. by apply IH.
Qed.

(** ** One write of the destination *)

Section Writes.
Context {routines : SwapRoutines} {laws : SwapLaws routines}.

Definition room (m : area) (off n : Z) : Prop :=
  0 <= off /\ 0 <= n /\ off + n <= zlen m.(a_src) /\ off + n <= zlen (dest m).

(** The area after [ws] has been written at [off]. *)
Definition written (m : area) (off : Z) (ws : list Z) : area :=
  match m.(a_dst) with
  | None => mk_area (splice (Z.to_nat off) ws m.(a_src)) None
  | Some d => mk_area m.(a_src) (Some (splice (Z.to_nat off) ws d))
  end.

Lemma room_sub m off n off' n' : room m off n -> off <= off' -> 0 <= n' -> off' + n' <= off + n -> room m off' n'.
Proof using. clear laws. unfold room. lia. Qed.

Lemma room_written m off n o ws : room m off n -> room m o (zlen ws) -> room (written m o ws) off n.
Proof using.
  clear laws. unfold room, dest, written. destruct m as [s [d|]]; cbn [a_src a_dst]; intros Hr1 Hr2;
    rewrite ?length_splice by lia; lia.
Qed.

Lemma written_app m off a b : room m off (zlen a + zlen b) ->
  written (written m off a) (off + zlen a) b = written m off (a ++ b).
Proof using.
  clear laws. unfold room, dest, written. destruct m as [s [d|]]; cbn [a_src a_dst]; intros Hr;
    replace (Z.to_nat (off + zlen a)) with (Z.to_nat off + length a)%nat by lia;
    by rewrite splice_adjacent by lia.
Qed.

Lemma written_nil m off : room m off 0 -> written m off [] = m.
Proof using.
  clear laws. unfold room, dest, written. destruct m as [s [d|]]; cbn [a_src a_dst]; intros Hr;
    by rewrite splice_nil by lia.
Qed.

(** What is read later is still there. *)
Lemma source_kept m o ws off bs : room m o (zlen ws) -> field m.(a_src) off bs ->
  off + zlen bs <= o \/ o + zlen ws <= off -> field (written m o ws).(a_src) off bs.
Proof using.
  clear laws. unfold room, dest, written. destruct m as [s [d|]]; cbn [a_src a_dst]; intros Hr Hf Hd; [done|].
  eapply field_kept; [done|apply store_spec; lia|lia].
Qed.

Lemma swapped_at_written m o ws i w : room m o (zlen ws) -> ws !! Z.to_nat i = Some w -> 0 <= i ->
  swapped_at (written m o ws) (o + i) = Some (Ok w).
Proof using.
  clear laws. intros Hr Hw Hi. pose proof (lookup_lt_Some _ _ _ Hw).
  assert (Hgen : forall l, o + zlen ws <= zlen l -> load (splice (Z.to_nat o) ws l) (o + i) 1 = Some [w]).
  { intros l Hl. unfold room in Hr. rewrite load_spec by (rewrite ?length_splice by lia; lia).
    change (Z.to_nat 1) with 1%nat. rewrite load_splice_at by lia. f_equal.
    replace (Z.to_nat (o + i) - Z.to_nat o)%nat with (Z.to_nat i) by lia.
    rewrite (drop_S _ _ _ Hw). done. }
  unfold swapped_at, written, word_at, room, dest in *. destruct m as [s [d|]]; cbn [a_src a_dst] in *;
    by rewrite Hgen by lia.
Qed.

Lemma source_at_field m off ws i w : field m.(a_src) off ws -> ws !! Z.to_nat i = Some w -> 0 <= i ->
  source_at m (off + i) = Some (Ok w).
Proof using.
  clear laws. intros (? & ? & Hf)%field_inv Hw Hi. pose proof (lookup_lt_Some _ _ _ Hw).
  unfold source_at, word_at. rewrite load_spec by lia. change (Z.to_nat 1) with 1%nat.
  rewrite <- Hf in Hw. rewrite lookup_take_lt, lookup_drop in Hw by lia.
  replace (Z.to_nat (off + i)) with (Z.to_nat off + Z.to_nat i)%nat by lia.
  by rewrite (drop_S _ _ _ Hw).
Qed.

Lemma apply_words_written f m off ws ws' : field m.(a_src) off ws -> room m off (zlen ws) ->
  f ws = Ok ws' -> length ws' = length ws ->
  apply_words f m off (zlen ws) = Some (Ok (written m off ws')).
Proof using.
  clear laws. intros Hf Hr Hok Hl. unfold apply_words. rewrite Hf. cbn [checked and_then]. rewrite Hok.
  unfold room, dest, written in *. destruct m as [s [d|]]; cbn [a_src a_dst and_then] in *;
    by rewrite store_spec by lia.
Qed.

(** A leaf that is not swapped stays as it is in place, and is copied otherwise. *)
Lemma noSwap_written m off ws : field m.(a_src) off ws -> room m off (zlen ws) ->
  noSwap m off (zlen ws) = Some (Ok (written m off ws)).
Proof using laws.
  intros Hf Hr. unfold noSwap. destruct m as [s [d|]] eqn:Hm; cbn [a_dst a_src] in *.
  - apply apply_words_written; try done. by rewrite byteNoSwap32_law.
  - unfold written. cbn [a_dst a_src]. apply field_inv in Hf as (? & ? & Hf). repeat f_equal.
    unfold splice. rewrite <- Hf at 1. rewrite <- drop_drop, take_drop. by rewrite take_drop.
Qed.

(** ** Leaves *)

Definition is32 (type : Z) : bool := (type =? 1) || (type =? 2) || (type =? 0xb).
Definition is16 (type : Z) : bool := (type =? 4) || (type =? 5).
Definition is64 (type : Z) : bool := (type =? 8) || (type =? 9) || (type =? 0xa).
Definition is8 (type : Z) : bool := (type =? 0) || (type =? 3) || (type =? 6) || (type =? 7).

Lemma leaf_swapped_8 type ws : is8 type = true -> leaf_swapped type ws = ws.
Proof using.
  clear laws. unfold is8. intros H. assert (type = 0 \/ type = 3 \/ type = 6 \/ type = 7) as Ht by lia.
  by destruct Ht as [->|[->|[->| ->]]].
Qed.

(** The elements of a leaf are swapped, either way, by the same function. *)
Lemma leaf_written f b type m off ws : length (f ws) = length ws -> f (f ws) = ws ->
  leaf_swapped type ws = f ws ->
  (forall ws', field m.(a_src) off ws' -> room m off (zlen ws') -> ws' = ws \/ ws' = f ws ->
     swap_leaf b m off type (zlen ws') = Some (Ok (written m off (f ws')))) ->
  field m.(a_src) off (leaf_words b type ws) -> room m off (zlen ws) ->
  swap_leaf b m off type (zlen ws) = Some (Ok (written m off (leaf_words (negb b) type ws)))
  /\ length (leaf_swapped type ws) = length ws.
Proof using.
  clear laws. intros Hl Hinv Hsw Hop Hf Hr. unfold leaf_words in *. rewrite Hsw in *. split; [|done].
  destruct b; cbn [negb].
  - rewrite <- Hinv at 2. rewrite <- Hl. apply Hop; [done|by rewrite Hl|by right].
  - apply Hop; [done|done|by left].
Qed.

Lemma even_words n : Nat.Even n -> 2 * (Z.of_nat n / 2) = Z.of_nat n.
Proof using. clear laws. intros [k ->]. Z.div_mod_to_equations. lia. Qed.

(** One case for each width of the elements. *)
Definition leaf_case (b : bool) (type : Z) (m : area) (off : Z) (ws : list Z) : Prop :=
  swap_leaf b m off type (zlen ws) = Some (Ok (written m off (leaf_words (negb b) type ws)))
  /\ length (leaf_swapped type ws) = length ws.

Lemma leaf_32 b type m off ws : is32 type = true -> data_ok type ws ->
  field m.(a_src) off (leaf_words b type ws) -> room m off (zlen ws) -> leaf_case b type m off ws.
Proof using laws.
  intros Ht [Hok _ _ _] Hf Hr.
  apply (leaf_written (map SWAP_32)); try done; [apply length_map| | |].
  - by apply (map_involutive is_u32); [apply SWAP_32_involutive|].
  - unfold leaf_swapped. fold (is32 type). by rewrite Ht.
  - intros ws' Hf' Hr' Hw. unfold swap_leaf. fold (is32 type). rewrite Ht.
    apply apply_words_written; [done|done| |apply length_map]. cbn [compose].
    rewrite byteSwap32_law; [done|]. destruct Hw as [->| ->]; [done|].
    apply Forall_map, Forall_true. intros w. apply SWAP_32_range.
Qed.

Lemma leaf_16 b type m off ws : is16 type = true -> data_ok type ws ->
  field m.(a_src) off (leaf_words b type ws) -> room m off (zlen ws) -> leaf_case b type m off ws.
Proof using laws.
  intros Ht [Hok Hs _ _] Hf Hr.
  assert (H32 : is32 type = false) by (unfold is32, is16 in *; lia).
  assert (H8 : is8 type = false) by (unfold is8, is16 in *; lia).
  assert (Hlen : zlen ws < 2147483648) by (apply Hs; unfold is16 in Ht; lia).
  apply (leaf_written (map swap_halves)); try done; [apply length_map| | |].
  - by apply (map_involutive is_u32); [apply swap_halves_involutive|].
  - unfold leaf_swapped. fold (is32 type) (is16 type). by rewrite Ht, H32.
  - intros ws' Hf' Hr' Hw.
    assert (Hl' : length ws' = length ws) by (destruct Hw as [->| ->]; [done|apply length_map]).
    unfold swap_leaf. fold (is32 type) (is8 type) (is16 type). rewrite Ht, H32, H8.
    rewrite u32_small, (Z.mul_comm 2), Z.div_mul by lia.
    apply apply_words_written; [done|done| |apply length_map]. cbn [compose].
    rewrite byteSwap16_law; [done|]. destruct Hw as [->| ->]; [done|].
    apply Forall_map. apply (Forall_impl _ _ _ Hok). apply swap_halves_range.
Qed.

Lemma leaf_64 b type m off ws : is64 type = true -> data_ok type ws ->
  field m.(a_src) off (leaf_words b type ws) -> room m off (zlen ws) -> leaf_case b type m off ws.
Proof using laws.
  intros Ht [Hok _ Hl _] Hf Hr.
  assert (H32 : is32 type = false) by (unfold is32, is64 in *; lia).
  assert (H8 : is8 type = false) by (unfold is8, is64 in *; lia).
  assert (H16 : is16 type = false) by (unfold is16, is64 in *; lia).
  assert (Hev : Nat.Even (length ws)) by (apply Hl; unfold is64 in Ht; lia).
  apply (leaf_written swap_pairs); try done; [apply length_swap_pairs|by apply swap_pairs_involutive| |].
  - unfold leaf_swapped. fold (is32 type) (is16 type) (is64 type). by rewrite Ht, H32, H16.
  - intros ws' Hf' Hr' Hw.
    assert (Hl' : length ws' = length ws) by (destruct Hw as [->| ->]; [done|apply length_swap_pairs]).
    unfold swap_leaf. fold (is32 type) (is8 type) (is16 type) (is64 type). rewrite Ht, H32, H8, H16.
    rewrite even_words by (by rewrite Hl').
    apply apply_words_written; [done|done| |apply length_swap_pairs]. cbn [compose].
    rewrite byteSwap64_law; [done| |by rewrite Hl']. destruct Hw as [->| ->]; [done|by apply swap_pairs_ok].
Qed.

Lemma leaf_composite b m off ws : data_ok 15 ws ->
  field m.(a_src) off (leaf_words b 15 ws) -> room m off (zlen ws) -> leaf_case b 15 m off ws.
Proof using laws.
  intros [_ _ _ Hcomp] Hf Hr. unfold leaf_case.
  destruct (Hcomp eq_refl) as (ws' & H1 & H2 & Hlen). unfold leaf_words, leaf_swapped in *.
  change ((15 =? 1) || (15 =? 2) || (15 =? 0xb)) with false in *. cbn [Z.eqb Pos.eqb orb] in *.
  rewrite H1 in *. split; [|done]. unfold swap_leaf. cbn [Z.eqb Pos.eqb orb].
  destruct b; cbn [negb].
  - rewrite <- Hlen. apply apply_words_written; try done. by rewrite Hlen.
  - by apply apply_words_written.
Qed.

(** Bytes, and types the routine does not know, are copied. *)
Lemma leaf_plain b type m off ws : is8 type = true \/
    (is32 type = false /\ is8 type = false /\ is16 type = false /\ is64 type = false
     /\ (type =? 15) = false) ->
  field m.(a_src) off (leaf_words b type ws) -> room m off (zlen ws) -> leaf_case b type m off ws.
Proof using laws.
  intros Ht Hf Hr. apply (leaf_written id); try done.
  - destruct Ht as [Ht|(H32 & H8 & H16 & H64 & H15)]; [by apply leaf_swapped_8|].
    unfold leaf_swapped. fold (is32 type) (is16 type) (is64 type). by rewrite H32, H16, H64, H15.
  - intros ws' Hf' Hr' _. unfold swap_leaf. fold (is32 type) (is8 type) (is16 type) (is64 type).
    destruct Ht as [Ht|(-> & -> & -> & -> & ->)]; [|by apply noSwap_written]. rewrite Ht.
    replace (is32 type) with false by (unfold is32, is8 in *; lia). by apply noSwap_written.
Qed.

Lemma swap_leaf_written b type m off ws : container type = None -> data_ok type ws ->
  field m.(a_src) off (leaf_words b type ws) -> room m off (zlen ws) -> leaf_case b type m off ws.
Proof using laws.
  intros _ Hd Hf Hr.
  assert (Hcase : is32 type = true \/ is16 type = true \/ is64 type = true \/ type = 15 \/
    (is8 type = true \/ (is32 type = false /\ is8 type = false /\ is16 type = false
       /\ is64 type = false /\ (type =? 15) = false))) by (unfold is32, is8, is16, is64; lia).
  destruct Hcase as [|[|[|[->|]]]]; auto using leaf_32, leaf_16, leaf_64, leaf_composite, leaf_plain.
Qed.

(** ** Headers *)

Lemma head_words_ok k h n : is_u32 h -> 0 <= n -> length_ok k h n -> words_ok (head_words k h n).
Proof using.
  clear laws. unfold is_u32, words_ok, head_words, length_ok. intros.
  destruct k; repeat constructor; unfold is_u32; lia.
Qed.

Lemma length_head_words k h n : zlen (head_words k h n) = header_size k.
Proof using. by destruct k. Qed.

Lemma sw_twice b ws : words_ok ws -> map SWAP_32 (map (sw b) ws) = map (sw (negb b)) ws.
Proof using.
  clear laws. intros Hok. rewrite map_map. apply map_ext_in. intros w Hw.
  apply list_elem_of_In in Hw. pose proof (proj1 (Forall_forall _ _) Hok w Hw).
  destruct b; cbn [negb sw]; [by apply SWAP_32_involutive|done].
Qed.

Lemma sw_ok b ws : words_ok ws -> words_ok (map (sw b) ws).
Proof using.
  clear laws. intros Hok. apply Forall_map. apply (Forall_impl _ _ _ Hok).
  intros w Hw. destruct b; [apply SWAP_32_range|done].
Qed.

(** The header is swapped, and its fields are read in the host's order. *)
Lemma swap_header sd b k m off h n : is_u32 h -> 0 <= n -> length_ok k h n ->
  field m.(a_src) off (map (sw b) (head_words k h n)) -> room m off (header_size k) ->
  swap_with sd b k m off =
    sd (written m off (map (sw (negb b)) (head_words k h n))) (off + header_size k) (type_of k h) n.
Proof using laws.
  intros Hh Hn Hlen Hf Hr. pose proof (head_words_ok k h n Hh Hn Hlen) as Hok.
  assert (Hlm : forall c, zlen (map (sw c) (head_words k h n)) = header_size k)
    by (intros; by rewrite length_map, length_head_words).
  assert (Hap : apply_words (Ok ∘ byteSwap32) m off (header_size k)
    = Some (Ok (written m off (map (sw (negb b)) (head_words k h n))))).
  { rewrite <- (Hlm b). apply apply_words_written; [done|by rewrite Hlm| |by rewrite !length_map].
    cbn [compose]. rewrite byteSwap32_law by (by apply sw_ok). by rewrite sw_twice. }
  assert (Hread : forall i w, head_words k h n !! Z.to_nat i = Some w -> 0 <= i ->
    (if b then swapped_at (written m off (map (sw (negb b)) (head_words k h n))) (off + i)
     else source_at m (off + i)) = Some (Ok w)).
  { intros i w Hw Hi. destruct b; cbn [negb].
    - apply swapped_at_written; [by rewrite Hlm| |done]. by rewrite list_lookup_fmap, Hw.
    - apply (source_at_field _ _ (map (sw false) (head_words k h n))); [done| |done].
      by rewrite list_lookup_fmap, Hw. }
  pose proof (Hread 0) as Hread0. rewrite Z.add_0_r in Hread0. unfold is_u32 in Hh.
  destruct k; cbn [swap_with header_size head_words type_of length_ok] in *.
  - unfold swapBank_with. rewrite Hap. specialize (Hread0 (n + 1) eq_refl ltac:(lia)).
    specialize (Hread 1 h eq_refl ltac:(lia)).
    destruct b; cbn [and_then negb] in *; rewrite Hread0, Hread; cbn [and_then]; rewrite ?Hap;
      cbn [and_then]; rewrite u32_small by lia; by replace (n + 1 - 1) with n by lia.
  - unfold swapSegment_with. rewrite Hap. specialize (Hread0 h eq_refl ltac:(lia)).
    destruct b; cbn [and_then negb] in *; rewrite Hread0; cbn [and_then]; rewrite ?Hap; cbn [and_then];
      by rewrite Hlen.
  - unfold swapTagsegment_with. rewrite Hap. specialize (Hread0 h eq_refl ltac:(lia)).
    destruct b; cbn [and_then negb] in *; rewrite Hread0; cbn [and_then]; rewrite ?Hap; cbn [and_then];
      by rewrite Hlen.
Qed.

(** ** Structures *)

Definition body (b : bool) (t : structure) : list Z :=
  match t with Leaf k h ws => leaf_words b (type_of k h) ws | Parent k h kids => concat (map (enc b) kids) end.
Definition head_of (t : structure) : Z := match t with Leaf _ h _ | Parent _ h _ => h end.
Definition body_size (t : structure) : Z :=
  match t with Leaf _ _ ws => zlen ws | Parent _ _ kids => zlen (concat (map (enc false) kids)) end.

(** The shape of a structure is the same in both byte orders. *)
Lemma wf_sizes t : wf t -> length (body true t) = length (body false t) /\ zlen (body false t) = body_size t.
Proof using laws.
  induction t as [k h ws|k h kids IH] using structure_ind'; intros Hwf; inversion Hwf as [? ? ? Hh Hc Hl Hd|? ? ? k' Hh Hc Hl Hk Hkk]; subst.
  - split; [|done]. cbn [body leaf_words]. 
    assert (length (leaf_swapped (type_of k h) ws) = length ws) as ->; [|done].
    apply (swap_leaf_written false _ (mk_area ws None) 0 ws Hc Hd).
    + apply field_intro; [lia|cbn; lia|]. cbn [a_src Z.to_nat leaf_words]. by rewrite drop_0, take_ge.
    + unfold room, dest. cbn [a_src a_dst]. lia.
  - cbn [body body_size]. split; [|done]. clear Hwf Hl Hkk. induction kids as [|t kids IHk]; [done|].
    apply Forall_cons in IH as [IHt IH]. apply Forall_cons in Hk as [Ht Hk].
    cbn [map concat]. rewrite !length_app. f_equal; [|by apply IHk].
    destruct (IHt Ht) as [Hb Hs].
    destruct t; cbn [enc body] in *; rewrite !length_app, !length_map, Hb, ?Hs; by destruct k0.
Qed.

Lemma enc_split b t : wf t ->
  enc b t = map (sw b) (head_words (kind_of t) (head_of t) (body_size t)) ++ body b t.
Proof using laws.
  intros Hwf. pose proof (wf_sizes t Hwf) as [Hb Hs].
  destruct t as [k h ws|k h kids]; cbn [enc kind_of head_of body_size body] in *; [done|].
  destruct b; [|done]. by rewrite Hb.
Qed.

Lemma wf_head t : wf t -> is_u32 (head_of t) /\ length_ok (kind_of t) (head_of t) (body_size t)
  /\ 0 <= body_size t.
Proof using. clear laws. intros Hwf. destruct Hwf; cbn [head_of kind_of body_size]; split_and!; try done; lia. Qed.

Lemma length_enc b t : wf t -> zlen (enc b t) = header_size (kind_of t) + body_size t.
Proof using laws.
  intros Hwf. rewrite enc_split by done. rewrite length_app, length_map.
  pose proof (length_head_words (kind_of t) (head_of t) (body_size t)).
  pose proof (wf_sizes t Hwf) as [Hb Hs]. destruct b; lia.
Qed.

(** The first word of a structure gives its size. *)
Definition first_word (t : structure) : Z := hd 0 (head_words (kind_of t) (head_of t) (body_size t)).

Lemma first_word_enc b t : wf t -> enc b t !! 0%nat = Some (sw b (first_word t)).
Proof using laws.
  intros Hwf. rewrite enc_split by done. unfold first_word. by destruct (kind_of t).
Qed.

Lemma frag_words_enc b t : wf t -> zlen (enc b t) < 4294967296 ->
  frag_words (kind_of t) (first_word t) = zlen (enc b t).
Proof using laws.
  intros Hwf Hl. rewrite length_enc in * by done. pose proof (wf_head t Hwf) as (Hh & Hlen & H0).
  unfold first_word, frag_words. destruct (kind_of t); cbn [head_words hd header_size length_ok] in *.
  - rewrite u32_small by lia. lia.
  - lia.
  - lia.
Qed.

(** ** The routines swap structures *)

Definition swaps (sw : area -> Z -> answer area) (b : bool) (t : structure) : Prop :=
  forall m off, field m.(a_src) off (enc b t) -> room m off (zlen (enc b t)) ->
    sw m off = Some (Ok (written m off (enc (negb b) t))).

Definition kids_enc (b : bool) (kids : list structure) : list Z := concat (map (enc b) kids).

Lemma length_kids_enc b kids : Forall wf kids -> zlen (kids_enc (negb b) kids) = zlen (kids_enc b kids).
Proof using laws.
  unfold kids_enc. induction 1 as [|t kids Ht _ IH]; [done|]. cbn [map concat].
  rewrite !length_app. pose proof (length_enc b t Ht). pose proof (length_enc (negb b) t Ht). lia.
Qed.

Lemma swap_loop_spec sw b k kids : Forall wf kids -> Forall (fun t => kind_of t = k) kids ->
  Forall (swaps sw b) kids ->
  forall fuel m off length l, (List.length kids <= fuel)%nat -> 0 <= l ->
    field m.(a_src) (off + l) (kids_enc b kids) -> room m (off + l) (zlen (kids_enc b kids)) ->
    l + zlen (kids_enc b kids) = length -> length < 4294967296 ->
    swap_loop sw b k fuel m off length l = Some (Ok (written m (off + l) (kids_enc (negb b) kids))).
Proof using laws.
  induction kids as [|t kids IH]; intros Hwf Hk Hsw fuel m off len l Hfuel Hl Hf Hr Hlen Hmax.
  - assert (len = l) as -> by (cbn in Hlen; lia). 
    assert (Hb : (l <? l) = false) by lia.
    rewrite written_nil by done. by destruct fuel; cbn [swap_loop]; rewrite Hb.
  - apply Forall_cons in Hwf as [Ht Hwf]. apply Forall_cons in Hk as [Hkt Hk].
    apply Forall_cons in Hsw as [Hswt Hsw]. unfold kids_enc in Hf, Hr, Hlen |- *. cbn [map concat] in *.
    fold (kids_enc b kids) in *. fold (kids_enc (negb b) kids). rewrite length_app in Hlen, Hr.
    pose proof (length_enc b t Ht) as Hle. pose proof (length_enc (negb b) t Ht) as Hle'.
    pose proof (wf_head t Ht) as (_ & _ & Hn). pose proof (length_kids_enc b kids Hwf) as Hlk.
    assert (Hhs : 1 <= header_size (kind_of t)) by (by destruct (kind_of t)).
    apply field_app in Hf as [Hf1 Hf2].
    assert (Hr1 : room m (off + l) (zlen (enc b t))) by (eapply room_sub; [exact Hr|lia..]).
    assert (Hfrag : u32 (l + frag_words k (first_word t)) = l + zlen (enc b t)).
    { rewrite <- Hkt, (frag_words_enc b) by (done || lia). apply u32_small. lia. }
    set (m1 := written m (off + l) (enc (negb b) t)).
    assert (Hnext : forall fuel, (List.length kids <= fuel)%nat ->
      swap_loop sw b k fuel m1 off len (l + zlen (enc b t))
      = Some (Ok (written m (off + l) (enc (negb b) t ++ kids_enc (negb b) kids)))).
    { intros fuel' Hfuel'. rewrite (IH Hwf Hk Hsw); try lia; try done.
      - unfold m1. rewrite Z.add_assoc. replace (zlen (enc b t)) with (zlen (enc (negb b) t)) by lia.
        rewrite written_app; [done|]. eapply room_sub; [exact Hr|lia..].
      - unfold m1. rewrite Z.add_assoc. apply source_kept; [|done|lia].
        eapply room_sub; [exact Hr|lia..].
      - unfold m1. apply room_written; (eapply room_sub; [exact Hr|lia..]). }
    destruct fuel as [|fuel]; [cbn in Hfuel; lia|]. cbn [swap_loop].
    rewrite (proj2 (Z.ltb_lt l len)) by lia. destruct b.
    + rewrite Hswt by done. fold m1. cbn [and_then].
      assert (Hw : swapped_at m1 (off + l) = Some (Ok (first_word t))).
      { rewrite <- (Z.add_0_r (off + l)). unfold m1. apply swapped_at_written; [|by rewrite first_word_enc|done].
        eapply room_sub; [exact Hr|lia..]. }
      rewrite Hw. cbn [and_then]. rewrite Hfrag. apply Hnext. cbn in Hfuel. lia.
    + assert (Hw : source_at m (off + l) = Some (Ok (first_word t))).
      { rewrite <- (Z.add_0_r (off + l)). apply (source_at_field _ _ (enc false t)); [done|by rewrite first_word_enc|done]. }
      rewrite Hw. cbn [and_then]. rewrite Hswt by done. fold m1. cbn [and_then].
      rewrite Hfrag. apply Hnext. cbn in Hfuel. lia.
Qed.

Lemma body_size_max t : wf t -> body_size t < 4294967296.
Proof using laws.
  intros Hwf. pose proof (wf_head t Hwf) as (Hh & Hl & _). destruct (kind_of t); cbn [length_ok] in Hl; [lia| |];
    rewrite <- Hl; change 0xffff with (Z.ones 16); rewrite Z.land_ones by lia;
    pose proof (Z.mod_pos_bound (head_of t) (2 ^ 16) ltac:(lia)); lia.
Qed.

Lemma swapData_leaf fuel b m off type n : container type = None ->
  swapData fuel b m off type n = swap_leaf b m off type n.
Proof using. intros H. destruct fuel; cbn [swapData]; by rewrite H. Qed.

Lemma nodes_kid kids : Forall (fun t => (nodes t < list_sum (map (fun t => S (nodes t)) kids))%nat) kids
  /\ (length kids <= list_sum (map (fun t => S (nodes t)) kids))%nat.
Proof using.
  clear laws. induction kids as [|t kids [IH1 IH2]]; [done|]. cbn [map list_sum foldr length].
  change (foldr Nat.add 0%nat) with list_sum. split; [|lia].
  constructor; [lia|]. apply (Forall_impl _ _ _ IH1). intros u Hu. cbn in Hu. lia.
Qed.

Lemma swap_structure t : wf t -> forall fuel b, (nodes t <= fuel)%nat ->
  swaps (swap_with (swapData fuel b) b (kind_of t)) b t.
Proof using laws.
  induction t as [k h ws|k h kids IH] using structure_ind'; intros Hwf fuel b Hfuel m off Hf Hr;
    pose proof (wf_head _ Hwf) as (Hh & Hlen & Hn); pose proof (body_size_max _ Hwf) as Hmax;
    rewrite length_enc in Hr by done; rewrite enc_split in Hf by done;
    apply field_app in Hf as [Hf1 Hf2]; rewrite length_map, length_head_words in Hf2;
    rewrite (enc_split (negb b)) by done; cbn [kind_of head_of body_size body] in *;
    assert (Hhs : 0 <= header_size k) by (by destruct k);
    assert (Hr1 : room m off (header_size k)) by (eapply room_sub; [exact Hr|lia..]).
  - inversion Hwf as [? ? ? _ Hc _ Hd|]; subst.
    rewrite (swap_header _ b k m off h (zlen ws)) by done. rewrite swapData_leaf by done.
    set (hdr := map (sw (negb b)) _). assert (Hl : zlen hdr = header_size k)
      by (unfold hdr; by rewrite length_map, length_head_words).
    assert (Hr2 : room m off (zlen hdr)) by (by rewrite Hl).
    pose proof (swap_leaf_written b (type_of k h) (written m off hdr) (off + header_size k) ws Hc Hd) as Hsl.
    destruct Hsl as [Hsl Hll].
    + apply source_kept; [done|done|lia].
    + apply room_written; [|done]. eapply room_sub; [exact Hr|lia..].
    + rewrite Hsl. do 2 f_equal. rewrite <- Hl. apply written_app.
      assert (zlen (leaf_words (negb b) (type_of k h) ws) = zlen ws) as ->
        by (unfold leaf_words; destruct (negb b); congruence). rewrite Hl. done.
  - inversion Hwf as [|? ? ? k' _ Hc _ Hwk Hkk]; subst.
    rewrite (swap_header _ b k m off h _ Hh Hn Hlen Hf1 Hr1).
    set (hdr := map (sw (negb b)) _). assert (Hl : zlen hdr = header_size k)
      by (unfold hdr; by rewrite length_map, length_head_words).
    assert (Hr2 : room m off (zlen hdr)) by (by rewrite Hl).
    fold (kids_enc b kids) in Hf2. fold (kids_enc (negb b) kids) (kids_enc false kids) in *.
    assert (Hlk : forall c, zlen (kids_enc c kids) = zlen (kids_enc false kids))
      by (intros [|]; [symmetry; apply (length_kids_enc true)|]; done).
    cbn [nodes] in Hfuel. destruct fuel as [|fuel]; [lia|].
    pose proof (nodes_kid kids) as [Hnk Hlk'].
    cbn [swapData]. rewrite Hc. rewrite <- (Hlk b).
    rewrite (swap_loop_spec _ b k' kids Hwk Hkk); [|..].
    + do 2 f_equal. rewrite Z.add_0_r, <- Hl. apply written_app. rewrite Hlk, Hl. done.
    + apply Forall_forall. intros t Ht. pose proof (proj1 (Forall_forall _ _) IH t Ht) as IHt.
      pose proof (proj1 (Forall_forall _ _) Hnk t Ht) as Hnt.
      rewrite <- (proj1 (Forall_forall _ _) Hkk t Ht). apply IHt; [|cbn in Hnt; lia].
      by apply (proj1 (Forall_forall _ _) Hwk t Ht).
    + lia.
    + lia.
    + rewrite Z.add_0_r. apply source_kept; [done|done|lia].
    + rewrite Z.add_0_r. apply room_written; [|done]. rewrite Hlk. eapply room_sub; [exact Hr|lia..].
    + lia.
    + rewrite Hlk. lia.
Qed.
End Writes.

(** ** What the routines do *)

(** C4: on memory that holds an evio structure, in the host's byte order or the other one,
    swapBank, swapSegment and swapTagsegment return and have written the same
    structure in the other byte order, all headers, elements and nested
    structures, to the destination or, without one, in place, and nothing else;
    recursion as deep as the structure and one round of a loop for every
    structure in it are enough. *)
Theorem swap_writes_structure {routines : SwapRoutines} {laws : SwapLaws routines}
    (t : structure) (b : bool) (m : area) (off : Z) (fuel : nat) :
  wf t -> (nodes t <= fuel)%nat ->
  field m.(a_src) off (enc b t) -> room m off (zlen (enc b t)) ->
  match kind_of t with
  | Bank => swapBank fuel b m off
  | Segment => swapSegment fuel b m off
  | Tagsegment => swapTagsegment fuel b m off
  end = Some (Ok (written m off (enc (negb b) t))).
Proof.
  intros Hwf Hfuel Hf Hr. pose proof (swap_structure t Hwf fuel b Hfuel m off Hf Hr) as Hs.
  by destruct (kind_of t).
Qed.

(** Swapping an event in place out of the host's byte order and back restores
    the memory, whatever follows the event. *)
Theorem swapEvent_roundtrip {routines : SwapRoutines} {laws : SwapLaws routines}
    (t : structure) (rest : list Z) (fuel : nat) :
  wf t -> kind_of t = Bank -> (nodes t <= fuel)%nat ->
  exists m, swapEvent fuel 0 (mk_area (enc false t ++ rest) None) = Some (Ok m)
    /\ m = mk_area (enc true t ++ rest) None
    /\ swapEvent fuel 1 m = Some (Ok (mk_area (enc false t ++ rest) None)).
Proof.
  intros Hwf Hk Hfuel. pose proof (swap_structure t Hwf fuel) as Hs. rewrite Hk in Hs.
  assert (Hl : length (enc true t) = length (enc false t))
    by (pose proof (length_enc true t Hwf); pose proof (length_enc false t Hwf); lia).
  assert (Hgo : forall b, swapBank fuel b (mk_area (enc b t ++ rest) None) 0
                          = Some (Ok (mk_area (enc (negb b) t ++ rest) None))).
  { intros b. etrans; [apply (Hs b Hfuel)|].
    - apply field_intro; [lia|cbn [a_src]; rewrite length_app; lia|]. cbn [a_src].
      change (Z.to_nat 0) with 0%nat. by rewrite drop_0, take_app_length.
    - unfold room, dest. cbn [a_src a_dst]. rewrite length_app. lia.
    - unfold written. cbn [a_dst a_src]. do 3 f_equal.
      apply (splice_mid 0 [] (enc b t)); [done|]. by destruct b. }
  exists (mk_area (enc true t ++ rest) None). split; [apply (Hgo false)|]. split; [done|apply (Hgo true)].
Qed.

(** Routines as the laws ask for. *)
#[local] Instance example_routines : SwapRoutines := {|
  byteSwap16 := map swap_halves; byteSwap32 := map SWAP_32; byteSwap64 := swap_pairs;
  byteNoSwap32 := fun ws => ws; swapAll := fun _ ws => Ok (map SWAP_32 ws)
|}.

Lemma example_laws : SwapLaws example_routines.
Proof. by split. Qed.

(** A bank of two banks, one of them with a segment of shorts. *)
Definition event_example : structure :=
  Parent Bank 0x01021003
    [Leaf Bank 0x00010804 [1; 2];
     Parent Bank 0x00022005 [Leaf Segment 0x07040001 [0x00030004]; Leaf Segment 0x08000000 []]].

(** Data without composites and with shorts of one word. *)
Lemma data_ok_example type ws : words_ok ws -> type <> 15 -> zlen ws < 10 ->
  (8 <= type <= 10 -> Nat.Even (length ws)) -> data_ok type ws.
Proof. intros. split; [done|lia|done|done]. Qed.

Lemma event_example_wf : wf event_example.
Proof.
  assert (Hd : wf (Leaf Bank 0x00010804 [1; 2])).
  { apply wf_leaf; [by split|reflexivity|reflexivity|].
    apply data_ok_example; [by repeat (apply Forall_cons; split; [by split|])|done|done|].
    intros _. by exists 1%nat. }
  assert (Hs : wf (Leaf Segment 0x07040001 [0x00030004])).
  { apply wf_leaf; [by split|reflexivity|reflexivity|].
    apply data_ok_example; [by repeat (apply Forall_cons; split; [by split|])|done|done|]. by intros []. }
  assert (He : wf (Leaf Segment 0x08000000 [])).
  { apply wf_leaf; [by split|reflexivity|reflexivity|]. apply data_ok_example; [constructor|done|done|by intros []]. }
  assert (Hb : wf (Parent Bank 0x00022005 [Leaf Segment 0x07040001 [0x00030004]; Leaf Segment 0x08000000 []])).
  { apply (wf_parent _ _ _ Segment); [by split|reflexivity|vm_compute; reflexivity| |];
      by repeat (apply Forall_cons; split). }
  apply (wf_parent _ _ _ Bank); [by split|reflexivity|vm_compute; reflexivity| |];
    by repeat (apply Forall_cons; split).
Qed.

Lemma swap_writes_structure_witness :
  swapBank 6 true (mk_area (7 :: enc true event_example) (Some (replicate 20 9))) 1
  = Some (Ok (mk_area (7 :: enc true event_example)
      (Some (9 :: enc false event_example ++ replicate (19 - length (enc false event_example)) 9)))).
Proof.
  etrans; [apply (@swap_writes_structure example_routines example_laws event_example true _ 1 6)|];
    [apply event_example_wf|cbn; lia|vm_compute; reflexivity|vm_compute; split_and!; congruence|].
  vm_compute. reflexivity.
Defined.

Lemma swapEvent_roundtrip_witness :
  exists m, swapEvent 6 0 (mk_area (enc false event_example ++ [5]) None) = Some (Ok m)
    /\ m = mk_area (enc true event_example ++ [5]) None
    /\ swapEvent 6 1 m = Some (Ok (mk_area (enc false event_example ++ [5]) None)).
Proof.
  apply (@swapEvent_roundtrip example_routines example_laws event_example [5] 6);
    [apply event_example_wf|reflexivity|cbn; lia].
Defined.
