(* ===== verification/EvioUtil.v ===== *)
(** Util.h of the evio library: padding, names of types, integers to and from
    bytes of either order, powers of two.  (Strings are in EvioStrings.v.) *)
From S2P Require Import Prelude Bytes ByteOrder.

(** ** Padding *)

Definition padValue : list Z := [0; 3; 2; 1].
Definition getPadding (length : Z) : Z := nth (Z.to_nat (length mod 4)) padValue 0.
Definition getWords (length : Z) : Z :=
  let words := length / 4 in
  if 0 <? getPadding length then u32 (words + 1) else words.

(** ** Types *)

(** The constants of class DataType. *)
Inductive DataType :=
  | UNKNOWN32 | UINT32 | FLOAT32 | CHARSTAR8 | SHORT16 | USHORT16 | CHAR8 | UCHAR8
  | DOUBLE64 | LONG64 | ULONG64 | INT32 | TAGSEGMENT | ALSOSEGMENT | ALSOBANK | COMPOSITE
  | BANK | SEGMENT | HOLLERIT | NVALUE | nVALUE | mVALUE | NOT_A_VALID_TYPE.
#[export] Instance DataType_eq_dec : EqDecision DataType.
Proof. solve_decision. Defined.

Definition isBank (t : DataType) : bool := bool_decide (t = BANK) || bool_decide (t = ALSOBANK).
Definition isSegment (t : DataType) : bool := bool_decide (t = SEGMENT) || bool_decide (t = ALSOSEGMENT).
Definition isTagSegment (t : DataType) : bool := bool_decide (t = TAGSEGMENT).
Definition isStructure (t : DataType) : bool :=
  bool_decide (t = BANK) || bool_decide (t = SEGMENT) || bool_decide (t = TAGSEGMENT)
  || bool_decide (t = ALSOBANK) || bool_decide (t = ALSOSEGMENT).
Definition isInteger (t : DataType) : bool :=
  bool_decide (t = UCHAR8) || bool_decide (t = CHAR8) || bool_decide (t = USHORT16)
  || bool_decide (t = SHORT16) || bool_decide (t = UINT32) || bool_decide (t = INT32)
  || bool_decide (t = ULONG64) || bool_decide (t = LONG64).

(** [tolower] of the C locale, on the bytes of a string. *)
Definition tolower (c : Ascii.ascii) : Ascii.ascii :=
  let n := Ascii.N_of_ascii c in
  if ((65 <=? n) && (n <=? 90))%N then Ascii.ascii_of_N (n + 32) else c.

Fixpoint iStrEquals_from (a b : string) : bool :=
  match a, b with
  | String x a, String y b => if decide (tolower x = tolower y) then iStrEquals_from a b else false
  | _, _ => true
  end.
(** [unsigned int sz = a.size()] *)
Definition iStrEquals (a b : string) : bool :=
  if decide (Z.of_nat (String.length b) = u32 (Z.of_nat (String.length a))) then iStrEquals_from a b else false.

Definition type_names : list (string * DataType) :=
  [("int8", CHAR8); ("uint8", UCHAR8); ("int16", SHORT16); ("uint16", USHORT16);
   ("int32", INT32); ("uint32", UINT32); ("int64", LONG64); ("uint64", ULONG64);
   ("long64", LONG64); ("ulong64", ULONG64); ("float32", FLOAT32); ("float64", DOUBLE64);
   ("double64", DOUBLE64); ("string", CHARSTAR8); ("composite", COMPOSITE);
   ("unknown32", UNKNOWN32); ("tagsegment", TAGSEGMENT); ("segment", ALSOSEGMENT);
   ("bank", ALSOBANK)]%string.

(** The chain of [if (iStrEquals(type, ...)) return ...]. *)
Definition getDataType (type : string) : DataType :=
  match list_find (fun p => iStrEquals type p.1 = true) type_names with
  | Some (_, (_, t)) => t
  | None => NOT_A_VALID_TYPE
  end.

(** ** Integers and bytes *)

(** A byte widened by [0xff & b]. *)
Definition widen (b : Z) : Z := Z.land 0xff b.

Definition toInt4 (b1 b2 b3 b4 : Z) (byteOrder : endian) : Z :=
  match byteOrder with
  | ENDIAN_BIG =>
    u32 (Z.lor (Z.lor (Z.lor (Z.shiftl (widen b1) 24) (Z.shiftl (widen b2) 16)) (Z.shiftl (widen b3) 8))
           (widen b4))
  | ENDIAN_LITTLE =>
    u32 (Z.lor (Z.lor (Z.lor (widen b1) (Z.shiftl (widen b2) 8)) (Z.shiftl (widen b3) 16))
           (Z.shiftl (widen b4) 24))
  end.

(** [None] for a null pointer; otherwise the bytes from where it points on. *)
Definition toInt (data : option (list Z)) (byteOrder : endian) : result Z :=
  match data with
  | None => Throw "null arg"
  | Some (d0 :: d1 :: d2 :: d3 :: _) => Ok (toInt4 d0 d1 d2 d3 byteOrder)
  | Some _ => UB
  end.

Definition toLong (data : option (list Z)) (byteOrder : endian) : result Z :=
  match data with
  | None => Throw "null arg"
  | Some (d0 :: d1 :: d2 :: d3 :: d4 :: d5 :: d6 :: d7 :: _) =>
    match byteOrder with
    | ENDIAN_BIG =>
      Ok (u64 (Z.lor (Z.lor (Z.lor (Z.lor (Z.lor (Z.lor (Z.lor
            (Z.shiftl (widen d0) 56) (Z.shiftl (widen d1) 48)) (Z.shiftl (widen d2) 40))
            (Z.shiftl (widen d3) 32)) (Z.shiftl (widen d4) 24)) (Z.shiftl (widen d5) 16))
            (Z.shiftl (widen d6) 8)) (widen d7)))
    | ENDIAN_LITTLE =>
      Ok (u64 (Z.lor (Z.lor (Z.lor (Z.lor (Z.lor (Z.lor (Z.lor
            (widen d0) (Z.shiftl (widen d1) 8)) (Z.shiftl (widen d2) 16))
            (Z.shiftl (widen d3) 24)) (Z.shiftl (widen d4) 32)) (Z.shiftl (widen d5) 40))
            (Z.shiftl (widen d6) 48)) (Z.shiftl (widen d7) 56)))
    end
  | Some _ => UB
  end.

(** The bytes stored for an integer, one assignment each. *)
Definition byte_at (data k : Z) : Z := u8 (Z.shiftr data k).
Definition bytes32 (data : Z) (byteOrder : endian) : list Z :=
  match byteOrder with
  | ENDIAN_BIG => [byte_at data 24; byte_at data 16; byte_at data 8; u8 data]
  | ENDIAN_LITTLE => [u8 data; byte_at data 8; byte_at data 16; byte_at data 24]
  end.
Definition bytes16 (data : Z) (byteOrder : endian) : list Z :=
  match byteOrder with
  | ENDIAN_BIG => [byte_at data 8; u8 data]
  | ENDIAN_LITTLE => [u8 data; byte_at data 8]
  end.
Definition bytes64 (data : Z) (byteOrder : endian) : list Z :=
  match byteOrder with
  | ENDIAN_BIG => [byte_at data 56; byte_at data 48; byte_at data 40; byte_at data 32;
                   byte_at data 24; byte_at data 16; byte_at data 8; u8 data]
  | ENDIAN_LITTLE => [u8 data; byte_at data 8; byte_at data 16; byte_at data 24;
                      byte_at data 32; byte_at data 40; byte_at data 48; byte_at data 56]
  end.

(** toBytes into an array, which may be null, and into a vector at an offset. *)
Definition toBytes_ptr (bytes : list Z) (dest : option (list Z)) : result (list Z) :=
  match dest with None => Throw "bad arg(s)" | Some d => checked (store d 0 bytes) end.
Definition toBytes32 (data : Z) (byteOrder : endian) (dest : option (list Z)) : result (list Z) :=
  toBytes_ptr (bytes32 data byteOrder) dest.
Definition toBytes64 (data : Z) (byteOrder : endian) (dest : option (list Z)) : result (list Z) :=
  toBytes_ptr (bytes64 data byteOrder) dest.
Definition toBytes16 (data : Z) (byteOrder : endian) (dest : option (list Z)) : result (list Z) :=
  toBytes_ptr (bytes16 data byteOrder) dest.
Definition toBytes32_vec (data : Z) (byteOrder : endian) (dest : list Z) (off : Z) : result (list Z) :=
  checked (store dest off (bytes32 data byteOrder)).
Definition toBytes16_vec (data : Z) (byteOrder : endian) (dest : list Z) (off : Z) : result (list Z) :=
  checked (store dest off (bytes16 data byteOrder)).

(** [for (int i = 0; i < dataLen-3; i+=4)]: [dataLen - 3] is unsigned, and [i] is
    compared as an unsigned number.  The state is [i] and the destination. *)
Definition toIntArray_step (data : list Z) (dataLen : Z) (byteOrder : endian) (s : Z * list Z)
    : outcome (Z * list Z) (result (list Z)) :=
  let '(i, dest) := s in
  if i <? u32 (dataLen - 3) then
    match load data i 4 with
    | Some [b1; b2; b3; b4] =>
      match store dest (i / 4) [toInt4 b1 b2 b3 b4 byteOrder] with
      | Some dest => if decide (i + 4 < 2147483648) then Next (i + 4, dest) else Stuck
      | None => Stuck
      end
    | _ => Stuck
    end
  else Halt (Ok dest).

Definition toIntArray (data : option (list Z)) (dataLen : Z) (byteOrder : endian) (dest : option (list Z))
    (fuel : nat) : outcome (Z * list Z) (result (list Z)) :=
  match data, dest with
  | Some data, Some dest => run (toIntArray_step data dataLen byteOrder) fuel (0, dest)
  | _, _ => Halt (Throw "bad arg")
  end.

(** ** Powers of two *)

Definition INT_MAX : Z := 2147483647.

Definition smear (x s : Z) : Z := Z.lor x (Z.shiftr x s).

(** [do { y = x; x &= (x - 1); } while (x != 0);] *)
Definition clear_step (x : Z) : outcome Z Z :=
  let y := x in
  let x := Z.land x (x - 1) in
  if x =? 0 then Halt y else Next x.

(** [Stuck]: [x + 1] overflows. *)
Definition powerOfTwo (x : Z) (roundUp : bool) (fuel : nat) : outcome Z Z :=
  if x <? 0 then Halt (-1)
  else if roundUp then
    let x := x - 1 in
    let x := smear x 1 in
    let x := smear x 2 in
    let x := smear x 4 in
    let x := smear x 8 in
    let x := smear x 16 in
    if decide (x = INT_MAX) then Stuck else Halt (x + 1)
  else run clear_step fuel x.

(** ** Padding is minimal *)

(** GetPadding is the least number of bytes that fills the last word, and getWords
    the number of words needed. *)
Theorem padding_fills_words (length : Z) : is_u32 length ->
  4 * getWords length = length + getPadding length /\ 0 <= getPadding length < 4.
Proof.
  unfold is_u32. intros H. unfold getWords.
  assert (Hp : getPadding length = (4 - length mod 4) mod 4).
  { unfold getPadding. assert (length mod 4 = 0 \/ length mod 4 = 1 \/ length mod 4 = 2 \/ length mod 4 = 3) as Hm
      by (Z.div_mod_to_equations; lia).
    by destruct Hm as [->|[->|[->| ->]]]. }
  rewrite Hp. rewrite u32_small by (Z.div_mod_to_equations; lia).
  destruct (Z.ltb_spec 0 ((4 - length mod 4) mod 4)); Z.div_mod_to_equations; lia.
Qed.

(** ** Integers and bytes *)

Lemma widen_u8 b : widen b = u8 b.
Proof.
  unfold widen, u8. rewrite Z.land_comm. change 0xff with (Z.ones 8). by rewrite Z.land_ones.
Qed.

Lemma lor_reverse3 a b c d : Z.lor (Z.lor (Z.lor a b) c) d = Z.lor (Z.lor (Z.lor d c) b) a.
Proof.
  apply Z.bits_inj. intros i. rewrite !Z.lor_spec.
  by destruct (Z.testbit a i), (Z.testbit b i), (Z.testbit c i), (Z.testbit d i).
Qed.

Lemma toInt4_le b1 b2 b3 b4 : bytes_ok [b1; b2; b3; b4] ->
  toInt4 b1 b2 b3 b4 ENDIAN_LITTLE = le_val [b1; b2; b3; b4].
Proof.
  intros Hb. repeat (apply Forall_cons in Hb as [? Hb]). unfold toInt4.
  rewrite !widen_u8, !u8_small by done.
  rewrite (lor_shiftl_add b1) by (change (2 ^ 8) with 256; lia). change (2 ^ 8) with 256.
  rewrite (lor_shiftl_add (b1 + b2 * 256)) by (change (2 ^ 16) with 65536; lia). change (2 ^ 16) with 65536.
  rewrite (lor_shiftl_add (b1 + b2 * 256 + b3 * 65536)) by (change (2 ^ 24) with 16777216; lia).
  change (2 ^ 24) with 16777216. rewrite u32_small by lia. cbn [le_val]. lia.
Qed.

Lemma toInt4_val b1 b2 b3 b4 o : bytes_ok [b1; b2; b3; b4] ->
  toInt4 b1 b2 b3 b4 o = order_val o [b1; b2; b3; b4].
Proof.
  intros Hb. destruct o; [by apply toInt4_le|]. cbn [order_val].
  transitivity (toInt4 b4 b3 b2 b1 ENDIAN_LITTLE).
  - unfold toInt4. f_equal. apply lor_reverse3.
  - rewrite toInt4_le; [done|]. apply Forall_rev in Hb. exact Hb.
Qed.

Lemma lor_reverse7 a b c d e f g h :
  Z.lor (Z.lor (Z.lor (Z.lor (Z.lor (Z.lor (Z.lor a b) c) d) e) f) g) h
  = Z.lor (Z.lor (Z.lor (Z.lor (Z.lor (Z.lor (Z.lor h g) f) e) d) c) b) a.
Proof.
  rewrite !(Z.lor_comm _ a), !(Z.lor_comm _ b), !(Z.lor_comm _ c), !(Z.lor_comm _ d).
  apply Z.bits_inj. intros i. rewrite !Z.lor_spec.
  destruct (Z.testbit a i); [by rewrite ?orb_true_r|]. destruct (Z.testbit b i); [by rewrite ?orb_true_r|].
  destruct (Z.testbit c i); [by rewrite ?orb_true_r|]. destruct (Z.testbit d i); [by rewrite ?orb_true_r|].
  by destruct (Z.testbit e i), (Z.testbit f i), (Z.testbit g i), (Z.testbit h i).
Qed.

Lemma bytes32_order v o : bytes32 v o = order_bytes o 4 v.
Proof.
  destruct o; cbn [bytes32 order_bytes]; unfold be_bytes; cbn [le_bytes rev app]; unfold byte_at, u8;
    rewrite !Z.shiftr_div_pow2, !Z.div_div by lia; done.
Qed.
Lemma bytes16_order v o : bytes16 v o = order_bytes o 2 v.
Proof.
  destruct o; cbn [bytes16 order_bytes]; unfold be_bytes; cbn [le_bytes rev app]; unfold byte_at, u8;
    rewrite !Z.shiftr_div_pow2 by lia; done.
Qed.
Lemma bytes64_order v o : bytes64 v o = order_bytes o 8 v.
Proof.
  destruct o; cbn [bytes64 order_bytes]; unfold be_bytes; cbn [le_bytes rev app]; unfold byte_at, u8;
    rewrite !Z.shiftr_div_pow2, !Z.div_div by lia; done.
Qed.

Lemma sum_bytes_bound b k acc : 0 <= k -> 0 <= b < 256 -> 0 <= acc < 2 ^ k -> 0 <= acc + b * 2 ^ k < 2 ^ (k + 8).
Proof. intros. rewrite Z.pow_add_r by lia. change (2 ^ 8) with 256. nia. Qed.

Lemma toLong_le d0 d1 d2 d3 d4 d5 d6 d7 : bytes_ok [d0; d1; d2; d3; d4; d5; d6; d7] ->
  Z.lor (Z.lor (Z.lor (Z.lor (Z.lor (Z.lor (Z.lor
            (widen d0) (Z.shiftl (widen d1) 8)) (Z.shiftl (widen d2) 16))
            (Z.shiftl (widen d3) 24)) (Z.shiftl (widen d4) 32)) (Z.shiftl (widen d5) 40))
            (Z.shiftl (widen d6) 48)) (Z.shiftl (widen d7) 56)
  = le_val [d0; d1; d2; d3; d4; d5; d6; d7].
Proof.
  intros Hb. repeat (apply Forall_cons in Hb as [? Hb]). rewrite !widen_u8, !u8_small by done.
  assert (Hd0 : 0 <= d0 < 2 ^ 8) by (change (2 ^ 8) with 256; lia).
  collect_bytes Hd0. cbn [le_val].
  change (2 ^ 8) with 256. change (2 ^ 16) with 65536. change (2 ^ 24) with 16777216.
  change (2 ^ 32) with 4294967296. change (2 ^ 40) with 1099511627776.
  change (2 ^ 48) with 281474976710656. change (2 ^ 56) with 72057594037927936. lia.
Qed.

Lemma toInt_val bs rest o : length bs = 4%nat -> bytes_ok bs -> toInt (Some (bs ++ rest)) o = Ok (order_val o bs).
Proof.
  intros Hl Hb. destruct bs as [|b1 [|b2 [|b3 [|b4 [|]]]]]; try discriminate Hl. cbn [app toInt].
  by rewrite toInt4_val.
Qed.

Lemma toLong_val bs rest o : length bs = 8%nat -> bytes_ok bs -> toLong (Some (bs ++ rest)) o = Ok (order_val o bs).
Proof.
  intros Hl Hb. destruct bs as [|d0 [|d1 [|d2 [|d3 [|d4 [|d5 [|d6 [|d7 [|]]]]]]]]]; try discriminate Hl.
  cbn [app toLong]. destruct o; cbn [order_val].
  - rewrite toLong_le by done. f_equal. apply u64_small. pose proof (le_val_bound _ Hb) as H. exact H.
  - rewrite lor_reverse7, toLong_le by (apply Forall_rev in Hb; exact Hb). f_equal.
    apply u64_small. pose proof (be_val_bound _ Hb) as H. exact H.
Qed.

(** What toBytes writes, into an array or at an offset of a vector, is the
    integer's representation in the byte order asked for, nothing else is
    written, and toInt and toLong read the integer back. *)
Theorem toBytes_roundtrip (o : endian) (pre old rest : list Z) (v : Z) :
  (is_u32 v -> length old = 4%nat ->
    toBytes32_vec v o (pre ++ old ++ rest) (zlen pre) = Ok (pre ++ order_bytes o 4 v ++ rest)
    /\ toBytes32 v o (Some (old ++ rest)) = Ok (order_bytes o 4 v ++ rest)
    /\ toInt (Some (order_bytes o 4 v ++ rest)) o = Ok v)
  /\ (is_u64 v -> length old = 8%nat ->
    toBytes64 v o (Some (old ++ rest)) = Ok (order_bytes o 8 v ++ rest)
    /\ toLong (Some (order_bytes o 8 v ++ rest)) o = Ok v)
  /\ (is_u16 v -> length old = 2%nat ->
    toBytes16_vec v o (pre ++ old ++ rest) (zlen pre) = Ok (pre ++ order_bytes o 2 v ++ rest)
    /\ toBytes16 v o (Some (old ++ rest)) = Ok (order_bytes o 2 v ++ rest)
    /\ order_val o (order_bytes o 2 v) = v).
Proof.
  assert (Hval : forall n, 0 <= v < 256 ^ Z.of_nat n -> order_val o (order_bytes o n v) = v)
    by (intros; destruct o; [by apply le_val_le_bytes|by apply be_val_be_bytes]).
  assert (Hok : forall n, bytes_ok (order_bytes o n v))
    by (intros; destruct o; [apply le_bytes_ok|apply be_bytes_ok]).
  assert (Hst : forall n p, length old = n -> store (p ++ old ++ rest) (zlen p) (order_bytes o n v)
                    = Some (p ++ order_bytes o n v ++ rest))
    by (intros; apply store_mid; [done|by rewrite length_order_bytes]).
  unfold toBytes32_vec, toBytes32, toBytes64, toBytes16_vec, toBytes16, toBytes_ptr.
  rewrite bytes32_order, bytes64_order, bytes16_order.
  split; [|split]; intros Hv Hl; pose proof (Hst _ [] Hl) as Hst0; cbn [app length] in Hst0;
    change (Z.of_nat 0) with 0 in Hst0; rewrite ?Hst by done; rewrite Hst0; cbn [checked].
  - split_and!; [done..|]. rewrite toInt_val by (rewrite ?length_order_bytes; done). by rewrite (Hval 4%nat).
  - split_and!; [done..|]. rewrite toLong_val by (rewrite ?length_order_bytes; done). by rewrite (Hval 8%nat).
  - split_and!; [done..|]. by apply (Hval 2%nat).
Qed.

(** ** Arrays of integers *)

Definition int_at (data : list Z) (o : endian) (k : Z) : Z :=
  order_val o (take 4 (drop (Z.to_nat (4 * k)) data)).
Definition ints (data : list Z) (o : endian) (n : Z) : list Z := map (int_at data o) (seqZ 0 n).

Lemma ints_snoc data o n : 0 <= n -> ints data o (n + 1) = ints data o n ++ [int_at data o n].
Proof. intros. unfold ints. by rewrite seqZ_app, map_app by lia. Qed.
Lemma length_ints data o n : 0 <= n -> zlen (ints data o n) = n.
Proof. intros. unfold ints. rewrite length_map, length_seqZ. lia. Qed.

Lemma load_int data o k : bytes_ok data -> 0 <= k -> 4 * k + 4 <= zlen data ->
  exists b1 b2 b3 b4, load data (4 * k) 4 = Some [b1; b2; b3; b4] /\ toInt4 b1 b2 b3 b4 o = int_at data o k.
Proof.
  intros Hok Hk Hl. set (bs := take 4 (drop (Z.to_nat (4 * k)) data)).
  assert (Hlen : length bs = 4%nat) by (unfold bs; rewrite length_take, length_drop; lia).
  assert (Hb : bytes_ok bs) by (by apply Forall_take, Forall_drop).
  unfold int_at. rewrite load_spec by lia. change (Z.to_nat 4) with 4%nat. fold bs. clearbody bs.
  destruct bs as [|b1 [|b2 [|b3 [|b4 [|]]]]]; try discriminate Hlen.
  exists b1, b2, b3, b4. split; [done|]. by apply toInt4_val.
Qed.

(** ToIntArray turns each group of 4 bytes into an integer of the given order, drops
    the bytes left over, and leaves the rest of the destination alone. *)
Theorem toIntArray_converts (data dest : list Z) (dataLen : Z) (o : endian) :
  bytes_ok data -> 3 <= dataLen <= zlen data -> dataLen < 2147483648 -> dataLen / 4 <= zlen dest ->
  returns (toIntArray (Some data) dataLen o (Some dest))
    (Ok (ints data o (dataLen / 4) ++ drop (Z.to_nat (dataLen / 4)) dest)).
Proof.
  intros Hok Hlen Hmax Hdest. set (n := dataLen / 4). assert (Hn : 4 * n <= dataLen < 4 * n + 4)
    by (unfold n; Z.div_mod_to_equations; lia).
  unfold toIntArray. apply returns_run.
  set (at_ := fun s : Z * list Z => exists k, 0 <= k <= n /\ s = (4 * k, ints data o k ++ drop (Z.to_nat k) dest)).
  destruct (terminates_total (toIntArray_step data dataLen o) at_ (fun s => Z.to_nat (dataLen - s.1))
    (fun r => r = Ok (ints data o n ++ drop (Z.to_nat n) dest)) (0, dest)) as (r & Hr & ->); [| |done].
  - intros s (k & Hk & ->). cbn [toIntArray_step fst]. rewrite u32_small by lia.
    destruct (Z.ltb_spec (4 * k) (dataLen - 3)); [|by replace k with n by lia].
    destruct (load_int data o k Hok) as (b1 & b2 & b3 & b4 & -> & Hint); [lia|lia|].
    rewrite (Z.mul_comm 4 k), Z.div_mul, Hint by lia.
    assert (Hkd : (Z.to_nat k < length dest)%nat) by lia.
    destruct (lookup_lt_is_Some_2 dest (Z.to_nat k) Hkd) as [x Hx].
    rewrite (drop_S _ _ _ Hx). change (x :: drop (S (Z.to_nat k)) dest) with ([x] ++ drop (S (Z.to_nat k)) dest).
    rewrite store_mid by (done || by rewrite length_ints by lia). rewrite decide_True by lia. split; [|cbn [fst]; lia].
    exists (k + 1). split; [lia|]. rewrite ints_snoc, <- app_assoc by lia. f_equal; [lia|].
    replace (Z.to_nat (k + 1)) with (S (Z.to_nat k)) by lia. done.
  - exists 0. split; [lia|done].
Qed.

(** With fewer than three bytes the bound of the loop wraps to about 2^32, and the
    bytes behind the array are read until that is out of bounds. *)
Theorem toIntArray_short (data dest : list Z) (dataLen : Z) (o : endian) :
  0 <= dataLen < 3 -> zlen data < 2147483644 ->
  exists n, forall m, (n <= m)%nat -> toIntArray (Some data) dataLen o (Some dest) m = Stuck.
Proof.
  intros Hlen Hmax. assert (Hu : u32 (dataLen - 3) = dataLen + 4294967293) by wrap_lia.
  set (P := fun s : Z * list Z => 0 <= s.1 < 2147483648).
  assert (Hstep : forall s, P s -> match toIntArray_step data dataLen o s with
    | Next s' => P s' /\ (Z.to_nat (zlen data + 4 - s'.1) < Z.to_nat (zlen data + 4 - s.1))%nat
    | Halt _ => False | Stuck => True end).
  { intros [i d] Hi. unfold P in *. cbn [fst toIntArray_step] in *. rewrite Hu, (proj2 (Z.ltb_lt _ _)) by lia.
    destruct (load data i 4) as [[|? [|? [|? [|? [|]]]]]|] eqn:Hl; try done.
    destruct (store _ _ _); [|done]. case_decide; [|done]. cbn [fst].
    unfold load in Hl. case_decide; [lia|done]. }
  destruct (terminates_measure (toIntArray_step data dataLen o) P (fun s => Z.to_nat (zlen data + 4 - s.1)) (0, dest))
    as (r & n & Hn & Hr); [|by unfold P; cbn; lia|].
  - intros s s' Hs He. specialize (Hstep s Hs). by rewrite He in Hstep.
  - exists n. intros m Hm. cbn [toIntArray]. rewrite (run_more _ n m _ r) by done.
    assert (Hinv : match run (toIntArray_step data dataLen o) n (0, dest) with
              | Next s' => P s' | Halt _ => False | Stuck => True end).
    { clear - Hstep. assert (H0 : P (0, dest)) by (unfold P; cbn; lia). revert H0. generalize (0, dest).
      induction n as [|n IH]; intros s Hs; cbn [run]; [done|]. specialize (Hstep s Hs).
      destruct (toIntArray_step data dataLen o s); [apply IH, Hstep|done|done]. }
    rewrite Hn in Hinv. destruct r; [by destruct (Hr s)|done|done].
Qed.

(** ** Powers of two *)

(** Bit [i] of [y] is set when one of the [s] bits of [x] from [i] on is. *)
Definition covers (s x y : Z) : Prop := forall i, 0 <= i ->
  Z.testbit y i = true <-> exists j, 0 <= j < s /\ Z.testbit x (i + j) = true.

Lemma covers_self x : covers 1 x x.
Proof.
  intros i Hi. split.
  - intros H. exists 0. split; [lia|]. by rewrite Z.add_0_r.
  - intros (j & Hj & H). by replace i with (i + j) by lia.
Qed.

Lemma covers_smear s x y : 0 < s -> covers s x y -> covers (s + s) x (smear y s).
Proof.
  intros Hs H i Hi. unfold smear. rewrite Z.lor_spec, Z.shiftr_spec, orb_true_iff, (H i), (H (i + s)) by lia.
  split.
  - intros [(j & Hj & Hb)|(j & Hj & Hb)]; [by exists j; split; [lia|]|].
    exists (s + j). split; [lia|]. by rewrite Z.add_assoc.
  - intros (j & Hj & Hb). destruct (decide (j < s)); [left; by exists j; split; [lia|]|].
    right. exists (j - s). split; [lia|]. by replace (i + s + (j - s)) with (i + j) by lia.
Qed.

Lemma covers_ones x y : 0 < x < 2 ^ 32 -> 0 <= y -> covers 32 x y -> y = Z.ones (Z.log2 x + 1).
Proof.
  intros Hx Hy H. pose proof (Z.log2_nonneg x). assert (Z.log2 x < 32) by (apply Z.log2_lt_pow2; lia).
  apply Z.bits_inj'. intros i Hi. rewrite Z.testbit_ones_nonneg by lia. apply eq_bool_prop_intro.
  rewrite !Is_true_true, (H i), Z.ltb_lt by done. split.
  - intros (j & Hj & Hb). destruct (decide (i + j <= Z.log2 x)); [lia|].
    by rewrite Z.bits_above_log2 in Hb by lia.
  - intros Hlt. exists (Z.log2 x - i). split; [lia|].
    replace (i + (Z.log2 x - i)) with (Z.log2 x) by lia. apply Z.bit_log2. lia.
Qed.

Definition smear_all (x : Z) : Z := smear (smear (smear (smear (smear x 1) 2) 4) 8) 16.

Lemma smear_nonneg x s : 0 <= x -> 0 <= smear x s.
Proof. intros. unfold smear. apply Z.lor_nonneg. split; [done|]. by apply Z.shiftr_nonneg. Qed.

Lemma smear_all_ones x : 0 < x < 2 ^ 32 -> smear_all x = Z.ones (Z.log2 x + 1).
Proof.
  intros Hx. apply covers_ones; [done| |].
  - unfold smear_all. do 5 apply smear_nonneg. lia.
  - unfold smear_all. apply (covers_smear 16), (covers_smear 8), (covers_smear 4), (covers_smear 2),
      (covers_smear 1), covers_self; lia.
Qed.

Lemma land_le a b : 0 <= a -> Z.land a b <= a.
Proof.
  intros Ha. assert (H : a - Z.land a b = Z.ldiff a (Z.land a b)).
  { apply Z.sub_nocarry_ldiff. apply Z.bits_inj. intros i. rewrite Z.ldiff_spec, Z.land_spec, Z.bits_0.
    by destruct (Z.testbit a i), (Z.testbit b i). }
  assert (0 <= Z.ldiff a (Z.land a b)) by (apply Z.ldiff_nonneg; by left). lia.
Qed.

(** One round of clearing the lowest bit set. *)
Lemma clear_round x n : 2 ^ n <= x < 2 ^ (n + 1) -> 0 <= n ->
  match clear_step x with
  | Next x' => 2 ^ n <= x' < x
  | Halt y => y = 2 ^ n
  | Stuck => False
  end.
Proof.
  intros Hx Hn. unfold clear_step. rewrite Z.add_1_r in Hx.
  assert (Hlog : Z.log2 x = n) by (by apply Z.log2_unique).
  pose proof (Z.pow_pos_nonneg 2 n ltac:(lia) Hn).
  destruct (decide (x = 2 ^ n)) as [->|Hne].
  - assert (Z.land (2 ^ n) (2 ^ n - 1) = 0) as ->; [|done].
    rewrite Z.sub_1_r, <- Z.ones_equiv, Z.land_ones by done. by apply Z.mod_same; lia.
  - assert (Hlog' : Z.log2 (x - 1) = n) by (apply Z.log2_unique; lia).
    assert (Hbit : Z.testbit (Z.land x (x - 1)) n = true).
    { rewrite Z.land_spec. rewrite <- Hlog at 1. rewrite Z.bit_log2 by lia.
      rewrite <- Hlog'. by rewrite Z.bit_log2 by lia. }
    assert (0 <= Z.land x (x - 1)) by (apply Z.land_nonneg; lia).
    assert (Z.land x (x - 1) <= x - 1) by (rewrite Z.land_comm; apply land_le; lia).
    assert (Hge : 2 ^ n <= Z.land x (x - 1)).
    { destruct (decide (Z.land x (x - 1) < 2 ^ n)) as [Hlt|]; [|lia].
      rewrite <- (Z.mod_small (Z.land x (x - 1)) (2 ^ n)) in Hbit by lia.
      by rewrite Z.mod_pow2_bits_high in Hbit by lia. }
    rewrite (proj2 (Z.eqb_neq _ _)) by lia. lia.
Qed.

(** Rounding up gives the least power of two that is not below the number, for
    numbers from 1 to 2^30; beyond, the result does not fit an int and adding
    overflows; rounding down gives the greatest power not above it. *)
Theorem powerOfTwo_rounds (x : Z) : 1 <= x <= INT_MAX ->
  (forall fuel, powerOfTwo x true fuel = if decide (x <= 2 ^ 30) then Halt (2 ^ Z.log2_up x) else Stuck)
  /\ returns (powerOfTwo x false) (2 ^ Z.log2 x).
Proof.
  unfold INT_MAX. intros Hx. unfold powerOfTwo. rewrite (proj2 (Z.ltb_ge x 0)) by lia. split.
  - intros _. change (smear (smear (smear (smear (smear (x - 1) 1) 2) 4) 8) 16) with (smear_all (x - 1)).
    destruct (decide (x = 1)) as [->|]; [vm_compute; reflexivity|].
    rewrite smear_all_ones, Z.log2_up_eqn by (change (2 ^ 32) with 4294967296; lia). rewrite <- Z.sub_1_r, <- Z.add_1_r.
    pose proof (Z.log2_nonneg (x - 1)). rewrite Z.ones_equiv. unfold INT_MAX.
    assert (Hlt : x - 1 < 2 ^ 30 <-> Z.log2 (x - 1) < 30) by (apply Z.log2_lt_pow2; lia).
    assert (H31 : Z.log2 (x - 1) < 31) by (apply Z.log2_lt_pow2; [lia|change (2 ^ 31) with 2147483648; lia]).
    destruct (decide (x <= 2 ^ 30)).
    + assert (Hl : Z.log2 (x - 1) < 30) by lia.
      pose proof (Z.pow_le_mono_r 2 (Z.log2 (x - 1) + 1) 30 ltac:(lia) ltac:(lia)) as Hp.
      change (2 ^ 30) with 1073741824 in *. rewrite decide_False by lia. f_equal. lia.
    + assert (Z.log2 (x - 1) = 30) as -> by lia. rewrite decide_True by (vm_compute; reflexivity). done.
  - pose proof (Z.log2_nonneg x). pose proof (Z.log2_spec x ltac:(lia)) as Hs. rewrite <- Z.add_1_r in Hs.
    apply returns_run.
    destruct (terminates_total clear_step (fun x' => 2 ^ Z.log2 x <= x' < 2 ^ (Z.log2 x + 1)) Z.to_nat
      (fun y => y = 2 ^ Z.log2 x) x) as (r & Hr & ->); [|done|done].
    intros x' Hx'. pose proof (clear_round x' (Z.log2 x) Hx' ltac:(lia)) as Hc.
    pose proof (Z.pow_pos_nonneg 2 (Z.log2 x) ltac:(lia) ltac:(lia)).
    destruct (clear_step x') as [x2| |]; [|done|done]. lia.
Qed.

(** 0 is not a power of two, but it is what both ways of rounding make of 0. *)
Lemma powerOfTwo_zero : powerOfTwo 0 true 1 = Halt 0 /\ powerOfTwo 0 false 1 = Halt 0.
Proof. by split. Qed.

(** The names of types are looked up without regard to case. *)
Lemma iStrEquals_from_trans a : forall b c, String.length a = String.length b ->
  String.length b = String.length c -> iStrEquals_from a b = true ->
  iStrEquals_from a c = iStrEquals_from b c.
Proof.
  induction a as [|x a IH]; intros [|y b] [|z c]; try done.
  cbn [String.length iStrEquals_from]. intros [= Hab] [= Hbc]. case_decide as Hxy; [|done].
  intros Hr. rewrite Hxy. case_decide; [|done]. by apply IH.
Qed.

Lemma getDataType_ignores_case a b :
  Z.of_nat (String.length a) < 4294967296 -> iStrEquals a b = true -> getDataType a = getDataType b.
Proof.
  intros Ha Hab. unfold iStrEquals in Hab. case_decide as Hl; [|done].
  rewrite u32_small in Hl by lia. unfold getDataType.
  rewrite (list_find_ext _ (fun p : string * DataType => iStrEquals b p.1 = true) type_names); [done|].
  intros [name t]. cbn [fst]. unfold iStrEquals. rewrite Hl. case_decide as Hn; [|done].
  rewrite u32_small in Hn by lia.
  rewrite (iStrEquals_from_trans a b name); [done|lia|lia|done].
Qed.

Lemma getDataType_examples : getDataType "ULong64" = ULONG64 /\ getDataType "BANK" = ALSOBANK
  /\ getDataType "int" = NOT_A_VALID_TYPE.
Proof. by split_and!. Qed.

(** ** Witnesses *)

Lemma padding_fills_words_witness : 4 * getWords 29 = 29 + getPadding 29 /\ 0 <= getPadding 29 < 4.
Proof. apply (padding_fills_words 29). unfold is_u32. lia. Defined.

Lemma toBytes_roundtrip_witness :
  toBytes32_vec 0x0a0b0c0d ENDIAN_BIG [1; 2; 3; 4; 5; 6] 1 = Ok [1; 10; 11; 12; 13; 6]
  /\ toLong (Some (order_bytes ENDIAN_LITTLE 8 0x0a0b0c0d)) ENDIAN_LITTLE = Ok 0x0a0b0c0d.
Proof.
  destruct (toBytes_roundtrip ENDIAN_BIG [1] [2; 3; 4; 5] [6] 0x0a0b0c0d) as (H & _ & _).
  destruct (toBytes_roundtrip ENDIAN_LITTLE [] (replicate 8 0) [] 0x0a0b0c0d) as (_ & H' & _).
  split.
  - apply H; [unfold is_u32; lia|reflexivity].
  - apply H'; [unfold is_u64; lia|reflexivity].
Defined.

Lemma toIntArray_converts_witness :
  returns (toIntArray (Some [0; 0; 1; 2; 0; 0; 0; 7; 9; 9]) 10 ENDIAN_BIG (Some [5; 5; 5])) (Ok [258; 7; 5]).
Proof.
  apply (toIntArray_converts [0; 0; 1; 2; 0; 0; 0; 7; 9; 9] [5; 5; 5] 10 ENDIAN_BIG);
    [|cbn; lia|lia|vm_compute; congruence].
  unfold bytes_ok. repeat (apply Forall_cons; split; [lia|]). apply Forall_nil_2.
Defined.

Lemma toIntArray_short_witness :
  exists n, forall m, (n <= m)%nat -> toIntArray (Some [1; 2]) 2 ENDIAN_BIG (Some [5]) m = Stuck.
Proof. apply (toIntArray_short [1; 2] [5] 2 ENDIAN_BIG); cbn; lia. Defined.

Lemma powerOfTwo_rounds_witness :
  (forall fuel, powerOfTwo 1000 true fuel = Halt 1024) /\ returns (powerOfTwo 1000 false) 512.
Proof.
  destruct (powerOfTwo_rounds 1000) as [H1 H2]; [unfold INT_MAX; lia|].
  split; [intros fuel; rewrite H1; reflexivity|exact H2].
Defined.
