(* ===== verification/EvioStrings.v ===== *)
(** Arrays of strings in evio data, as Util.h of the evio library packs and
    unpacks them: the strings end in a null each, and one to four bytes of
    value 4 fill the last word.  A std::string is the list of its bytes. *)
From S2P Require Import Prelude Bytes.

Definition pads : list Z := [4; 3; 2; 1].
Definition pad_of (dataLen : Z) : Z := nth (Z.to_nat (dataLen mod 4)) pads 0.

(** [array.push_back((uint8_t) input[i])] *)
Definition stringToASCII (input : list Z) : list Z := fold_left (fun array c => array ++ [u8 c]) input [].

Definition stringsToRawSize (strings : list (list Z)) : Z :=
  match strings with
  | [] => 0
  | _ =>
    let dataLen := fold_left (fun n s => u32 (n + (zlen s + 1))) strings 0 in
    u32 (dataLen + pad_of dataLen)
  end.

Definition stringToRawSize (str : list Z) : Z :=
  match str with
  | [] => 0
  | _ => let dataLen := u32 (zlen str + 1) in u32 (dataLen + pad_of dataLen)
  end.

(** [bytes.resize(n)] *)
Definition resize (n : Z) (bytes : list Z) : list Z :=
  take (Z.to_nat n) bytes ++ replicate (Z.to_nat n - length bytes) 0.

(** The string that is built; the switch appends as many bytes as its case says. *)
Definition raw_string (strings : list (list Z)) : list Z :=
  let strData := fold_left (fun d s => (d ++ s) ++ [0]) strings [] in
  strData ++ replicate (Z.to_nat (pad_of (zlen strData))) 4.

(** The length is an int; reserve and resize throw when it is negative. *)
Definition stringsToRawBytes (strings : list (list Z)) (bytes : list Z) : result (list Z) :=
  match strings with
  | [] => Ok []
  | _ =>
    let dataLen := i32 (stringsToRawSize strings) in
    if dataLen <? 0 then Throw "length_error"
    else checked (store (resize dataLen bytes) 0 (raw_string strings))
  end.

(** The locals of the loop of stringBuilderToStrings. *)
Record scan := mk_scan { nullIndexList : list Z; goodChars : Z; badFormat : bool }.

(** [(c < 32 || c > 126) && c != 9 && c != 10], for a signed char. *)
Definition unprintable (b : Z) : bool :=
  let c := i8 b in ((c <? 32) || (126 <? c)) && negb (c =? 9) && negb (c =? 10).

(** The characters from index [i] on; [None] when the index overflows. *)
Fixpoint scan_from (noEnding4 : bool) (i : Z) (chars : list Z) (s : scan) : option scan :=
  match chars with
  | [] => Some s
  | c :: chars =>
    let next s :=
      if i =? 2147483647 then None
      else scan_from noEnding4 (i + 1) chars (mk_scan s.(nullIndexList) (s.(goodChars) + 1) s.(badFormat)) in
    if c =? 0 then
      let s := mk_scan (s.(nullIndexList) ++ [i]) s.(goodChars) s.(badFormat) in
      if noEnding4 then Some (mk_scan s.(nullIndexList) s.(goodChars) false) else next s
    else if unprintable c then
      let bad := mk_scan s.(nullIndexList) s.(goodChars) true in
      match s.(nullIndexList) with
      | [] => Some bad
      | _ =>
        if c =? 4 then
          if 3 <? zlen chars then Some bad
          else if forallb (Z.eqb 4) chars then Some (mk_scan s.(nullIndexList) s.(goodChars) false)
          else next bad
        else Some bad
      end
    else next s
  end.

(** [std::string str(strData.data() + firstIndex, (nullIndex - firstIndex))] *)
Fixpoint cut (strData : list Z) (firstIndex : Z) (nulls : list Z) : list (list Z) :=
  match nulls with
  | [] => []
  | nullIndex :: nulls =>
    take (Z.to_nat (nullIndex - firstIndex)) (drop (Z.to_nat firstIndex) strData)
      :: cut strData (nullIndex + 1) nulls
  end.

Definition stringBuilderToStrings (strData : list Z) (onlyGoodChars : bool) : result (list (list Z)) :=
  match last strData with
  | None => UB
  | Some c =>
    s ← checked (scan_from (negb (c =? 4)) 0 strData (mk_scan [] 0 true));
    if s.(badFormat) then
      if onlyGoodChars then Ok [take (Z.to_nat s.(goodChars)) strData] else Ok [strData]
    else Ok (cut strData 0 s.(nullIndexList))
  end.

(** The overloads of unpackRawBytesToStrings; [strData] is what the vector holds
    when nothing is extracted. *)
Definition unpackRawBytesToStrings_max (bytes : list Z) (offset maxLength : Z) (strData : list (list Z))
    : result (list (list Z)) :=
  let length := i32 (zlen bytes - offset) in
  if (zlen bytes =? 0) || (length <? 4) then Ok strData
  else
    let length := if maxLength <? length then maxLength else length in
    sData ← checked (load bytes offset length);
    stringBuilderToStrings sData true.

Definition unpackRawBytesToStrings (bytes : list Z) (offset : Z) (strData : list (list Z))
    : result (list (list Z)) :=
  unpackRawBytesToStrings_max bytes offset (zlen bytes) strData.

Definition unpackRawBytesToStrings_ptr (bytes : option (list Z)) (length : Z) (strData : list (list Z))
    : result (list (list Z)) :=
  match bytes with
  | None => Ok strData
  | Some bytes => sData ← checked (load bytes 0 length); stringBuilderToStrings sData true
  end.

(** [array] and [arrayOffset]: what the ByteBuffer's methods of these names return. *)
Definition unpackRawBytesToStrings_buf (array : list Z) (arrayOffset pos length : Z)
    (strData : list (list Z)) : result (list (list Z)) :=
  if length <? 4 then Ok strData
  else sData ← checked (load array (arrayOffset + pos) length); stringBuilderToStrings sData false.

(** ** Packing *)

Definition printable (s : list Z) : Prop := Forall (fun c => 0 <= c < 256 /\ unprintable c = false) s.

Definition terminated (strings : list (list Z)) : list Z := concat (map (fun s => s ++ [0]) strings).

Lemma build_terminated strings d : fold_left (fun d s => (d ++ s) ++ [0]) strings d = d ++ terminated strings.
Proof.
  revert d. induction strings as [|s strings IH]; intros d; cbn; [by rewrite app_nil_r|].
  rewrite IH. unfold terminated. cbn [map concat]. by rewrite !app_assoc.
Qed.

Lemma raw_string_terminated strings :
  raw_string strings = terminated strings ++ replicate (Z.to_nat (pad_of (zlen (terminated strings)))) 4.
Proof. unfold raw_string. by rewrite build_terminated. Qed.

Lemma pad_of_range n : 1 <= pad_of n <= 4 /\ (n + pad_of n) mod 4 = 0.
Proof.
  unfold pad_of. assert (n mod 4 = 0 \/ n mod 4 = 1 \/ n mod 4 = 2 \/ n mod 4 = 3) as H
    by (Z.div_mod_to_equations; lia).
  destruct H as [H|[H|[H|H]]]; rewrite H;
    match goal with |- context [nth ?a ?b ?c] =>
      let v := eval vm_compute in (nth a b c) in change (nth a b c) with v
    end; (split; [lia|]); Z.div_mod_to_equations; lia.
Qed.

Lemma size_terminated strings n : 0 <= n -> n + zlen (terminated strings) < 4294967296 ->
  fold_left (fun n s => u32 (n + (zlen s + 1))) strings n = n + zlen (terminated strings).
Proof.
  revert n. induction strings as [|s strings IH]; intros n Hn Hmax; cbn [fold_left]; [cbn; lia|].
  unfold terminated in *. cbn [map concat] in *. rewrite !length_app in *. cbn [length] in *.
  rewrite u32_small by lia. rewrite IH by lia. lia.
Qed.

Lemma stringsToRawSize_length strings : zlen (raw_string strings) < 4294967296 -> strings <> [] ->
  stringsToRawSize strings = zlen (raw_string strings).
Proof.
  intros Hmax Hne. rewrite raw_string_terminated, length_app, length_replicate in *.
  pose proof (pad_of_range (zlen (terminated strings))) as [Hp _].
  unfold stringsToRawSize. destruct strings as [|s strings]; [done|].
  rewrite size_terminated by lia. rewrite Z.add_0_l. rewrite u32_small by lia. lia.
Qed.

Lemma length_resize n bytes : 0 <= n -> zlen (resize n bytes) = n.
Proof. intros. unfold resize. rewrite length_app, length_take, length_replicate. lia. Qed.

Lemma store_whole buf bs : length buf = length bs -> store buf 0 bs = Some bs.
Proof.
  intros Hl. rewrite store_spec by lia. unfold splice. change (Z.to_nat 0) with 0%nat.
  cbn [take app Nat.add]. by rewrite drop_ge, app_nil_r by lia.
Qed.

(** Strings of less than 2 GB in all are packed into full words. *)
Lemma stringsToRawBytes_spec strings bytes : strings <> [] -> zlen (raw_string strings) < 2147483648 ->
  stringsToRawBytes strings bytes = Ok (raw_string strings).
Proof.
  intros Hne Hmax. unfold stringsToRawBytes. destruct strings as [|s strings]; [done|].
  rewrite stringsToRawSize_length by (done || lia). rewrite i32_small by lia.
  rewrite (proj2 (Z.ltb_ge _ _)) by lia.
  by rewrite store_whole by (pose proof (length_resize (zlen (raw_string (s :: strings))) bytes); lia).
Qed.

(** ** Unpacking *)

Lemma printable_zero c : unprintable c = false -> (c =? 0) = false.
Proof. intros H. apply Z.eqb_neq. intros ->. by vm_compute in H. Qed.

(** Printable characters are passed over. *)
Lemma scan_printable e i s chars st : printable s -> 0 <= i -> i + zlen s <= 2147483647 ->
  scan_from e i (s ++ chars) st
  = scan_from e (i + zlen s) chars (mk_scan st.(nullIndexList) (st.(goodChars) + zlen s) st.(badFormat)).
Proof.
  intros Hs. revert i st. induction Hs as [|c s [_ Hc] _ IH]; intros i st Hi Hmax; cbn [app length].
  - rewrite !Z.add_0_r. by destruct st.
  - cbn [length] in Hmax. cbn [scan_from]. rewrite (printable_zero c Hc), Hc.
    rewrite (proj2 (Z.eqb_neq i _)) by lia. rewrite IH by lia.
    cbn [nullIndexList goodChars badFormat]. f_equal; [lia|f_equal; lia].
Qed.

(** Where the nulls of strings packed from [i] on are. *)
Fixpoint null_indices (i : Z) (strings : list (list Z)) : list Z :=
  match strings with
  | [] => []
  | s :: strings => (i + zlen s) :: null_indices (i + zlen s + 1) strings
  end.

Lemma scan_strings i strings chars st : Forall printable strings -> 0 <= i ->
  i + zlen (terminated strings) <= 2147483647 ->
  scan_from false i (terminated strings ++ chars) st
  = scan_from false (i + zlen (terminated strings)) chars
      (mk_scan (st.(nullIndexList) ++ null_indices i strings) (st.(goodChars) + zlen (terminated strings))
         st.(badFormat)).
Proof.
  intros Hs. revert i st. induction Hs as [|s strings Hs1 _ IH]; intros i st Hi Hmax.
  - cbn. rewrite app_nil_r, !Z.add_0_r. by destruct st.
  - unfold terminated in *. cbn [map concat null_indices] in *. rewrite !length_app in *. cbn [length] in *.
    rewrite <- !app_assoc, scan_printable by (done || lia). cbn [app scan_from].
    change (0 =? 0) with true. cbv iota. rewrite (proj2 (Z.eqb_neq (i + zlen s) _)) by lia.
    rewrite IH by lia. cbn [nullIndexList goodChars badFormat]. rewrite <- app_assoc.
    f_equal; [lia|f_equal; lia].
Qed.

(** The bytes of value 4 at the end end the scan. *)
Lemma scan_padding i p st : st.(nullIndexList) <> [] -> (1 <= p <= 4)%nat ->
  scan_from false i (replicate p 4) st = Some (mk_scan st.(nullIndexList) st.(goodChars) false).
Proof.
  intros Hn Hp. destruct p as [|p]; [lia|]. cbn [replicate scan_from].
  change (4 =? 0) with false. change (unprintable 4) with true. change (4 =? 4) with true. cbv iota.
  destruct st as [[|n ns] g b]; [done|]. cbn [nullIndexList goodChars].
  rewrite (proj2 (Z.ltb_ge 3 _)) by (rewrite length_replicate; lia).
  assert (forallb (Z.eqb 4) (replicate p 4) = true) as ->; [|done].
  clear. induction p; [done|exact IHp].
Qed.

(** Cutting at the nulls gives the strings back. *)
Lemma cut_strings data first strings rest : 0 <= first ->
  drop (Z.to_nat first) data = terminated strings ++ rest ->
  cut data first (null_indices first strings) = strings.
Proof.
  revert first. induction strings as [|s strings IH]; intros first H0 Hd; cbn [null_indices cut]; [done|].
  unfold terminated in Hd. cbn [map concat] in Hd. rewrite <- !app_assoc in Hd. cbn [app] in Hd. f_equal.
  - rewrite Hd. replace (Z.to_nat (first + zlen s - first)) with (length s) by lia. apply take_app_length.
  - apply IH; [lia|]. replace (Z.to_nat (first + zlen s + 1)) with (Z.to_nat first + (length s + 1))%nat by lia.
    rewrite <- drop_drop, Hd. rewrite drop_app_ge by lia.
    replace (length s + 1 - length s)%nat with 1%nat by lia. done.
Qed.

Lemma last_fours l p : (1 <= p)%nat -> last (l ++ replicate p 4) = Some 4.
Proof.
  intros Hp. destruct p as [|p]; [lia|]. rewrite replicate_S_end, app_assoc. apply last_snoc.
Qed.

(** The raw form of printable strings is read back. *)
Lemma build_raw strings b : strings <> [] -> Forall printable strings -> zlen (raw_string strings) < 2147483648 ->
  stringBuilderToStrings (raw_string strings) b = Ok strings.
Proof.
  intros Hne Hp Hmax. rewrite raw_string_terminated in *. rewrite length_app, length_replicate in Hmax.
  pose proof (pad_of_range (zlen (terminated strings))) as [Hr _]. set (p := pad_of _) in *.
  unfold stringBuilderToStrings. rewrite last_fours by lia. change (negb (4 =? 4)) with false.
  rewrite scan_strings by (done || lia). cbn [nullIndexList goodChars badFormat app].
  rewrite scan_padding; [|by destruct strings|lia]. cbn [checked mbind result_bind badFormat nullIndexList].
  f_equal. eapply cut_strings; [lia|]. by rewrite drop_0.
Qed.

(** C16: packing strings gives a whole number of words, as many bytes as stringsToRawSize
    says, with one to four bytes of value 4 at the end, and each way of unpacking
    them gives back exactly the strings that were packed, empty strings included. *)
Theorem strings_roundtrip (strings old : list (list Z)) (bytes junk : list Z) (pos : Z) :
  strings <> [] -> Forall printable strings -> zlen (raw_string strings) < 2147483648 ->
  exists raw, stringsToRawBytes strings bytes = Ok raw
    /\ zlen raw = stringsToRawSize strings /\ zlen raw mod 4 = 0
    /\ unpackRawBytesToStrings raw 0 old = Ok strings
    /\ unpackRawBytesToStrings_ptr (Some (raw ++ junk)) (zlen raw) old = Ok strings
    /\ unpackRawBytesToStrings_buf (junk ++ raw ++ junk) 0 (zlen junk) (zlen raw) old = Ok strings.
Proof.
  intros Hne Hp Hmax. exists (raw_string strings).
  pose proof (raw_string_terminated strings) as Hraw.
  pose proof (pad_of_range (zlen (terminated strings))) as [Hr Hmod].
  assert (Hlen : zlen (raw_string strings) = zlen (terminated strings) + pad_of (zlen (terminated strings)))
    by (rewrite Hraw, length_app, length_replicate; lia).
  assert (Hlt : 1 <= zlen (terminated strings)).
  { destruct strings as [|s strings]; [done|]. unfold terminated. cbn [map concat].
    rewrite !length_app. cbn [length]. lia. }
  assert (H4 : 4 <= zlen (raw_string strings)) by (Z.div_mod_to_equations; lia).
  split; [by apply stringsToRawBytes_spec|].
  split; [symmetry; apply stringsToRawSize_length; [lia|done]|].
  split; [by rewrite Hlen|]. split; [|split].
  - unfold unpackRawBytesToStrings, unpackRawBytesToStrings_max. rewrite Z.sub_0_r, i32_small by lia.
    rewrite (proj2 (Z.eqb_neq _ _)), (proj2 (Z.ltb_ge _ _)) by lia. cbn [orb]. rewrite Z.ltb_irrefl.
    rewrite load_spec by lia. change (Z.to_nat 0) with 0%nat. rewrite drop_0, take_ge by lia.
    cbn [checked mbind result_bind]. by apply build_raw.
  - unfold unpackRawBytesToStrings_ptr. rewrite load_spec by (rewrite ?length_app; lia).
    change (Z.to_nat 0) with 0%nat. rewrite drop_0, Nat2Z.id, take_app_length.
    cbn [checked mbind result_bind]. by apply build_raw.
  - unfold unpackRawBytesToStrings_buf. rewrite (proj2 (Z.ltb_ge _ _)) by lia. rewrite Z.add_0_l.
    rewrite load_spec by (rewrite ?length_app; lia). rewrite !Nat2Z.id, drop_app_length, take_app_length.
    cbn [checked mbind result_bind]. by apply build_raw.
Qed.

(** Data in the format of evio versions before 4, one string with a null and
    anything behind it that does not end in a byte of value 4, gives this string. *)
Theorem legacy_string (s junk : list Z) (b : bool) : printable s -> last (0 :: junk) <> Some 4 ->
  zlen s <= 2147483647 -> stringBuilderToStrings (s ++ 0 :: junk) b = Ok [s].
Proof.
  intros Hs Hl Hmax. unfold stringBuilderToStrings. rewrite last_app_cons.
  destruct (last (0 :: junk)) as [c|] eqn:Hc; [|by rewrite last_None in Hc].
  rewrite (proj2 (Z.eqb_neq c 4)) by congruence. cbn [negb].
  rewrite scan_printable by (done || lia). cbn [scan_from Z.eqb nullIndexList app goodChars].
  cbn [checked mbind result_bind badFormat nullIndexList cut].
  change (Z.to_nat 0) with 0%nat. rewrite drop_0.
  replace (Z.to_nat (0 + zlen s - 0)) with (length s) by lia. by rewrite take_app_length.
Qed.

(** Garbage before the first null: one string, cut off there if only good
    characters are asked for. *)
Lemma garbage_before_null (s rest : list Z) (c : Z) (b : bool) : printable s -> c <> 0 ->
  unprintable c = true -> zlen s <= 2147483647 ->
  stringBuilderToStrings (s ++ c :: rest) b = Ok [if b then s else s ++ c :: rest].
Proof.
  intros Hs H0 Hc Hmax. unfold stringBuilderToStrings. rewrite last_app_cons.
  destruct (last (c :: rest)) as [d|] eqn:Hd; [|by rewrite last_None in Hd].
  rewrite scan_printable by (done || lia). cbn [scan_from nullIndexList goodChars badFormat].
  rewrite (proj2 (Z.eqb_neq c 0)), Hc by done. cbn [checked mbind result_bind badFormat goodChars].
  destruct b; [|done]. replace (Z.to_nat (0 + zlen s)) with (length s) by lia. by rewrite take_app_length.
Qed.

(** When a byte of value 4 is followed, within three bytes of the end, by something
    else, the loop notes the bad format but goes on, and a later 4 at the end makes
    the format good again: the printable character between them is dropped
    silently instead of being returned with the rest. *)
Theorem bad_padding_accepted (s : list Z) (x : Z) (b : bool) : printable s -> zlen s < 2147483644 ->
  0 <= x < 256 -> unprintable x = false ->
  stringBuilderToStrings (s ++ [0; 4; x; 4]) b = Ok [s].
Proof.
  intros Hs Hmax Hx Hux. unfold stringBuilderToStrings. rewrite last_app_cons. cbn [last].
  change (negb (4 =? 4)) with false. rewrite scan_printable by (done || lia).
  pose proof (printable_zero x Hux) as Hx0. cbn [scan_from nullIndexList app]. rewrite Hx0, Hux.
  change (0 =? 0) with true. change (4 =? 0) with false. change (4 =? 4) with true.
  change (unprintable 4) with true. cbv iota. cbn [length forallb nullIndexList goodChars badFormat].
  rewrite !(proj2 (Z.eqb_neq _ 2147483647)) by lia.
  assert ((4 =? x) = false) as -> by (apply Z.eqb_neq; intros <-; by vm_compute in Hux).
  change (4 =? 4) with true. change (3 <? Z.of_nat 2) with false. change (3 <? Z.of_nat 0) with false.
  cbn [andb].
  cbn [checked mbind result_bind badFormat nullIndexList cut].
  change (Z.to_nat 0) with 0%nat. rewrite drop_0.
  replace (Z.to_nat (0 + zlen s - 0)) with (length s) by lia. by rewrite take_app_length.
Qed.

(** The two functions for sizes disagree on one empty string. *)
Lemma sizes_of_empty_string : stringToRawSize [] = 0 /\ stringsToRawSize [[]] = 4.
Proof. by split. Qed.

Lemma stringToASCII_bytes input : Forall (fun c => 0 <= c < 256) input -> stringToASCII input = input.
Proof.
  intros H. unfold stringToASCII. assert (Hg : forall acc, fold_left (fun array c => array ++ [u8 c]) input acc = acc ++ input).
  { induction H as [|c input Hc _ IH]; intros acc; cbn [fold_left]; [by rewrite app_nil_r|].
    rewrite IH, u8_small by done. by rewrite <- app_assoc. }
  apply Hg.
Qed.

(** ** Witnesses: "ab", "" and "c" *)

Lemma printable_letters s : Forall (fun c => 97 <= c <= 122) s -> printable s.
Proof.
  intros H. apply (Forall_impl _ _ _ H). intros c Hc. split; [lia|]. unfold unprintable.
  assert (i8 c = c) as -> by wrap_lia. rewrite (proj2 (Z.ltb_ge c 32)), (proj2 (Z.ltb_ge 126 c)) by lia. done.
Qed.

Lemma strings_roundtrip_witness :
  exists raw, stringsToRawBytes [[97; 98]; []; [99]] [] = Ok raw
    /\ zlen raw = stringsToRawSize [[97; 98]; []; [99]] /\ zlen raw mod 4 = 0
    /\ unpackRawBytesToStrings raw 0 [] = Ok [[97; 98]; []; [99]]
    /\ unpackRawBytesToStrings_ptr (Some (raw ++ [1])) (zlen raw) [] = Ok [[97; 98]; []; [99]]
    /\ unpackRawBytesToStrings_buf ([1] ++ raw ++ [1]) 0 1 (zlen raw) [] = Ok [[97; 98]; []; [99]].
Proof.
  apply (strings_roundtrip [[97; 98]; []; [99]] [] [] [1] 0).
  - discriminate.
  - do 3 (apply Forall_cons; split; [apply printable_letters; repeat (apply Forall_cons; split; [lia|]);
      apply Forall_nil_2|]). apply Forall_nil_2.
  - vm_compute. reflexivity.
Defined.

Lemma legacy_string_witness : stringBuilderToStrings ([97; 98] ++ 0 :: [7; 7]) true = Ok [[97; 98]].
Proof.
  apply (legacy_string [97; 98] [7; 7] true).
  - apply printable_letters. repeat (apply Forall_cons; split; [lia|]). apply Forall_nil_2.
  - discriminate.
  - cbn. lia.
Defined.

Lemma bad_padding_accepted_witness : stringBuilderToStrings ([97] ++ [0; 4; 120; 4]) true = Ok [[97]].
Proof.
  apply (bad_padding_accepted [97] 120 true).
  - apply printable_letters. repeat (apply Forall_cons; split; [lia|]). apply Forall_nil_2.
  - cbn. lia.
  - lia.
  - reflexivity.
Defined.
