(* ===== verification/EvioTree.v ===== *)
(** The tree of an evio event: the depth-first and breadth-first iterators of
    BaseStructure.h.  Nodes are shared pointers into a store that holds the
    vector of children of each; an iterator keeps pairs of vector iterators in a
    std::stack or a std::queue.  Going through an iterator visits a tree in
    preorder or level by level, every node once. *)
From stdpp Require Import gmap.
From S2P Require Import Prelude.

(** ** Nodes and iterators *)

Abbreviation node := positive.
(** [node->children] of every structure. *)
Abbreviation store := (gmap positive (list positive)).

(** A pair of iterators of the vector [owner->children]: the current position
    and the end. *)
Record KidIters := mk_iters { owner : node; cur_iter : Z; end_iter : Z }.

(** An iterator over a tree: [kids] is the stack (its top first) or the queue
    (its front first).  [popped] counts the writes through a reference to a pair
    that was taken out of the container just before; the code reads nothing
    back from there. *)
Record nodeIterator := mk_iterator {
  kids : list KidIters;
  currentNode : node;
  isEnd : bool;
  popped : nat
}.

Section Iterators.
Context (heap : store).

Definition children (n : node) : result (list node) := checked (heap !! n).

(** [*curIter]. *)
Definition deref (p : KidIters) : result node :=
  ks ← children p.(owner);
  if p.(cur_iter) <? 0 then UB else checked (ks !! Z.to_nat p.(cur_iter)).

(** [std::stack::push] and [std::queue::push]. *)
Definition push_stack (p : KidIters) (s : list KidIters) : list KidIters := p :: s.
Definition push_queue (p : KidIters) (q : list KidIters) : list KidIters := q ++ [p].

(** If a node has children, their pair of iterators is put into the container. *)
Definition push_children (push : KidIters -> list KidIters -> list KidIters)
    (n : node) (s : list KidIters) : result (list KidIters) :=
  ks ← children n;
  Ok (match ks with [] => s | _ => push (mk_iters n 0 (zlen ks)) s end).

(** The constructors. *)
Definition make_iterator (push : KidIters -> list KidIters -> list KidIters)
    (n : node) (end_ : bool) : result nodeIterator :=
  s ← push_children push n [];
  Ok (mk_iterator s n end_ 0).

Definition nodeIterator_make := make_iterator push_stack.
Definition nodeBreadthIterator_make := make_iterator push_queue.

(** [begin], [end], [bbegin] and [bend]. *)
Definition begin_ (n : node) := nodeIterator_make n false.
Definition end_ (n : node) := nodeIterator_make n true.
Definition bbegin (n : node) := nodeBreadthIterator_make n false.
Definition bend (n : node) := nodeBreadthIterator_make n true.

(** [operator==] and [operator!=] compare addresses unless both are at the end. *)
Definition iter_eq (same_object : bool) (a b : nodeIterator) : bool :=
  if a.(isEnd) && b.(isEnd) then true else same_object.
Definition iter_ne (same_object : bool) (a b : nodeIterator) : bool :=
  if a.(isEnd) && b.(isEnd) then false else negb same_object.

Definition at_end (it : nodeIterator) : nodeIterator :=
  mk_iterator it.(kids) it.(currentNode) true it.(popped).

(** From "Look at top vector" on: the node at the current position becomes the
    current node.  When it is the last of its vector, the pair is popped before
    its position is incremented. *)
Definition advance (push : KidIters -> list KidIters -> list KidIters) (it : nodeIterator)
    (top : KidIters) (rest : list KidIters) : result nodeIterator :=
  n ← deref top;
  let last := top.(cur_iter) - (top.(end_iter) - 1) =? 0 in
  let top' := mk_iters top.(owner) (top.(cur_iter) + 1) top.(end_iter) in
  let s := if last then rest else top' :: rest in
  s ← push_children push n s;
  Ok (mk_iterator s n it.(isEnd) (if last then S it.(popped) else it.(popped))).

(** The pre-increments, [++it]. *)
Definition next_pre (push : KidIters -> list KidIters -> list KidIters) (it : nodeIterator)
    : result nodeIterator :=
  if it.(isEnd) then Ok it
  else match it.(kids) with
       | [] => Ok (at_end it)
       | top :: rest => advance push it top rest
       end.

Definition nodeIterator_pre := next_pre push_stack.
Definition nodeBreadthIterator_pre := next_pre push_queue.

(** The post-increments, [it++]: what is returned, and the iterator afterwards.
    The breadth-first one returns a copy of the iterator at the end of the tree,
    the depth-first one a copy from before. *)
Definition nodeIterator_post (it : nodeIterator) : result (nodeIterator * nodeIterator) :=
  if it.(isEnd) then Ok (it, it)
  else match it.(kids) with
       | [] => Ok (it, at_end it)
       | top :: rest => it' ← advance push_stack it top rest; Ok (it, it')
       end.

Definition nodeBreadthIterator_post (it : nodeIterator) : result (nodeIterator * nodeIterator) :=
  if it.(isEnd) then Ok (it, it)
  else match it.(kids) with
       | [] => Ok (at_end it, at_end it)
       | top :: rest => it' ← advance push_queue it top rest; Ok (it, it')
       end.

(** ** Going through a tree

    [for (it = s->begin(); it != s->end(); ++it)]: the nodes seen, with the final
    iterator.  The iterator that [end()] makes is another object. *)
Definition traverse_step (next : nodeIterator -> result nodeIterator) (last : nodeIterator)
    (s : nodeIterator * list node) : outcome (nodeIterator * list node) (nodeIterator * list node) :=
  let '(it, seen) := s in
  if iter_ne false it last then
    match next it with
    | Ok it' => Next (it', seen ++ [it.(currentNode)])
    | _ => Stuck
    end
  else Halt (it, seen).

Definition traverse (make : node -> bool -> result nodeIterator)
    (next : nodeIterator -> result nodeIterator) (n : node) (fuel : nat)
    : outcome (nodeIterator * list node) (nodeIterator * list node) :=
  match make n false, make n true with
  | Ok it, Ok last => run (traverse_step next last) fuel (it, [])
  | _, _ => Stuck
  end.

Definition depth_first := traverse nodeIterator_make nodeIterator_pre.
Definition breadth_first := traverse nodeBreadthIterator_make nodeBreadthIterator_pre.
End Iterators.

(** ** Trees *)

#[local] Unset Elimination Schemes.
Inductive tree := Node (n : node) (ts : list tree).
#[local] Set Elimination Schemes.

Lemma tree_ind (P : tree -> Prop) :
  (forall n ts, Forall P ts -> P (Node n ts)) -> forall t, P t.
Proof.
  intros HP. fix IH 1. intros [n ts]. apply HP.
  induction ts as [|t ts IHts]; constructor; [apply IH | apply IHts].
Qed.

Definition root (t : tree) : node := let '(Node n _) := t in n.
Definition subtrees (t : tree) : list tree := let '(Node _ ts) := t in ts.

(** The store holds the tree: the children of a node are the roots of its subtrees. *)
#[local] Unset Elimination Schemes.
Inductive holds (heap : store) : tree -> Prop :=
  | holds_node n ts : heap !! n = Some (map root ts) -> Forall (holds heap) ts -> holds heap (Node n ts).
#[local] Set Elimination Schemes.

Fixpoint tree_size (t : tree) : nat := let '(Node _ ts) := t in S (sum_list (map tree_size ts)).
(** A node, then its subtrees from left to right. *)
Fixpoint preorder (t : tree) : list node :=
  let '(Node n ts) := t in n :: concat (map preorder ts).

(** The nodes at a depth, from left to right; then depth after depth. *)
Fixpoint level (d : nat) (t : tree) : list node :=
  match d, t with
  | O, Node n _ => [n]
  | S d, Node _ ts => concat (map (level d) ts)
  end.
Fixpoint height (t : tree) : nat := let '(Node _ ts) := t in S (max_list (map height ts)).
Definition level_order (t : tree) : list node := concat (map (fun d => level d t) (seq 0 (height t))).

(** Nodes that have children. *)
Fixpoint parents (t : tree) : nat :=
  let '(Node _ ts) := t in (match ts with [] => 0 | _ => 1 end + sum_list (map parents ts))%nat.

(** ** Both iterators at once

    [place] says where the subtrees of a node go among the trees still to be
    visited: in front of them (a stack) or behind them (a queue). *)

Abbreviation size_all ts := (sum_list (map tree_size ts)).
Abbreviation parents_all ts := (sum_list (map parents ts)).

Section Traversal.
Context (heap : store).

(** A pair of iterators stands for trees whose roots are yet to come. *)
Definition pending (p : KidIters) (ts : list tree) : Prop :=
  exists before, heap !! p.(owner) = Some (map root (before ++ ts)) /\
    p.(cur_iter) = zlen before /\ p.(end_iter) = zlen (before ++ ts) /\
    ts <> [] /\ Forall (holds heap) ts.

(** The container stands for the trees of its pairs, one after another. *)
Definition todo (s : list KidIters) (L : list tree) : Prop :=
  exists pss, Forall2 pending s pss /\ L = concat pss.

Lemma todo_nil s : todo s [] -> s = [].
Proof.
  intros (pss & Hps & Hc). destruct Hps as [|p ts s pss (? & _ & _ & _ & Hne & _) _]; [done|].
  by destruct ts.
Qed.

Lemma pending_deref p t ts : pending p (t :: ts) -> deref heap p = Ok (root t).
Proof.
  intros (before & Ho & Hc & _). unfold deref, children. rewrite Ho, Hc. cbn.
  destruct (Z.ltb_spec (zlen before) 0); [lia|].
  rewrite Nat2Z.id, list_lookup_fmap, list_lookup_middle; done.
Qed.

(** The current position of a pair is its last when one tree is left. *)
Lemma pending_last p t ts : pending p (t :: ts) ->
  (p.(cur_iter) - (p.(end_iter) - 1) =? 0) = match ts with [] => true | _ => false end.
Proof.
  intros (before & _ & -> & -> & _). rewrite length_app. cbn [length].
  destruct ts; cbn [length]; [apply Z.eqb_eq | apply Z.eqb_neq]; lia.
Qed.

Lemma pending_next p t ts : pending p (t :: ts) -> ts <> [] ->
  pending (mk_iters p.(owner) (p.(cur_iter) + 1) p.(end_iter)) ts.
Proof.
  intros (before & Ho & Hc & He & _ & Hts) Hne. exists (before ++ [t]). cbn.
  rewrite <- app_assoc, length_app. cbn. apply Forall_cons in Hts as [_ Hts].
  repeat split; [done | lia | done | done | done].
Qed.

Lemma holds_children t : holds heap t ->
  children heap (root t) = Ok (map root (subtrees t)) /\ Forall (holds heap) (subtrees t).
Proof. intros [n ts Hn Hts]. unfold children. cbn. by rewrite Hn. Qed.

Context (push : KidIters -> list KidIters -> list KidIters).
Context (place : list tree -> list tree -> list tree).
Context (push_todo : forall p us s L, pending p us -> todo s L -> todo (push p s) (place us L)).
Context (push_length : forall p s, length (push p s) = S (length s)).
Context (place_nil : forall L, place [] L = L).
Context (place_perm : forall us L, place us L ≡ₚ us ++ L).

Lemma push_children_todo t s L : holds heap t -> todo s L -> exists s',
  push_children heap push (root t) s = Ok s' /\ todo s' (place (subtrees t) L) /\
  length s' = (length s + match subtrees t with [] => 0 | _ => 1 end)%nat.
Proof using push_todo push_length place_nil.
  intros [Hc Hts]%holds_children Hs. unfold push_children. rewrite Hc.
  destruct t as [n [|t0 us]]; cbn in *.
  - exists s. rewrite place_nil. split; [done|]. split; [done|lia].
  - eexists. split; [done|]. rewrite push_length. split; [|lia]. apply push_todo; [|done].
    exists []. cbn. unfold children, checked in Hc.
    destruct (heap !! n) eqn:Hn; [|done]. injection Hc as ->.
    split_and!; cbn; [done | done | by rewrite length_map | done | done].
Qed.

(** The trees left to visit, one iteration on. *)
Lemma next_todo it t L : it.(isEnd) = false -> Forall (holds heap) (t :: L) ->
  todo it.(kids) (t :: L) -> exists it', next_pre heap push it = Ok it' /\
    it'.(currentNode) = root t /\ it'.(isEnd) = false /\
    todo it'.(kids) (place (subtrees t) L) /\
    (it'.(popped) + length it'.(kids) = it.(popped) + length it.(kids)
       + match subtrees t with [] => 0 | _ => 1 end)%nat.
Proof using push_todo push_length place_nil.
  intros He [Ht HL]%Forall_cons (pss & Hps & Hc). unfold next_pre. rewrite He.
  destruct Hps as [|p ts rest pss Hp Hrest]; [done|]. cbn in Hc.
  destruct ts as [|t' ts]; [by destruct Hp as (? & _ & _ & _ & ? & _)|].
  injection Hc as <- ->. unfold advance. rewrite (pending_deref _ _ _ Hp). cbn.
  rewrite (pending_last _ _ _ Hp).
  match goal with |- context [push_children _ _ _ ?x] => set (s := x) end.
  assert (todo s (ts ++ concat pss) /\ (length s = length rest + match ts with [] => 0 | _ => 1 end)%nat)
    as [Hs Hlen].
  { subst s. destruct ts as [|t1 ts]; cbn.
    - split; [by exists pss | lia].
    - split; [|lia]. exists ((t1 :: ts) :: pss). split; [|done]. constructor; [|done].
      by eapply pending_next. }
  destruct (push_children_todo t s _ Ht Hs) as (s' & -> & Hs' & Hl). cbn.
  eexists. split; [done|]. cbn. repeat split; [done|done|].
  rewrite Hl, Hlen. destruct ts; lia.
Qed.

(** The order in which a container visits trees. *)
Fixpoint visits (k : nat) (L : list tree) : list node :=
  match k, L with
  | S k, t :: L => root t :: visits k (place (subtrees t) L)
  | _, _ => []
  end.

Lemma size_place us L : size_all (place us L) = (size_all us + size_all L)%nat.
Proof using place_perm. by rewrite place_perm, map_app, sum_list_with_app. Qed.
Lemma parents_place us L : parents_all (place us L) = (parents_all us + parents_all L)%nat.
Proof using place_perm. by rewrite place_perm, map_app, sum_list_with_app. Qed.

Lemma holds_place us L : Forall (holds heap) us -> Forall (holds heap) L -> Forall (holds heap) (place us L).
Proof using place_perm. intros Hus HL. rewrite place_perm. by apply Forall_app. Qed.

(** What holds on the way through a tree whose nodes come out as [out]: some
    trees are left, and they give the rest; the pairs popped, those in the
    container and those to come are [pops] in all. *)
Definition under_way (out : list node) (pops : nat) (s : nodeIterator * list node) : Prop :=
  let '(it, seen) := s in
  if it.(isEnd) then seen = out /\ it.(popped) = pops
  else exists L, Forall (holds heap) L /\ todo it.(kids) L /\
    out = seen ++ it.(currentNode) :: visits (size_all L) L /\
    pops = (it.(popped) + length it.(kids) + parents_all L)%nat.

Definition left (out : list node) (s : nodeIterator * list node) : nat :=
  if s.1.(isEnd) then 0%nat else S (length out - length s.2).

Lemma traverse_step_ok out pops last s : last.(isEnd) = true -> under_way out pops s ->
  match traverse_step (next_pre heap push) last s with
  | Next s' => under_way out pops s' /\ (left out s' < left out s)%nat
  | Halt (it, seen) => it.(isEnd) = true /\ seen = out /\ it.(popped) = pops
  | Stuck => False
  end.
Proof using push_todo push_length place_nil place_perm.
  destruct s as [it seen]. intros Hlast Hs. unfold traverse_step, iter_ne, left. rewrite Hlast, andb_true_r.
  unfold under_way in Hs. cbn [fst snd]. destruct (isEnd it) eqn:He; [tauto|]. cbn [negb].
  destruct Hs as ([|t L] & HL & Htodo & Hout & Hpops).
  - apply todo_nil in Htodo as Hk. unfold next_pre. rewrite He, Hk in *. cbn in *.
    subst out. cbn. rewrite length_app. cbn. split; [split; [done|lia]|lia].
  - destruct (next_todo it t L He HL Htodo) as (it' & -> & Hcur & He' & Htodo' & Hp').
    unfold under_way. cbn [fst snd]. rewrite He'. apply Forall_cons in HL as [[Hc Ht]%holds_children HL].
    split.
    + exists (place (subtrees t) L). split; [by apply holds_place|]. split; [done|].
      rewrite Hout, <- app_assoc, Hcur, size_place, parents_place, Hpops.
      destruct t as [n ts]. cbn. split; [done|]. destruct ts; cbn in *; lia.
    + subst out. rewrite !length_app. cbn. lia.
Qed.

Lemma traverse_ok t out pops : holds heap t ->
  out = visits (tree_size t) [t] -> pops = parents t ->
  exists it, returns (traverse (make_iterator heap push) (next_pre heap push) (root t)) (it, out) /\
    it.(isEnd) = true /\ it.(popped) = pops.
Proof using push_todo push_length place_nil place_perm.
  intros Ht -> ->.
  assert (todo [] []) as Hnil by (by exists []).
  destruct (push_children_todo t [] [] Ht Hnil) as (s & Hs & Htodo & Hl).
  unfold traverse, make_iterator. rewrite Hs. cbn.
  destruct (terminates_total (traverse_step (next_pre heap push) (mk_iterator s (root t) true 0))
    (under_way (visits (tree_size t) [t]) (parents t)) (left (visits (tree_size t) [t]))
    (fun r => isEnd r.1 = true /\ r.2 = visits (tree_size t) [t] /\ popped r.1 = parents t)
    (mk_iterator s (root t) false 0, [])) as ([it seen] & Hr & He & Hseen & Hp).
  - intros s0 Hs0. pose proof (traverse_step_ok _ _ (mk_iterator s (root t) true 0) s0 eq_refl Hs0) as H.
    destruct (traverse_step _ _ _) as [|[]|]; tauto.
  - unfold under_way. cbn. exists (place (subtrees t) []).
    apply holds_children in Ht as [_ Hts].
    split; [by apply holds_place|]. split; [done|]. rewrite size_place, parents_place, Hl.
    destruct t as [n ts]. cbn. rewrite !Nat.add_0_r. split; [done|]. by destruct ts.
  - cbn in *. subst seen. exists it. split; [by apply returns_run|done].
Qed.
End Traversal.

(** ** The two orders *)

Lemma push_stack_todo heap p us s L :
  pending heap p us -> todo heap s L -> todo heap (push_stack p s) (us ++ L).
Proof. intros Hp (pss & Hps & ->). exists (us :: pss). split; [by constructor|done]. Qed.

Lemma push_queue_todo heap p us s L :
  pending heap p us -> todo heap s L -> todo heap (push_queue p s) (L ++ us).
Proof.
  intros Hp (pss & Hps & ->). exists (pss ++ [us]).
  split; [by apply Forall2_app; [|constructor] | by rewrite concat_app; cbn; rewrite app_nil_r].
Qed.

Lemma visits_preorder k L : (size_all L <= k)%nat -> visits app k L = concat (map preorder L).
Proof.
  revert L. induction k as [|k IH]; intros [|[n ts] L] Hk; cbn in *; [done|lia|done|].
  rewrite IH; [by rewrite map_app, concat_app|]. rewrite map_app, sum_list_with_app. lia.
Qed.

(** A queue visits the trees in it, then the subtrees of these. *)
Abbreviation behind := (fun us L : list tree => L ++ us).
Definition next_level (ts : list tree) : list tree := concat (map subtrees ts).

Lemma visits_queue k ts us : (length ts <= k)%nat ->
  visits behind k (ts ++ us) = map root ts ++ visits behind (k - length ts) (us ++ next_level ts).
Proof.
  revert k us. induction ts as [|t ts IH]; intros k us Hk; cbn [length] in *.
  - unfold next_level. cbn. by rewrite Nat.sub_0_r, app_nil_r.
  - destruct k as [|k]; [lia|]. cbn. rewrite <- app_assoc, IH by lia.
    unfold next_level. cbn. by rewrite app_assoc.
Qed.

Lemma levels_next d ts : concat (map (level (S d)) ts) = concat (map (level d) (next_level ts)).
Proof.
  induction ts as [|[n us] ts IH]; [done|]. unfold next_level in *. cbn [map concat subtrees].
  by rewrite map_app, concat_app, IH.
Qed.

Lemma level_0 ts : concat (map (level 0) ts) = map root ts.
Proof. induction ts as [|[n us] ts IH]; [done|]. cbn. by rewrite <- IH. Qed.

Lemma size_next_level ts : size_all ts = (length ts + size_all (next_level ts))%nat.
Proof.
  induction ts as [|[n us] ts IH]; [done|]. unfold next_level in *. cbn [map concat subtrees].
  rewrite map_app, sum_list_with_app. cbn in *. lia.
Qed.

Lemma height_le t ts : t ∈ ts -> (height t <= max_list (map height ts))%nat.
Proof. intros Ht. apply max_list_elem_of_le, list_elem_of_fmap. by exists t. Qed.

Lemma height_next_level H ts : Forall (fun t => (height t <= S H)%nat) ts ->
  Forall (fun t => (height t <= H)%nat) (next_level ts).
Proof.
  intros Hts. unfold next_level. apply Forall_concat, Forall_map.
  apply (Forall_impl _ _ _ Hts). intros [n us] Hn. apply Forall_forall. cbn in *.
  intros t Ht%height_le. lia.
Qed.

Lemma visits_levels H ts : Forall (fun t => (height t <= H)%nat) ts ->
  visits behind (size_all ts) ts = concat (map (fun d => concat (map (level d) ts)) (seq 0 H)).
Proof.
  revert ts. induction H as [|H IH]; intros ts HH.
  - destruct HH as [|[n us] ts Ht]; [done|]. cbn in Ht. lia.
  - rewrite <- (app_nil_r ts) at 2. rewrite visits_queue by (rewrite size_next_level; lia).
    rewrite size_next_level. replace (_ + _ - _)%nat with (size_all (next_level ts)) by lia.
    cbn [app]. rewrite IH by by apply height_next_level.
    cbn [seq map concat]. rewrite level_0, <- seq_shift, map_map.
    do 2 f_equal. apply map_ext. intros d. symmetry. apply levels_next.
Qed.

(** Both orders have every node of the tree once. *)
Lemma visits_perm k L : (size_all L <= k)%nat -> visits behind k L ≡ₚ concat (map preorder L).
Proof.
  revert L. induction k as [|k IH]; intros [|[n ts] L] Hk; cbn in *; [done|lia|done|].
  rewrite IH; [by rewrite map_app, concat_app, (comm (++))|].
  rewrite map_app, sum_list_with_app. lia.
Qed.

Lemma visits_level_order t : visits behind (tree_size t) [t] = level_order t.
Proof.
  replace (tree_size t) with (size_all [t]) by (cbn; lia). rewrite (visits_levels (height t)).
  - unfold level_order. f_equal. apply map_ext. intros d. cbn. apply app_nil_r.
  - by repeat constructor.
Qed.

Lemma level_order_perm t : level_order t ≡ₚ preorder t.
Proof.
  rewrite <- visits_level_order, visits_perm by (cbn; lia). cbn. by rewrite app_nil_r.
Qed.

(** ** What the iterators visit *)

(** C14: Going through an event from begin() to end() with ++it ends, and sees the
    structures of the tree in preorder: each structure before those in it, these
    from first to last.  On the way as many pairs of vector iterators are
    incremented after they were popped as there are structures with children. *)
Theorem depth_first_preorder heap t (Ht : holds heap t) :
  exists it, returns (depth_first heap (root t)) (it, preorder t) /\
    it.(isEnd) = true /\ it.(popped) = parents t.
Proof.
  apply (traverse_ok heap push_stack app (push_stack_todo heap)); [done|done|done|done| |done].
  rewrite visits_preorder by (cbn; lia). cbn. by rewrite app_nil_r.
Qed.

(** Going through an event from bbegin() to bend() ends, and sees the structures
    level by level, in a level from left to right; they are the same ones, each as
    often, as the depth-first iterator sees. *)
Theorem breadth_first_levels heap t (Ht : holds heap t) :
  exists it, returns (breadth_first heap (root t)) (it, level_order t) /\
    it.(isEnd) = true /\ it.(popped) = parents t /\ level_order t ≡ₚ preorder t.
Proof.
  destruct (traverse_ok heap push_queue behind (push_queue_todo heap)) with (t := t)
    (out := level_order t) (pops := parents t) as (it & Hr & He & Hp); try done.
  - intros p s. unfold push_queue. rewrite length_app. cbn. lia.
  - intros L. apply app_nil_r.
  - intros us L. apply (comm (++)).
  - symmetry. apply visits_level_order.
  - exists it. split; [done|]. split; [done|]. split; [done|]. apply level_order_perm.
Qed.

(** An event with two banks, the first of which holds two more, the second one. *)
Definition tree_example : tree :=
  Node 1 [Node 2 [Node 4 []; Node 5 []]; Node 3 [Node 6 []]].
Definition heap_example : store :=
  list_to_map [(1, [2; 3]); (2, [4; 5]); (3, [6]); (4, []); (5, []); (6, [])]%positive.

Lemma holds_example : holds heap_example tree_example.
Proof. repeat (constructor; [vm_compute; done|]); repeat constructor. Qed.

Lemma depth_first_preorder_witness :
  (exists it, returns (depth_first heap_example 1%positive) (it, [1; 2; 4; 5; 3; 6]%positive) /\
    it.(isEnd) = true /\ it.(popped) = 3%nat).
Proof. exact (depth_first_preorder heap_example tree_example holds_example). Defined.

Lemma breadth_first_levels_witness :
  (exists it, returns (breadth_first heap_example 1%positive) (it, [1; 2; 3; 4; 5; 6]%positive) /\
    it.(isEnd) = true /\ it.(popped) = 3%nat /\
    level_order tree_example ≡ₚ [1; 2; 4; 5; 3; 6]%positive).
Proof. exact (breadth_first_levels heap_example tree_example holds_example). Defined.

(** [it++] moves the iterator as [++it] does.  The depth-first one always returns
    the iterator as it was before; the breadth-first one returns, when the tree is
    through, the iterator already at its end. *)
Theorem post_increments heap it it' :
  (nodeIterator_pre heap it = Ok it' -> nodeIterator_post heap it = Ok (it, it')) /\
  (nodeBreadthIterator_pre heap it = Ok it' ->
   nodeBreadthIterator_post heap it =
     Ok (match it.(kids) with [] => it' | _ => if it.(isEnd) then it' else it end, it')).
Proof.
  unfold nodeIterator_pre, nodeIterator_post, nodeBreadthIterator_pre, nodeBreadthIterator_post, next_pre.
  split; destruct (isEnd it), (kids it); intros H; try (by injection H as <-); rewrite H; done.
Qed.

(** Two iterators are equal only at the end, or when they are one object: a copy
    of an iterator in the middle of a tree is not equal to it. *)
Theorem copies_differ it : it.(isEnd) = false -> iter_eq false it it = false /\ iter_ne false it it = true.
Proof. intros He. unfold iter_eq, iter_ne. by rewrite He. Qed.
