(* ===== verification/EvioStruct.v ===== *)
(** Evio structures as objects: swapping the data of a tree of structures in place
    (the last swapData of EvioSwap.h), on a store of nodes that share children. *)
From stdpp Require Import gmap.
From S2P Require Import Prelude Bytes ByteOrder EvioUtil EvioTree.

(** ** Structures *)

(** The header of a structure; [h_length] is in words without the first. *)
Record header := mk_header { h_length : Z; h_tag : Z; h_dataType : DataType; h_padding : Z; h_number : Z }.

(** A structure: its header, the elements of the vector that goes with its data
    type, as unsigned integers of the width of the type, and its children. *)
Record structure := mk_structure { s_header : header; s_data : list Z; s_children : list node }.

Abbreviation structures := (gmap positive structure).

(** Methods of BaseStructure, its header and ByteOrder that are only declared.
    [updateData] stands for the updateXxxData of the type, called when the vector
    has got new elements. *)
Class StructureMethods := {
  getDataLength : structure -> Z;
  updateData : list Z -> structure -> structure;
  swapArray16 : list Z -> list Z;
  swapArray32 : list Z -> list Z;
  swapArray64 : list Z -> list Z
}.

(** The elements of an array are swapped one by one; an update keeps to the data. *)
Class StructureLaws (methods : StructureMethods) : Prop := {
  swapArray16_law vs : swapArray16 vs = map SWAP_16 vs;
  swapArray32_law vs : swapArray32 vs = map SWAP_32 vs;
  swapArray64_law vs : swapArray64 vs = map SWAP_64 vs;
  update_data vs s : (updateData vs s).(s_data) = vs;
  update_children vs s : (updateData vs s).(s_children) = s.(s_children);
  update_type vs s : (updateData vs s).(s_header).(h_dataType) = s.(s_header).(h_dataType)
}.

Section SwapData.
Context {methods : StructureMethods}.

(** The branches of the chain of types with a vector of integers or floats. *)
Definition array_swap (type : DataType) : option (list Z -> list Z) :=
  match type with
  | UINT32 | INT32 | FLOAT32 => Some swapArray32
  | SHORT16 | USHORT16 => Some swapArray16
  | LONG64 | ULONG64 | DOUBLE64 => Some swapArray64
  | _ => None
  end.

(** [ByteOrder::byteSwapN(vec.data(), length, nullptr)]: the first [length] elements
    in place; undefined behaviour when there are fewer. *)
Definition swap_first (swap : list Z -> list Z) (length_ : Z) (vec : list Z) : result (list Z) :=
  if (0 <=? length_) && (length_ <=? zlen vec)
  then Ok (swap (take (Z.to_nat length_) vec) ++ drop (Z.to_nat length_) vec) else UB.

(** One structure, without the recursion. *)
Definition swap_vector (s : structure) (swap : list Z -> list Z) : result structure :=
  vs ← swap_first swap (getDataLength s) s.(s_data); Ok (updateData vs s).

(** [for (auto kid : strc->getChildren()) swapData(kid);] *)
Fixpoint swap_kids (swap : structures -> node -> option (result structures)) (h : structures) (ks : list node)
    : option (result structures) :=
  match ks with
  | [] => Some (Ok h)
  | k :: ks =>
    match swap h k with
    | Some (Ok h') => swap_kids swap h' ks
    | o => o
    end
  end.

(** [swapData(std::shared_ptr<BaseStructure>)]; [None] when the fuel does not reach
    down to the leaves. *)
Fixpoint swapData_structure (fuel : nat) (h : structures) (n : node) : option (result structures) :=
  match fuel with
  | O => None
  | S fuel =>
    match h !! n with
    | None => Some UB
    | Some strc =>
      let type := strc.(s_header).(h_dataType) in
      match array_swap type with
      | Some swap =>
        match swap_vector strc swap with
        | Ok strc' => Some (Ok (<[n := strc']> h))
        | Throw e => Some (Throw e)
        | UB => Some UB
        end
      | None =>
        if isBank type || isSegment type || isTagSegment type
        then swap_kids (swapData_structure fuel) h strc.(s_children)
        else Some (Ok h)
      end
    end
  end.

(** ** What is swapped *)

(** The bytes of an element, for the types whose elements are swapped. *)
Definition element_bytes (type : DataType) : option nat :=
  match type with
  | SHORT16 | USHORT16 => Some 2%nat
  | UINT32 | INT32 | FLOAT32 => Some 4%nat
  | LONG64 | ULONG64 | DOUBLE64 => Some 8%nat
  | _ => None
  end.
Definition elements_ok (w : nat) (vs : list Z) : Prop := Forall (fun v => 0 <= v < 256 ^ Z.of_nat w) vs.
(** An array in memory, least significant byte first. *)
Definition image (w : nat) (vs : list Z) : list Z := concat (map (le_bytes w) vs).

(** [s'] is [s] with the bytes of each of the first elements, as many as the length of
    its data says, in the opposite order; structures of other types stay as they are. *)
Definition bytes_reversed (s s' : structure) : Prop :=
  match element_bytes s.(s_header).(h_dataType) with
  | None => s' = s
  | Some w =>
    let n := Z.to_nat (getDataLength s) in
    s'.(s_children) = s.(s_children) /\ s'.(s_header).(h_dataType) = s.(s_header).(h_dataType) /\
    elements_ok w s'.(s_data) /\
    image w s'.(s_data) = concat (map (fun v => rev (le_bytes w v)) (take n s.(s_data))) ++ image w (drop n s.(s_data))
  end.

(** That for all structures of [ns], and for no other ones. *)
Definition reversed (ns : list node) (h h' : structures) : Prop :=
  (forall n, n ∉ ns -> h' !! n = h !! n) /\
  (forall n, n ∈ ns -> exists s s', h !! n = Some s /\ h' !! n = Some s' /\ bytes_reversed s s').

(** A structure after the call, by the functions called. *)
Definition swapped (s : structure) : structure :=
  match array_swap s.(s_header).(h_dataType) with
  | Some swap => match swap_vector s swap with Ok s' => s' | _ => s end
  | None => s
  end.

(** A structure whose vector has as many elements as are swapped, all of their width,
    and children only in a container. *)
Definition sound (s : structure) : Prop :=
  (forall w, element_bytes s.(s_header).(h_dataType) = Some w ->
     0 <= getDataLength s <= zlen s.(s_data) /\ elements_ok w s.(s_data) /\ s.(s_children) = []) /\
  (element_bytes s.(s_header).(h_dataType) = None -> s.(s_children) <> [] ->
     let t := s.(s_header).(h_dataType) in isBank t || isSegment t || isTagSegment t = true).

(** The children alone, as the iterators see the store. *)
Definition shape (h : structures) : store := s_children <$> h.

Context {laws : StructureLaws methods}.

Lemma swapped_children s : (swapped s).(s_children) = s.(s_children).
Proof using laws.
  unfold swapped. destruct (array_swap _); [|done]. unfold swap_vector, swap_first.
  destruct (_ && _); [|done]. cbn. apply update_children.
Qed.

Lemma swap_width type swap : array_swap type = Some swap -> exists w, element_bytes type = Some w /\
  forall vs, elements_ok w vs -> elements_ok w (swap vs) /\ image w (swap vs) = concat (map (fun v => rev (le_bytes w v)) vs).
Proof using laws.
  assert (forall w f (swap : list Z -> list Z), (forall vs, swap vs = map f vs) ->
    (forall v, 0 <= v < 256 ^ Z.of_nat w -> f v = le_val (be_bytes w v)) ->
    forall vs, elements_ok w vs -> elements_ok w (swap vs) /\ image w (swap vs) = concat (map (fun v => rev (le_bytes w v)) vs)) as Hf.
  { intros w f sw Hs Hv vs Hok. rewrite Hs. unfold image, elements_ok. rewrite Forall_map. split.
    - eapply Forall_impl; [exact Hok|]. cbn. intros v Hr. rewrite Hv by done.
      pose proof (le_val_bound (be_bytes w v) (be_bytes_ok _ _)) as Hb. by rewrite length_be_bytes in Hb.
    - induction Hok as [|v vs Hr _ IH]; [done|]. cbn. rewrite IH, Hv by done. f_equal.
      rewrite <- (length_be_bytes w v) at 1. apply le_bytes_val, be_bytes_ok. }
  intros H. destruct type; try done; injection H as <-; eexists; (split; [reflexivity|]).
  all: first [ apply (Hf _ SWAP_32); [apply swapArray32_law|] | apply (Hf _ SWAP_16); [apply swapArray16_law|]
             | apply (Hf _ SWAP_64); [apply swapArray64_law|] ].
  all: intros v Hv; first [ rewrite SWAP_32_val, u32_small by done; done | rewrite SWAP_64_val, u64_small by done; done | idtac ].
  all: change (256 ^ Z.of_nat 2) with 65536 in Hv; rewrite SWAP_16_bswap, u16_small by done;
    rewrite <- (le_bytes_bswap_16 v) by done; symmetry; apply le_val_le_bytes; rewrite bswap_16_val by done;
    change (256 ^ Z.of_nat 2) with 65536; Z.div_mod_to_equations; lia.
Qed.
Lemma swap_none type : array_swap type = None <-> element_bytes type = None.
Proof. by destruct type. Qed.

(** The functions called reverse the bytes. *)
Lemma swapped_reversed s : sound s -> bytes_reversed s (swapped s).
Proof using laws.
  intros [Hs _]. unfold bytes_reversed. destruct (element_bytes _) as [w|] eqn:Hw.
  - destruct (Hs w eq_refl) as (Hl & Hok & _). unfold swapped. destruct (array_swap _) as [swap|] eqn:Ha; [|apply swap_none in Ha; congruence].
    destruct (swap_width _ _ Ha) as (w' & Hw' & Hsw). rewrite Hw in Hw'. injection Hw' as <-.
    unfold swap_vector, swap_first. rewrite (proj2 (Z.leb_le _ _)), (proj2 (Z.leb_le _ _)) by lia. cbn [andb mbind result_bind].
    rewrite update_children, update_type, update_data. unfold elements_ok in *.
    destruct (Hsw (take (Z.to_nat (getDataLength s)) s.(s_data))) as [Hr Hi]; [by apply Forall_take|].
    split_and!; try done; [apply Forall_app; split; [done|by apply Forall_drop]|].
    unfold image in *. by rewrite map_app, concat_app, Hi.
  - unfold swapped. apply swap_none in Hw. by rewrite Hw.
Qed.

Lemma swap_sound s swap : sound s -> array_swap s.(s_header).(h_dataType) = Some swap ->
  swap_vector s swap = Ok (swapped s).
Proof using laws.
  intros [Hs _] Ha. unfold swapped. rewrite Ha in *. destruct (swap_width _ _ Ha) as (w & Hw & _).
  destruct (Hs w Hw) as [Hl _]. unfold swap_vector, swap_first.
  destruct (Z.leb_spec 0 (getDataLength s)), (Z.leb_spec (getDataLength s) (zlen s.(s_data))); try lia. done.
Qed.

(** What a call does to the store: the structures of [ns] are swapped. *)
Definition swaps (ns : list node) (h h' : structures) : Prop :=
  forall n, h' !! n = if decide (n ∈ ns) then swapped <$> h !! n else h !! n.

Lemma swaps_shape ns h h' : swaps ns h h' -> shape h' = shape h.
Proof using laws.
  intros Hs. apply map_eq. intros n. unfold shape. rewrite !lookup_fmap, Hs. case_decide; [|done].
  destruct (h !! n); cbn; [|done]. by rewrite swapped_children.
Qed.

Lemma swaps_app ns ns' h h1 h2 : (forall n, n ∈ ns -> n ∉ ns') ->
  swaps ns h h1 -> swaps ns' h1 h2 -> swaps (ns ++ ns') h h2.
Proof.
  intros Hd H1 H2 n. rewrite H2, H1. specialize (Hd n).
  destruct (decide (n ∈ ns)), (decide (n ∈ ns')), (decide (n ∈ ns ++ ns')) as [Hin|Hin];
    rewrite elem_of_app in Hin; try tauto.
Qed.

(** Every structure of a list of nodes is there and sound. *)
Definition all_sound (h : structures) (ns : list node) : Prop :=
  Forall (fun n => exists s, h !! n = Some s /\ sound s) ns.

Lemma all_sound_kept ns ns' h h' : (forall n, n ∈ ns -> n ∉ ns') -> swaps ns h h' ->
  all_sound h ns' -> all_sound h' ns'.
Proof.
  intros Hd Hs Ha. apply Forall_forall. intros n Hn. unfold all_sound in Ha. rewrite Forall_forall in Ha.
  destruct (Ha n Hn) as (s & Hl & Hok). exists s. split; [|done]. rewrite Hs, decide_False; [done|].
  intros Hin. by apply (Hd n).
Qed.

(** Calls for the children of a structure, one after another. *)
Lemma swap_kids_ok swap ts h :
  Forall (fun t => forall h, holds (shape h) t -> all_sound h (preorder t) -> NoDup (preorder t) ->
    exists h', swap h (root t) = Some (Ok h') /\ swaps (preorder t) h h') ts ->
  Forall (holds (shape h)) ts -> all_sound h (concat (map preorder ts)) -> NoDup (concat (map preorder ts)) ->
  exists h', swap_kids swap h (map root ts) = Some (Ok h') /\ swaps (concat (map preorder ts)) h h'.
Proof using laws.
  intros Hts. revert h. induction Hts as [|t ts Ht _ IH]; intros h Hh Ha Hnd; cbn in *.
  - exists h. split; [done|]. intros n. by rewrite decide_False by apply not_elem_of_nil.
  - apply Forall_cons in Hh as [Hh1 Hh2]. apply Forall_app in Ha as [Ha1 Ha2].
    apply NoDup_app in Hnd as (Hn1 & Hd & Hn2).
    destruct (Ht h Hh1 Ha1 Hn1) as (h1 & -> & Hs1).
    destruct (IH h1) as (h2 & -> & Hs2); [| |done|].
    + by rewrite (swaps_shape _ _ _ Hs1).
    + by apply (all_sound_kept (preorder t) _ h).
    + exists h2. split; [done|]. by eapply swaps_app.
Qed.

Lemma tree_swapped h t fuel : holds (shape h) t -> all_sound h (preorder t) -> NoDup (preorder t) -> (height t <= fuel)%nat ->
  exists h', swapData_structure fuel h (root t) = Some (Ok h') /\ swaps (preorder t) h h'.
Proof using laws.
  intros Hh Ha Hnd Hf.
  revert h fuel Hh Ha Hnd Hf. induction t as [n ts IH] using tree_ind. intros h fuel Hh Ha Hnd Hf.
  destruct fuel as [|fuel]; [cbn in Hf; lia|]. cbn [root swapData_structure].
  inversion Hh as [? ? Hn Hts]; subst. unfold shape in Hn. rewrite lookup_fmap in Hn.
  cbn [preorder] in Ha, Hnd. apply Forall_cons in Ha as [(s & Hs & Hok) Ha].
  rewrite Hs in *. cbn in Hn. injection Hn as Hk.
  destruct (array_swap s.(s_header).(h_dataType)) as [swap|] eqn:Hsw.
  - rewrite (swap_sound s swap Hok Hsw). eexists. split; [done|].
    destruct (swap_width _ _ Hsw) as (w & Hw & _). destruct Hok as [Hok _]. destruct (Hok w Hw) as (_ & _ & Hnil). rewrite Hnil in Hk.
    destruct ts; [|done]. intros n'. cbn. destruct (decide (n' = n)) as [->|Hne].
    + rewrite lookup_insert_eq, decide_True by by left. by rewrite Hs.
    + rewrite lookup_insert_ne by done. rewrite decide_False; [done|]. by rewrite list_elem_of_singleton.
  - assert (swapped s = s) as Hself by (unfold swapped; by rewrite Hsw).
    apply NoDup_cons in Hnd as [Hnin Hnd].
    assert (forall ns h', swaps ns h h' -> n ∉ ns -> swaps (n :: ns) h h') as Hcons.
    { intros ns h' Hsn Hni n'. rewrite Hsn. destruct (decide (n' = n)) as [->|Hne].
      - rewrite decide_False by done. rewrite decide_True by by left. rewrite Hs. cbn. by rewrite Hself.
      - destruct (decide (n' ∈ ns)); [rewrite decide_True by by right | rewrite decide_False]; try done.
        rewrite not_elem_of_cons. done. }
    destruct (decide (ts = [])) as [->|Hne].
    + rewrite Hk. exists h. split; [by destruct (_ || _)|]. apply Hcons; [|done].
      intros n'. by rewrite decide_False by apply not_elem_of_nil.
    + destruct Hok as [_ Hok]. rewrite (Hok (proj1 (swap_none _) Hsw)).
      2: { rewrite Hk. by destruct ts. }
      rewrite Hk. destruct (swap_kids_ok (swapData_structure fuel) ts h) as (h' & -> & Hs'); try done.
      * apply Forall_forall. intros t Ht h1 Hh1 Ha1 Hn1. rewrite Forall_forall in IH.
        apply IH; try done. apply height_le in Ht. cbn in Hf. lia.
      * exists h'. split; [done|]. by apply Hcons.
Qed.

(** C34: On a tree of structures, no two the same object, whose headers give their data
    no more elements than they have, swapData ends, and then in every structure of the
    tree the bytes of each 2, 4 or 8 byte element - by its data type - are reversed, once,
    as far as the length goes; its other elements, its children and its type stay, as does
    every structure of another type and every one outside the tree. *)
Theorem swapData_swaps_tree h t fuel (Hh : holds (shape h) t) (Ha : all_sound h (preorder t))
    (Hnd : NoDup (preorder t)) (Hf : (height t <= fuel)%nat) :
  exists h', swapData_structure fuel h (root t) = Some (Ok h') /\ reversed (preorder t) h h'.
Proof using laws.
  destruct (tree_swapped h t fuel Hh Ha Hnd Hf) as (h' & He & Hs). exists h'. split; [done|].
  split; intros n Hn; specialize (Hs n); [by rewrite decide_False in Hs|]. rewrite decide_True in Hs by done.
  unfold all_sound in Ha. rewrite Forall_forall in Ha. destruct (Ha n Hn) as (s & Hl & Hok).
  exists s, (swapped s). rewrite Hs, Hl. split; [done|]. split; [done|]. by apply swapped_reversed.
Qed.

(** The length is one in 32-bit words, but counts elements here.  A vector of 64-bit
    elements, of which there are half as many, is overrun; of a vector of 16-bit
    elements, twice as many, only the first half is swapped. *)
Theorem swapData_length_in_words h n s fuel : h !! n = Some s -> 0 < getDataLength s ->
  (In s.(s_header).(h_dataType) [LONG64; ULONG64; DOUBLE64] -> 2 * zlen s.(s_data) = getDataLength s ->
     swapData_structure (S fuel) h n = Some UB) /\
  (In s.(s_header).(h_dataType) [SHORT16; USHORT16] -> zlen s.(s_data) = 2 * getDataLength s ->
     exists a b s', s.(s_data) = a ++ b /\ length a = length b /\
       swapData_structure (S fuel) h n = Some (Ok (<[n := s']> h)) /\ s'.(s_data) = map SWAP_16 a ++ b).
Proof using laws.
  intros Hs Hl. cbn [swapData_structure]. rewrite Hs. split.
  - intros Ht Hn. assert (array_swap s.(s_header).(h_dataType) = Some swapArray64) as ->
      by (destruct Ht as [<-|[<-|[<-|[]]]]; done).
    unfold swap_vector, swap_first.
    destruct (Z.leb_spec 0 (getDataLength s)), (Z.leb_spec (getDataLength s) (zlen s.(s_data))); try lia. done.
  - intros Ht Hn. assert (array_swap s.(s_header).(h_dataType) = Some swapArray16) as ->
      by (destruct Ht as [<-|[<-|[]]]; done).
    unfold swap_vector, swap_first.
    destruct (Z.leb_spec 0 (getDataLength s)), (Z.leb_spec (getDataLength s) (zlen s.(s_data))); try lia.
    cbn [andb mbind result_bind].
    eexists (take (Z.to_nat (getDataLength s)) s.(s_data)), (drop (Z.to_nat (getDataLength s)) s.(s_data)), _.
    split_and!; [by rewrite take_drop | rewrite length_take, length_drop; lia | done |].
    by rewrite update_data, swapArray16_law.
Qed.
End SwapData.

(** ** An example *)

(** Methods that answer the length of the header less that of a bank's second word,
    and put the vector into the structure. *)
Definition plain : StructureMethods := {|
  getDataLength s := s.(s_header).(h_length) - 1;
  updateData vs s := mk_structure s.(s_header) vs s.(s_children);
  swapArray16 := map SWAP_16; swapArray32 := map SWAP_32; swapArray64 := map SWAP_64
|}.
Lemma plain_laws : StructureLaws plain.
Proof. done. Qed.

(** An event that holds a bank of two unsigned ints and an empty bank of banks. *)
Definition event_example : structures :=
  list_to_map [(1%positive, mk_structure (mk_header 7 1 BANK 0 1) [] [2; 3]%positive);
               (2%positive, mk_structure (mk_header 3 2 UINT32 0 1) [0x01020304; 0x05060708] []);
               (3%positive, mk_structure (mk_header 1 3 BANK 0 1) [] [])].

Lemma swapData_swaps_tree_witness :
  exists h' s', swapData_structure (methods := plain) 2 event_example 1%positive = Some (Ok h') /\
    h' !! 2%positive = Some s' /\ image 4 s'.(s_data) = [1; 2; 3; 4; 5; 6; 7; 8].
Proof.
  destruct (swapData_swaps_tree (methods := plain) (laws := plain_laws) event_example
    (Node 1 [Node 2 []; Node 3 []]) 2) as (h' & He & _ & Hr).
  - constructor; [by vm_compute|].
    repeat (constructor; [constructor; [by vm_compute|constructor]|]). constructor.
  - repeat (apply Forall_cons; split; [eexists; split; [by vm_compute|]; split; [|cbn; done]; intros w Hw; cbn in Hw|]); [done| |done|constructor].
    injection Hw as <-. split; [cbn; lia|]. split; [repeat constructor; lia|done].
  - apply (bool_decide_unpack _). by vm_compute.
  - cbn. lia.
  - destruct (Hr 2%positive) as (s & s' & Hs & Hs' & Hb); [cbn; right; left|]. exists h', s'. split; [exact He|]. split; [exact Hs'|].
    assert (s = mk_structure (mk_header 3 2 UINT32 0 1) [0x01020304; 0x05060708] []) as -> by (vm_compute in Hs; by injection Hs as <-).
    destruct Hb as (_ & _ & _ & Hi). rewrite Hi. by vm_compute.
Defined.

Example swapData_example :
  (h ← swapData_structure (methods := plain) 2 event_example 1%positive;
   match h with Ok h => s_data <$> h !! 2%positive | _ => None end) = Some [0x04030201; 0x08070605].
Proof. by vm_compute. Qed.
