(* ===== verification/EvioTransform.v ===== *)
(** StructureTransformer.h: banks, segments and tag segments made into each other.
    The structures are those of EvioStruct.v; the methods of the structures and
    their headers, which are only declared, are a class with laws. *)
From stdpp Require Import gmap.
From S2P Require Import Prelude EvioUtil EvioTree EvioStruct.

(** ** What is only declared *)

(** [transform h this structure] is the method of BaseStructure that the routines
    end with; [copyHeader this head] is the header after [this->copy(head)]. *)
Class TransformMethods := {
  transform : structures -> node -> node -> structures;
  copyHeader : header -> header -> header;
  newHeader : Z -> DataType -> Z -> header;
  newStructure : header -> structure;
  setLength : Z -> header -> header;
  setPadding : Z -> header -> header;
  setNumber : Z -> header -> header;
  setDataType : DataType -> header -> header
}.

(** Setters set their field.  A new header has the fields it is given.  transform
    copies the data and may set the padding, of this structure only. *)
Class TransformLaws (methods : TransformMethods) : Prop := {
  setLength_law l h : setLength l h = mk_header l h.(h_tag) h.(h_dataType) h.(h_padding) h.(h_number);
  setPadding_law p h : setPadding p h = mk_header h.(h_length) h.(h_tag) h.(h_dataType) p h.(h_number);
  setNumber_law n h : setNumber n h = mk_header h.(h_length) h.(h_tag) h.(h_dataType) h.(h_padding) n;
  setDataType_law t h : setDataType t h = mk_header h.(h_length) h.(h_tag) t h.(h_padding) h.(h_number);
  copyHeader_law a b : copyHeader a b = b;
  newHeader_law tag type num :
    let h := newHeader tag type num in h.(h_tag) = tag /\ h.(h_dataType) = type /\ h.(h_number) = num;
  newStructure_law hd : (newStructure hd).(s_header) = hd;
  transform_this h this src s s' : h !! this = Some s -> h !! src = Some s' ->
    exists t p, transform h this src !! this = Some t /\ t.(s_data) = s'.(s_data) /\
      t.(s_header) = mk_header s.(s_header).(h_length) s.(s_header).(h_tag) s.(s_header).(h_dataType)
        p s.(s_header).(h_number);
  transform_other h this src n s : n <> this -> h !! n = Some s ->
    exists t, transform h this src !! n = Some t /\ t.(s_header) = s.(s_header) /\ t.(s_data) = s.(s_data)
}.

Section Transform.
Context {methods : TransformMethods}.

(** ** Headers in the store *)

Definition getHeader (h : structures) (n : node) : result header :=
  s ← checked (h !! n); Ok s.(s_header).
Definition with_header (f : header -> header) (s : structure) : structure :=
  mk_structure (f s.(s_header)) s.(s_data) s.(s_children).
Definition set_header (f : header -> header) (n : node) (h : structures) : structures :=
  alter (with_header f) n h.

(** [getInstance(tag, type, num)]: a new structure. *)
Definition getInstance (tag : Z) (type : DataType) (num : Z) (h : structures) : node * structures :=
  let n := fresh (dom h) in (n, <[n := newStructure (newHeader tag type num)]> h).

(** BANK becomes ALSOBANK and SEGMENT ALSOSEGMENT in the four bits of a tag segment. *)
Definition narrow_type (type : DataType) (n : node) (h : structures) : structures :=
  if decide (type = BANK) then set_header (setDataType ALSOBANK) n h
  else if decide (type = SEGMENT) then set_header (setDataType ALSOSEGMENT) n h
  else h.

Definition too_long_segment : string := "Bank is too long to transform into segment".
Definition too_long_tagsegment : string := "Bank is too long to transform into tagsegment".

(** ** To a bank *)

Definition segment_to_bank (segment : node) (num : Z) (h : structures) : result (node * structures) :=
  segHeader ← getHeader h segment;
  let '(bank, h) := getInstance segHeader.(h_tag) segHeader.(h_dataType) num h in
  let h := set_header (setLength (u32 (segHeader.(h_length) + 1))) bank h in
  let h := set_header (setPadding segHeader.(h_padding)) bank h in
  Ok (bank, transform h bank segment).

Definition copy_segment_to_bank (bank segment : node) (num : Z) (h : structures) : result structures :=
  segHeader ← getHeader h segment;
  _ ← getHeader h bank;
  let h := set_header (fun b => copyHeader b segHeader) bank h in
  let h := set_header (setNumber num) bank h in
  segHeader ← getHeader h segment;
  let h := set_header (setLength (u32 (segHeader.(h_length) + 1))) bank h in
  let h := set_header (setPadding segHeader.(h_padding)) bank h in
  Ok (transform h bank segment).

Definition tagsegment_to_bank (tagsegment : node) (num : Z) (h : structures) : result (node * structures) :=
  tagsegHeader ← getHeader h tagsegment;
  let '(bank, h) := getInstance tagsegHeader.(h_tag) tagsegHeader.(h_dataType) num h in
  let h := set_header (setLength (u32 (tagsegHeader.(h_length) + 1))) bank h in
  Ok (bank, transform h bank tagsegment).

Definition copy_tagsegment_to_bank (bank tagsegment : node) (num : Z) (h : structures) : result structures :=
  tagsegHeader ← getHeader h tagsegment;
  _ ← getHeader h bank;
  let h := set_header (fun b => copyHeader b tagsegHeader) bank h in
  let h := set_header (setNumber num) bank h in
  let h := set_header (setLength (u32 (tagsegHeader.(h_length) + 1))) bank h in
  Ok (transform h bank tagsegment).

(** ** Between segments and tag segments *)

Definition segment_to_tagsegment (segment : node) (h : structures) : result (node * structures) :=
  segHeader ← getHeader h segment;
  let '(ts, h) := getInstance segHeader.(h_tag) segHeader.(h_dataType) 0 h in
  let h := set_header (setLength segHeader.(h_length)) ts h in
  let h := set_header (setPadding segHeader.(h_padding)) ts h in
  let h := narrow_type segHeader.(h_dataType) ts h in
  Ok (ts, transform h ts segment).

Definition copy_segment_to_tagsegment (tagsegment segment : node) (h : structures) : result structures :=
  segHeader ← getHeader h segment;
  _ ← getHeader h tagsegment;
  let h := set_header (fun t => copyHeader t segHeader) tagsegment h in
  let h := narrow_type segHeader.(h_dataType) tagsegment h in
  Ok (transform h tagsegment segment).

Definition tagsegment_to_segment (tagsegment : node) (h : structures) : result (node * structures) :=
  tsHeader ← getHeader h tagsegment;
  let '(seg, h) := getInstance tsHeader.(h_tag) tsHeader.(h_dataType) 0 h in
  let h := set_header (setLength tsHeader.(h_length)) seg h in
  Ok (seg, transform h seg tagsegment).

(** The arguments of the last call are the wrong way round. *)
Definition copy_tagsegment_to_segment (segment tagsegment : node) (h : structures) : result structures :=
  tsHeader ← getHeader h tagsegment;
  _ ← getHeader h segment;
  let h := set_header (fun s => copyHeader s tsHeader) segment h in
  Ok (transform h tagsegment segment).

(** ** From a bank *)

Definition bank_to_segment (bank : node) (h : structures) : result (node * structures) :=
  bankHeader ← getHeader h bank;
  let bankLen := bankHeader.(h_length) in
  if 65535 <? bankLen then Throw too_long_segment
  else
    let '(segment, h) := getInstance bankHeader.(h_tag) bankHeader.(h_dataType) 0 h in
    let h := set_header (setLength (u32 (u64 (bankLen - 1)))) segment h in
    let h := set_header (setPadding bankHeader.(h_padding)) segment h in
    let h := set_header (setNumber bankHeader.(h_number)) segment h in
    Ok (segment, transform h segment bank).

Definition copy_bank_to_segment (segment bank : node) (h : structures) : result structures :=
  bankHeader ← getHeader h bank;
  let bankLen := bankHeader.(h_length) in
  if 65535 <? bankLen then Throw too_long_segment
  else
    _ ← getHeader h segment;
    let h := set_header (fun s => copyHeader s bankHeader) segment h in
    let h := set_header (setLength (u32 (u64 (bankLen - 1)))) segment h in
    Ok (transform h segment bank).

Definition bank_to_tagsegment (bank : node) (h : structures) : result (node * structures) :=
  bankHeader ← getHeader h bank;
  if 65535 <? bankHeader.(h_length) then Throw too_long_segment
  else
    let '(ts, h) := getInstance bankHeader.(h_tag) bankHeader.(h_dataType) 0 h in
    let h := set_header (setLength (u32 (bankHeader.(h_length) - 1))) ts h in
    let h := set_header (setPadding bankHeader.(h_padding)) ts h in
    let h := set_header (setNumber bankHeader.(h_number)) ts h in
    tsHeader ← getHeader h ts;
    let h := narrow_type tsHeader.(h_dataType) ts h in
    Ok (ts, transform h ts bank).

Definition copy_bank_to_tagsegment (tagsegment bank : node) (h : structures) : result structures :=
  bankHeader ← getHeader h bank;
  let bankLen := bankHeader.(h_length) in
  if 65535 <? bankLen then Throw too_long_tagsegment
  else
    _ ← getHeader h tagsegment;
    let h := set_header (fun t => copyHeader t bankHeader) tagsegment h in
    let h := set_header (setLength (u32 (u64 (bankLen - 1)))) tagsegment h in
    let h := narrow_type bankHeader.(h_dataType) tagsegment h in
    Ok (transform h tagsegment bank).
End Transform.

(** ** Lemmas on the store *)

Section Facts.
Context {methods : TransformMethods} {laws : TransformLaws methods}.

(** What narrow_type does to a header. *)
Definition narrowed (type : DataType) (hd : header) : header :=
  if decide (type = BANK) then setDataType ALSOBANK hd
  else if decide (type = SEGMENT) then setDataType ALSOSEGMENT hd else hd.

Lemma set_header_insert f n s h : set_header f n (<[n := s]> h) = <[n := with_header f s]> h.
Proof using. unfold set_header. apply alter_insert_eq. Qed.

Lemma narrow_type_insert type n s h : narrow_type type n (<[n := s]> h) = <[n := with_header (narrowed type) s]> h.
Proof using.
  unfold narrow_type, narrowed. repeat case_decide; rewrite ?set_header_insert; [done..|]. by destruct s.
Qed.

Lemma set_header_lookup f n h s : h !! n = Some s -> set_header f n h = <[n := with_header f s]> h.
Proof using. intros Hs. unfold set_header. apply map_eq. intros m.
  destruct (decide (m = n)) as [->|Hne].
  - by rewrite lookup_alter_eq, lookup_insert_eq, Hs.
  - by rewrite lookup_alter_ne, lookup_insert_ne by done.
Qed.

(** The same header but for its padding. *)
Definition same_but_padding (a b : header) : Prop :=
  a.(h_length) = b.(h_length) /\ a.(h_tag) = b.(h_tag) /\ a.(h_dataType) = b.(h_dataType) /\
  a.(h_number) = b.(h_number).

(** A structure that holds what another does. *)
Definition kept (h h' : structures) (n : node) : Prop :=
  forall s, h !! n = Some s -> exists t, h' !! n = Some t /\ t.(s_header) = s.(s_header) /\ t.(s_data) = s.(s_data).

(** The end of every routine: the structure [this] was put into the store, with a
    header made before, and takes the data of another over. *)
Lemma transform_ok (h : structures) this src t s : h !! src = Some s -> this <> src ->
  (exists t', transform (<[this := t]> h) this src !! this = Some t' /\ t'.(s_data) = s.(s_data) /\
     same_but_padding t'.(s_header) t.(s_header)) /\
  (forall n, n <> this -> kept h (transform (<[this := t]> h) this src) n).
Proof using laws.
  intros Hs Hne. split.
  - destruct (transform_this (<[this := t]> h) this src t s) as (t' & p & Ht & Hd & Hh).
    + apply lookup_insert_eq.
    + by rewrite lookup_insert_ne.
    + exists t'. split; [done|]. split; [done|]. by rewrite Hh.
  - intros n Hn x Hx. apply transform_other; [done|]. by rewrite lookup_insert_ne.
Qed.

Lemma getInstance_fresh (h : structures) n s : h !! n = Some s -> fresh (dom h) <> n.
Proof using.
  intros Hs Hf. apply (is_fresh (dom h)). rewrite Hf. by apply elem_of_dom.
Qed.

Lemma getHeader_ok h n s : h !! n = Some s -> getHeader h n = Ok s.(s_header).
Proof using. intros Hs. unfold getHeader. by rewrite Hs. Qed.

(** The header of a structure that was just put into the store. *)
Lemma new_header tag type num :
  (newStructure (newHeader tag type num)).(s_header).(h_tag) = tag /\
  (newStructure (newHeader tag type num)).(s_header).(h_dataType) = type /\
  (newStructure (newHeader tag type num)).(s_header).(h_number) = num.
Proof using laws. rewrite newStructure_law. apply newHeader_law. Qed.

(** ** What the routines make *)

(** A structure has a given length, tag, type and number and the data of another;
    the other structures are as they were. *)
Definition filled (h h' : structures) (n src : node) (len tag : Z) (type : DataType) (num : Z) : Prop :=
  (exists s t, h !! src = Some s /\ h' !! n = Some t /\ t.(s_data) = s.(s_data) /\
     t.(s_header).(h_length) = len /\ t.(s_header).(h_tag) = tag /\ t.(s_header).(h_dataType) = type /\
     t.(s_header).(h_number) = num) /\
  (forall m, m <> n -> kept h h' m).
(** It is a new one. *)
Definition made (h h' : structures) (n src : node) (len tag : Z) (type : DataType) (num : Z) : Prop :=
  h !! n = None /\ filled h h' n src len tag type num.

Lemma filled_ok h n src s t len tag type num : h !! src = Some s -> n <> src ->
  t.(s_header).(h_length) = len -> t.(s_header).(h_tag) = tag -> t.(s_header).(h_dataType) = type ->
  t.(s_header).(h_number) = num ->
  filled h (transform (<[n := t]> h) n src) n src len tag type num.
Proof using laws.
  intros Hs Hne <- <- <- <-.
  destruct (transform_ok h n src t s Hs Hne) as [(t' & Ht & Hd & H1 & H2 & H3 & H4) Hk].
  split; [|done]. by exists s, t'.
Qed.

Lemma made_ok h src s t len tag type num : h !! src = Some s ->
  t.(s_header).(h_length) = len -> t.(s_header).(h_tag) = tag -> t.(s_header).(h_dataType) = type ->
  t.(s_header).(h_number) = num ->
  made h (transform (<[fresh (dom h) := t]> h) (fresh (dom h)) src) (fresh (dom h)) src len tag type num.
Proof using laws.
  intros Hs H1 H2 H3 H4. split; [apply not_elem_of_dom, is_fresh|].
  by apply (filled_ok _ _ _ s), H4; [| apply (getInstance_fresh _ _ s)|..].
Qed.

(** The type a tag segment gets. *)
Definition narrow (type : DataType) : DataType :=
  if decide (type = BANK) then ALSOBANK else if decide (type = SEGMENT) then ALSOSEGMENT else type.

Lemma narrowed_ok type hd : hd.(h_dataType) = type ->
  (narrowed type hd).(h_length) = hd.(h_length) /\ (narrowed type hd).(h_tag) = hd.(h_tag) /\
  (narrowed type hd).(h_dataType) = narrow type /\ (narrowed type hd).(h_number) = hd.(h_number).
Proof using laws. intros Ht. unfold narrowed, narrow. repeat case_decide; rewrite ?setDataType_law; done. Qed.

Lemma made_narrowed h src s t len tag type num : h !! src = Some s ->
  t.(s_header).(h_length) = len -> t.(s_header).(h_tag) = tag -> t.(s_header).(h_dataType) = type ->
  t.(s_header).(h_number) = num ->
  let t' := with_header (narrowed type) t in
  made h (transform (<[fresh (dom h) := t']> h) (fresh (dom h)) src) (fresh (dom h)) src len tag (narrow type) num.
Proof using laws.
  intros Hs <- <- Ht <-. destruct (narrowed_ok type t.(s_header) Ht) as (E1 & E2 & E3 & E4).
  by apply (made_ok _ _ _ _ _ _ _ _ Hs).
Qed.

(** The routines that make a new structure: their steps are done one by one. *)
Ltac make_new made_lemma Hs :=
  rewrite (getHeader_ok _ _ _ Hs); cbn [mbind result_bind getInstance];
  try (case_match; [lia|]);
  rewrite ?set_header_insert, ?narrow_type_insert; eexists _, _; split; [done|];
  apply (made_lemma _ _ _ _ _ _ _ _ Hs); cbn [with_header s_header];
  rewrite ?setNumber_law, ?setPadding_law, ?setLength_law; cbn [h_length h_tag h_dataType h_number].

Lemma segment_to_bank_ok h segment num s : h !! segment = Some s ->
  exists bank h', segment_to_bank segment num h = Ok (bank, h') /\
    made h h' bank segment (u32 (s.(s_header).(h_length) + 1)) s.(s_header).(h_tag)
      s.(s_header).(h_dataType) num.
Proof using laws. intros Hs. unfold segment_to_bank. make_new made_ok Hs; [done|apply new_header..]. Qed.

Lemma tagsegment_to_bank_ok h tagsegment num s : h !! tagsegment = Some s ->
  exists bank h', tagsegment_to_bank tagsegment num h = Ok (bank, h') /\
    made h h' bank tagsegment (u32 (s.(s_header).(h_length) + 1)) s.(s_header).(h_tag)
      s.(s_header).(h_dataType) num.
Proof using laws. intros Hs. unfold tagsegment_to_bank. make_new made_ok Hs; [done|apply new_header..]. Qed.

Lemma tagsegment_to_segment_ok h tagsegment s : h !! tagsegment = Some s ->
  exists seg h', tagsegment_to_segment tagsegment h = Ok (seg, h') /\
    made h h' seg tagsegment s.(s_header).(h_length) s.(s_header).(h_tag) s.(s_header).(h_dataType) 0.
Proof using laws. intros Hs. unfold tagsegment_to_segment. make_new made_ok Hs; [done|apply new_header..]. Qed.

Lemma bank_to_segment_ok h bank s : h !! bank = Some s -> 1 <= s.(s_header).(h_length) <= 65535 ->
  exists segment h', bank_to_segment bank h = Ok (segment, h') /\
    made h h' segment bank (s.(s_header).(h_length) - 1) s.(s_header).(h_tag)
      s.(s_header).(h_dataType) s.(s_header).(h_number).
Proof using laws.
  intros Hs Hl. unfold bank_to_segment.
  make_new made_ok Hs; [by rewrite u64_small, u32_small by lia | apply new_header.. | done].
Qed.


Lemma segment_to_tagsegment_ok h segment s : h !! segment = Some s ->
  exists ts h', segment_to_tagsegment segment h = Ok (ts, h') /\
    made h h' ts segment s.(s_header).(h_length) s.(s_header).(h_tag) (narrow s.(s_header).(h_dataType)) 0.
Proof using laws.
  intros Hs. unfold segment_to_tagsegment. make_new made_narrowed Hs; [done|apply new_header..].
Qed.

Lemma bank_to_tagsegment_ok h bank s : h !! bank = Some s -> 1 <= s.(s_header).(h_length) <= 65535 ->
  exists ts h', bank_to_tagsegment bank h = Ok (ts, h') /\
    made h h' ts bank (s.(s_header).(h_length) - 1) s.(s_header).(h_tag)
      (narrow s.(s_header).(h_dataType)) s.(s_header).(h_number).
Proof using laws.
  intros Hs Hl. unfold bank_to_tagsegment. rewrite (getHeader_ok _ _ _ Hs). cbn [mbind result_bind getInstance].
  case_match; [lia|]. rewrite !set_header_insert.
  rewrite (getHeader_ok _ _ _ (lookup_insert_eq _ _ _)). cbn [mbind result_bind].
  set (t := with_header (setNumber _) _).
  assert (h_length (s_header t) = s.(s_header).(h_length) - 1 /\ h_tag (s_header t) = s.(s_header).(h_tag) /\
    h_dataType (s_header t) = s.(s_header).(h_dataType) /\ h_number (s_header t) = s.(s_header).(h_number))
    as (E1 & E2 & E3 & E4).
  { unfold t. cbn [with_header s_header]. rewrite setNumber_law, setPadding_law, setLength_law.
    cbn [h_length h_tag h_dataType h_number]. rewrite u32_small by lia.
    split_and!; [done|apply new_header..|done]. }
  rewrite E3, narrow_type_insert. eexists _, _. split; [done|].
  by apply (made_narrowed _ _ _ _ _ _ _ _ Hs).
Qed.

(** ** What the routines copy *)

(** The steps on an existing structure. *)
Ltac copy_into Hs Hd :=
  rewrite ?(getHeader_ok _ _ _ Hs); cbn [mbind result_bind]; try (case_match; [lia|]);
  rewrite ?(getHeader_ok _ _ _ Hd); cbn [mbind result_bind];
  rewrite (set_header_lookup _ _ _ _ Hd), ?set_header_insert.

Lemma copy_segment_to_bank_ok h bank segment num d s : bank <> segment ->
  h !! bank = Some d -> h !! segment = Some s ->
  exists h', copy_segment_to_bank bank segment num h = Ok h' /\
    filled h h' bank segment (u32 (s.(s_header).(h_length) + 1)) s.(s_header).(h_tag)
      s.(s_header).(h_dataType) num.
Proof using laws.
  intros Hne Hd Hs. unfold copy_segment_to_bank. copy_into Hs Hd.
  rewrite (getHeader_ok _ _ s) by by rewrite lookup_insert_ne. cbn [mbind result_bind].
  rewrite !set_header_insert. eexists. split; [done|].
  apply (filled_ok _ _ _ _ _ _ _ _ _ Hs Hne); cbn [with_header s_header];
    by rewrite setPadding_law, setLength_law, setNumber_law, copyHeader_law.
Qed.

Lemma copy_tagsegment_to_bank_ok h bank tagsegment num d s : bank <> tagsegment ->
  h !! bank = Some d -> h !! tagsegment = Some s ->
  exists h', copy_tagsegment_to_bank bank tagsegment num h = Ok h' /\
    filled h h' bank tagsegment (u32 (s.(s_header).(h_length) + 1)) s.(s_header).(h_tag)
      s.(s_header).(h_dataType) num.
Proof using laws.
  intros Hne Hd Hs. unfold copy_tagsegment_to_bank. copy_into Hs Hd. eexists. split; [done|].
  apply (filled_ok _ _ _ _ _ _ _ _ _ Hs Hne); cbn [with_header s_header];
    by rewrite setLength_law, setNumber_law, copyHeader_law.
Qed.

Lemma copy_segment_to_tagsegment_ok h tagsegment segment d s : tagsegment <> segment ->
  h !! tagsegment = Some d -> h !! segment = Some s ->
  exists h', copy_segment_to_tagsegment tagsegment segment h = Ok h' /\
    filled h h' tagsegment segment s.(s_header).(h_length) s.(s_header).(h_tag)
      (narrow s.(s_header).(h_dataType)) s.(s_header).(h_number).
Proof using laws.
  intros Hne Hd Hs. unfold copy_segment_to_tagsegment. copy_into Hs Hd. rewrite narrow_type_insert.
  eexists. split; [done|].
  destruct (narrowed_ok s.(s_header).(h_dataType) s.(s_header) eq_refl) as (E1 & E2 & E3 & E4).
  by apply (filled_ok _ _ _ _ _ _ _ _ _ Hs Hne); cbn [with_header s_header]; rewrite copyHeader_law.
Qed.

Lemma copy_bank_to_segment_ok h segment bank d s : segment <> bank ->
  h !! segment = Some d -> h !! bank = Some s -> 1 <= s.(s_header).(h_length) <= 65535 ->
  exists h', copy_bank_to_segment segment bank h = Ok h' /\
    filled h h' segment bank (s.(s_header).(h_length) - 1) s.(s_header).(h_tag)
      s.(s_header).(h_dataType) s.(s_header).(h_number).
Proof using laws.
  intros Hne Hd Hs Hl. unfold copy_bank_to_segment. copy_into Hs Hd. eexists. split; [done|].
  rewrite u64_small, u32_small by lia.
  apply (filled_ok _ _ _ _ _ _ _ _ _ Hs Hne); cbn [with_header s_header];
    by rewrite setLength_law, copyHeader_law.
Qed.

Lemma copy_bank_to_tagsegment_ok h ts bank d s : ts <> bank ->
  h !! ts = Some d -> h !! bank = Some s -> 1 <= s.(s_header).(h_length) <= 65535 ->
  exists h', copy_bank_to_tagsegment ts bank h = Ok h' /\
    filled h h' ts bank (s.(s_header).(h_length) - 1) s.(s_header).(h_tag)
      (narrow s.(s_header).(h_dataType)) s.(s_header).(h_number).
Proof using laws.
  intros Hne Hd Hs Hl. unfold copy_bank_to_tagsegment. copy_into Hs Hd. rewrite narrow_type_insert.
  eexists. split; [done|]. rewrite u64_small, u32_small by lia.
  set (t := with_header (setLength _) _).
  assert (s_header t = setLength (h_length (s_header s) - 1) (s_header s)) as Ht by
    (unfold t; cbn [with_header s_header]; by rewrite copyHeader_law).
  rewrite setLength_law in Ht.
  destruct (narrowed_ok s.(s_header).(h_dataType) t.(s_header)) as (E1 & E2 & E3 & E4); [by rewrite Ht|].
  by apply (filled_ok _ _ _ _ _ _ _ _ _ Hs Hne); cbn [with_header s_header];
    rewrite ?E1, ?E2, ?E3, ?E4, ?Ht.
Qed.

(** ** StructureTransformer *)

Lemma made_kept h h' n src len tag type num m : made h h' n src len tag type num -> kept h h' m.
Proof using.
  intros [Hn [_ Hk]] s Hs. apply (Hk m); [|done]. intros ->. by rewrite Hn in Hs.
Qed.

Lemma kept_trans h1 h2 h3 n : kept h1 h2 n -> kept h2 h3 n -> kept h1 h3 n.
Proof using.
  intros H12 H23 s Hs. destruct (H12 s Hs) as (t & Ht & E1 & E2). destruct (H23 t Ht) as (u & Hu & E3 & E4).
  exists u. split; [done|]. split; congruence.
Qed.

(** A segment made into a bank and the bank made into a segment again gives a new
    segment with the length, tag, type and data of the first, and no structure there
    was before changes.  Only for a segment of the greatest length is the bank refused. *)
Theorem segment_bank_roundtrip h segment num s (Hs : h !! segment = Some s)
    (Hl : 0 <= s.(s_header).(h_length) <= 65535) :
  exists bank h1, segment_to_bank segment num h = Ok (bank, h1) /\
  if decide (s.(s_header).(h_length) = 65535)
  then bank_to_segment bank h1 = Throw too_long_segment
  else exists segment' h2 t, bank_to_segment bank h1 = Ok (segment', h2) /\
    h2 !! segment' = Some t /\ t.(s_data) = s.(s_data) /\
    t.(s_header).(h_length) = s.(s_header).(h_length) /\ t.(s_header).(h_tag) = s.(s_header).(h_tag) /\
    t.(s_header).(h_dataType) = s.(s_header).(h_dataType) /\ t.(s_header).(h_number) = num /\
    h !! segment' = None /\ forall n, kept h h2 n.
Proof using laws.
  destruct (segment_to_bank_ok h segment num s Hs) as (bank & h1 & E1 & M1).
  exists bank, h1. split; [done|].
  pose proof M1 as (_ & (s0 & b & Hs0 & Hb & D1 & L1 & T1 & Y1 & N1) & _). rewrite Hs in Hs0.
  injection Hs0 as <-. rewrite u32_small in L1 by lia. case_decide as Hlen.
  - unfold bank_to_segment. rewrite (getHeader_ok _ _ _ Hb). cbn [mbind result_bind].
    rewrite L1, Hlen. done.
  - destruct (bank_to_segment_ok h1 bank b Hb) as (segment' & h2 & E2 & M2); [lia|].
    pose proof M2 as (F & (b0 & t & Hb0 & Ht & D2 & L2 & T2 & Y2 & N2) & _). rewrite Hb in Hb0.
    injection Hb0 as <-. exists segment', h2, t.
    split_and!; try done; try congruence; [lia| |].
    + destruct (h !! segment') as [x|] eqn:Hx; [|done].
      destruct (made_kept _ _ _ _ _ _ _ _ segment' M1 x Hx) as (y & Hy & _). congruence.
    + intros n. eapply kept_trans; by eapply made_kept.
Qed.

(** A segment or a bank made into a tag segment, or copied into one, has the data,
    the tag and (for a bank less its second word) the length of the original, and a
    type that fits four bits, BANK and SEGMENT being replaced; other structures stay. *)
Theorem into_tagsegment h src dest s d (Hs : h !! src = Some s) (Hd : h !! dest = Some d) (Hne : dest <> src)
    (Hl : 1 <= s.(s_header).(h_length) <= 65535) :
  let type := narrow s.(s_header).(h_dataType) in
  type <> BANK /\ type <> SEGMENT /\
  (exists ts h', segment_to_tagsegment src h = Ok (ts, h') /\
     made h h' ts src s.(s_header).(h_length) s.(s_header).(h_tag) type 0) /\
  (exists ts h', bank_to_tagsegment src h = Ok (ts, h') /\
     made h h' ts src (s.(s_header).(h_length) - 1) s.(s_header).(h_tag) type s.(s_header).(h_number)) /\
  (exists h', copy_segment_to_tagsegment dest src h = Ok h' /\
     filled h h' dest src s.(s_header).(h_length) s.(s_header).(h_tag) type s.(s_header).(h_number)) /\
  (exists h', copy_bank_to_tagsegment dest src h = Ok h' /\
     filled h h' dest src (s.(s_header).(h_length) - 1) s.(s_header).(h_tag) type s.(s_header).(h_number)).
Proof using laws.
  cbn zeta. split; [unfold narrow; repeat case_decide; done|].
  split; [unfold narrow; repeat case_decide; done|].
  split; [by apply segment_to_tagsegment_ok|]. split; [by apply bank_to_tagsegment_ok|].
  split; [by apply (copy_segment_to_tagsegment_ok h dest src d s)|].
  by apply (copy_bank_to_tagsegment_ok h dest src d s).
Qed.

(** Copying a tag segment into a segment does the opposite: the segment gets the header
    and keeps its data, which overwrite those of the tag segment. *)
Theorem copy_overwrites_source h segment tagsegment d s : segment <> tagsegment ->
  h !! segment = Some d -> h !! tagsegment = Some s ->
  exists h' t u, copy_tagsegment_to_segment segment tagsegment h = Ok h' /\
    h' !! segment = Some t /\ t.(s_header) = s.(s_header) /\ t.(s_data) = d.(s_data) /\
    h' !! tagsegment = Some u /\ u.(s_data) = d.(s_data).
Proof using laws.
  intros Hne Hd Hs. unfold copy_tagsegment_to_segment. copy_into Hs Hd.
  set (d' := with_header _ d). set (h1 := <[segment := d']> h).
  assert (h1 !! segment = Some d') as H1 by apply lookup_insert_eq.
  assert (h1 !! tagsegment = Some s) as H2 by (unfold h1; by rewrite lookup_insert_ne).
  destruct (transform_this h1 tagsegment segment s d' H2 H1) as (u & p & Hu & Du & _).
  destruct (transform_other h1 tagsegment segment segment d' Hne H1) as (t & Ht & Eh & Ed).
  exists (transform h1 tagsegment segment), t, u. split_and!; try done.
  - rewrite Eh. unfold d'. cbn. apply copyHeader_law.
Qed.
End Facts.

(** ** An example *)

Definition plain_transform : TransformMethods := {|
  transform h this src :=
    match h !! src with
    | Some s => alter (fun t => mk_structure t.(s_header) s.(s_data) s.(s_children)) this h
    | None => h
    end;
  copyHeader a b := b;
  newHeader tag type num := mk_header 0 tag type 0 num;
  newStructure hd := mk_structure hd [] [];
  setLength l h := mk_header l h.(h_tag) h.(h_dataType) h.(h_padding) h.(h_number);
  setPadding p h := mk_header h.(h_length) h.(h_tag) h.(h_dataType) p h.(h_number);
  setNumber n h := mk_header h.(h_length) h.(h_tag) h.(h_dataType) h.(h_padding) n;
  setDataType t h := mk_header h.(h_length) h.(h_tag) t h.(h_padding) h.(h_number)
|}.

Lemma plain_transform_laws : TransformLaws plain_transform.
Proof.
  split; try done; cbn.
  - intros h this src s s' Hs Hs'. rewrite Hs', lookup_alter_eq, Hs. cbn.
    exists (mk_structure (s_header s) (s_data s') (s_children s')), (h_padding (s_header s)).
    split; [done|]. split; [done|]. cbn. by destruct (s_header s).
  - intros h this src n s Hn Hs. destruct (h !! src); [|by exists s].
    rewrite lookup_alter_ne by done. by exists s.
Qed.

Definition segments_example : structures :=
  list_to_map [(1%positive, mk_structure (mk_header 2 9 UINT32 0 0) [17; 18] []);
               (2%positive, mk_structure (mk_header 1 8 SEGMENT 0 0) [] [])].

Lemma segment_bank_roundtrip_witness :
  exists bank h1, segment_to_bank (methods := plain_transform) 1%positive 5 segments_example = Ok (bank, h1) /\
    exists segment' h2 t, bank_to_segment (methods := plain_transform) bank h1 = Ok (segment', h2) /\
    h2 !! segment' = Some t /\ t.(s_data) = [17; 18] /\ t.(s_header).(h_length) = 2 /\
    t.(s_header).(h_tag) = 9 /\ t.(s_header).(h_dataType) = UINT32 /\ t.(s_header).(h_number) = 5 /\
    segments_example !! segment' = None /\ forall n, kept segments_example h2 n.
Proof.
  exact (segment_bank_roundtrip (laws := plain_transform_laws) segments_example 1 5
    (mk_structure (mk_header 2 9 UINT32 0 0) [17; 18] []) ltac:(by vm_compute) ltac:(cbn; lia)).
Defined.

Lemma into_tagsegment_witness :
  exists ts h', segment_to_tagsegment (methods := plain_transform) 2%positive segments_example = Ok (ts, h') /\
    made segments_example h' ts 2 1 8 ALSOSEGMENT 0.
Proof.
  exact (proj1 (proj2 (proj2 (into_tagsegment (laws := plain_transform_laws) segments_example 2 1
    (mk_structure (mk_header 1 8 SEGMENT 0 0) [] []) (mk_structure (mk_header 2 9 UINT32 0 0) [17; 18] [])
    ltac:(by vm_compute) ltac:(by vm_compute) ltac:(done) ltac:(cbn; lia))))).
Defined.
