(* ===== verification/EvioFinder.v ===== *)
(** StructureFinder.h: the structures of an event that a filter accepts. *)
From S2P Require Import Prelude.

(** ** What is only declared *)

Inductive StructureType := STRUCT_UNKNOWN32 | STRUCT_TAGSEGMENT | STRUCT_SEGMENT | STRUCT_BANK.
#[export] Instance StructureType_eq_dec : EqDecision StructureType.
Proof. solve_decision. Defined.

(** Class IEvioFilter. *)
Definition IEvioFilter (node : Type) : Type := StructureType -> node -> bool.

(** The queries on structures and dictionaries, and the method that collects. *)
Class StructureQueries (node dictionary : Type) := {
  getStructureType : node -> StructureType;
  getTag : node -> Z;
  getNumber : node -> Z;
  getParent : node -> option node;
  getChildren : node -> list node;
  getName : dictionary -> node -> list Z;
  collect : node -> IEvioFilter node -> list node -> list node
}.

Section Finder.
Context {node dictionary : Type} {Q : StructureQueries node dictionary}.

(** ** The filters *)

Definition bank_filter (tag num : Z) : IEvioFilter node := fun type struc =>
  bool_decide (type = STRUCT_BANK) && (tag =? getTag struc) && (num =? getNumber struc).
Definition tag_filter (tag : Z) : IEvioFilter node := fun _ struc => tag =? getTag struc.
Definition nonbank_filter (tag : Z) : IEvioFilter node := fun type struc =>
  bool_decide (type <> STRUCT_BANK) && (tag =? getTag struc).
Definition name_filter (name : list Z) (dict : dictionary) : IEvioFilter node := fun _ struc =>
  bool_decide (name = getName dict struc).
Definition parent_filter (name : list Z) (dict : dictionary) : IEvioFilter node := fun _ struc =>
  match getParent struc with
  | None => false
  | Some parent => bool_decide (name = getName dict parent)
  end.
(** [for (auto child : children) if (name == dict.getName(child)) return true;] *)
Fixpoint any_named (name : list Z) (dict : dictionary) (children : list node) : bool :=
  match children with
  | [] => false
  | child :: children => if decide (name = getName dict child) then true else any_named name dict children
  end.
Definition child_filter (name : list Z) (dict : dictionary) : IEvioFilter node := fun _ struc =>
  match getChildren struc with
  | [] => false
  | children => any_named name dict children
  end.

(** ** The searches: the vector afterwards.  A null structure clears it. *)

Definition getMatchingStructures (structure : option node) (filter : IEvioFilter node) (vec : list node)
    : list node :=
  match structure with None => [] | Some s => collect s filter vec end.
Definition getMatchingBanks (structure : option node) (tag num : Z) (vec : list node) : list node :=
  getMatchingStructures structure (bank_filter tag num) vec.
Definition getMatchingTag (structure : option node) (tag : Z) (vec : list node) : list node :=
  getMatchingStructures structure (tag_filter tag) vec.
Definition getMatchingNonBanks (structure : option node) (tag : Z) (vec : list node) : list node :=
  getMatchingStructures structure (nonbank_filter tag) vec.
Definition getMatchingName (structure : option node) (name : list Z) (dict : dictionary) (vec : list node)
    : list node :=
  getMatchingStructures structure (name_filter name dict) vec.
Definition getMatchingParent (structure : option node) (parentName : list Z) (dict : dictionary)
    (vec : list node) : list node :=
  getMatchingStructures structure (parent_filter parentName dict) vec.
Definition getMatchingChild (structure : option node) (childName : list Z) (dict : dictionary)
    (vec : list node) : list node :=
  getMatchingStructures structure (child_filter childName dict) vec.

(** ** What they find *)

(** The structures of an event, the event first; what is collected are the ones
    accepted; a structure is the parent of its children. *)
Class QueryLaws (structures_of : node -> list node) : Prop := {
  collect_law s f vec x : x ∈ collect s f vec <->
    x ∈ structures_of s /\ f (getStructureType x) x = true;
  parent_law x y : x ∈ getChildren y <-> getParent x = Some y;
  child_law s x y : y ∈ structures_of s -> getParent x = Some y -> x ∈ structures_of s;
  number_law x : 0 <= getNumber x < 256
}.

Context (structures_of : node -> list node) {L : QueryLaws structures_of}.

Lemma any_named_spec name dict cs : any_named name dict cs = true <-> exists c, c ∈ cs /\ name = getName dict c.
Proof using.
  induction cs as [|c cs IH]; cbn; [by split; [|intros (? & ?%not_elem_of_nil & _)]|].
  case_decide as Hc.
  - split; [|done]. intros _. exists c. split; [by left|done].
  - rewrite IH. split.
    + intros (x & Hx & Hn). exists x. split; [by right|done].
    + intros (x & [->|Hx]%elem_of_cons & Hn); [done|]. by exists x.
Qed.

Lemma child_filter_spec name dict t x :
  child_filter name dict t x = true <-> exists c, c ∈ getChildren x /\ name = getName dict c.
Proof using.
  unfold child_filter. destruct (getChildren x) as [|c cs] eqn:Hc; [|apply any_named_spec].
  split; [done|]. by intros (? & ?%not_elem_of_nil & _).
Qed.

(** In an event: a tag is found in the non-banks with it and the banks with it and
    some number, in no structure both ways; the structures with a child of a name are
    the parents of those of that name; and of two structures, one the parent of the
    other, the child is found by its parent's name when the parent is by its own. *)
Theorem finders_agree s tag name dict vec1 vec2 vec3 :
  (forall x, x ∈ getMatchingTag (Some s) tag vec1 <->
     x ∈ getMatchingNonBanks (Some s) tag vec2 \/
     exists num, 0 <= num < 256 /\ x ∈ getMatchingBanks (Some s) tag num vec3) /\
  (forall x num, x ∈ getMatchingNonBanks (Some s) tag vec2 -> ~ x ∈ getMatchingBanks (Some s) tag num vec3) /\
  (forall x, x ∈ getMatchingChild (Some s) name dict vec1 <->
     x ∈ structures_of s /\ exists c, getParent c = Some x /\ c ∈ getMatchingName (Some s) name dict vec2) /\
  (forall x y, getParent x = Some y -> y ∈ getMatchingName (Some s) name dict vec1 ->
     x ∈ getMatchingParent (Some s) name dict vec2).
Proof using L.
  unfold getMatchingTag, getMatchingNonBanks, getMatchingBanks, getMatchingChild, getMatchingName,
    getMatchingParent, getMatchingStructures.
  split_and!; intros x; rewrite ?collect_law.
  - setoid_rewrite collect_law. unfold tag_filter, nonbank_filter, bank_filter. split.
    + intros [Hx Ht]. destruct (decide (getStructureType x = STRUCT_BANK)) as [Hb|Hb].
      * right. exists (getNumber x). split; [apply number_law|]. split; [done|].
        by rewrite bool_decide_true, Ht, Z.eqb_refl.
      * left. split; [done|]. by rewrite bool_decide_true.
    + intros [[Hx Ht]|(num & _ & Hx & Ht)]; (split; [done|]); by destruct (tag =? getTag x);
        [|rewrite ?andb_false_r in Ht].
  - intros num. rewrite !collect_law. unfold nonbank_filter, bank_filter.
    intros [_ [H1%bool_decide_eq_true _]%andb_true_iff] [_ [[H2%bool_decide_eq_true _]%andb_true_iff _]%andb_true_iff].
    done.
  - rewrite child_filter_spec. unfold name_filter. split.
    + intros [Hx (c & Hc%parent_law & Hn)]. split; [done|]. exists c. split; [done|]. apply collect_law.
      split; [by eapply child_law|]. by apply bool_decide_eq_true.
    + intros [Hx (c & Hc & [_ Hn%bool_decide_eq_true]%collect_law)]. split; [done|]. exists c.
      split; [by apply parent_law|done].
  - intros y Hp [Hy Hn]%collect_law. unfold name_filter, parent_filter in *. apply collect_law. split; [by eapply child_law|].
    by rewrite Hp.
Qed.

(** Without a structure nothing is found, whatever the vector held. *)
Theorem nothing_in_null f vec : getMatchingStructures None f vec = [].
Proof using. done. Qed.
End Finder.

(** ** An example *)

(** An event 0 with a bank 1 and a segment 2, numbers standing for structures, and
    their names in a dictionary that is a function. *)
Definition few_queries : StructureQueries nat (nat -> list Z) := {|
  getStructureType n := match n with 2%nat => STRUCT_SEGMENT | _ => STRUCT_BANK end;
  getTag n := 7; getNumber n := Z.of_nat n mod 256;
  getParent n := match n with 1%nat | 2%nat => Some 0%nat | _ => None end;
  getChildren n := match n with O => [1%nat; 2%nat] | _ => [] end;
  getName d n := d n;
  collect s f vec := filter (fun n => f (match n with 2%nat => STRUCT_SEGMENT | _ => STRUCT_BANK end) n = true) [0%nat; 1%nat; 2%nat]
|}.

Lemma few_laws : QueryLaws (Q := few_queries) (fun _ => [0%nat; 1%nat; 2%nat]).
Proof.
  split.
  - intros s f vec x. unfold collect, getStructureType, few_queries. rewrite list_elem_of_filter. tauto.
  - intros [|[|[|x]]] [|y]; cbn; rewrite ?elem_of_cons, ?elem_of_nil; intuition (done || lia).
  - intros s [|[|[|x]]] y _ Hp; try done; rewrite !elem_of_cons; auto.
  - intros x. apply Z.mod_pos_bound. lia.
Qed.

Lemma finders_agree_witness :
  forall x, x ∈ getMatchingTag (Q := few_queries) (Some 0%nat) 7 [] <->
    x ∈ getMatchingNonBanks (Q := few_queries) (Some 0%nat) 7 [] \/
    exists num, 0 <= num < 256 /\ x ∈ getMatchingBanks (Q := few_queries) (Some 0%nat) 7 num [].
Proof.
  exact (proj1 (finders_agree (Q := few_queries) (L := few_laws) (fun _ => [0%nat; 1%nat; 2%nat])
    0%nat 7 [] (fun n => [Z.of_nat n]) [] [] [])).
Defined.
