(* ===== verification/EvioComposite.v ===== *)
(** Class Data of CompositeData.h, with which a composite item is built: values
    are added one or several at a time, and the number of their bytes, the padding
    after them and their types are kept in step. *)
From S2P Require Import Prelude EvioUtil EvioStrings.

(** ** Data *)

(** The members of union SingleMember.  A float or a double is a Z, the one of
    its bits; nothing is computed with them. *)
Inductive SingleMember :=
  | flt (f : Z) | dbl (d : Z) | ul64 (z : Z) | l64 (z : Z) | ui32 (z : Z) | i32_ (z : Z)
  | us16 (z : Z) | s16 (z : Z) | ub8 (z : Z) | b8 (z : Z) | str (b : bool).
#[export] Instance SingleMember_eq_dec : EqDecision SingleMember.
Proof. solve_decision. Defined.

Record DataItem := mk_item { item : SingleMember; strVec : list (list Z) }.
#[export] Instance DataItem_eq_dec : EqDecision DataItem.
Proof. solve_decision. Defined.

Record Data := mk_data {
  dataBytes : Z; paddingBytes : Z;
  dataItems : list DataItem; dataTypes : list DataType;
  Nlist : list Z; nlist : list Z; mlist : list Z;
  formatTag : Z; dataTag : Z; dataNum : Z
}.

Definition Data_make : Data := mk_data 0 0 [] [] [] [] [] 0 0 0.

(** [pads[4] = {0,3,2,1}] *)
Definition Data_pads : list Z := [0; 3; 2; 1].

Definition addBytesToData (bytes : Z) (d : Data) : Data :=
  let n := u32 (d.(dataBytes) + bytes) in
  mk_data n (nth (Z.to_nat (n mod 4)) Data_pads 0) d.(dataItems) d.(dataTypes)
    d.(Nlist) d.(nlist) d.(mlist) d.(formatTag) d.(dataTag) d.(dataNum).

Definition setFormatTag (tag : Z) (d : Data) : Data :=
  mk_data d.(dataBytes) d.(paddingBytes) d.(dataItems) d.(dataTypes)
    d.(Nlist) d.(nlist) d.(mlist) tag d.(dataTag) d.(dataNum).
Definition setDataTag (tag : Z) (d : Data) : Data :=
  mk_data d.(dataBytes) d.(paddingBytes) d.(dataItems) d.(dataTypes)
    d.(Nlist) d.(nlist) d.(mlist) d.(formatTag) tag d.(dataNum).
Definition setDataNum (num : Z) (d : Data) : Data :=
  mk_data d.(dataBytes) d.(paddingBytes) d.(dataItems) d.(dataTypes)
    d.(Nlist) d.(nlist) d.(mlist) d.(formatTag) d.(dataTag) num.

Definition getDataSize (d : Data) : Z := u32 (d.(dataBytes) + d.(paddingBytes)).
Definition Data_getPadding (d : Data) : Z := d.(paddingBytes).

(** [dataItems.push_back(mem); dataTypes.push_back(type)] *)
Definition push_item (mem : DataItem) (type : DataType) (d : Data) : Data :=
  mk_data d.(dataBytes) d.(paddingBytes) (d.(dataItems) ++ [mem]) (d.(dataTypes) ++ [type])
    d.(Nlist) d.(nlist) d.(mlist) d.(formatTag) d.(dataTag) d.(dataNum).

(** A DataItem with one member of its union set. *)
Definition mem (m : SingleMember) : DataItem := mk_item m [].

(** ** Multipliers *)

Definition push_N (N : Z) (d : Data) : Data :=
  mk_data d.(dataBytes) d.(paddingBytes) d.(dataItems) d.(dataTypes)
    (d.(Nlist) ++ [i32 N]) d.(nlist) d.(mlist) d.(formatTag) d.(dataTag) d.(dataNum).
(** [int16_t] and [int8_t] of an unsigned argument. *)
Definition i16 (z : Z) : Z := (z + 32768) mod 65536 - 32768.
Definition push_n (n : Z) (d : Data) : Data :=
  mk_data d.(dataBytes) d.(paddingBytes) d.(dataItems) d.(dataTypes)
    d.(Nlist) (d.(nlist) ++ [i16 n]) d.(mlist) d.(formatTag) d.(dataTag) d.(dataNum).
Definition push_m (m : Z) (d : Data) : Data :=
  mk_data d.(dataBytes) d.(paddingBytes) d.(dataItems) d.(dataTypes)
    d.(Nlist) d.(nlist) (d.(mlist) ++ [i8 m]) d.(formatTag) d.(dataTag) d.(dataNum).

Definition addN (N : Z) (d : Data) : Data :=
  addBytesToData 4 (push_item (mem (ui32 N)) UINT32 (push_N N d)).
Definition addn (n : Z) (d : Data) : Data :=
  addBytesToData 2 (push_item (mem (us16 n)) USHORT16 (push_n n d)).
Definition addm (m : Z) (d : Data) : Data :=
  addBytesToData 1 (push_item (mem (ub8 m)) UCHAR8 (push_m m d)).

(** ** One value, and a vector of values *)

(** [for (auto ii : i) { DataItem mem; mem.item.member = ii; push_back ... }] *)
Definition push_items (member : Z -> SingleMember) (type : DataType) (vs : list Z) (d : Data) : Data :=
  fold_left (fun d v => push_item (mem (member v)) type d) vs d.

Definition addInt (i : Z) (d : Data) : Data := addBytesToData 4 (push_item (mem (i32_ i)) INT32 d).
Definition addInt_vec (i : list Z) (d : Data) : Data :=
  addBytesToData (u32 (4 * zlen i)) (push_items i32_ INT32 i d).
Definition addUint (i : Z) (d : Data) : Data := addBytesToData 4 (push_item (mem (ui32 i)) UINT32 d).
Definition addUint_vec (i : list Z) (d : Data) : Data :=
  addBytesToData (u32 (4 * zlen i)) (push_items ui32 UINT32 i d).

Definition addShort (s : Z) (d : Data) : Data := addBytesToData 2 (push_item (mem (s16 s)) SHORT16 d).
Definition addShort_vec (s : list Z) (d : Data) : Data :=
  addBytesToData (u32 (2 * zlen s)) (push_items s16 SHORT16 s d).
Definition addUShort (s : Z) (d : Data) : Data := addBytesToData 2 (push_item (mem (us16 s)) USHORT16 d).
Definition addUShort_vec (s : list Z) (d : Data) : Data :=
  addBytesToData (u32 (2 * zlen s)) (push_items us16 USHORT16 s d).

Definition addLong (l : Z) (d : Data) : Data := addBytesToData 8 (push_item (mem (l64 l)) LONG64 d).
Definition addLong_vec (l : list Z) (d : Data) : Data :=
  addBytesToData (u32 (8 * zlen l)) (push_items l64 LONG64 l d).
Definition addULong (l : Z) (d : Data) : Data := addBytesToData 8 (push_item (mem (ul64 l)) ULONG64 d).
Definition addULong_vec (l : list Z) (d : Data) : Data :=
  addBytesToData (u32 (8 * zlen l)) (push_items ul64 ULONG64 l d).

Definition addChar (b : Z) (d : Data) : Data := addBytesToData 1 (push_item (mem (b8 b)) CHAR8 d).
Definition addChar_vec (b : list Z) (d : Data) : Data :=
  addBytesToData (u32 (zlen b)) (push_items b8 CHAR8 b d).
Definition addUChar (b : Z) (d : Data) : Data := addBytesToData 1 (push_item (mem (ub8 b)) UCHAR8 d).
Definition addUChar_vec (b : list Z) (d : Data) : Data :=
  addBytesToData (u32 (zlen b)) (push_items ub8 UCHAR8 b d).

Definition addFloat (f : Z) (d : Data) : Data := addBytesToData 4 (push_item (mem (flt f)) FLOAT32 d).
Definition addFloat_vec (f : list Z) (d : Data) : Data :=
  addBytesToData (u32 (4 * zlen f)) (push_items flt FLOAT32 f d).
Definition addDouble (x : Z) (d : Data) : Data := addBytesToData 8 (push_item (mem (dbl x)) DOUBLE64 d).
Definition addDouble_vec (x : list Z) (d : Data) : Data :=
  addBytesToData (u32 (8 * zlen x)) (push_items dbl DOUBLE64 x d).

Definition addString (s : list Z) (d : Data) : Data :=
  addBytesToData (stringsToRawSize [s]) (push_item (mk_item (str true) [s]) CHARSTAR8 d).
Definition addString_vec (s : list (list Z)) (d : Data) : Data :=
  addBytesToData (stringsToRawSize s) (push_item (mk_item (str true) s) CHARSTAR8 d).

(** ** Sequences of additions *)

(** The kinds of numbers that can be added. *)
Inductive number := Int | Uint | Short | UShort | Long | ULong | Char | UChar | Float | Double.

Definition add_one (k : number) : Z -> Data -> Data :=
  match k with
  | Int => addInt | Uint => addUint | Short => addShort | UShort => addUShort | Long => addLong
  | ULong => addULong | Char => addChar | UChar => addUChar | Float => addFloat | Double => addDouble
  end.
Definition add_many (k : number) : list Z -> Data -> Data :=
  match k with
  | Int => addInt_vec | Uint => addUint_vec | Short => addShort_vec | UShort => addUShort_vec
  | Long => addLong_vec | ULong => addULong_vec | Char => addChar_vec | UChar => addUChar_vec
  | Float => addFloat_vec | Double => addDouble_vec
  end.
Definition member_of (k : number) : Z -> SingleMember :=
  match k with
  | Int => i32_ | Uint => ui32 | Short => s16 | UShort => us16 | Long => l64
  | ULong => ul64 | Char => b8 | UChar => ub8 | Float => flt | Double => dbl
  end.

Inductive addition :=
  | AddN (N : Z) | Addn (n : Z) | Addm (m : Z)
  | AddOne (k : number) (v : Z) | AddMany (k : number) (vs : list Z)
  | AddString (s : list Z) | AddStrings (s : list (list Z)).

Definition perform (d : Data) (a : addition) : Data :=
  match a with
  | AddN N => addN N d | Addn n => addn n d | Addm m => addm m d
  | AddOne k v => add_one k v d | AddMany k vs => add_many k vs d
  | AddString s => addString s d | AddStrings s => addString_vec s d
  end.
Definition build (adds : list addition) : Data := fold_left perform adds Data_make.

(** ** What is to be stored *)

(** The items of an addition. *)
Definition items_of (a : addition) : list DataItem :=
  match a with
  | AddN N => [mem (ui32 N)] | Addn n => [mem (us16 n)] | Addm m => [mem (ub8 m)]
  | AddOne k v => [mem (member_of k v)] | AddMany k vs => map (fun v => mem (member_of k v)) vs
  | AddString s => [mk_item (str true) [s]] | AddStrings s => [mk_item (str true) s]
  end.

(** The type and the bytes of an item. *)
Definition item_type (i : DataItem) : DataType :=
  match i.(item) with
  | flt _ => FLOAT32 | dbl _ => DOUBLE64 | ul64 _ => ULONG64 | l64 _ => LONG64
  | ui32 _ => UINT32 | i32_ _ => INT32 | us16 _ => USHORT16 | s16 _ => SHORT16
  | ub8 _ => UCHAR8 | b8 _ => CHAR8 | str _ => CHARSTAR8
  end.
Definition item_bytes (i : DataItem) : Z :=
  match i.(item) with
  | dbl _ | ul64 _ | l64 _ => 8
  | flt _ | ui32 _ | i32_ _ => 4
  | us16 _ | s16 _ => 2
  | ub8 _ | b8 _ => 1
  | str _ => stringsToRawSize i.(strVec)
  end.
Definition total_bytes (its : list DataItem) : Z := foldr Z.add 0 (map item_bytes its).
(** A number of bytes completed to words. *)
Definition whole_words (n : Z) : Z := 4 * ((n + 3) / 4).

(** What an addition takes down beside the items. *)
Definition N_of (a : addition) : list Z := match a with AddN N => [i32 N] | _ => [] end.
Definition n_of (a : addition) : list Z := match a with Addn n => [i16 n] | _ => [] end.
Definition m_of (a : addition) : list Z := match a with Addm m => [i8 m] | _ => [] end.

(** The state that holds some items. *)
Record represents (d : Data) (its : list DataItem) : Prop := {
  rep_items : d.(dataItems) = its;
  rep_types : d.(dataTypes) = map item_type its;
  rep_bytes : d.(dataBytes) = u32 (total_bytes its);
  rep_padding : d.(paddingBytes) = (- d.(dataBytes)) mod 4
}.

Lemma item_bytes_app a b : total_bytes (a ++ b) = total_bytes a + total_bytes b.
Proof. unfold total_bytes. induction a as [|i a IH]; cbn [map foldr app]; lia. Qed.

Lemma Data_pads_mod n : nth (Z.to_nat (n mod 4)) Data_pads 0 = (- n) mod 4.
Proof.
  assert (n mod 4 = 0 \/ n mod 4 = 1 \/ n mod 4 = 2 \/ n mod 4 = 3) as [H|[H|[H|H]]] by
    (pose proof (Z.mod_pos_bound n 4); lia); rewrite H;
    [change (0 = (- n) mod 4) | change (3 = (- n) mod 4) | change (2 = (- n) mod 4)
    | change (1 = (- n) mod 4)]; Z.div_mod_to_equations; lia.
Qed.

(** Items that are pushed with their types, and then counted. *)
Lemma push_represents d its d' new :
  represents d its -> d'.(dataItems) = d.(dataItems) ++ new ->
  d'.(dataTypes) = d.(dataTypes) ++ map item_type new -> d'.(dataBytes) = d.(dataBytes) ->
  forall n, u32 n = u32 (total_bytes new) -> represents (addBytesToData n d') (its ++ new).
Proof.
  intros [Hi Ht Hb Hp] Hi' Ht' Hb' n Hn. split; cbn.
  - by rewrite Hi', Hi.
  - by rewrite Ht', Ht, map_app.
  - by rewrite Hb', Hb, item_bytes_app, u32_add_l, <- u32_add_r, Hn, u32_add_r.
  - apply Data_pads_mod.
Qed.

Lemma push_items_eq member type vs d :
  push_items member type vs d =
  mk_data d.(dataBytes) d.(paddingBytes) (d.(dataItems) ++ map (fun v => mem (member v)) vs)
    (d.(dataTypes) ++ map (fun _ => type) vs) d.(Nlist) d.(nlist) d.(mlist)
    d.(formatTag) d.(dataTag) d.(dataNum).
Proof.
  unfold push_items. revert d. induction vs as [|v vs IH]; intros d; cbn.
  - rewrite !app_nil_r. by destruct d.
  - rewrite IH. cbn. by rewrite <- !app_assoc.
Qed.

Lemma total_bytes_same w its : Forall (fun i => item_bytes i = w) its -> total_bytes its = w * zlen its.
Proof.
  intros His. induction His as [|i its Hi _ IH]; unfold total_bytes in *; cbn [map fold_right length]; lia.
Qed.

(** Every addition adds its items. *)
Lemma perform_represents d its a : represents d its -> represents (perform d a) (its ++ items_of a).
Proof.
  intros Hd. destruct a as [N|n|m|k v|k vs|s|s]; cbn [perform items_of].
  1-3: by apply (push_represents d).
  - destruct k; by apply (push_represents d).
  - assert (exists w, Forall (fun i => item_bytes i = w) (map (fun v => mem (member_of k v)) vs) /\
      add_many k vs d = addBytesToData (u32 (w * zlen vs))
        (push_items (member_of k) (item_type (mem (member_of k 0))) vs d)) as (w & Hw & ->).
    { exists (item_bytes (mem (member_of k 0))). split; [by destruct k; apply Forall_map, Forall_true|].
      destruct k; try done; cbn [add_many]; unfold addChar_vec, addUChar_vec; by rewrite Z.mul_1_l. }
    apply (push_represents d its); [done| | | |]; rewrite ?push_items_eq; cbn; [done| |done|].
    + rewrite map_map. f_equal. apply map_ext. intros v. by destruct k.
    + by rewrite (total_bytes_same w), length_map, u32_idemp.
  - apply (push_represents d its); try done. cbn -[stringsToRawSize]. by rewrite Z.add_0_r.
  - apply (push_represents d its); try done. cbn -[stringsToRawSize]. by rewrite Z.add_0_r.
Qed.

Lemma build_represents adds d its :
  represents d its -> represents (fold_left perform adds d) (its ++ concat (map items_of adds)).
Proof.
  revert d its. induction adds as [|a adds IH]; intros d its Hd; cbn; [by rewrite app_nil_r|].
  rewrite app_assoc. by apply IH, perform_represents.
Qed.

Lemma make_represents : represents Data_make [].
Proof. done. Qed.

(** The multipliers are kept aside as well. *)
Lemma perform_multipliers d a :
  (perform d a).(Nlist) = d.(Nlist) ++ N_of a /\ (perform d a).(nlist) = d.(nlist) ++ n_of a /\
  (perform d a).(mlist) = d.(mlist) ++ m_of a.
Proof.
  destruct a as [N|n|m|k v|k vs|s|s]; try destruct k; cbn;
    unfold addInt_vec, addUint_vec, addShort_vec, addUShort_vec, addLong_vec, addULong_vec,
      addChar_vec, addUChar_vec, addFloat_vec, addDouble_vec; rewrite ?push_items_eq; cbn;
    by rewrite ?app_nil_r.
Qed.

Lemma build_multipliers adds d :
  (fold_left perform adds d).(Nlist) = d.(Nlist) ++ concat (map N_of adds) /\
  (fold_left perform adds d).(nlist) = d.(nlist) ++ concat (map n_of adds) /\
  (fold_left perform adds d).(mlist) = d.(mlist) ++ concat (map m_of adds).
Proof.
  revert d. induction adds as [|a adds IH]; intros d; cbn; [by rewrite !app_nil_r|].
  destruct (IH (perform d a)) as (-> & -> & ->). destruct (perform_multipliers d a) as (-> & -> & ->).
  by rewrite <- !app_assoc.
Qed.

Lemma whole_words_u32 n : u32 (u32 n + (- u32 n) mod 4) = u32 (whole_words n).
Proof. unfold whole_words. wrap_lia. Qed.

(** ** Class Data *)

(** After any sequence of additions to a new object, its items are those added,
    in order, each with the type of the member that was set; the N, n and m values
    are also in their own lists, in order; the byte count is that of the items (modulo
    2^32); and padding and data size are what completes them to words. *)
Theorem build_data adds :
  let d := build adds in
  let its := concat (map items_of adds) in
  d.(dataItems) = its /\ d.(dataTypes) = map item_type its /\
  d.(Nlist) = concat (map N_of adds) /\ d.(nlist) = concat (map n_of adds) /\
  d.(mlist) = concat (map m_of adds) /\
  d.(dataBytes) = u32 (total_bytes its) /\
  Data_getPadding d = (- total_bytes its) mod 4 /\
  getDataSize d = u32 (whole_words (total_bytes its)) /\ getDataSize d mod 4 = 0.
Proof.
  cbn zeta. destruct (build_represents adds _ _ make_represents) as [Hi Ht Hb Hp].
  destruct (build_multipliers adds Data_make) as (HN & Hn & Hm). cbn [app] in *.
  fold (build adds) in *.
  assert (getDataSize (build adds) = u32 (whole_words (total_bytes (concat (map items_of adds))))) as Hs
    by (unfold getDataSize; rewrite Hp, Hb; apply whole_words_u32).
  split_and!; try done.
  - unfold Data_getPadding. rewrite Hp, Hb. wrap_lia.
  - rewrite Hs. unfold whole_words. wrap_lia.
Qed.

(** The fields that additions do not concern. *)
Lemma build_tags adds d :
  (fold_left perform adds d).(formatTag) = d.(formatTag) /\
  (fold_left perform adds d).(dataTag) = d.(dataTag) /\ (fold_left perform adds d).(dataNum) = d.(dataNum).
Proof.
  revert d. induction adds as [|a adds IH]; intros d; [done|]. cbn.
  destruct (IH (perform d a)) as (-> & -> & ->).
  destruct a as [N|n|m|k v|k vs|s|s]; try destruct k; cbn;
    unfold addInt_vec, addUint_vec, addShort_vec, addUShort_vec, addLong_vec, addULong_vec,
      addChar_vec, addUChar_vec, addFloat_vec, addDouble_vec; by rewrite ?push_items_eq.
Qed.

(** Additions of the same items, with the same multipliers, give the same object. *)
Lemma build_ext d its adds adds' : represents d its ->
  concat (map items_of adds) = concat (map items_of adds') ->
  concat (map N_of adds) = concat (map N_of adds') -> concat (map n_of adds) = concat (map n_of adds') ->
  concat (map m_of adds) = concat (map m_of adds') ->
  fold_left perform adds d = fold_left perform adds' d.
Proof.
  intros Hd Hi HN Hn Hm.
  destruct (build_represents adds d its Hd) as [A1 A2 A3 A4].
  destruct (build_represents adds' d its Hd) as [B1 B2 B3 B4].
  destruct (build_multipliers adds d) as (A5 & A6 & A7).
  destruct (build_multipliers adds' d) as (B5 & B6 & B7).
  destruct (build_tags adds d) as (A8 & A9 & A10). destruct (build_tags adds' d) as (B8 & B9 & B10).
  rewrite Hi, ?HN, ?Hn, ?Hm in *.
  destruct (fold_left perform adds d), (fold_left perform adds' d); cbn in *. congruence.
Qed.

(** Adding a vector of numbers leaves the object as adding them one after
    another does, whatever was added before. *)
Theorem vectors_as_values adds k vs :
  build (adds ++ [AddMany k vs]) = build (adds ++ map (AddOne k) vs).
Proof.
  unfold build. rewrite !fold_left_app.
  apply (build_ext _ _ _ _ (build_represents adds _ _ make_represents)).
  - cbn. rewrite app_nil_r, map_map. cbn. by induction vs as [|v vs IH]; cbn; [|rewrite IH].
  - cbn. by induction vs.
  - cbn. by induction vs.
  - cbn. by induction vs.
Qed.

(** Two strings added one by one are padded one by one. *)
Example strings_apart :
  getDataSize (build [AddStrings [[65]; [66]]]) = 8 /\ getDataSize (build [AddString [65]; AddString [66]]) = 8
  /\ getDataSize (build [AddStrings [[65; 65]; [66]; [67]; []]]) = 12
  /\ getDataSize (build [AddString [65; 65]; AddString [66]; AddString [67]; AddString []]) = 16.
Proof. by vm_compute. Qed.
