(* ===== verification/EvioBuffer.v ===== *)
(** ByteBuffer.h: the templates through which every read and write of a
    ByteBuffer goes, on a memory of shared arrays, and the methods built on them,
    which the header only declares, as a class with laws. *)
From stdpp Require Import gmap.
From S2P Require Import Prelude Bytes ByteOrder.

(** ** Buffers *)

(** The arrays behind the shared pointers; duplicates of a buffer share one. *)
Abbreviation arrays := (gmap positive (list Z)).

Record ByteBuffer := mk_buffer { pos : Z; lim : Z; off : Z; buf : positive; byteOrder : endian }.

Definition set_pos (p : Z) (b : ByteBuffer) : ByteBuffer :=
  mk_buffer p b.(lim) b.(off) b.(buf) b.(byteOrder).

Definition array_of (m : arrays) (b : ByteBuffer) : result (list Z) := checked (m !! b.(buf)).

(** [(buf.get())[i] ...]: [w] bytes from index [i] of the array on. *)
Definition peek (m : arrays) (b : ByteBuffer) (i w : Z) : result (list Z) :=
  a ← array_of m b; checked (load a i w).
Definition poke (m : arrays) (b : ByteBuffer) (i : Z) (bs : list Z) : result arrays :=
  a ← array_of m b; a' ← checked (store a i bs); Ok (<[b.(buf) := a']> m).

Definition underflow : string := "buffer underflow".
Definition overflow : string := "buffer overflow".

(** [read<T>(index)], for a T of [w] bytes: the bytes of the value in memory. *)
Definition read_at (m : arrays) (b : ByteBuffer) (w index : Z) : result (list Z) :=
  if u64 (index + w) <=? b.(lim) then peek m b (u64 (index + b.(off))) w else Throw underflow.

(** [read<T>()]: the position moves behind the value. *)
Definition read_next (m : arrays) (b : ByteBuffer) (w : Z) : result (list Z * ByteBuffer) :=
  data ← read_at m b w b.(pos); Ok (data, set_pos (u64 (b.(pos) + w)) b).

(** [write<T>(data)], [bs] being the bytes of the data. *)
Definition write_next (m : arrays) (b : ByteBuffer) (bs : list Z) : result (arrays * ByteBuffer) :=
  let s := zlen bs in
  if b.(lim) <? u64 (b.(pos) + s) then Throw overflow
  else m' ← poke m b (u64 (b.(pos) + b.(off))) bs; Ok (m', set_pos (u64 (b.(pos) + s)) b).

(** [write<T>(data, index)] *)
Definition write_at (m : arrays) (b : ByteBuffer) (bs : list Z) (index : Z) : result arrays :=
  let s := zlen bs in
  if b.(lim) <? u64 (index + s) then Throw overflow
  else poke m b (u64 (index + b.(off))) bs.

(** The overloads for one byte. *)
Definition write_byte_next (m : arrays) (b : ByteBuffer) (data : Z) : result (arrays * ByteBuffer) :=
  if b.(lim) <? u64 (b.(pos) + 1) then Throw overflow
  else m' ← poke m b (u64 (b.(off) + b.(pos))) [data]; Ok (m', set_pos (u64 (b.(pos) + 1)) b).
Definition write_byte_at (m : arrays) (b : ByteBuffer) (data index : Z) : result arrays :=
  if b.(lim) <? u64 (index + 1) then Throw overflow else poke m b (u64 (index + b.(off))) [data].
(** This one leaves the position where it is. *)
Definition read_byte (m : arrays) (b : ByteBuffer) : result (list Z) :=
  if u64 (b.(pos) + 1) <=? b.(lim) then peek m b (u64 (b.(pos) + b.(off))) 1 else Throw underflow.
Definition read_byte_at (m : arrays) (b : ByteBuffer) (index : Z) : result (list Z) :=
  if u64 (index + 1) <=? b.(lim) then peek m b (u64 (index + b.(off))) 1 else Throw underflow.

(** ** The methods for integers

    Only declared.  The class is "copied from one of the same name in Java": a value
    is composed of, or turned into, bytes in the current byte order of the buffer. *)
Class ByteBufferMethods := {
  getByte : arrays -> ByteBuffer -> Z -> result Z;
  getShort : arrays -> ByteBuffer -> Z -> result Z;
  getInt : arrays -> ByteBuffer -> Z -> result Z;
  getUInt : arrays -> ByteBuffer -> Z -> result Z;
  getLong : arrays -> ByteBuffer -> Z -> result Z;
  put : arrays -> ByteBuffer -> Z -> Z -> result arrays;
  putShort : arrays -> ByteBuffer -> Z -> Z -> result arrays;
  putInt : arrays -> ByteBuffer -> Z -> Z -> result arrays;
  putLong : arrays -> ByteBuffer -> Z -> Z -> result arrays;
  putInt_next : arrays -> ByteBuffer -> Z -> result (arrays * ByteBuffer);
  remaining : ByteBuffer -> Z
}.

Definition i16 (z : Z) : Z := (z + 32768) mod 65536 - 32768.
Definition value (b : ByteBuffer) (bs : list Z) : Z := order_val b.(byteOrder) bs.
Definition bytes_of (b : ByteBuffer) (w : nat) (v : Z) : list Z := order_bytes b.(byteOrder) w v.

Class ByteBufferLaws (methods : ByteBufferMethods) : Prop := {
  getByte_law m b i : getByte m b i = (bs ← read_byte_at m b i; Ok (value b bs));
  getShort_law m b i : getShort m b i = (bs ← read_at m b 2 i; Ok (i16 (value b bs)));
  getInt_law m b i : getInt m b i = (bs ← read_at m b 4 i; Ok (i32 (value b bs)));
  getUInt_law m b i : getUInt m b i = (bs ← read_at m b 4 i; Ok (u32 (value b bs)));
  getLong_law m b i : getLong m b i = (bs ← read_at m b 8 i; Ok (i64 (value b bs)));
  put_law m b i v : put m b i v = write_byte_at m b (u8 v) i;
  putShort_law m b i v : putShort m b i v = write_at m b (bytes_of b 2 v) i;
  putInt_law m b i v : putInt m b i v = write_at m b (bytes_of b 4 v) i;
  putLong_law m b i v : putLong m b i v = write_at m b (bytes_of b 8 v) i;
  putInt_next_law m b v : putInt_next m b v = write_next m b (bytes_of b 4 v);
  remaining_law b : remaining b = u64 (b.(lim) - b.(pos))
}.

(** Methods that meet the laws. *)
Definition java : ByteBufferMethods := {|
  getByte m b i := bs ← read_byte_at m b i; Ok (value b bs);
  getShort m b i := bs ← read_at m b 2 i; Ok (i16 (value b bs));
  getInt m b i := bs ← read_at m b 4 i; Ok (i32 (value b bs));
  getUInt m b i := bs ← read_at m b 4 i; Ok (u32 (value b bs));
  getLong m b i := bs ← read_at m b 8 i; Ok (i64 (value b bs));
  put m b i v := write_byte_at m b (u8 v) i;
  putShort m b i v := write_at m b (bytes_of b 2 v) i;
  putInt m b i v := write_at m b (bytes_of b 4 v) i;
  putLong m b i v := write_at m b (bytes_of b 8 v) i;
  putInt_next m b v := write_next m b (bytes_of b 4 v);
  remaining b := u64 (b.(lim) - b.(pos))
|}.
Lemma java_laws : ByteBufferLaws java.
Proof. done. Qed.

(** ** Buffers within their arrays *)

(** The bytes up to the limit are there, and no position overflows. *)
Record buffer_ok (m : arrays) (b : ByteBuffer) : Prop := {
  ok_pos : 0 <= b.(pos) <= b.(lim);
  ok_off : 0 <= b.(off);
  ok_array : exists a, m !! b.(buf) = Some a /\ b.(off) + b.(lim) <= zlen a /\ bytes_ok a;
  ok_size : b.(off) + b.(lim) < 9223372036854775808
}.

(** An access that ends beyond the limit throws. *)
Lemma read_at_beyond m b w i : 0 <= i -> 0 <= w -> i + w < 18446744073709551616 -> b.(lim) < i + w ->
  read_at m b w i = Throw underflow.
Proof.
  intros. unfold read_at. rewrite u64_small by lia.
  by destruct (Z.leb_spec (i + w) b.(lim)); [lia|].
Qed.

Lemma write_at_beyond m b bs i : 0 <= i -> i + zlen bs < 18446744073709551616 -> b.(lim) < i + zlen bs ->
  write_at m b bs i = Throw overflow.
Proof.
  intros. unfold write_at. rewrite u64_small by lia.
  by destruct (Z.ltb_spec b.(lim) (i + zlen bs)); [|lia].
Qed.

Section Access.
Context (m : arrays) (b : ByteBuffer) (a : list Z).
Context (Ha : m !! b.(buf) = Some a) (Hfit : b.(off) + b.(lim) <= zlen a).
Context (Hoff : 0 <= b.(off)) (Hsize : b.(off) + b.(lim) < 9223372036854775808).

(** An access below the limit is one of the array. *)
Lemma read_at_ok w i : 0 <= i -> 0 <= w -> i + w <= b.(lim) ->
  read_at m b w i = Ok (take (Z.to_nat w) (drop (Z.to_nat (b.(off) + i)) a)).
Proof using Ha Hfit Hoff Hsize.
  intros. unfold read_at, peek, array_of. rewrite !u64_small by lia.
  destruct (Z.leb_spec (i + w) b.(lim)); [|lia]. rewrite Ha. cbn.
  rewrite load_spec by lia. cbn. by rewrite (Z.add_comm i).
Qed.

Lemma write_at_ok bs i : 0 <= i -> i + zlen bs <= b.(lim) ->
  write_at m b bs i = Ok (<[b.(buf) := splice (Z.to_nat (b.(off) + i)) bs a]> m).
Proof using Ha Hfit Hoff Hsize.
  intros. unfold write_at, poke, array_of. rewrite !u64_small by lia.
  destruct (Z.ltb_spec b.(lim) (i + zlen bs)); [lia|]. rewrite Ha. cbn.
  rewrite store_spec by lia. cbn. by rewrite (Z.add_comm i).
Qed.

Lemma write_next_ok bs : 0 <= b.(pos) -> b.(pos) + zlen bs <= b.(lim) ->
  write_next m b bs =
    Ok (<[b.(buf) := splice (Z.to_nat (b.(off) + b.(pos))) bs a]> m, set_pos (b.(pos) + zlen bs) b).
Proof using Ha Hfit Hoff Hsize.
  intros. unfold write_next, poke, array_of. rewrite !u64_small by lia.
  destruct (Z.ltb_spec b.(lim) (b.(pos) + zlen bs)); [lia|]. rewrite Ha. cbn.
  rewrite store_spec by lia. cbn. by rewrite (Z.add_comm b.(pos)).
Qed.
End Access.

(** What a write leaves, as its inverse. *)
Lemma write_at_inv m b bs i m' : buffer_ok m b -> 0 <= i -> i + zlen bs < 18446744073709551616 ->
  write_at m b bs i = Ok m' ->
  exists a, m !! b.(buf) = Some a /\ i + zlen bs <= b.(lim) /\
    m' = <[b.(buf) := splice (Z.to_nat (b.(off) + i)) bs a]> m.
Proof.
  intros [Hp Ho (a & Ha & Hfit & _) Hs] Hi Hn Hw. exists a.
  destruct (Z.leb_spec (i + zlen bs) b.(lim)) as [Hle|Hlt].
  - rewrite (write_at_ok m b a Ha Hfit Ho Hs) in Hw by lia. by injection Hw as <-.
  - by rewrite write_at_beyond in Hw by lia.
Qed.

(** What is written at an index is read back from there, and nothing else of the
    buffer changes: neither what lies elsewhere in its array nor another array. *)
Theorem write_read m b bs i m' (Hb : buffer_ok m b) (Hi : 0 <= i)
    (Hn : i + zlen bs < 18446744073709551616) (Hw : write_at m b bs i = Ok m') :
  read_at m' b (zlen bs) i = Ok bs /\
  (forall w j, 0 <= j -> 0 <= w -> j + w <= i \/ i + zlen bs <= j -> j + w < 18446744073709551616 ->
     read_at m' b w j = read_at m b w j) /\
  (forall k, k <> b.(buf) -> m' !! k = m !! k).
Proof.
  destruct (write_at_inv m b bs i m' Hb Hi Hn Hw) as (a & Ha & Hle & ->).
  destruct Hb as [Hp Ho (a' & Ha' & Hfit & _) Hs]. rewrite Ha in Ha'. injection Ha' as <-.
  set (a' := splice _ bs a).
  assert (length a' = length a) as Hl by (apply length_splice; lia).
  assert (<[buf b:=a']> m !! buf b = Some a') as Ha' by apply lookup_insert_eq.
  assert (off b + lim b <= zlen a') as Hfit' by lia.
  split; [|split].
  - rewrite (read_at_ok _ _ _ Ha' Hfit' Ho Hs) by lia. subst a'.
    rewrite Nat2Z.id, load_splice_at by lia. by rewrite Nat.sub_diag, drop_0, take_ge.
  - intros w j Hj Hw0 Hd Hlt. destruct (Z.leb_spec (j + w) (lim b)).
    + rewrite (read_at_ok _ _ _ Ha' Hfit' Ho Hs), (read_at_ok _ _ _ Ha Hfit Ho Hs) by lia.
      subst a'. by rewrite load_splice_other by lia.
    + by rewrite !read_at_beyond by lia.
  - intros k Hk. by apply lookup_insert_ne.
Qed.

(** The sum in the bounds check wraps: an index just below 2^64 passes it, and the
    access is to bytes in front of the buffer, those of a slice's parent if any. *)
Theorem read_at_wraps m b w k a (Ha : m !! b.(buf) = Some a) (Hoff : 0 <= b.(off))
    (Hsize : b.(off) < 9223372036854775808) (Ha64 : zlen a < 9223372036854775808)
    (Hk : 0 < k <= w) (Hw : w <= 8) (Hlim : w - k <= b.(lim)) (Hfit : b.(off) + w <= zlen a) :
  read_at m b w (18446744073709551616 - k) =
    if b.(off) <? k then UB else Ok (take (Z.to_nat w) (drop (Z.to_nat (b.(off) - k)) a)).
Proof.
  unfold read_at, peek, array_of. rewrite Ha. cbn [checked mbind result_bind].
  replace (u64 (18446744073709551616 - k + w)) with (w - k) by wrap_lia.
  destruct (Z.leb_spec (w - k) b.(lim)); [|lia].
  destruct (Z.ltb_spec b.(off) k).
  - rewrite u64_small by lia. unfold load. by rewrite decide_False by lia.
  - replace (u64 (18446744073709551616 - k + b.(off))) with (b.(off) - k) by wrap_lia.
    by rewrite load_spec by lia.
Qed.

Section Methods.
Context {methods : ByteBufferMethods} {laws : ByteBufferLaws methods}.

Lemma value_bytes_of b w v : value b (bytes_of b w v) = v mod 256 ^ Z.of_nat w.
Proof. unfold value, bytes_of, order_val, order_bytes. destruct (byteOrder b); [apply le_val_bytes | apply be_val_bytes]. Qed.

(** Integers are read as they were written. *)
Theorem putInt_getInt m b i v m' : buffer_ok m b -> 0 <= i < 18446744073709551612 ->
  putInt m b i v = Ok m' -> getInt m' b i = Ok (i32 v).
Proof using laws.
  intros Hb Hi Hp. rewrite putInt_law in Hp. rewrite getInt_law.
  assert (zlen (bytes_of b 4 v) = 4) as Hl by (unfold bytes_of; rewrite length_order_bytes; done).
  destruct (write_at_inv m b (bytes_of b 4 v) i m' Hb) as (a & Ha & Hle & ->); [lia|lia|done|].
  destruct Hb as [Hpos Ho (a' & Ha' & Hfit & _) Hs]. rewrite Ha in Ha'. injection Ha' as <-.
  set (a' := splice _ _ a).
  assert (zlen a' = zlen a) as Hla by (unfold a'; rewrite length_splice; lia).
  rewrite (read_at_ok _ b a' (lookup_insert_eq _ _ _)) by lia. cbn [mbind result_bind].
  unfold a'. rewrite load_splice_at by lia. rewrite Nat.sub_diag, drop_0, take_ge by lia.
  rewrite value_bytes_of. f_equal. change (256 ^ Z.of_nat 4) with 4294967296. wrap_lia.
Qed.
End Methods.
