(* ===== verification/EvioLeaf.v ===== *)
(** swapLeafData of EvioSwap.h: the data of a leaf is read from one ByteBuffer and
    written to another, element by element, so that it changes byte order when
    the two buffers have different ones.  The buffers may share an array. *)
From stdpp Require Import gmap.
From S2P Require Import Prelude Bytes ByteOrder EvioUtil EvioBuffer.

(** ** The routine *)

(** What is left of a call: the arrays, and how it ended. *)
Abbreviation ending := (arrays * result unit)%type.

Section SwapLeafData.
Context {methods : ByteBufferMethods}.
(** [CompositeData::swapAll], only declared. *)
Context (swapAll : arrays -> ByteBuffer -> ByteBuffer -> Z -> Z -> Z -> ending).

(** [for (; srcPos < endPos; srcPos += w, destPos += w) destBuf.put(destPos, srcBuf.get(srcPos));] *)
Definition swap_step (get : arrays -> ByteBuffer -> Z -> result Z)
    (put : arrays -> ByteBuffer -> Z -> Z -> result arrays) (w : Z)
    (srcBuf destBuf : ByteBuffer) (endPos : Z) (s : arrays * Z * Z) : outcome (arrays * Z * Z) ending :=
  let '(m, srcPos, destPos) := s in
  if srcPos <? endPos then
    match v ← get m srcBuf srcPos; put m destBuf destPos v with
    | Ok m' => Next (m', u64 (srcPos + w), u64 (destPos + w))
    | Throw e => Halt (m, Throw e)
    | UB => Stuck
    end
  else Halt (m, Ok tt).

Definition swapLeafData (type : DataType) (m : arrays) (srcBuf destBuf : ByteBuffer)
    (srcPos destPos len : Z) (fuel : nat) : outcome (arrays * Z * Z) ending :=
  let endPos := u64 (srcPos + 4 * len) in
  if bool_decide (type = LONG64) || bool_decide (type = ULONG64) || bool_decide (type = DOUBLE64) then
    run (swap_step getLong putLong 8 srcBuf destBuf endPos) fuel (m, srcPos, destPos)
  else if bool_decide (type = INT32) || bool_decide (type = UINT32) || bool_decide (type = FLOAT32) then
    run (swap_step getInt putInt 4 srcBuf destBuf endPos) fuel (m, srcPos, destPos)
  else if bool_decide (type = SHORT16) || bool_decide (type = USHORT16) then
    run (swap_step getShort putShort 2 srcBuf destBuf endPos) fuel (m, srcPos, destPos)
  else if bool_decide (type = UNKNOWN32) || bool_decide (type = CHAR8) || bool_decide (type = UCHAR8)
       || bool_decide (type = CHARSTAR8) then
    run (swap_step getByte put 1 srcBuf destBuf endPos) fuel (m, srcPos, destPos)
  else if bool_decide (type = COMPOSITE) then Halt (swapAll m srcBuf destBuf srcPos destPos len)
  else Halt (m, Ok tt).
End SwapLeafData.

(** ** Elements *)

(** The first [n] elements of [w] bytes each. *)
Fixpoint elements (w n : nat) (bs : list Z) : list (list Z) :=
  match n with O => [] | S n => take w bs :: elements w n (drop w bs) end.

(** An element in another buffer: the same bytes, or the other way round. *)
Definition turned (src dest : ByteBuffer) (bs : list Z) : list Z :=
  if decide (src.(byteOrder) = dest.(byteOrder)) then bs else rev bs.
Definition turned_all (src dest : ByteBuffer) (w n : nat) (bs : list Z) : list Z :=
  concat (map (turned src dest) (elements w n bs)).

(** The bytes per element of a type, when there is a loop for it. *)
Definition element_width (t : DataType) : option Z :=
  match t with
  | LONG64 | ULONG64 | DOUBLE64 => Some 8
  | INT32 | UINT32 | FLOAT32 => Some 4
  | SHORT16 | USHORT16 => Some 2
  | UNKNOWN32 | CHAR8 | UCHAR8 | CHARSTAR8 => Some 1
  | _ => None
  end.

Lemma length_turned src dest bs : length (turned src dest bs) = length bs.
Proof. unfold turned. case_decide; [done|]. apply length_rev. Qed.

Lemma elements_S w n bs : elements w (S n) bs = elements w n bs ++ [take w (drop (n * w) bs)].
Proof.
  revert bs. induction n as [|n IH]; intros bs; [done|].
  change (elements w (S (S n)) bs) with (take w bs :: elements w (S n) (drop w bs)).
  rewrite IH. cbn. rewrite drop_drop. done.
Qed.

Lemma turned_all_S src dest w n bs :
  turned_all src dest w (S n) bs = turned_all src dest w n bs ++ turned src dest (take w (drop (n * w) bs)).
Proof. unfold turned_all. rewrite elements_S, map_app, concat_app. cbn. by rewrite app_nil_r. Qed.

Lemma length_turned_all src dest w n bs : (n * w <= length bs)%nat ->
  length (turned_all src dest w n bs) = (n * w)%nat.
Proof.
  induction n as [|n IH]; intros Hn; [done|]. rewrite turned_all_S, length_app, IH by lia.
  rewrite length_turned, length_take, length_drop. lia.
Qed.

(** With one byte order, everything stays as it is. *)
Lemma turned_all_same src dest w n bs : src.(byteOrder) = dest.(byteOrder) ->
  turned_all src dest w n bs = take (n * w) bs.
Proof.
  intros He. revert bs. induction n as [|n IH]; intros bs; [done|].
  unfold turned_all in *. cbn [elements map concat]. rewrite IH. unfold turned. rewrite decide_True by done.
  by rewrite take_take_drop.
Qed.

(** ** One element *)

(** All arrays hold bytes. *)
Definition arrays_ok (m : arrays) : Prop := map_Forall (fun _ => bytes_ok) m.

Lemma order_bytes_turned e e' bs : bytes_ok bs ->
  order_bytes e' (length bs) (order_val e bs) = if decide (e = e') then bs else rev bs.
Proof.
  intros Hbs. assert (bytes_ok (rev bs)) as Hr by by apply Forall_rev.
  destruct e, e'; cbn; [by apply le_bytes_val | | | by apply be_bytes_val].
  - unfold be_bytes. by rewrite le_bytes_val.
  - unfold be_val. rewrite <- (length_rev bs). by apply le_bytes_val.
Qed.

Lemma order_bytes_mod e n v u : v mod 256 ^ Z.of_nat n = u mod 256 ^ Z.of_nat n ->
  order_bytes e n v = order_bytes e n u.
Proof.
  intros H. destruct e; cbn.
  - by rewrite <- le_bytes_mod, H, le_bytes_mod.
  - by rewrite <- be_bytes_mod, H, be_bytes_mod.
Qed.

Lemma read_at_bytes m b w i bs : arrays_ok m -> read_at m b w i = Ok bs -> zlen bs = w /\ bytes_ok bs.
Proof.
  intros Hm. unfold read_at, peek, array_of. destruct (_ <=? _); [|done].
  destruct (m !! buf b) as [a|] eqn:Ha; [|done]. cbn.
  destruct (load a _ w) eqn:Hl; [|done]. cbn. intros [= <-].
  split; [by eapply load_Some_length | by eapply load_bytes_ok; [eapply Hm|]].
Qed.

(** An element goes over as bytes, whatever integer it is taken for. *)
Definition moves (get : arrays -> ByteBuffer -> Z -> result Z)
    (put : arrays -> ByteBuffer -> Z -> Z -> result arrays) (w : Z) : Prop :=
  forall m src dest i j, arrays_ok m ->
    (v ← get m src i; put m dest j v) = (bs ← read_at m src w i; write_at m dest (turned src dest bs) j).

Section Moves.
Context {methods : ByteBufferMethods} {laws : ByteBufferLaws methods}.

Lemma moves_width get put (w : nat) (wrap : Z -> Z) :
  (forall m b i, get m b i = (bs ← read_at m b (Z.of_nat w) i; Ok (wrap (value b bs)))) ->
  (forall m b i v, put m b i v = write_at m b (bytes_of b w v) i) ->
  (forall z, wrap z mod 256 ^ Z.of_nat w = z mod 256 ^ Z.of_nat w) ->
  moves get put (Z.of_nat w).
Proof using.
  intros Hg Hp Hw m src dest i j Hm. rewrite Hg.
  destruct (read_at m src _ i) as [bs| |] eqn:Hr; [|done..]. cbn [mbind result_bind]. rewrite Hp.
  destruct (read_at_bytes _ _ _ _ _ Hm Hr) as [Hl Hbs]. f_equal.
  unfold bytes_of, value, turned. rewrite (order_bytes_mod _ _ _ _ (Hw _)).
  replace w with (length bs) by lia. by apply order_bytes_turned.
Qed.

Lemma moves_long : moves getLong putLong 8.
Proof using laws.
  apply (moves_width _ _ 8 i64 getLong_law putLong_law). intros z.
  change (256 ^ Z.of_nat 8) with 18446744073709551616. wrap_lia.
Qed.
Lemma moves_int : moves getInt putInt 4.
Proof using laws.
  apply (moves_width _ _ 4 i32 getInt_law putInt_law). intros z.
  change (256 ^ Z.of_nat 4) with 4294967296. wrap_lia.
Qed.
Lemma moves_short : moves getShort putShort 2.
Proof using laws.
  apply (moves_width _ _ 2 i16 getShort_law putShort_law). intros z.
  change (256 ^ Z.of_nat 2) with 65536. unfold i16. Z.div_mod_to_equations. lia.
Qed.
Lemma moves_byte : moves getByte put 1.
Proof using laws.
  intros m src dest i j Hm. rewrite getByte_law. change (read_byte_at m src i) with (read_at m src 1 i).
  destruct (read_at m src 1 i) as [bs| |] eqn:Hr; [|done..]. cbn [mbind result_bind]. rewrite put_law.
  destruct (read_at_bytes _ _ _ _ _ Hm Hr) as [Hl Hbs]. destruct bs as [|b [|]]; try (cbn in Hl; lia).
  change (write_byte_at m dest ?v j) with (write_at m dest [v] j). f_equal.
  apply Forall_cons in Hbs as [Hb _]. unfold turned, value, u8, order_val. cbn.
  destruct (byteOrder src); cbn; unfold be_val; cbn; rewrite Z.mod_small by lia;
    rewrite Z.add_0_r; by case_decide.
Qed.
End Moves.

(** ** The loop *)

Section Loop.
Context (get : arrays -> ByteBuffer -> Z -> result Z) (put : arrays -> ByteBuffer -> Z -> Z -> result arrays).
Context (w : nat) (Hmoves : moves get put (Z.of_nat w)).
Context (m0 : arrays) (src dest : ByteBuffer) (a d : list Z) (srcPos destPos endPos : Z).
Context (Hm0 : arrays_ok m0) (Hsrc : buffer_ok m0 src) (Hdest : buffer_ok m0 dest).
Context (Ha : m0 !! src.(buf) = Some a) (Hd : m0 !! dest.(buf) = Some d).
Context (Hsp : 0 <= srcPos) (Hdp : 0 <= destPos).

(** The bytes from the source position on. *)
Definition data : list Z := drop (Z.to_nat (src.(off) + srcPos)) a.
Definition dest_at : nat := Z.to_nat (dest.(off) + destPos).
(** After [k] elements. *)
Definition written (k : nat) : list Z := splice dest_at (turned_all src dest w k data) d.
Definition loop_at (k : nat) : arrays * Z * Z :=
  (<[dest.(buf) := written k]> m0, srcPos + Z.of_nat (k * w), destPos + Z.of_nat (k * w)).

Definition in_range (k : nat) : Prop :=
  srcPos + Z.of_nat (k * w) <= src.(lim) /\ destPos + Z.of_nat (k * w) <= dest.(lim).

Lemma src_fits : 0 <= src.(off) /\ src.(off) + src.(lim) <= zlen a /\
  src.(off) + src.(lim) < 9223372036854775808.
Proof using Hsrc Ha. destruct Hsrc as [_ Ho (a' & Ha' & Hf & _) Hs]. rewrite Ha in Ha'. by injection Ha' as <-. Qed.
Lemma dest_fits : 0 <= dest.(off) /\ dest.(off) + dest.(lim) <= zlen d /\
  dest.(off) + dest.(lim) < 9223372036854775808.
Proof using Hdest Hd. destruct Hdest as [_ Ho (a' & Ha' & Hf & _) Hs]. rewrite Hd in Ha'. by injection Ha' as <-. Qed.

Lemma length_pieces k : in_range k -> length (turned_all src dest w k data) = (k * w)%nat.
Proof using Hsrc Ha Hsp.
  intros [Hk _]. pose proof src_fits. apply length_turned_all. unfold data. rewrite length_drop. lia.
Qed.

Lemma length_written k : in_range k -> length (written k) = length d.
Proof using Hsrc Hdest Ha Hd Hsp Hdp.
  intros Hk. pose proof dest_fits. unfold written. apply length_splice.
  rewrite length_pieces by done. destruct Hk. unfold dest_at. lia.
Qed.

Lemma written_0 : <[dest.(buf) := written 0]> m0 = m0.
Proof using Hd Hdest Hdp.
  unfold written, turned_all. cbn. unfold splice. cbn. rewrite Nat.add_0_r, take_drop.
  by apply insert_id.
Qed.

(** Two arrays, or the same bytes of one. *)
Context (Happart : src.(buf) <> dest.(buf) \/ src.(off) + srcPos = dest.(off) + destPos).

(** The element to come is not overwritten yet. *)
Lemma read_element k : in_range k -> srcPos + Z.of_nat (S k * w) <= src.(lim) ->
  read_at (<[dest.(buf) := written k]> m0) src (Z.of_nat w) (srcPos + Z.of_nat (k * w)%nat) =
    Ok (take w (drop (k * w) data)).
Proof using Hsrc Hdest Ha Hd Hsp Hdp Happart.
  intros Hk' Hk1. pose proof src_fits as (So & Sf & Ss). pose proof dest_fits as (Do & Df & Ds).
  pose proof (length_written k Hk') as Hl. pose proof (length_pieces k Hk') as Hp.
  assert (exists a', <[dest.(buf) := written k]> m0 !! src.(buf) = Some a' /\ length a' = length a /\
    take w (drop (Z.to_nat (src.(off) + srcPos) + k * w)%nat a') =
    take w (drop (Z.to_nat (src.(off) + srcPos) + k * w)%nat a)) as (a' & Ha' & Hla & Hda).
  { destruct (decide (src.(buf) = dest.(buf))) as [He|Hne].
    - exists (written k). rewrite He, lookup_insert_eq. rewrite He, Hd in Ha. injection Ha as <-.
      split; [done|]. split; [done|]. unfold written, dest_at. destruct Happart as [?|Hpos]; [done|].
      destruct Hk'. rewrite load_splice_other by (rewrite ?Hp; lia). done.
    - exists a. by rewrite lookup_insert_ne by congruence. }
  rewrite (read_at_ok _ src a') by (done || lia). f_equal.
  rewrite Nat2Z.id. unfold data. rewrite drop_drop, <- Hda. do 2 f_equal. lia.
Qed.

Lemma arrays_written k : arrays_ok (<[dest.(buf) := written k]> m0).
Proof using Hm0 Ha Hd.
  apply map_Forall_insert_2; [|done]. unfold written. apply bytes_ok_splice; [|by eapply Hm0].
  unfold turned_all. apply Forall_concat, Forall_map.
  assert (forall n bs, bytes_ok bs -> Forall bytes_ok (elements w n bs)) as He.
  { induction n as [|n IHn]; intros bs Hbs; cbn; [done|].
    constructor; [by apply Forall_take | by apply IHn, Forall_drop]. }
  eapply Forall_impl; [apply He; unfold data; apply Forall_drop; by eapply (Hm0 (buf src))|].
  intros bs Hbs. unfold turned. case_decide; [done|]. by apply Forall_rev.
Qed.

Lemma loop_step k : in_range (S k) -> srcPos + Z.of_nat (k * w) < endPos ->
  swap_step get put (Z.of_nat w) src dest endPos (loop_at k) = Next (loop_at (S k)).
Proof using All.
  intros Hk Hend. assert (in_range k) as Hk' by (unfold in_range in *; lia).
  pose proof src_fits as (So & Sf & Ss). pose proof dest_fits as (Do & Df & Ds).
  pose proof (length_pieces k Hk') as Hp. pose proof (length_pieces (S k) Hk) as Hps.
  pose proof (arrays_written k) as Hok.
  unfold swap_step, loop_at. destruct (Z.ltb_spec (srcPos + Z.of_nat (k * w)) endPos); [|lia].
  rewrite Hmoves, read_element by (done || apply Hk). cbn [mbind result_bind].
  assert (length (turned src dest (take w (drop (k * w) data))) = w) as Hlt.
  { rewrite turned_all_S, length_app in Hps. lia. }
  destruct Hk as [Hk1 Hk2].
  rewrite (write_at_ok _ dest (written k)) by
    (rewrite ?lookup_insert_eq, ?length_written, ?Hlt by done; (done || lia)).
  rewrite insert_insert_eq. f_equal. f_equal; [f_equal|]; [|rewrite u64_small by lia; lia..].
  f_equal. unfold written. rewrite turned_all_S.
  replace (Z.to_nat (off dest + (destPos + Z.of_nat (k * w)))) with
    (dest_at + length (turned_all src dest w k data))%nat by (rewrite Hp; unfold dest_at; lia).
  apply splice_adjacent. rewrite Hp, Hlt. unfold dest_at. lia.
Qed.

Lemma loop_prefix k : in_range k -> (k = 0%nat \/ srcPos + Z.of_nat (pred k * w) < endPos) ->
  run (swap_step get put (Z.of_nat w) src dest endPos) k (m0, srcPos, destPos) = Next (loop_at k).
Proof using All.
  intros Hk Hend. induction k as [|k IH].
  - cbn. unfold loop_at. rewrite written_0. cbn. by rewrite !Z.add_0_r.
  - replace (S k) with (k + 1)%nat by lia. rewrite run_add, IH; cbn [run].
    + rewrite loop_step; [do 2 f_equal; lia|done|]. destruct Hend; [lia|done].
    + unfold in_range in *. lia.
    + destruct Hend as [|Hend]; [lia|]. right. cbn [pred] in Hend. nia.
Qed.

(** When every element is within the buffers, the loop gets to the end. *)
Lemma loop_returns n : in_range n -> (n = 0%nat \/ srcPos + Z.of_nat (pred n * w) < endPos) ->
  endPos <= srcPos + Z.of_nat (n * w) ->
  returns (fun fuel => run (swap_step get put (Z.of_nat w) src dest endPos) fuel (m0, srcPos, destPos))
    (<[dest.(buf) := written n]> m0, Ok tt).
Proof using All.
  intros Hn Hlt Hle. apply returns_run. exists (n + 1)%nat. split; [|done].
  rewrite run_add, loop_prefix by done. cbn [run]. unfold swap_step, loop_at.
  destruct (Z.ltb_spec (srcPos + Z.of_nat (n * w)) endPos); [lia|done].
Qed.

(** When the destination ends in front of an element, the loop throws there. *)
Lemma loop_overflows k : in_range k -> srcPos + Z.of_nat (k * w) < endPos ->
  srcPos + Z.of_nat (S k * w) <= src.(lim) -> dest.(lim) < destPos + Z.of_nat (S k * w) ->
  (0 < w <= 8)%nat ->
  returns (fun fuel => run (swap_step get put (Z.of_nat w) src dest endPos) fuel (m0, srcPos, destPos))
    (<[dest.(buf) := written k]> m0, Throw overflow).
Proof using All.
  intros Hk Hlt Hs Hd' Hw. apply returns_run. exists (k + 1)%nat. split; [|done].
  rewrite run_add, loop_prefix; [|done|right; destruct k; cbn [pred]; nia]. cbn [run].
  unfold swap_step, loop_at. destruct (Z.ltb_spec (srcPos + Z.of_nat (k * w)) endPos); [|lia].
  rewrite Hmoves, read_element by (done || by apply arrays_written). cbn [mbind result_bind].
  pose proof dest_fits. pose proof src_fits.
  assert (length (turned src dest (take w (drop (k * w) data))) = w) as Hlen by
    (rewrite length_turned, length_take; unfold data; rewrite !length_drop; lia).
  destruct Hk as [Hk1 Hk2]. rewrite write_at_beyond; rewrite ?Hlen; [done|lia..].
Qed.
End Loop.

(** ** swapLeafData *)

Section Leaf.
Context {methods : ByteBufferMethods} {laws : ByteBufferLaws methods}.
Context (swapAll : arrays -> ByteBuffer -> ByteBuffer -> Z -> Z -> Z -> ending).

(** Every type with elements has its loop. *)
Lemma leaf_dispatch type w m src dest srcPos destPos len : element_width type = Some w ->
  exists get put (n : nat), w = Z.of_nat n /\ (0 < n <= 8)%nat /\ moves get put w /\
    forall fuel, swapLeafData swapAll type m src dest srcPos destPos len fuel =
      run (swap_step get put w src dest (u64 (srcPos + 4 * len))) fuel (m, srcPos, destPos).
Proof using laws.
  intros Hw. destruct type; try discriminate Hw; injection Hw as <-;
    first [ exists getLong, putLong, 8%nat; split_and!; [done|lia|lia|apply moves_long|done]
          | exists getInt, putInt, 4%nat; split_and!; [done|lia|lia|apply moves_int|done]
          | exists getShort, putShort, 2%nat; split_and!; [done|lia|lia|apply moves_short|done]
          | exists getByte, put, 1%nat; split_and!; [done|lia|lia|apply moves_byte|done] ].
Qed.

(** The number of elements the loop goes through: those that begin in the data. *)
Definition element_count (len w : Z) : nat := Z.to_nat ((4 * len + w - 1) / w).

Lemma element_count_bounds len (w : nat) : 0 <= len -> (0 < w)%nat ->
  4 * len <= Z.of_nat (element_count len (Z.of_nat w) * w) /\
  (element_count len (Z.of_nat w) = 0%nat \/
   Z.of_nat (pred (element_count len (Z.of_nat w)) * w) < 4 * len).
Proof.
  intros Hl Hw. unfold element_count. set (n := (4 * len + Z.of_nat w - 1) / Z.of_nat w).
  assert (0 <= n) as Hn by (apply Z.div_pos; lia).
  assert (Z.of_nat w * n <= 4 * len + Z.of_nat w - 1 < Z.of_nat w * n + Z.of_nat w) as Hb.
  { pose proof (Z.mod_pos_bound (4 * len + Z.of_nat w - 1) (Z.of_nat w)).
    pose proof (Z.div_mod (4 * len + Z.of_nat w - 1) (Z.of_nat w)). unfold n. lia. }
  clearbody n. split; [nia|]. destruct (decide (n = 0)) as [->|]; [by left|]. right. nia.
Qed.

(** C13: Data whose elements lie within both buffers go from the source position to
    the destination position, each element with its bytes in the same order if the
    buffers have the same byte order and reversed if not, and no other byte of any
    array changes.  The buffers may be separate, or be the same bytes of one array;
    the loop ends.  A last element that begins inside the data is moved whole. *)
Theorem swapLeafData_moves type w m src dest a d srcPos destPos len
    (Hw : element_width type = Some w) (Hlen : 0 <= len) (Hm : arrays_ok m)
    (Hsrc : buffer_ok m src) (Hdest : buffer_ok m dest)
    (Ha : m !! src.(buf) = Some a) (Hd : m !! dest.(buf) = Some d) (Hsp : 0 <= srcPos) (Hdp : 0 <= destPos)
    (Happart : src.(buf) <> dest.(buf) \/ src.(off) + srcPos = dest.(off) + destPos)
    (Hs : srcPos + w * Z.of_nat (element_count len w) <= src.(lim))
    (Ht : destPos + w * Z.of_nat (element_count len w) <= dest.(lim)) :
  returns (swapLeafData swapAll type m src dest srcPos destPos len)
    (<[dest.(buf) := splice (Z.to_nat (dest.(off) + destPos))
        (turned_all src dest (Z.to_nat w) (element_count len w)
           (drop (Z.to_nat (src.(off) + srcPos)) a)) d]> m, Ok tt).
Proof using laws.
  destruct (leaf_dispatch type w m src dest srcPos destPos len Hw) as (get & put & n & -> & Hn & Hmv & Heq).
  destruct (element_count_bounds len n Hlen) as [Hc1 Hc2]; [lia|].
  pose proof (src_fits m src a Hsrc Ha) as (So & Sf & Ss).
  rewrite u64_small in Heq by lia. rewrite Nat2Z.id.
  destruct (loop_returns get put n Hmv m src dest a d srcPos destPos (srcPos + 4 * len) Hm Hsrc Hdest
    Ha Hd Hsp Hdp Happart (element_count len (Z.of_nat n))) as [N HN].
  - split; lia.
  - destruct Hc2; [by left|right; lia].
  - lia.
  - exists N. intros f Hf. rewrite Heq. by apply HN.
Qed.

(** When the destination ends before the data, the elements that fit are moved
    and std::overflow_error is thrown by the ByteBuffer, not the EvioException the
    comment on swapLeafData names; the source must hold the next element. *)
Theorem swapLeafData_overflow type w m src dest a d srcPos destPos len k
    (Hw : element_width type = Some w) (Hlen : 0 <= len) (Hm : arrays_ok m)
    (Hsrc : buffer_ok m src) (Hdest : buffer_ok m dest)
    (Ha : m !! src.(buf) = Some a) (Hd : m !! dest.(buf) = Some d) (Hsp : 0 <= srcPos) (Hdp : 0 <= destPos)
    (Happart : src.(buf) <> dest.(buf) \/ src.(off) + srcPos = dest.(off) + destPos)
    (Hs : srcPos + 4 * len <= src.(lim)) (Hk : w * (Z.of_nat k + 1) <= 4 * len)
    (Ht : destPos + w * Z.of_nat k <= dest.(lim) < destPos + w * (Z.of_nat k + 1)) :
  returns (swapLeafData swapAll type m src dest srcPos destPos len)
    (<[dest.(buf) := splice (Z.to_nat (dest.(off) + destPos))
        (turned_all src dest (Z.to_nat w) k (drop (Z.to_nat (src.(off) + srcPos)) a)) d]> m,
     Throw "buffer overflow"%string).
Proof using laws.
  destruct (leaf_dispatch type w m src dest srcPos destPos len Hw) as (get & put & n & -> & Hn & Hmv & Heq).
  pose proof (src_fits m src a Hsrc Ha) as (So & Sf & Ss).
  rewrite u64_small in Heq by lia. rewrite Nat2Z.id.
  destruct (loop_overflows get put n Hmv m src dest a d srcPos destPos (srcPos + 4 * len) Hm Hsrc Hdest
    Ha Hd Hsp Hdp Happart k) as [N HN]; [split; lia | nia | nia | nia | done |].
  exists N. intros f Hf. rewrite Heq. by apply HN.
Qed.

(** With one buffer for both, at one position, nothing changes: data are not
    swapped in place, the byte order of a buffer being that of all its data. *)
Theorem swapLeafData_in_place type w m b a p len
    (Hw : element_width type = Some w) (Hlen : 0 <= len) (Hm : arrays_ok m) (Hb : buffer_ok m b)
    (Ha : m !! b.(buf) = Some a) (Hp : 0 <= p)
    (Hs : p + w * Z.of_nat (element_count len w) <= b.(lim)) :
  returns (swapLeafData swapAll type m b b p p len) (m, Ok tt).
Proof using laws.
  pose proof (swapLeafData_moves type w m b b a a p p len Hw Hlen Hm Hb Hb Ha Ha Hp Hp
    (or_intror eq_refl) Hs Hs) as H.
  rewrite turned_all_same in H by done. unfold splice in H.
  destruct (leaf_dispatch type w m b b p p len Hw) as (_ & _ & n & -> & Hn & _).
  rewrite Nat2Z.id in H.
  rewrite length_take_le in H.
  - rewrite <- drop_drop, take_drop, take_drop, insert_id in H by done. exact H.
  - pose proof (src_fits m b a Hb Ha) as (So & Sf & Ss). rewrite length_drop. lia.
Qed.
End Leaf.

(** ** Examples *)

Definition arrays_example : arrays :=
  list_to_map [(1%positive, [1; 2; 3; 4; 5; 6; 7; 8]); (2%positive, [0; 0; 0; 0; 0; 0; 0; 0; 0; 0])].
Definition src_example : ByteBuffer := mk_buffer 0 8 0 1%positive ENDIAN_LITTLE.
(** A slice that begins at the third byte of its array. *)
Definition dest_example : ByteBuffer := mk_buffer 0 8 2 2%positive ENDIAN_BIG.
Definition no_composite : arrays -> ByteBuffer -> ByteBuffer -> Z -> Z -> Z -> ending :=
  fun m _ _ _ _ _ => (m, Ok tt).

Lemma arrays_example_ok : arrays_ok arrays_example.
Proof.
  unfold arrays_ok. apply map_Forall_insert_2; [by repeat constructor; lia|].
  apply map_Forall_insert_2; [by repeat constructor; lia|]. apply map_Forall_empty.
Qed.
Lemma src_example_ok : buffer_ok arrays_example src_example.
Proof. split; cbn; [lia|lia| |lia]. eexists. split; [by vm_compute|]. split; [cbn; lia|by repeat constructor; lia]. Qed.
Lemma dest_example_ok : buffer_ok arrays_example dest_example.
Proof. split; cbn; [lia|lia| |lia]. eexists. split; [by vm_compute|]. split; [cbn; lia|by repeat constructor; lia]. Qed.

Lemma swapLeafData_moves_witness :
  returns (swapLeafData (methods := java) no_composite INT32 arrays_example src_example dest_example 0 0 2)
    (<[2%positive := [0; 0; 4; 3; 2; 1; 8; 7; 6; 5]]> arrays_example, Ok tt).
Proof.
  exact (swapLeafData_moves (laws := java_laws) no_composite INT32 4 arrays_example src_example dest_example
    [1; 2; 3; 4; 5; 6; 7; 8] [0; 0; 0; 0; 0; 0; 0; 0; 0; 0] 0 0 2 eq_refl ltac:(lia) arrays_example_ok
    src_example_ok dest_example_ok ltac:(by vm_compute) ltac:(by vm_compute) ltac:(lia) ltac:(lia)
    ltac:(by left) ltac:(by vm_compute) ltac:(by vm_compute)).
Defined.

Lemma swapLeafData_overflow_witness :
  returns (swapLeafData (methods := java) no_composite SHORT16 arrays_example src_example dest_example 0 5 2)
    (<[2%positive := [0; 0; 0; 0; 0; 0; 0; 2; 1; 0]]> arrays_example, Throw "buffer overflow"%string).
Proof.
  exact (swapLeafData_overflow (laws := java_laws) no_composite SHORT16 2 arrays_example src_example dest_example
    [1; 2; 3; 4; 5; 6; 7; 8] [0; 0; 0; 0; 0; 0; 0; 0; 0; 0] 0 5 2 1 eq_refl ltac:(lia) arrays_example_ok
    src_example_ok dest_example_ok ltac:(by vm_compute) ltac:(by vm_compute) ltac:(lia) ltac:(lia)
    ltac:(by left) ltac:(by vm_compute) ltac:(by vm_compute) ltac:(by vm_compute)).
Defined.

(** With an odd length, the last 64-bit element ends one word behind the data. *)
Example long_beyond_data :
  swapLeafData (methods := java) no_composite LONG64 arrays_example src_example dest_example 0 0 1 10
  = Halt (<[2%positive := [0; 0; 8; 7; 6; 5; 4; 3; 2; 1]]> arrays_example, Ok tt).
Proof. by vm_compute. Qed.
