(* ===== verification/EvioBlock.v ===== *)
(** Block headers of evio versions 2 and 4 (BlockHeaderV2.h, BlockHeaderV4.h): the
    sixth word of a version 4 header with its version and bit information, checks
    of the setters, positions, and writing a header into a ByteBuffer. *)
From stdpp Require Import gmap.
From S2P Require Import Prelude Bytes ByteOrder EvioBuffer.

Definition MAGIC_NUMBER : Z := 0xc0da0100.

(** ** Bit information

    A std::bitset<24> is the number that has its bits. *)

Definition set_bit (s i : Z) (v : bool) : Z := if v then Z.setbit s i else Z.clearbit s i.
Definition is_bits (s : Z) : Prop := 0 <= s < 16777216.

(** The indices of a bitset, in the order of the loops. *)
Definition indices (n : nat) : list Z := map Z.of_nat (seq 0 n).

Definition EV_DICTIONARY_MASK : Z := 0x100.
Definition EV_LASTBLOCK_MASK : Z := 0x200.
Definition EV_EVENTTYPE_MASK : Z := 0x3C00.
Definition EV_FIRSTEVENT_MASK : Z := 0x4000.

(** The static functions on a sixth word. *)
Definition word_hasDictionary (i : Z) : bool := 0 <? Z.land i EV_DICTIONARY_MASK.
Definition word_isLastBlock (i : Z) : bool := 0 <? Z.land i EV_LASTBLOCK_MASK.
Definition word_hasFirstEvent (i : Z) : bool := 0 <? Z.land i EV_FIRSTEVENT_MASK.
Definition setLastBlockBit (i : Z) : Z := Z.lor i EV_LASTBLOCK_MASK.
Definition clearLastBlockBit (i : Z) : Z := Z.land i (u32 (Z.lnot EV_LASTBLOCK_MASK)).
Definition setFirstEventBit (i : Z) : Z := Z.lor i EV_FIRSTEVENT_MASK.
Definition clearFirstEventBit (i : Z) : Z := Z.land i (u32 (Z.lnot EV_FIRSTEVENT_MASK)).

(** The static functions on a bitset. *)
Definition setFirstEvent (bSet : Z) : Z := set_bit bSet 6 true.
Definition unsetFirstEvent (bSet : Z) : Z := set_bit bSet 6 false.
Definition setEventType (bSet type : Z) : Z :=
  let type := if 15 <? type then 15 else type in
  fold_left (fun b i => set_bit b i (0 <? Z.land (Z.shiftr type (i - 2)) 1)) [2; 3; 4; 5] bSet.

(** [for (i=0; i < bitInfo.size(); i++) if (bitInfo[i]) v |= (0x1 << (8+i));] *)
Definition add_bits (bits v : Z) : Z :=
  fold_left (fun v i => if Z.testbit bits i then Z.lor v (u32 (Z.shiftl 1 (8 + i))) else v) (indices 24) v.

(** The four overloads of generateSixthWord. *)
Definition generateSixthWord_set (set : Z) : Z := add_bits set 4.
Definition generateSixthWord_flags (bSet : Z) (hasDictionary isEnd : bool) : Z :=
  let v := add_bits bSet 4 in
  let v := if hasDictionary then Z.lor v 0x100 else v in
  if isEnd then Z.lor v 0x200 else v.
Definition generateSixthWord_type (version : Z) (hasDictionary isEnd : bool) (eventType : Z) : Z :=
  let v := version in
  let v := if hasDictionary then Z.lor v 0x100 else v in
  let v := if isEnd then Z.lor v 0x200 else v in
  Z.lor v (Z.shiftl (Z.land eventType 0xf) 10).
Definition generateSixthWord_all (bSet version : Z) (hasDictionary isEnd : bool) (eventType : Z) : Z :=
  let v := add_bits bSet version in
  let v := if hasDictionary then Z.lor v 0x100 else v in
  let v := if isEnd then Z.lor v 0x200 else v in
  Z.lor v (Z.shiftl (Z.land eventType 0xf) 10).

(** ** Version 4 *)

Record BlockHeaderV4 := mk_v4 {
  v4_size : Z; v4_number : Z; v4_headerLength : Z; v4_eventCount : Z; v4_version : Z;
  v4_reserved1 : Z; v4_reserved2 : Z; v4_bitInfo : Z; v4_magicNumber : Z;
  v4_byteOrder : endian; v4_start : Z
}.

Section V4.
Context {host : Host}.
Definition V4_default : BlockHeaderV4 := mk_v4 0 1 8 0 4 0 0 0 MAGIC_NUMBER nativeOrder 0.
Definition V4_make (sz num : Z) : BlockHeaderV4 := mk_v4 sz num 8 0 4 0 0 0 MAGIC_NUMBER nativeOrder 0.
End V4.

(** Every field is copied. *)
Definition V4_copy (h blkHeader : BlockHeaderV4) : BlockHeaderV4 :=
  mk_v4 blkHeader.(v4_size) blkHeader.(v4_number) blkHeader.(v4_headerLength) blkHeader.(v4_eventCount)
    blkHeader.(v4_version) blkHeader.(v4_reserved1) blkHeader.(v4_reserved2) blkHeader.(v4_bitInfo)
    blkHeader.(v4_magicNumber) blkHeader.(v4_byteOrder) blkHeader.(v4_start).

Definition set_v4_bits (b : Z) (h : BlockHeaderV4) : BlockHeaderV4 :=
  mk_v4 h.(v4_size) h.(v4_number) h.(v4_headerLength) h.(v4_eventCount) h.(v4_version)
    h.(v4_reserved1) h.(v4_reserved2) b h.(v4_magicNumber) h.(v4_byteOrder) h.(v4_start).

(** The messages of the exceptions end with the number refused. *)
Definition bad_size : string := "Bad value for size in block (physical record) header: ".
Definition bad_magic : string := "Value for magicNumber, does not match MAGIC_NUMBER 0xc0da0100".

Definition V4_setSize (sz : Z) (h : BlockHeaderV4) : result BlockHeaderV4 :=
  if sz <? 8 then Throw bad_size
  else Ok (mk_v4 sz h.(v4_number) h.(v4_headerLength) h.(v4_eventCount) h.(v4_version)
    h.(v4_reserved1) h.(v4_reserved2) h.(v4_bitInfo) h.(v4_magicNumber) h.(v4_byteOrder) h.(v4_start)).
(** An unsigned count is never negative. *)
Definition V4_setEventCount (count : Z) (h : BlockHeaderV4) : BlockHeaderV4 :=
  mk_v4 h.(v4_size) h.(v4_number) h.(v4_headerLength) count h.(v4_version)
    h.(v4_reserved1) h.(v4_reserved2) h.(v4_bitInfo) h.(v4_magicNumber) h.(v4_byteOrder) h.(v4_start).
(** A length other than 8 is only warned about. *)
Definition V4_setHeaderLength (len : Z) (h : BlockHeaderV4) : BlockHeaderV4 :=
  mk_v4 h.(v4_size) h.(v4_number) len h.(v4_eventCount) h.(v4_version)
    h.(v4_reserved1) h.(v4_reserved2) h.(v4_bitInfo) h.(v4_magicNumber) h.(v4_byteOrder) h.(v4_start).
Definition V4_setMagicNumber (magicNum : Z) (h : BlockHeaderV4) : result BlockHeaderV4 :=
  if negb (magicNum =? MAGIC_NUMBER) then Throw bad_magic
  else Ok (mk_v4 h.(v4_size) h.(v4_number) h.(v4_headerLength) h.(v4_eventCount) h.(v4_version)
    h.(v4_reserved1) h.(v4_reserved2) h.(v4_bitInfo) MAGIC_NUMBER h.(v4_byteOrder) h.(v4_start)).

(** Setters that check nothing. *)
Definition V4_setNumber (num : Z) (h : BlockHeaderV4) : BlockHeaderV4 :=
  mk_v4 h.(v4_size) num h.(v4_headerLength) h.(v4_eventCount) h.(v4_version)
    h.(v4_reserved1) h.(v4_reserved2) h.(v4_bitInfo) h.(v4_magicNumber) h.(v4_byteOrder) h.(v4_start).
Definition V4_setVersion (ver : Z) (h : BlockHeaderV4) : BlockHeaderV4 :=
  mk_v4 h.(v4_size) h.(v4_number) h.(v4_headerLength) h.(v4_eventCount) ver
    h.(v4_reserved1) h.(v4_reserved2) h.(v4_bitInfo) h.(v4_magicNumber) h.(v4_byteOrder) h.(v4_start).
Definition V4_setReserved1 (r1 : Z) (h : BlockHeaderV4) : BlockHeaderV4 :=
  mk_v4 h.(v4_size) h.(v4_number) h.(v4_headerLength) h.(v4_eventCount) h.(v4_version)
    r1 h.(v4_reserved2) h.(v4_bitInfo) h.(v4_magicNumber) h.(v4_byteOrder) h.(v4_start).
Definition V4_setReserved2 (r2 : Z) (h : BlockHeaderV4) : BlockHeaderV4 :=
  mk_v4 h.(v4_size) h.(v4_number) h.(v4_headerLength) h.(v4_eventCount) h.(v4_version)
    h.(v4_reserved1) r2 h.(v4_bitInfo) h.(v4_magicNumber) h.(v4_byteOrder) h.(v4_start).
Definition V4_setByteOrder (order : endian) (h : BlockHeaderV4) : BlockHeaderV4 :=
  mk_v4 h.(v4_size) h.(v4_number) h.(v4_headerLength) h.(v4_eventCount) h.(v4_version)
    h.(v4_reserved1) h.(v4_reserved2) h.(v4_bitInfo) h.(v4_magicNumber) order h.(v4_start).
(** The position is kept as int64_t. *)
Definition V4_setBufferStartingPosition (pos : Z) (h : BlockHeaderV4) : BlockHeaderV4 :=
  mk_v4 h.(v4_size) h.(v4_number) h.(v4_headerLength) h.(v4_eventCount) h.(v4_version)
    h.(v4_reserved1) h.(v4_reserved2) h.(v4_bitInfo) h.(v4_magicNumber) h.(v4_byteOrder) (i64 pos).

Definition V4_hasDictionary (h : BlockHeaderV4) : bool := Z.testbit h.(v4_bitInfo) 0.
Definition V4_isLastBlock (h : BlockHeaderV4) : bool := Z.testbit h.(v4_bitInfo) 1.
Definition V4_hasFirstEvent (h : BlockHeaderV4) : bool := Z.testbit h.(v4_bitInfo) 6.
Definition V4_getEventType (h : BlockHeaderV4) : Z :=
  fold_left (fun type i => if Z.testbit h.(v4_bitInfo) (i + 2) then Z.lor type (u32 (Z.shiftl 1 i)) else type)
    (indices 4) 0.
Definition V4_getBitInfo (bitIndex : Z) (h : BlockHeaderV4) : bool :=
  if 23 <? bitIndex then false else Z.testbit h.(v4_bitInfo) bitIndex.
Definition V4_setBit (bitIndex : Z) (value : bool) (h : BlockHeaderV4) : BlockHeaderV4 :=
  if 23 <? bitIndex then h else set_v4_bits (set_bit h.(v4_bitInfo) bitIndex value) h.

Definition V4_getSixthWord (h : BlockHeaderV4) : Z := add_bits h.(v4_bitInfo) (Z.land h.(v4_version) 0xff).
Definition V4_parseToBitInfo (word : Z) (h : BlockHeaderV4) : BlockHeaderV4 :=
  set_v4_bits (fold_left (fun b i => set_bit b i (0 <? Z.land (Z.shiftr word (8 + i)) 1)) (indices 24)
    h.(v4_bitInfo)) h.

(** Positions are size_t; [4*size] is uint32_t. *)
Definition V4_getBufferEndingPosition (h : BlockHeaderV4) : Z := u64 (h.(v4_start) + u32 (4 * h.(v4_size))).
Definition V4_nextBufferStartingPosition (h : BlockHeaderV4) : Z := V4_getBufferEndingPosition h.
Definition V4_firstEventStartingPosition (h : BlockHeaderV4) : Z :=
  u64 (h.(v4_start) + u32 (4 * h.(v4_headerLength))).
Definition before_buffer : string := "Provided position is less than buffer starting position.".
Definition beyond_buffer : string := "Provided position beyond buffer end position.".
Definition V4_bytesRemaining (position : Z) (h : BlockHeaderV4) : result Z :=
  if position <? u64 h.(v4_start) then Throw before_buffer
  else
    let nextBufferStart := V4_nextBufferStartingPosition h in
    if nextBufferStart <? position then Throw beyond_buffer else Ok (u64 (nextBufferStart - position)).

Section Write.
Context {methods : ByteBufferMethods}.

(** [byteBuffer.putInt(...)] one after another. *)
Fixpoint putInts (m : arrays) (b : ByteBuffer) (vs : list Z) : result (arrays * ByteBuffer) :=
  match vs with
  | [] => Ok (m, b)
  | v :: vs => mb ← putInt_next m b v; putInts mb.1 mb.2 vs
  end.

Definition no_room : string := "not enough room in buffer to write".

Definition V4_write (h : BlockHeaderV4) (m : arrays) (byteBuffer : ByteBuffer)
    : result (Z * (arrays * ByteBuffer)) :=
  if remaining byteBuffer <? 32 then Throw no_room
  else
    mb ← putInts m byteBuffer [h.(v4_size); h.(v4_number); h.(v4_headerLength); h.(v4_eventCount);
      0; V4_getSixthWord h; 0; h.(v4_magicNumber)];
    Ok (32, mb).
End Write.

(** ** Version 2 *)

Definition MAX_BLOCK_SIZE : Z := 32768.

Record BlockHeaderV2 := mk_v2 {
  v2_size : Z; v2_number : Z; v2_headerLength : Z; v2_start : Z; v2_end : Z; v2_version : Z;
  v2_reserved1 : Z; v2_magicNumber : Z; v2_byteOrder : endian; v2_bufferStart : Z
}.

Section V2.
Context {host : Host}.
Definition V2_default : BlockHeaderV2 := mk_v2 0 1 8 8 0 2 0 MAGIC_NUMBER nativeOrder 0.
(** [end = size] *)
Definition V2_make (sz num : Z) : BlockHeaderV2 := mk_v2 sz num 8 8 sz 2 0 MAGIC_NUMBER nativeOrder 0.
End V2.

Definition V2_copy (h blkHeader : BlockHeaderV2) : BlockHeaderV2 :=
  mk_v2 blkHeader.(v2_size) blkHeader.(v2_number) blkHeader.(v2_headerLength) blkHeader.(v2_start)
    blkHeader.(v2_end) blkHeader.(v2_version) blkHeader.(v2_reserved1) blkHeader.(v2_magicNumber)
    blkHeader.(v2_byteOrder) blkHeader.(v2_bufferStart).

Definition bad_start : string := "Bad value for start in block (physical record) header: ".
Definition bad_end : string := "Bad value for end in block (physical record) header: ".
Definition bad_header_length : string := "Bad Block (Physical Record) Header Length: ".

Definition V2_setSize (sz : Z) (h : BlockHeaderV2) : result BlockHeaderV2 :=
  if (sz <? 8) || (MAX_BLOCK_SIZE <? sz) then Throw bad_size
  else Ok (mk_v2 sz h.(v2_number) h.(v2_headerLength) h.(v2_start) h.(v2_end) h.(v2_version)
    h.(v2_reserved1) h.(v2_magicNumber) h.(v2_byteOrder) h.(v2_bufferStart)).
Definition V2_setStart (strt : Z) (h : BlockHeaderV2) : result BlockHeaderV2 :=
  if (strt <? 0) || (MAX_BLOCK_SIZE <? strt) then Throw bad_start
  else Ok (mk_v2 h.(v2_size) h.(v2_number) h.(v2_headerLength) strt h.(v2_end) h.(v2_version)
    h.(v2_reserved1) h.(v2_magicNumber) h.(v2_byteOrder) h.(v2_bufferStart)).
Definition V2_setEnd (endd : Z) (h : BlockHeaderV2) : result BlockHeaderV2 :=
  if (endd <? 8) || (MAX_BLOCK_SIZE <? endd) then Throw bad_end
  else Ok (mk_v2 h.(v2_size) h.(v2_number) h.(v2_headerLength) h.(v2_start) endd h.(v2_version)
    h.(v2_reserved1) h.(v2_magicNumber) h.(v2_byteOrder) h.(v2_bufferStart)).
Definition V2_setHeaderLength (len : Z) (h : BlockHeaderV2) : result BlockHeaderV2 :=
  if negb (len =? 8) then Throw bad_header_length
  else Ok (mk_v2 h.(v2_size) h.(v2_number) len h.(v2_start) h.(v2_end) h.(v2_version)
    h.(v2_reserved1) h.(v2_magicNumber) h.(v2_byteOrder) h.(v2_bufferStart)).
Definition V2_setMagicNumber (magicNum : Z) (h : BlockHeaderV2) : result BlockHeaderV2 :=
  if negb (magicNum =? MAGIC_NUMBER) then Throw bad_magic
  else Ok (mk_v2 h.(v2_size) h.(v2_number) h.(v2_headerLength) h.(v2_start) h.(v2_end) h.(v2_version)
    h.(v2_reserved1) MAGIC_NUMBER h.(v2_byteOrder) h.(v2_bufferStart)).

(** Setters that check nothing. *)
Definition V2_setNumber (num : Z) (h : BlockHeaderV2) : BlockHeaderV2 :=
  mk_v2 h.(v2_size) num h.(v2_headerLength) h.(v2_start) h.(v2_end)
    h.(v2_version) h.(v2_reserved1) h.(v2_magicNumber) h.(v2_byteOrder) h.(v2_bufferStart).
Definition V2_setVersion (ver : Z) (h : BlockHeaderV2) : BlockHeaderV2 :=
  mk_v2 h.(v2_size) h.(v2_number) h.(v2_headerLength) h.(v2_start) h.(v2_end)
    ver h.(v2_reserved1) h.(v2_magicNumber) h.(v2_byteOrder) h.(v2_bufferStart).
Definition V2_setReserved1 (r1 : Z) (h : BlockHeaderV2) : BlockHeaderV2 :=
  mk_v2 h.(v2_size) h.(v2_number) h.(v2_headerLength) h.(v2_start) h.(v2_end)
    h.(v2_version) r1 h.(v2_magicNumber) h.(v2_byteOrder) h.(v2_bufferStart).
Definition V2_setByteOrder (order : endian) (h : BlockHeaderV2) : BlockHeaderV2 :=
  mk_v2 h.(v2_size) h.(v2_number) h.(v2_headerLength) h.(v2_start) h.(v2_end)
    h.(v2_version) h.(v2_reserved1) h.(v2_magicNumber) order h.(v2_bufferStart).
Definition V2_setBufferStartingPosition (pos : Z) (h : BlockHeaderV2) : BlockHeaderV2 :=
  mk_v2 h.(v2_size) h.(v2_number) h.(v2_headerLength) h.(v2_start) h.(v2_end)
    h.(v2_version) h.(v2_reserved1) h.(v2_magicNumber) h.(v2_byteOrder) pos.

Definition V2_getBufferEndingPosition (h : BlockHeaderV2) : Z := u64 (h.(v2_bufferStart) + u32 (4 * h.(v2_end))).
Definition V2_nextBufferStartingPosition (h : BlockHeaderV2) : Z :=
  u64 (h.(v2_bufferStart) + u32 (4 * h.(v2_size))).
Definition V2_firstEventStartingPosition (h : BlockHeaderV2) : Z :=
  if h.(v2_start) =? 0 then 0 else u64 (h.(v2_bufferStart) + u32 (4 * h.(v2_start))).
Definition V2_bytesRemaining (position : Z) (h : BlockHeaderV2) : result Z :=
  if position <? h.(v2_bufferStart) then Throw before_buffer
  else
    let nextBufferStart := V2_nextBufferStartingPosition h in
    if nextBufferStart <? position then Throw beyond_buffer else Ok (u64 (nextBufferStart - position)).

Definition V2_write {methods : ByteBufferMethods} (h : BlockHeaderV2) (m : arrays) (byteBuffer : ByteBuffer)
    : result (Z * (arrays * ByteBuffer)) :=
  if remaining byteBuffer <? 32 then Throw no_room
  else
    mb ← putInts m byteBuffer [h.(v2_size); h.(v2_number); h.(v2_headerLength); h.(v2_start);
      h.(v2_end); h.(v2_version); h.(v2_reserved1); h.(v2_magicNumber)];
    Ok (32, mb).

(** ** Bits *)

Lemma land_1_testbit w k : 0 <= k -> (0 <? Z.land (Z.shiftr w k) 1) = Z.testbit w k.
Proof.
  intros Hk. change 1 with (Z.ones 1). rewrite Z.land_ones, Z.shiftr_div_pow2 by lia.
  change (2 ^ 1) with 2. pose proof (Z.mod_pos_bound (w / 2 ^ k) 2).
  destruct (Z.testbit w k) eqn:Ht.
  - apply Z.testbit_true in Ht; [|done]. by rewrite Ht.
  - apply Z.testbit_false in Ht; [|done]. by rewrite Ht.
Qed.

Lemma set_bit_testbit s i v j : 0 <= i ->
  Z.testbit (set_bit s i v) j = if j =? i then v else Z.testbit s j.
Proof.
  intros Hi. unfold set_bit. rewrite Z.eqb_sym. destruct v.
  - rewrite Z.setbit_eqb by done. by destruct (i =? j).
  - rewrite Z.clearbit_eqb. destruct (i =? j); cbn; [apply andb_false_r | apply andb_true_r].
Qed.

(** A loop that sets the bits with some indices. *)
Lemma set_bits_testbit (f : Z -> bool) l b j : Forall (fun i => 0 <= i) l ->
  Z.testbit (fold_left (fun b i => set_bit b i (f i)) l b) j =
    if existsb (Z.eqb j) l then f j else Z.testbit b j.
Proof.
  intros Hl. revert b. induction Hl as [|i l Hi _ IH]; intros b; cbn; [done|].
  rewrite IH, set_bit_testbit by done. destruct (Z.eqb_spec j i) as [->|]; cbn; [|done].
  by destruct (existsb _ l).
Qed.

(** A loop that ORs in the bits of a number, [k] places higher. *)
Lemma or_bits_testbit (p : Z -> bool) (k : Z) l v j : Forall (fun i => 0 <= k + i < 32) l -> 0 <= j ->
  Z.testbit (fold_left (fun v i => if p i then Z.lor v (u32 (Z.shiftl 1 (k + i))) else v) l v) j =
    Z.testbit v j || existsb (Z.eqb (j - k)) l && p (j - k).
Proof.
  intros Hl Hj. revert v. induction Hl as [|i l Hi _ IH]; intros v; cbn; [by rewrite orb_false_r|].
  rewrite IH. destruct (p i) eqn:Hp.
  - rewrite Z.lor_spec. replace (u32 (Z.shiftl 1 (k + i))) with (2 ^ (k + i)).
    2: { rewrite Z.shiftl_1_l, u32_small; [done|]. split; [lia|].
         change 4294967296 with (2 ^ 32). apply Z.pow_lt_mono_r; lia. }
    rewrite Z.pow2_bits_eqb by lia. destruct (Z.eqb_spec (k + i) j), (Z.eqb_spec (j - k) i); try lia; cbn.
    + subst i. rewrite Hp. by destruct (Z.testbit v j), (existsb _ l).
    + by rewrite orb_false_r.
  - destruct (Z.eqb_spec (j - k) i) as [->|]; cbn; [|done]. rewrite Hp. by rewrite !andb_false_r.
Qed.

Lemma indices_exists n j : existsb (Z.eqb j) (indices n) = (0 <=? j) && (j <? Z.of_nat n).
Proof.
  apply eq_true_iff_eq. rewrite existsb_exists, andb_true_iff, Z.leb_le, Z.ltb_lt. unfold indices.
  split.
  - intros (x & Hx & ->%Z.eqb_eq). apply in_map_iff in Hx as (i & <- & Hi%in_seq). lia.
  - intros H. exists j. split; [|by apply Z.eqb_eq]. apply in_map_iff.
    exists (Z.to_nat j). split; [lia|]. apply in_seq. lia.
Qed.

Lemma indices_Forall (P : Z -> Prop) n : (forall i, 0 <= i < Z.of_nat n -> P i) -> Forall P (indices n).
Proof.
  intros HP. unfold indices. apply Forall_map, Forall_forall. intros i Hi%elem_of_seq. apply HP. lia.
Qed.

(** A number below [2^n] has no bit from [n] on. *)
Lemma testbit_above a n j : 0 <= a < 2 ^ n -> n <= j -> Z.testbit a j = false.
Proof.
  intros Ha Hj. destruct (Z.eq_dec a 0) as [->|]; [apply Z.testbit_0_l|].
  destruct (Z.le_gt_cases 0 n).
  - apply Z.bits_above_log2; [lia|]. apply Z.log2_lt_pow2; [lia|].
    eapply Z.lt_le_trans; [apply Ha|]. apply Z.pow_le_mono_r; lia.
  - rewrite Z.pow_neg_r in Ha by done. lia.
Qed.

Lemma is_bits_above s j : is_bits s -> 24 <= j -> Z.testbit s j = false.
Proof. intros Hs Hj. by apply (testbit_above s 24). Qed.

(** The bits of a sixth word: those of the version, and those of the set eight
    places higher. *)
Lemma add_bits_testbit s v j : is_bits s -> 0 <= j ->
  Z.testbit (add_bits s v) j = Z.testbit v j || (8 <=? j) && Z.testbit s (j - 8).
Proof.
  intros Hs Hj. unfold add_bits. rewrite or_bits_testbit; [|apply indices_Forall; lia|done]. f_equal.
  rewrite indices_exists. change (Z.of_nat 24) with 24.
  destruct (Z.leb_spec 8 j), (Z.leb_spec 0 (j - 8)); try lia; cbn.
  destruct (Z.ltb_spec (j - 8) 24); [done|]. by rewrite is_bits_above.
Qed.

(** Numbers with the same bits up to the width are the same. *)
Lemma bits_inj_width a b n : 0 <= a < 2 ^ n -> 0 <= b < 2 ^ n ->
  (forall j, 0 <= j < n -> Z.testbit a j = Z.testbit b j) -> a = b.
Proof.
  intros Ha Hb H. apply Z.bits_inj'. intros j Hj. destruct (Z.le_gt_cases n j).
  - by rewrite (testbit_above a n), (testbit_above b n).
  - by apply H.
Qed.

(** What has only bits below [n] is below [2^n]. *)
Lemma bits_below a n : 0 <= n -> 0 <= a -> (forall j, n <= j -> Z.testbit a j = false) -> a < 2 ^ n.
Proof.
  intros Hn Ha H. destruct (Z.eq_dec a 0) as [->|]; [by apply Z.pow_pos_nonneg|].
  apply Z.log2_lt_pow2; [lia|]. destruct (Z.le_gt_cases n (Z.log2 a)); [|done].
  specialize (H (Z.log2 a)). rewrite Z.bit_log2 in H by lia. by discriminate H.
Qed.

(** ** The sixth word *)

Lemma testbit_ff x j : 0 <= j -> Z.testbit (Z.land x 0xff) j = (j <? 8) && Z.testbit x j.
Proof.
  intros Hj. change 0xff with (Z.ones 8). rewrite Z.land_spec, Z.testbit_ones by lia.
  destruct (Z.ltb_spec j 8), (Z.leb_spec 0 j); try lia; cbn; apply andb_true_r.
Qed.

Lemma sixth_word_testbit h j : is_bits h.(v4_bitInfo) -> 0 <= j ->
  Z.testbit (V4_getSixthWord h) j =
    (if j <? 8 then Z.testbit h.(v4_version) j else Z.testbit h.(v4_bitInfo) (j - 8)).
Proof.
  intros Hb Hj. unfold V4_getSixthWord. rewrite add_bits_testbit, testbit_ff by done.
  destruct (Z.ltb_spec j 8), (Z.leb_spec 8 j); try lia; cbn; by rewrite ?orb_false_r.
Qed.

Lemma parse_testbit w h j :
  Z.testbit (V4_parseToBitInfo w h).(v4_bitInfo) j =
    if (0 <=? j) && (j <? 24) then Z.testbit w (8 + j) else Z.testbit h.(v4_bitInfo) j.
Proof.
  unfold V4_parseToBitInfo. cbn [v4_bitInfo set_v4_bits].
  rewrite (set_bits_testbit (fun i => 0 <? Z.land (Z.shiftr w (8 + i)) 1)) by (apply indices_Forall; lia).
  rewrite indices_exists. change (Z.of_nat 24) with 24.
  destruct (Z.leb_spec 0 j); cbn; [|done]. destruct (j <? 24); [|done]. apply land_1_testbit. lia.
Qed.

Lemma sixth_word_u32 h : is_bits h.(v4_bitInfo) -> is_u32 (V4_getSixthWord h).
Proof.
  intros Hb. assert (0 <= V4_getSixthWord h) as H0.
  { apply Z.bits_iff_nonneg_ex. exists 32. intros j Hj.
    rewrite sixth_word_testbit by (done || lia). destruct (Z.ltb_spec j 8); [lia|]. apply is_bits_above; [done|lia]. }
  split; [done|]. change 4294967296 with (2 ^ 32). apply bits_below; [done..|].
  intros j Hj. rewrite sixth_word_testbit by (done || lia).
  destruct (Z.ltb_spec j 8); [lia|]. apply is_bits_above; [done|lia].
Qed.

Lemma bits_of_parse w h : is_bits h.(v4_bitInfo) -> is_bits (V4_parseToBitInfo w h).(v4_bitInfo).
Proof.
  intros Hb. assert (forall j, 24 <= j -> Z.testbit (V4_parseToBitInfo w h).(v4_bitInfo) j = false) as Ha.
  { intros j Hj. rewrite parse_testbit. destruct (Z.leb_spec 0 j), (Z.ltb_spec j 24); try lia; cbn.
    by apply is_bits_above. }
  assert (0 <= (V4_parseToBitInfo w h).(v4_bitInfo)) as H0.
  { apply Z.bits_iff_nonneg_ex. exists 24. intros j Hj. apply Ha. lia. }
  split; [done|]. change 16777216 with (2 ^ 24). by apply bits_below.
Qed.

Lemma sixth_word_low h : is_bits h.(v4_bitInfo) ->
  Z.land (V4_getSixthWord h) 0xff = Z.land h.(v4_version) 0xff.
Proof.
  intros Hh. apply Z.bits_inj'. intros j Hj. rewrite !testbit_ff, sixth_word_testbit by done.
  by destruct (j <? 8).
Qed.

Lemma parse_only_bits w h : V4_parseToBitInfo w h = set_v4_bits (V4_parseToBitInfo w h).(v4_bitInfo) h.
Proof. reflexivity. Qed.

(** C26: The sixth word of a version 4 header and the bit information determine each
    other: parsing the word that getSixthWord computes gives the bit information
    back, the word's low byte being the version; and of any word the parsed bit
    information and its low byte as version give that word again. *)
Theorem sixth_word_roundtrip h h' word (Hh : is_bits h.(v4_bitInfo)) (Hh' : is_bits h'.(v4_bitInfo))
    (Hw : is_u32 word) :
  is_u32 (V4_getSixthWord h) /\
  V4_parseToBitInfo (V4_getSixthWord h) h' = set_v4_bits h.(v4_bitInfo) h' /\
  Z.land (V4_getSixthWord h) 0xff = Z.land h.(v4_version) 0xff /\
  V4_getSixthWord (V4_setVersion (Z.land word 0xff) (V4_parseToBitInfo word h')) = word.
Proof.
  split; [by apply sixth_word_u32|]. split; [|split].
  - rewrite parse_only_bits. f_equal. apply (bits_inj_width _ _ 24); [by apply bits_of_parse | done |]. intros j Hj.
      rewrite parse_testbit. destruct (Z.leb_spec 0 j), (Z.ltb_spec j 24); try lia. cbn [andb].
      rewrite sixth_word_testbit by (done || lia). destruct (Z.ltb_spec (8 + j) 8); [lia|]. f_equal. lia.
  - by apply sixth_word_low.
  - pose proof (bits_of_parse word h' Hh') as Hb.
    apply (bits_inj_width _ _ 32); [by apply sixth_word_u32 | exact Hw |]. intros j Hj.
    rewrite sixth_word_testbit by (done || lia).
    change (v4_bitInfo (V4_setVersion (Z.land word 255) (V4_parseToBitInfo word h')))
      with (v4_bitInfo (V4_parseToBitInfo word h')).
    rewrite parse_testbit. cbn [v4_version V4_setVersion]. rewrite testbit_ff by lia.
    destruct (Z.ltb_spec j 8); cbn [andb]; [done|].
    destruct (Z.leb_spec 0 (j - 8)), (Z.ltb_spec (j - 8) 24); try lia. cbn [andb]. f_equal. lia.
Qed.

(** ** Single bits *)

Lemma land_pow2_testbit i k : 0 <= k -> (0 <? Z.land i (2 ^ k)) = Z.testbit i k.
Proof.
  intros Hk. assert (Z.land i (2 ^ k) = if Z.testbit i k then 2 ^ k else 0) as ->.
  { apply Z.bits_inj'. intros j Hj. rewrite Z.land_spec, Z.pow2_bits_eqb by done.
    destruct (Z.eqb_spec k j) as [->|Hne].
    - rewrite andb_true_r. destruct (Z.testbit i j) eqn:Hb; [|by rewrite Z.testbit_0_l].
      by rewrite Z.pow2_bits_true.
    - rewrite andb_false_r. destruct (Z.testbit i k); [|by rewrite Z.testbit_0_l].
      by rewrite Z.pow2_bits_false. }
  destruct (Z.testbit i k); [|done]. apply Z.ltb_lt. lia.
Qed.

Lemma setEventType_testbit bs t j : 0 <= t ->
  Z.testbit (setEventType bs t) j =
    if (2 <=? j) && (j <? 6) then Z.testbit (Z.min t 15) (j - 2) else Z.testbit bs j.
Proof.
  intros Ht. unfold setEventType.
  replace (if 15 <? t then 15 else t) with (Z.min t 15) by (destruct (Z.ltb_spec 15 t); lia).
  set (t' := Z.min t 15).
  rewrite (set_bits_testbit (fun i => 0 <? Z.land (Z.shiftr t' (i - 2)) 1)) by by repeat constructor.
  assert (existsb (Z.eqb j) [2; 3; 4; 5] = (2 <=? j) && (j <? 6)) as -> by (cbn [existsb]; lia).
  destruct (Z.leb_spec 2 j); cbn [andb]; [|done]. destruct (j <? 6); [|done].
  apply land_1_testbit. lia.
Qed.

Lemma getEventType_testbit h j : 0 <= j ->
  Z.testbit (V4_getEventType h) j = (j <? 4) && Z.testbit h.(v4_bitInfo) (j + 2).
Proof.
  intros Hj. unfold V4_getEventType.
  pose proof (or_bits_testbit (fun i => Z.testbit h.(v4_bitInfo) (i + 2)) 0 (indices 4) 0 j) as H.
  rewrite Z.testbit_0_l, Z.sub_0_r, indices_exists in H. change (Z.of_nat 4) with 4 in H.
  destruct (Z.leb_spec 0 j); [|lia]. apply H; [|done]. apply indices_Forall. lia.
Qed.

(** An event type that is put into a bit set is the one the header answers,
    types above 15 counting as 15; the other bits stay, and the type put in is also
    found in bits 10 to 13 of the sixth word. *)
Theorem event_type_roundtrip h bs t (Ht : 0 <= t) (Hbs : is_bits bs) :
  V4_getEventType (set_v4_bits (setEventType bs t) h) = Z.min t 15 /\
  (forall j, j < 2 \/ 5 < j -> Z.testbit (setEventType bs t) j = Z.testbit bs j) /\
  Z.shiftr (Z.land (V4_getSixthWord (set_v4_bits (setEventType bs t) h)) EV_EVENTTYPE_MASK) 10 = Z.min t 15.
Proof.
  assert (forall j, 0 <= j -> Z.testbit (Z.min t 15) j = (j <? 4) && Z.testbit (Z.min t 15) j) as Hmin.
  { intros j Hj. destruct (Z.ltb_spec j 4); [done|]. apply (testbit_above _ 4); lia. }
  assert (is_bits (setEventType bs t)) as Hs.
  { assert (forall j, 24 <= j -> Z.testbit (setEventType bs t) j = false) as Hab.
    { intros j Hj. rewrite setEventType_testbit by done.
      destruct (Z.ltb_spec j 6); [lia|]. rewrite andb_false_r. by apply is_bits_above. }
    assert (0 <= setEventType bs t) by (apply Z.bits_iff_nonneg_ex; exists 24; intros; apply Hab; lia).
    split; [done|]. change 16777216 with (2 ^ 24). by apply bits_below. }
  split; [|split].
  - apply Z.bits_inj'. intros j Hj. rewrite getEventType_testbit, Hmin by done.
    cbn [v4_bitInfo set_v4_bits]. rewrite setEventType_testbit by done.
    destruct (Z.ltb_spec j 4), (Z.leb_spec 2 (j + 2)), (Z.ltb_spec (j + 2) 6); try lia; cbn [andb]; try done.
    f_equal. lia.
  - intros j Hj. rewrite setEventType_testbit by done.
    destruct (Z.leb_spec 2 j), (Z.ltb_spec j 6); try lia; done.
  - apply Z.bits_inj'. intros j Hj. rewrite Z.shiftr_spec, Z.land_spec, Hmin by done.
    rewrite sixth_word_testbit by (done || lia). cbn [v4_bitInfo set_v4_bits].
    change EV_EVENTTYPE_MASK with (Z.shiftl (Z.ones 4) 10).
    rewrite Z.shiftl_spec, Z.testbit_ones by lia. replace (j + 10 - 10) with j by lia.
    destruct (Z.ltb_spec (j + 10) 8); [lia|]. destruct (Z.leb_spec 0 j); [|lia].
    rewrite setEventType_testbit by done.
    destruct (Z.ltb_spec j 4), (Z.leb_spec 2 (j + 10 - 8)), (Z.ltb_spec (j + 10 - 8) 6); try lia; cbn [andb].
    rewrite andb_true_r. f_equal. lia.
Qed.

(** What the static functions say of a sixth word is what the header says, and
    setting or clearing a flag of a word changes nothing else. *)
Theorem sixth_word_flags h (Hh : is_bits h.(v4_bitInfo)) i (Hi : is_u32 i) :
  word_hasDictionary (V4_getSixthWord h) = V4_hasDictionary h /\
  word_isLastBlock (V4_getSixthWord h) = V4_isLastBlock h /\
  word_hasFirstEvent (V4_getSixthWord h) = V4_hasFirstEvent h /\
  (forall j, 0 <= j -> Z.testbit (setLastBlockBit i) j = (j =? 9) || Z.testbit i j) /\
  (forall j, 0 <= j -> Z.testbit (clearLastBlockBit i) j = negb (j =? 9) && Z.testbit i j) /\
  (forall j, 0 <= j -> Z.testbit (setFirstEventBit i) j = (j =? 14) || Z.testbit i j) /\
  (forall j, 0 <= j -> Z.testbit (clearFirstEventBit i) j = negb (j =? 14) && Z.testbit i j).
Proof.
  unfold word_hasDictionary, word_isLastBlock, word_hasFirstEvent.
  change EV_DICTIONARY_MASK with (2 ^ 8). change EV_LASTBLOCK_MASK with (2 ^ 9).
  change EV_FIRSTEVENT_MASK with (2 ^ 14). rewrite !land_pow2_testbit, !sixth_word_testbit by done.
  split; [done|]. split; [done|]. split; [done|].
  assert (forall k, 0 <= k < 32 -> forall j, 0 <= j ->
    Z.testbit (Z.land i (u32 (Z.lnot (2 ^ k)))) j = negb (j =? k) && Z.testbit i j) as Hclear.
  { intros k Hk j Hj. rewrite Z.land_spec. unfold u32. change 4294967296 with (2 ^ 32).
    destruct (Z.ltb_spec j 32).
    - rewrite Z.mod_pow2_bits_low, Z.lnot_spec, Z.pow2_bits_eqb, Z.eqb_sym by lia. apply andb_comm.
    - rewrite (testbit_above i 32) by done. by rewrite andb_false_r. }
  unfold setLastBlockBit, setFirstEventBit, clearLastBlockBit, clearFirstEventBit.
  change EV_LASTBLOCK_MASK with (2 ^ 9). change EV_FIRSTEVENT_MASK with (2 ^ 14).
  split_and!; intros j Hj; try (by apply Hclear);
    rewrite Z.lor_spec, Z.pow2_bits_eqb, Z.eqb_sym by done; apply orb_comm.
Qed.

(** The version is not masked here, unlike in getSixthWord: a version above 255 gets
    into the flags. *)
Example version_in_flags :
  word_hasDictionary (generateSixthWord_type 0x104 false false 0) = true /\
  word_hasDictionary (V4_getSixthWord (V4_setVersion 0x104 (V4_default (host := ENDIAN_LITTLE)))) = false.
Proof. by vm_compute. Qed.

(** ** Writing *)

Section Writing.
Context {methods : ByteBufferMethods} {laws : ByteBufferLaws methods}.

(** The bytes of words in the byte order of a buffer. *)
Definition words_in (b : ByteBuffer) (vs : list Z) : list Z := concat (map (bytes_of b 4) vs).

Lemma length_words_in b vs : length (words_in b vs) = (4 * length vs)%nat.
Proof.
  unfold words_in. induction vs as [|v vs IH]; [done|]. cbn [map concat length].
  rewrite length_app, IH. unfold bytes_of. rewrite length_order_bytes. lia.
Qed.

Lemma putInts_words vs m b a : m !! b.(buf) = Some a -> b.(off) + b.(lim) <= zlen a -> 0 <= b.(off) ->
  b.(off) + b.(lim) < 9223372036854775808 -> 0 <= b.(pos) -> b.(pos) + 4 * zlen vs <= b.(lim) ->
  putInts m b vs = Ok (<[b.(buf) := splice (Z.to_nat (b.(off) + b.(pos))) (words_in b vs) a]> m,
    set_pos (b.(pos) + 4 * zlen vs) b).
Proof using laws.
  revert m b a. induction vs as [|v vs IH]; intros m b a Ha Hfit Ho Hs Hp Hroom.
  - cbn. rewrite splice_nil by lia. rewrite insert_id by done. destruct b; cbn. by rewrite Z.add_0_r.
  - assert (zlen (bytes_of b 4 v) = 4) as Hl by (unfold bytes_of; by rewrite length_order_bytes).
    cbn [length] in Hroom. cbn [putInts]. rewrite putInt_next_law.
    rewrite (write_next_ok m b a Ha Hfit Ho Hs) by lia. cbn [mbind result_bind fst snd]. rewrite Hl.
    assert (zlen (splice (Z.to_nat (off b + pos b)) (bytes_of b 4 v) a) = zlen a) as Hla
      by (rewrite length_splice; lia).
    set (a' := splice _ (bytes_of b 4 v) a) in *.
    rewrite (IH (<[b.(buf) := a']> m) (set_pos (pos b + 4) b) a');
      [|by rewrite lookup_insert_eq|cbn [buf off lim pos set_pos]; lia..].
    cbn [buf off lim pos set_pos]. rewrite insert_insert_eq. unfold a'. do 2 f_equal; [f_equal|].
    + replace (Z.to_nat (off b + (pos b + 4))) with
        (Z.to_nat (off b + pos b) + length (bytes_of b 4 v))%nat by lia.
      rewrite splice_adjacent; [done|]. rewrite length_words_in. lia.
    + unfold set_pos. cbn. f_equal. lia.
Qed.

(** The eight words of a header. *)
Definition V4_words (h : BlockHeaderV4) : list Z :=
  [h.(v4_size); h.(v4_number); h.(v4_headerLength); h.(v4_eventCount); 0; V4_getSixthWord h; 0;
   h.(v4_magicNumber)].
Definition V2_words (h : BlockHeaderV2) : list Z :=
  [h.(v2_size); h.(v2_number); h.(v2_headerLength); h.(v2_start); h.(v2_end); h.(v2_version);
   h.(v2_reserved1); h.(v2_magicNumber)].

Lemma write_words vs m b a : length vs = 8%nat -> m !! b.(buf) = Some a -> buffer_ok m b ->
  b.(pos) + 32 <= b.(lim) ->
  putInts m b vs = Ok (<[b.(buf) := splice (Z.to_nat (b.(off) + b.(pos))) (words_in b vs) a]> m,
    set_pos (b.(pos) + 32) b).
Proof using laws.
  intros Hl Ha [Hp Ho (a' & Ha' & Hfit & _) Hs] Hroom. rewrite Ha in Ha'. injection Ha' as <-.
  rewrite (putInts_words vs m b a) by (done || lia). by rewrite Hl.
Qed.

(** A header of either version is written as its eight words, in the byte order of
    the buffer, from the position on, which moves 32 bytes; with less than 32 bytes
    remaining, an overflow_error is thrown instead. *)
Theorem headers_written h4 h2 m b a (Ha : m !! b.(buf) = Some a) (Hb : buffer_ok m b) :
  let into ws := Ok (32, (<[b.(buf) := splice (Z.to_nat (b.(off) + b.(pos))) (words_in b ws) a]> m,
                           set_pos (b.(pos) + 32) b)) in
  if decide (b.(pos) + 32 <= b.(lim))
  then V4_write h4 m b = into (V4_words h4) /\ V2_write h2 m b = into (V2_words h2)
  else V4_write h4 m b = Throw no_room /\ V2_write h2 m b = Throw no_room.
Proof using laws.
  cbn zeta. pose proof Hb as [Hp Ho _ Hs]. unfold V4_write, V2_write.
  fold (V4_words h4) (V2_words h2). rewrite remaining_law, u64_small by lia.
  case_decide.
  - destruct (Z.ltb_spec (lim b - pos b) 32); [lia|].
    rewrite (write_words (V4_words h4) m b a) by done. by rewrite (write_words (V2_words h2) m b a) by done.
  - by destruct (Z.ltb_spec (lim b - pos b) 32); [|lia].
Qed.

(** The first reserved word, which getSourceId answers, is not written. *)
Theorem source_id_not_written h r m b : V4_write (V4_setReserved1 r h) m b = V4_write h m b.
Proof using.
  unfold V4_write. replace (V4_getSixthWord (V4_setReserved1 r h)) with (V4_getSixthWord h) by
    (unfold V4_getSixthWord; destruct h; cbn [v4_bitInfo v4_version V4_setReserved1]; reflexivity).
  destruct h. cbn [v4_size v4_number v4_headerLength v4_eventCount v4_magicNumber V4_setReserved1]. reflexivity.
Qed.
End Writing.

(** ** Positions *)

(** With a size below 2^30 words, the bytes that remain of a version 4 block are
    those up to its end, 4 bytes a word, for positions in it, and others are refused;
    a block of 2^30 words or more is taken for 2^32 bytes less. *)
Theorem bytesRemaining_spec h p (Hsz : is_u32 h.(v4_size)) (Hp : 0 <= p)
    (Hst : 0 <= h.(v4_start) < 9223372036854775808) :
  (h.(v4_size) < 1073741824 ->
   V4_nextBufferStartingPosition h = h.(v4_start) + 4 * h.(v4_size) /\
   V4_bytesRemaining p h =
     if p <? h.(v4_start) then Throw before_buffer
     else if h.(v4_start) + 4 * h.(v4_size) <? p then Throw beyond_buffer
     else Ok (h.(v4_start) + 4 * h.(v4_size) - p)) /\
  (1073741824 <= h.(v4_size) < 2147483648 ->
   V4_nextBufferStartingPosition h = h.(v4_start) + 4 * h.(v4_size) - 4294967296).
Proof.
  unfold is_u32 in Hsz. unfold V4_bytesRemaining, V4_nextBufferStartingPosition, V4_getBufferEndingPosition.
  split.
  - intros Hlt. rewrite (u32_small (4 * _)), !u64_small by (rewrite ?u32_small; lia).
    split; [done|]. destruct (p <? v4_start h) eqn:H1; [done|].
    destruct (v4_start h + 4 * v4_size h <? p) eqn:H2; [done|]. rewrite u64_small by lia. done.
  - intros Hle. assert (u32 (4 * v4_size h) = 4 * v4_size h - 4294967296) as -> by wrap_lia.
    rewrite u64_small by lia. lia.
Qed.

(** Version 2 is refused out of its bounds by the setters, and keeps to them. *)
Theorem V2_setters h v h' :
  (V2_setSize v h = Ok h' -> 8 <= h'.(v2_size) <= MAX_BLOCK_SIZE) /\
  (V2_setEnd v h = Ok h' -> 8 <= h'.(v2_end) <= MAX_BLOCK_SIZE) /\
  (V2_setStart v h = Ok h' -> 0 <= h'.(v2_start) <= MAX_BLOCK_SIZE) /\
  (V2_setHeaderLength v h = Ok h' -> h'.(v2_headerLength) = 8) /\
  (V2_setMagicNumber v h = Ok h' -> h'.(v2_magicNumber) = MAGIC_NUMBER).
Proof.
  unfold V2_setSize, V2_setEnd, V2_setStart, V2_setHeaderLength, V2_setMagicNumber, MAX_BLOCK_SIZE.
  split_and!.
  1-3: destruct (_ || _) eqn:H; [done|]; intros [= <-]; apply orb_false_iff in H as [H1 H2]; cbn; lia.
  - destruct (Z.eqb_spec v 8); cbn; [|done]. by intros [= <-].
  - destruct (v =? MAGIC_NUMBER); cbn; [|done]. by intros [= <-].
Qed.

(** ** Examples *)

#[local] Instance little_host : Host := ENDIAN_LITTLE.
(** A dictionary (bit 0), the event type 3 (bits 2 and 3) and bit 23. *)
Definition v4_example : BlockHeaderV4 := set_v4_bits 0x80000d (V4_make 100 7).

Lemma sixth_word_roundtrip_witness :
  V4_getSixthWord v4_example = 0x80000d04 /\
  V4_parseToBitInfo 0x80000d04 V4_default = set_v4_bits 0x80000d V4_default /\
  V4_getSixthWord (V4_setVersion 0x56 (V4_parseToBitInfo 0x12345656 V4_default)) = 0x12345656.
Proof.
  destruct (sixth_word_roundtrip v4_example V4_default 0x12345656) as (_ & H1 & _ & H2);
    [by vm_compute..|].
  split; [by vm_compute|]. split; [exact H1|exact H2].
Defined.

Lemma event_type_roundtrip_witness :
  V4_getEventType (set_v4_bits (setEventType 0x800001 5) V4_default) = 5.
Proof. exact (proj1 (event_type_roundtrip V4_default 0x800001 5 ltac:(lia) ltac:(by vm_compute))). Defined.

Definition block_buffer : ByteBuffer := mk_buffer 4 40 0 1%positive ENDIAN_BIG.
Definition block_arrays : arrays := {[ 1%positive := replicate 40 0 ]}.

Lemma block_buffer_ok : buffer_ok block_arrays block_buffer.
Proof. split; cbn; [lia|lia| |lia]. eexists. split; [by vm_compute|]. split; [cbn; lia|by repeat constructor; lia]. Qed.

Lemma headers_written_witness :
  V4_write (methods := java) v4_example block_arrays block_buffer =
    Ok (32, (<[1%positive := [0; 0; 0; 0; 0; 0; 0; 100; 0; 0; 0; 7; 0; 0; 0; 8; 0; 0; 0; 0; 0; 0; 0; 0;
                              128; 0; 13; 4; 0; 0; 0; 0; 192; 218; 1; 0; 0; 0; 0; 0]]> block_arrays,
             mk_buffer 36 40 0 1%positive ENDIAN_BIG)).
Proof.
  exact (proj1 (headers_written (laws := java_laws) v4_example (V2_make 100 7) block_arrays block_buffer
    (replicate 40 0) ltac:(by vm_compute) block_buffer_ok)).
Defined.
