(* ===== verification/EvioVersion.v ===== *)
(** findEvioVersion of Util.h: the version and the byte order of what a buffer holds,
    from the header of its first block; and that it finds those of any header that
    was written by the block headers. *)
From stdpp Require Import gmap.
From S2P Require Import Prelude Bytes ByteOrder EvioBuffer EvioBlock.

(** ** findEvioVersion *)

Definition MAGIC_OFFSET : Z := 28.
Definition BIT_INFO_OFFSET : Z := 20.
Definition VERSION_MASK : Z := 0xff.

(** [bb.order(byteOrder)] *)
Definition set_order (o : endian) (b : ByteBuffer) : ByteBuffer :=
  mk_buffer b.(pos) b.(lim) b.(off) b.(buf) o.

Definition short_header : string := "not enough data to read in header".
Definition bad_magic_number : string := "magic number is bad, ".

Section Find.
Context {methods : ByteBufferMethods}.

(** From "Find the version number" on. *)
Definition version_at (m : arrays) (bb : ByteBuffer) (initialPos : Z) : result Z :=
  bitInfo ← getUInt m bb (u64 (initialPos + BIT_INFO_OFFSET));
  Ok (Z.land bitInfo VERSION_MASK).

(** The answer, and the buffer, whose byte order may have been set. *)
Definition findEvioVersion (m : arrays) (bb : ByteBuffer) (initialPos : Z) : result Z * ByteBuffer :=
  if u64 (bb.(lim) - initialPos) <? 32 then (Throw short_header, bb)
  else
    match getUInt m bb (u64 (initialPos + MAGIC_OFFSET)) with
    | Ok magicNumber =>
      if negb (magicNumber =? MAGIC_NUMBER) then
        let bb := set_order (if isBigEndian bb.(byteOrder) then ENDIAN_LITTLE else ENDIAN_BIG) bb in
        match getInt m bb (u64 (initialPos + MAGIC_OFFSET)) with
        | Ok magicNumber =>
          if negb (u32 magicNumber =? MAGIC_NUMBER) then (Throw bad_magic_number, bb)
          else (version_at m bb initialPos, bb)
        | Throw e => (Throw e, bb)
        | UB => (UB, bb)
        end
      else (version_at m bb initialPos, bb)
    | Throw e => (Throw e, bb)
    | UB => (UB, bb)
    end.

Context {laws : ByteBufferLaws methods}.

(** ** Words in a buffer *)

Lemma word_of_words b vs i v : vs !! i = Some v ->
  take 4 (drop (4 * i) (words_in b vs)) = bytes_of b 4 v.
Proof using.
  unfold words_in. revert i. induction vs as [|w vs IH]; intros [|i] Hi; [done|done| |].
  - injection Hi as ->. cbn [map concat]. rewrite drop_0, take_app_length'; [done|].
    unfold bytes_of. by rewrite length_order_bytes.
  - cbn [map concat]. replace (4 * S i)%nat with (length (bytes_of b 4 w) + 4 * i)%nat
      by (unfold bytes_of; rewrite length_order_bytes; lia).
    rewrite <- drop_drop, drop_app_length. by apply IH.
Qed.

(** A buffer whose position [p] begins a header: eight words in byte order [o]. *)
Record header_at (m : arrays) (b : ByteBuffer) (p : Z) (o : endian) (vs : list Z) : Prop := {
  at_words : length vs = 8%nat;
  at_magic : vs !! 7%nat = Some MAGIC_NUMBER;
  at_room : 0 <= p /\ p + 32 <= b.(lim) /\ 0 <= b.(off) /\ b.(off) + b.(lim) < 9223372036854775808;
  at_bytes : exists a, m !! b.(buf) = Some a /\ b.(off) + b.(lim) <= zlen a /\
    take 32 (drop (Z.to_nat (b.(off) + p)) a) = words_in (set_order o b) vs
}.

Lemma read_header_word m b p o vs i v : header_at m b p o vs -> vs !! i = Some v ->
  read_at m b 4 (p + 4 * Z.of_nat i) = Ok (order_bytes o 4 v).
Proof using.
  intros [Hl _ (Hp & Hroom & Ho & Hs) (a & Ha & Hfit & Hw)] Hi.
  pose proof (lookup_lt_Some _ _ _ Hi) as Hlt.
  rewrite (read_at_ok m b a Ha Hfit Ho Hs) by lia. f_equal.
  pose proof (word_of_words (set_order o b) vs i v Hi) as H. rewrite <- Hw in H.
  rewrite skipn_firstn_comm, take_take, drop_drop, Nat.min_l in H by lia.
  unfold bytes_of in H. cbn [byteOrder set_order] in H. rewrite <- H. do 2 f_equal. lia.
Qed.

(** The magic number read in the other byte order is another one. *)
Lemma magic_order o o' : u32 (order_val o' (order_bytes o 4 MAGIC_NUMBER)) = MAGIC_NUMBER <-> o' = o.
Proof using. destruct o, o'; vm_compute; split; done. Qed.

Lemma header_at_order m b p o o' vs : header_at m b p o vs -> header_at m (set_order o' b) p o vs.
Proof using. intros [H1 H2 H3 H4]. split; done. Qed.

(** At a header with the right magic number, whatever the byte order of the buffer
    was, the version found is the low byte of the sixth word, and the buffer has the
    byte order of the header afterwards. *)
Theorem version_found m b p o vs w (Hat : header_at m b p o vs) (Hw : vs !! 5%nat = Some w) :
  findEvioVersion m b p = (Ok (Z.land (u32 w) VERSION_MASK), set_order o b).
Proof using laws.
  pose proof (at_magic _ _ _ _ _ Hat) as Hm. pose proof (at_room _ _ _ _ _ Hat) as (Hp & Hroom & Ho & Hs).
  assert (version_at m (set_order o b) p = Ok (Z.land (u32 w) VERSION_MASK)) as Hv.
  { unfold version_at, BIT_INFO_OFFSET. rewrite getUInt_law, u64_small by lia.
    change (p + 20) with (p + 4 * Z.of_nat 5). rewrite (read_header_word m (set_order o b) p o vs 5 w) by (done || by apply header_at_order).
    cbn [mbind result_bind]. unfold value. cbn [byteOrder set_order]. do 2 f_equal.
    assert (order_val o (order_bytes o 4 w) = w mod 4294967296) as -> by
      (destruct o; cbn [order_val order_bytes]; [apply le_val_bytes | apply be_val_bytes]).
    apply u32_idemp. }
  unfold findEvioVersion. rewrite u64_small by lia. destruct (Z.ltb_spec (lim b - p) 32); [lia|].
  unfold MAGIC_OFFSET. rewrite getUInt_law, (u64_small (p + 28)) by lia.
  change (p + 28) with (p + 4 * Z.of_nat 7).
  rewrite (read_header_word m b p o vs 7 MAGIC_NUMBER) by done. cbn [mbind result_bind].
  unfold value. destruct (Z.eqb_spec (u32 (order_val (byteOrder b) (order_bytes o 4 MAGIC_NUMBER))) MAGIC_NUMBER)
    as [He|Hne]; cbn [negb].
  - apply magic_order in He. assert (set_order o b = b) as Hb by (destruct b; cbn in *; by subst).
    rewrite Hb in Hv |- *. by rewrite Hv.
  - assert ((if isBigEndian (byteOrder b) then ENDIAN_LITTLE else ENDIAN_BIG) = o) as ->.
    { destruct (decide (byteOrder b = o)) as [He|He]; [by apply magic_order in He|].
      unfold isBigEndian. by destruct (byteOrder b), o. }
    rewrite getInt_law, (read_header_word m (set_order o b) p o vs 7 MAGIC_NUMBER) by
      (done || by apply header_at_order).
    cbn [mbind result_bind]. unfold value. cbn [byteOrder set_order].
    assert (u32 (i32 (order_val o (order_bytes o 4 MAGIC_NUMBER))) = MAGIC_NUMBER) as -> by
      (destruct o; by vm_compute).
    rewrite Z.eqb_refl. cbn [negb]. by rewrite Hv.
Qed.
End Find.

(** ** Headers that were written *)

Section Written.
Context {methods : ByteBufferMethods} {laws : ByteBufferLaws methods}.

(** What is written by a buffer is there for another on the same bytes, whatever its
    position and byte order. *)
Lemma written_at vs m b a r : length vs = 8%nat -> vs !! 7%nat = Some MAGIC_NUMBER ->
  m !! b.(buf) = Some a -> buffer_ok m b -> b.(pos) + 32 <= b.(lim) ->
  r.(buf) = b.(buf) -> r.(off) = b.(off) -> r.(lim) = b.(lim) ->
  header_at (<[b.(buf) := splice (Z.to_nat (b.(off) + b.(pos))) (words_in b vs) a]> m) r b.(pos)
    b.(byteOrder) vs.
Proof using.
  intros Hl Hm Ha [Hp Ho (a' & Ha' & Hfit & _) Hs] Hroom Eb Eo El. rewrite Ha in Ha'. injection Ha' as <-.
  pose proof (length_words_in b vs) as Hlw. rewrite Hl in Hlw.
  split; [done|done|rewrite Eo, El; lia|]. eexists. rewrite Eb, Eo, El.
  split; [apply lookup_insert_eq|]. split; [rewrite length_splice; lia|].
  rewrite load_splice_at by lia. rewrite Nat.sub_diag, drop_0, take_ge by lia. done.
Qed.

(** A block header of version 4 or 2 that is written into a buffer is recognised in
    it, from any byte order a reader of the same bytes starts with: findEvioVersion
    answers the version of the header and leaves the reader with the byte order it was
    written in. *)
Theorem written_version_found h4 h2 m b a r (Ha : m !! b.(buf) = Some a) (Hb : buffer_ok m b)
    (Hroom : b.(pos) + 32 <= b.(lim))
    (Hr : r.(buf) = b.(buf) /\ r.(off) = b.(off) /\ r.(lim) = b.(lim))
    (H4 : is_bits h4.(v4_bitInfo) /\ h4.(v4_magicNumber) = MAGIC_NUMBER)
    (H2 : h2.(v2_magicNumber) = MAGIC_NUMBER) :
  (exists m' b', V4_write h4 m b = Ok (32, (m', b')) /\
     findEvioVersion m' r b.(pos) = (Ok (Z.land h4.(v4_version) 0xff), set_order b.(byteOrder) r)) /\
  (exists m' b', V2_write h2 m b = Ok (32, (m', b')) /\
     findEvioVersion m' r b.(pos) = (Ok (Z.land (u32 h2.(v2_version)) 0xff), set_order b.(byteOrder) r)).
Proof using laws.
  destruct Hr as (Eb & Eo & El), H4 as [Hbits Hmagic]. pose proof Hb as [Hp Ho _ Hs].
  unfold V4_write, V2_write. fold (V4_words h4) (V2_words h2).
  rewrite remaining_law, u64_small by lia. destruct (Z.ltb_spec (lim b - pos b) 32); [lia|].
  rewrite (write_words (V4_words h4) m b a), (write_words (V2_words h2) m b a) by done.
  assert (V4_words h4 !! 7%nat = Some MAGIC_NUMBER) as M4 by (unfold V4_words; by rewrite Hmagic).
  assert (V2_words h2 !! 7%nat = Some MAGIC_NUMBER) as M2 by (unfold V2_words; by rewrite H2).
  cbn [mbind result_bind]. split; eexists _, _; (split; [done|]).
  - rewrite (version_found _ r b.(pos) b.(byteOrder) (V4_words h4) (V4_getSixthWord h4)); [|by apply written_at|done].
    unfold VERSION_MASK. rewrite u32_small by by apply sixth_word_u32. by rewrite sixth_word_low.
  - by rewrite (version_found _ r b.(pos) b.(byteOrder) (V2_words h2) h2.(v2_version)); [|apply written_at|].
Qed.

(** A position behind the limit passes the first check, whose difference wraps; the
    access to the magic number is refused then. *)
Theorem position_behind_limit m b p : 0 <= b.(lim) -> b.(lim) < p ->
  p + 32 < 18446744073709551616 ->
  findEvioVersion m b p = (Throw underflow, b).
Proof using laws.
  intros Hl Hp Hs. unfold findEvioVersion, MAGIC_OFFSET.
  destruct (Z.ltb_spec (u64 (lim b - p)) 32) as [H|_]; [exfalso; revert H; wrap_lia|].
  rewrite getUInt_law, u64_small, read_at_beyond by lia. done.
Qed.
End Written.

(** A reader that takes the big endian block of EvioBlock.v for little endian. *)
Definition reader_example : ByteBuffer := mk_buffer 0 40 0 1%positive ENDIAN_LITTLE.

Lemma written_version_found_witness :
  exists m' b', V4_write (methods := java) v4_example block_arrays block_buffer = Ok (32, (m', b')) /\
    findEvioVersion (methods := java) m' reader_example 4 = (Ok 4, mk_buffer 0 40 0 1%positive ENDIAN_BIG).
Proof.
  exact (proj1 (written_version_found (laws := java_laws) v4_example
    (V2_make (host := ENDIAN_LITTLE) 100 7) block_arrays block_buffer (replicate 40 0) reader_example
    ltac:(by vm_compute) block_buffer_ok ltac:(by vm_compute) ltac:(done) ltac:(by vm_compute) eq_refl)).
Defined.
