(* ===== verification/EvioDict.v ===== *)
(** Entries of an evio dictionary (EvioDictionaryEntry.h): how a range of tags is
    brought into order, and which entries count as equal. *)
From S2P Require Import Prelude EvioUtil.

Inductive EvioDictionaryEntryType := TAG_NUM | TAG_ONLY | TAG_RANGE.
#[export] Instance EntryType_eq_dec : EqDecision EvioDictionaryEntryType.
Proof. solve_decision. Defined.

(** An entry; its parent is an entry behind a shared pointer, or none. *)
#[local] Unset Elimination Schemes.
Inductive EvioDictionaryEntry := mk_entry {
  tag : Z; tagEnd : Z; num : Z; numValid : bool; type : DataType;
  format : list Z; description : list Z; entryType : EvioDictionaryEntryType;
  parentEntry : option EvioDictionaryEntry
}.
#[local] Set Elimination Schemes.

(** The constructor that the others call. *)
Definition entry_full (tag num tagEnd : Z) (numValid : bool) (type : DataType)
    (description format : list Z) (parent : option EvioDictionaryEntry) : EvioDictionaryEntry :=
  let '(t, te, isRange) :=
    if (tagEnd =? tag) || (tagEnd =? 0) then (tag, 0, false)
    else if tagEnd <? tag then (tagEnd, tag, true)
    else (tag, tagEnd, true) in
  let entryType :=
    if negb isRange then (if numValid then TAG_NUM else TAG_ONLY) else TAG_RANGE in
  mk_entry t te num numValid type format description entryType parent.

Definition entry_default : EvioDictionaryEntry := mk_entry 0 0 0 false UNKNOWN32 [] [] TAG_NUM None.
Definition entry_tag_num_type (tag num : Z) (type : DataType) : EvioDictionaryEntry :=
  entry_full tag num 0 true type [] [] None.
Definition entry_tag (tag tagEnd : Z) (type : DataType) (description format : list Z)
    (parent : option EvioDictionaryEntry) : EvioDictionaryEntry :=
  entry_full tag 0 tagEnd false type description format parent.
Definition entry_tag_num (tag num tagEnd : Z) (type : DataType) (description format : list Z)
    (parent : option EvioDictionaryEntry) : EvioDictionaryEntry :=
  entry_full tag num tagEnd true type description format parent.

Definition inRange (e : EvioDictionaryEntry) (tagArg : Z) : bool :=
  negb (e.(tagEnd) =? 0) && (e.(tag) <=? tagArg) && (tagArg <=? e.(tagEnd)).
Definition inRange_entry (e entry : EvioDictionaryEntry) : bool :=
  negb (e.(tagEnd) =? 0) && (e.(tag) <=? entry.(tag)) && (entry.(tag) <=? e.(tagEnd)).

(** [operator==]; [same] says whether both are one object. *)
Definition entry_eq (same : bool) (a other : EvioDictionaryEntry) : bool :=
  if same then true
  else
    let match_ := a.(tag) =? other.(tag) in
    let match_ := match_ && eqb a.(numValid) other.(numValid) in
    let match_ := if a.(numValid) then match_ && (a.(num) =? other.(num)) else match_ in
    let match_ := match_ && (a.(tagEnd) =? other.(tagEnd)) in
    let match_ := match_ && bool_decide (a.(entryType) = other.(entryType)) in
    match a.(parentEntry), other.(parentEntry) with
    | Some p, Some q =>
      let match_ := match_ && (p.(tag) =? q.(tag)) in
      let match_ := match_ && eqb p.(numValid) q.(numValid) in
      let match_ := if p.(numValid) then match_ && (p.(num) =? q.(num)) else match_ in
      match_ && (p.(tagEnd) =? q.(tagEnd))
    | _, _ => match_
    end.
Definition entry_ne (same : bool) (a rhs : EvioDictionaryEntry) : bool := negb (entry_eq same rhs a).

(** ** Ranges *)

(** Entries the constructors make: an end only with a range, and above its beginning. *)
Definition entry_ok (e : EvioDictionaryEntry) : Prop :=
  match e.(entryType) with
  | TAG_NUM => e.(tagEnd) = 0 /\ e.(numValid) = true
  | TAG_ONLY => e.(tagEnd) = 0 /\ e.(numValid) = false
  | TAG_RANGE => 0 <= e.(tag) < e.(tagEnd)
  end.

(** Whatever two tags a constructor is given, the entry has them in order or is no
    range, and tags in range are those between the two, in whichever order these were
    given; without an end, or with one equal to the tag, no tag is in range. *)
Theorem entry_range t n te nv ty ds fm p x (Ht : is_u16 t) (Hte : is_u16 te) (Hx : is_u16 x) :
  let e := entry_full t n te nv ty ds fm p in
  entry_ok e /\
  (inRange e x = true <-> te <> 0 /\ te <> t /\ Z.min t te <= x <= Z.max t te) /\
  (t <> 0 -> te <> 0 -> entry_full te n t nv ty ds fm p = e).
Proof.
  cbn zeta. unfold is_u16 in *. split; [|split].
  - unfold entry_full, entry_ok. destruct (Z.eqb_spec te t), (Z.eqb_spec te 0); cbn; try by destruct nv.
    destruct (Z.ltb_spec te t); cbn; lia.
  - unfold entry_full, inRange. destruct (Z.eqb_spec te t), (Z.eqb_spec te 0); cbn; try (split; [done|lia]).
    destruct (Z.ltb_spec te t); cbn [tagEnd tag];
      rewrite !andb_true_iff, negb_true_iff, Z.eqb_neq, !Z.leb_le; lia.
  - intros H1 H2. unfold entry_full.
    destruct (Z.eqb_spec te t), (Z.eqb_spec t te), (Z.eqb_spec te 0), (Z.eqb_spec t 0); try lia;
      [by subst|]. destruct (Z.ltb_spec te t), (Z.ltb_spec t te); try lia; done.
Qed.

(** ** Equality *)

(** Entries that differ in nothing that is compared, parents aside. *)
Definition same_entry (a b : EvioDictionaryEntry) : Prop :=
  a.(tag) = b.(tag) /\ a.(numValid) = b.(numValid) /\ (a.(numValid) = true -> a.(num) = b.(num)) /\
  a.(tagEnd) = b.(tagEnd).

#[local] Instance same_entry_sym : Symmetric same_entry.
Proof. intros a b (H1 & H2 & H3 & H4). split_and!; [congruence..| |congruence]. intros Hn. symmetry. apply H3. congruence. Qed.

Lemma entry_eq_spec a b : entry_eq false a b = true <->
  same_entry a b /\ a.(entryType) = b.(entryType) /\
  match a.(parentEntry), b.(parentEntry) with Some p, Some q => same_entry p q | _, _ => True end.
Proof.
  unfold entry_eq, same_entry.
  destruct (numValid a) eqn:Ha, (parentEntry a) as [p|], (parentEntry b) as [q|];
    try destruct (numValid p) eqn:Hp;
    rewrite ?andb_true_iff, ?Z.eqb_eq, ?eqb_true_iff, ?bool_decide_eq_true;
    (split; intros H; destruct_and! H; split_and!; auto; congruence).
Qed.

(** Equality of entries is reflexive and symmetric, on one object and on two; it is
    not transitive: an entry without a parent equals entries with different ones. *)
Theorem entry_equality a b :
  entry_eq true a a = true /\ entry_eq false a a = true /\ entry_eq false a b = entry_eq false b a /\
  entry_ne false a b = negb (entry_eq false a b) /\
  (forall p q, ~ same_entry p q ->
     let e := entry_tag_num 1 2 0 UINT32 [] [] in
     entry_eq false (e (Some p)) (e None) = true /\ entry_eq false (e None) (e (Some q)) = true /\
     entry_eq false (e (Some p)) (e (Some q)) = false).
Proof.
  assert (forall x y, entry_eq false x y = true -> entry_eq false y x = true) as Hsym.
  { intros x y. rewrite !entry_eq_spec.
    destruct (parentEntry x), (parentEntry y); intros (H1 & H2 & H3); split_and!; by try symmetry. }
  assert (entry_eq false a b = entry_eq false b a) as Hs.
  { apply eq_true_iff_eq. split; apply Hsym. }
  split_and!; [done| |done|unfold entry_ne; by rewrite Hs|].
  - apply entry_eq_spec. unfold same_entry. by destruct (parentEntry a).
  - intros p q Hne. cbn zeta. split; [done|]. split; [done|].
    apply not_true_iff_false. rewrite entry_eq_spec. cbn. tauto.
Qed.
