(* ===== verification/EvioParser.v ===== *)
(** EventHeaderParser.h: the headers of banks, segments and tag segments, created from
    bytes, and swapped from one ByteBuffer to another. *)
From stdpp Require Import gmap.
From S2P Require Import Prelude Bytes ByteOrder EvioSwap EvioUtil EvioStruct EvioBuffer EvioLeaf.

(** ** Headers *)

(** The setters of BaseStructureHeader, which are only declared, and the table of
    DataType, whose contents are not in the header. *)
Class HeaderSetters := {
  set_length : Z -> header -> header;
  set_tag : Z -> header -> header;
  set_type : Z -> header -> header;
  set_padding : Z -> header -> header;
  set_number : Z -> header -> header;
  intToType : Z -> DataType
}.

Section Types.
Context {setters : HeaderSetters}.
(** [DataType::getDataType(val)] *)
Definition type_of_value (val : Z) : DataType :=
  if (0x24 <? val) || ((0x10 <? val) && (val <? 0x20)) then UNKNOWN32 else intToType val.
End Types.

Class SetterLaws (setters : HeaderSetters) : Prop := {
  set_length_law v h : set_length v h = mk_header v h.(h_tag) h.(h_dataType) h.(h_padding) h.(h_number);
  set_tag_law v h : set_tag v h = mk_header h.(h_length) v h.(h_dataType) h.(h_padding) h.(h_number);
  set_type_law v h :
    set_type v h = mk_header h.(h_length) h.(h_tag) (type_of_value v) h.(h_padding) h.(h_number);
  set_padding_law v h : set_padding v h = mk_header h.(h_length) h.(h_tag) h.(h_dataType) v h.(h_number);
  set_number_law v h : set_number v h = mk_header h.(h_length) h.(h_tag) h.(h_dataType) h.(h_padding) v
}.

(** The initial values of the fields. *)
Definition header_default : header := mk_header 0 0 UNKNOWN32 0 0.

(** [Util::toIntArray(bytes, 4, byteOrder, &word)]: the loop ends after one round. *)
Definition read_word (bytes : list Z) (byteOrder : endian) : result Z :=
  match toIntArray (Some bytes) 4 byteOrder (Some [0]) 2 with
  | Halt (Ok [word]) => Ok word
  | Halt (Throw e) => Throw e
  | _ => UB
  end.

Section Create.
Context {setters : HeaderSetters}.

Definition createBankHeader (bytes : list Z) (byteOrder : endian) : result header :=
  let hd := header_default in
  len ← read_word bytes byteOrder;
  let hd := set_length len hd in
  let bytes := drop 4 bytes in
  word ← read_word bytes byteOrder;
  let hd := set_tag (u16 (Z.shiftr word 16)) hd in
  let dt := Z.land (Z.shiftr word 8) 0xff in
  let type := Z.land dt 0x3f in
  let padding := u8 (Z.shiftr dt 6) in
  let hd := set_type type hd in
  let hd := set_padding padding hd in
  Ok (set_number (u8 word) hd).

Definition createSegmentHeader (bytes : list Z) (byteOrder : endian) : result header :=
  let hd := header_default in
  word ← read_word bytes byteOrder;
  let hd := set_length (Z.land word 0xffff) hd in
  let dt := Z.land (Z.shiftr word 16) 0xff in
  let type := Z.land dt 0x3f in
  let padding := Z.shiftr dt 6 in
  let hd := set_type type hd in
  let hd := set_padding (u8 padding) hd in
  Ok (set_tag (u16 (Z.shiftr word 24)) hd).

Definition createTagSegmentHeader (bytes : list Z) (byteOrder : endian) : result header :=
  let hd := header_default in
  word ← read_word bytes byteOrder;
  let hd := set_length (Z.land word 0xffff) hd in
  let hd := set_type (Z.land (Z.shiftr word 16) 0xf) hd in
  Ok (set_tag (u16 (Z.shiftr word 20)) hd).
End Create.

(** ** Swapping between buffers *)

(** A node, without what it points to. *)
Record EvioNode := mk_node {
  n_len : Z; n_tag : Z; n_num : Z; n_pad : Z; n_pos : Z; n_type : Z; n_dataLen : Z; n_dataPos : Z;
  n_dataType : Z; n_recordPos : Z; n_izEvent : bool; n_obsolete : bool; n_place : Z; n_scanned : bool
}.
Definition fill_node (tag dataType pad num len pos dataPos dataLen : Z) (node : EvioNode) : EvioNode :=
  mk_node len tag num pad pos node.(n_type) dataLen dataPos dataType node.(n_recordPos)
    node.(n_izEvent) node.(n_obsolete) node.(n_place) node.(n_scanned).

Definition same_order : string := "src & dest buffers need different byte order for swapping".

Section SwapHeader.
Context {methods : ByteBufferMethods}.

(** [uint32_t word = srcBuffer.getInt(srcPos); destBuffer.putInt(destPos, word);] *)
Definition swap_word (m : arrays) (srcBuffer destBuffer : ByteBuffer) (srcPos destPos : Z)
    : arrays * result Z :=
  match getInt m srcBuffer srcPos with
  | Ok v =>
    let word := u32 v in
    match putInt m destBuffer destPos word with
    | Ok m' => (m', Ok word) | Throw e => (m, Throw e) | UB => (m, UB)
    end
  | Throw e => (m, Throw e)
  | UB => (m, UB)
  end.

(** What a call leaves: the arrays, the node, and how it ended. *)
Definition swapBankHeader (node : EvioNode) (m : arrays) (srcBuffer destBuffer : ByteBuffer)
    (srcPos destPos : Z) : arrays * EvioNode * result unit :=
  if decide (srcBuffer.(byteOrder) = destBuffer.(byteOrder)) then (m, node, Throw same_order)
  else
    match swap_word m srcBuffer destBuffer srcPos destPos with
    | (m, Ok length) =>
      let srcPos := u32 (srcPos + 4) in
      let destPos := u32 (destPos + 4) in
      match swap_word m srcBuffer destBuffer srcPos destPos with
      | (m, Ok word) =>
        let dt := Z.land (Z.shiftr word 8) 0xff in
        (m, fill_node (Z.land (Z.shiftr word 16) 0xffff) (Z.land dt 0x3f) (Z.shiftr dt 6)
              (Z.land word 0xff) length (u32 (destPos - 4)) (u32 (destPos + 4)) (u32 (length - 1)) node,
         Ok tt)
      | (m, Throw e) => (m, node, Throw e)
      | (m, UB) => (m, node, UB)
      end
    | (m, Throw e) => (m, node, Throw e)
    | (m, UB) => (m, node, UB)
    end.

Definition swapSegmentHeader (node : EvioNode) (m : arrays) (srcBuffer destBuffer : ByteBuffer)
    (srcPos destPos : Z) : arrays * EvioNode * result unit :=
  if decide (srcBuffer.(byteOrder) = destBuffer.(byteOrder)) then (m, node, Throw same_order)
  else
    match swap_word m srcBuffer destBuffer srcPos destPos with
    | (m, Ok word) =>
      let dt := Z.land (Z.shiftr word 16) 0xff in
      let len := Z.land word 0xffff in
      (m, fill_node (Z.land (Z.shiftr word 24) 0xff) (Z.land dt 0x3f) (Z.shiftr dt 6) 0 len
            destPos (u32 (destPos + 4)) len node, Ok tt)
    | (m, Throw e) => (m, node, Throw e)
    | (m, UB) => (m, node, UB)
    end.

Definition swapTagSegmentHeader (node : EvioNode) (m : arrays) (srcBuffer destBuffer : ByteBuffer)
    (srcPos destPos : Z) : arrays * EvioNode * result unit :=
  if decide (srcBuffer.(byteOrder) = destBuffer.(byteOrder)) then (m, node, Throw same_order)
  else
    match swap_word m srcBuffer destBuffer srcPos destPos with
    | (m, Ok word) =>
      let len := Z.land word 0xffff in
      (m, fill_node (Z.land (Z.shiftr word 20) 0xfff) (Z.land (Z.shiftr word 16) 0xf) 0 0 len
            destPos (u32 (destPos + 4)) len node, Ok tt)
    | (m, Throw e) => (m, node, Throw e)
    | (m, UB) => (m, node, UB)
    end.
End SwapHeader.

(** ** Headers that were written *)

Definition create `{HeaderSetters} (k : kind) : list Z -> endian -> result header :=
  match k with
  | Bank => createBankHeader | Segment => createSegmentHeader | Tagsegment => createTagSegmentHeader
  end.

(** The words of a header with a data type of value [code]. *)
Definition words_of_header (k : kind) (code : Z) (h : header) : list Z :=
  match k with
  | Bank => [h.(h_length); h.(h_tag) * 65536 + h.(h_padding) * 16384 + code * 256 + h.(h_number)]
  | Segment => [h.(h_tag) * 16777216 + h.(h_padding) * 4194304 + code * 65536 + h.(h_length)]
  | Tagsegment => [h.(h_tag) * 1048576 + code * 65536 + h.(h_length)]
  end.

(** The ranges of the fields; what a header has no room for is 0. *)
Definition fits (k : kind) (code : Z) (h : header) : Prop :=
  match k with
  | Bank => is_u32 h.(h_length) /\ 0 <= h.(h_tag) < 65536 /\ 0 <= code < 64 /\
      0 <= h.(h_padding) < 4 /\ 0 <= h.(h_number) < 256
  | Segment => 0 <= h.(h_length) < 65536 /\ 0 <= h.(h_tag) < 256 /\ 0 <= code < 64 /\
      0 <= h.(h_padding) < 4 /\ h.(h_number) = 0
  | Tagsegment => 0 <= h.(h_length) < 65536 /\ 0 <= h.(h_tag) < 4096 /\ 0 <= code < 16 /\
      h.(h_padding) = 0 /\ h.(h_number) = 0
  end.

Lemma land_4 x : Z.land x 0xf = x mod 16.
Proof. apply (Z.land_ones x 4). lia. Qed.
Lemma land_6 x : Z.land x 0x3f = x mod 64.
Proof. apply (Z.land_ones x 6). lia. Qed.
Lemma land_8 x : Z.land x 0xff = x mod 256.
Proof. apply (Z.land_ones x 8). lia. Qed.
Lemma land_12 x : Z.land x 0xfff = x mod 4096.
Proof. apply (Z.land_ones x 12). lia. Qed.
Lemma land_16 x : Z.land x 0xffff = x mod 65536.
Proof. apply (Z.land_ones x 16). lia. Qed.

(** Fields cut out of a word, in arithmetic. *)
Ltac fields_lia :=
  rewrite ?land_4, ?land_6, ?land_8, ?land_12, ?land_16, ?Z.shiftr_div_pow2 by lia; wrap_lia.

Lemma read_word_ok bytes o : bytes_ok bytes -> 4 <= zlen bytes ->
  read_word bytes o = Ok (order_val o (take 4 bytes)).
Proof.
  intros Hb Hl. destruct (load_int bytes o 0 Hb) as (b1 & b2 & b3 & b4 & Hld & Hint); [lia|lia|].
  change (4 * 0) with 0 in Hld. unfold read_word, toIntArray. cbn [run].
  unfold toIntArray_step at 1. change (0 <? u32 (4 - 3)) with true. cbv iota. rewrite Hld, Hint. done.
Qed.

Lemma order_val_bytes o v : is_u32 v -> order_val o (order_bytes o 4 v) = v.
Proof.
  intros Hv. destruct o; cbn [order_val order_bytes]; rewrite ?le_val_bytes, ?be_val_bytes;
    by apply Z.mod_small.
Qed.

Lemma order_bytes_bytes o n v : bytes_ok (order_bytes o n v).
Proof. destruct o; [apply le_bytes_ok | apply be_bytes_ok]. Qed.

(** A word in front of other bytes. *)
Lemma read_word_bytes o v rest : is_u32 v -> bytes_ok rest -> read_word (order_bytes o 4 v ++ rest) o = Ok v.
Proof.
  intros Hv Hr. rewrite read_word_ok.
  - rewrite take_app_length' by (by rewrite length_order_bytes). by rewrite order_val_bytes.
  - apply bytes_ok_app. split; [apply order_bytes_bytes|done].
  - rewrite length_app, length_order_bytes. lia.
Qed.

Section Written.
Context {setters : HeaderSetters} {laws : SetterLaws setters}.

Lemma fields_bank len w : is_u32 w ->
  set_number (u8 w) (set_padding (u8 (Z.shiftr (Z.land (Z.shiftr w 8) 0xff) 6))
    (set_type (Z.land (Z.land (Z.shiftr w 8) 0xff) 0x3f) (set_tag (u16 (Z.shiftr w 16)) (set_length len header_default))))
  = mk_header len (w / 65536) (type_of_value (w / 256 mod 64)) (w / 16384 mod 4) (w mod 256).
Proof using laws.
  intros Hw. unfold is_u32 in Hw. rewrite set_number_law, set_padding_law, set_type_law, set_tag_law, set_length_law.
  cbn. f_equal; try (f_equal; fields_lia); fields_lia.
Qed.

Lemma fields_segment w : is_u32 w ->
  set_tag (u16 (Z.shiftr w 24)) (set_padding (u8 (Z.shiftr (Z.land (Z.shiftr w 16) 0xff) 6))
    (set_type (Z.land (Z.land (Z.shiftr w 16) 0xff) 0x3f) (set_length (Z.land w 0xffff) header_default)))
  = mk_header (w mod 65536) (w / 16777216) (type_of_value (w / 65536 mod 64)) (w / 4194304 mod 4) 0.
Proof using laws.
  intros Hw. unfold is_u32 in Hw. rewrite set_tag_law, set_padding_law, set_type_law, set_length_law.
  cbn. f_equal; try (f_equal; fields_lia); fields_lia.
Qed.

Lemma fields_tagsegment w : is_u32 w ->
  set_tag (u16 (Z.shiftr w 20)) (set_type (Z.land (Z.shiftr w 16) 0xf) (set_length (Z.land w 0xffff) header_default))
  = mk_header (w mod 65536) (w / 1048576) (type_of_value (w / 65536 mod 16)) 0 0.
Proof using laws.
  intros Hw. unfold is_u32 in Hw. rewrite set_tag_law, set_type_law, set_length_law.
  cbn. f_equal; try (f_equal; fields_lia); fields_lia.
Qed.

(** A header of any kind is created from its words, in the byte order they are in,
    with every field as it was: length, tag, type, padding and number. *)
Theorem create_reads_fields k code h o rest (Hf : fits k code h) (Ht : h.(h_dataType) = type_of_value code)
    (Hr : bytes_ok rest) :
  create k (concat (map (order_bytes o 4) (words_of_header k code h)) ++ rest) o = Ok h.
Proof using laws.
  destruct h as [len tag ty pad num]. cbn in Ht. subst ty. unfold is_u32.
  destruct k; cbn in Hf; destruct Hf as (Hl & Ht & Hc & Hp & Hn); cbn [create words_of_header map concat];
    rewrite app_nil_r; cbn [h_length h_tag h_padding h_number].
  - rewrite <- app_assoc. unfold createBankHeader.
    rewrite read_word_bytes by first [done | apply bytes_ok_app; split; [apply order_bytes_bytes|done]].
    cbn [mbind result_bind]. rewrite drop_app_length' by by rewrite length_order_bytes.
    rewrite read_word_bytes by (unfold is_u32; done || lia). cbn [mbind result_bind].
    rewrite fields_bank by (unfold is_u32; lia). do 2 f_equal; try f_equal; Z.div_mod_to_equations; lia.
  - unfold createSegmentHeader. rewrite read_word_bytes by (unfold is_u32; done || lia). cbn [mbind result_bind].
    rewrite fields_segment by (unfold is_u32; lia). subst num. do 2 f_equal; try f_equal; Z.div_mod_to_equations; lia.
  - unfold createTagSegmentHeader. rewrite read_word_bytes by (unfold is_u32; done || lia). cbn [mbind result_bind].
    rewrite fields_tagsegment by (unfold is_u32; lia). subst num pad. do 2 f_equal; try f_equal; Z.div_mod_to_equations; lia.
Qed.
End Written.

(** ** Headers that are swapped *)

Definition header_bytes (k : kind) : Z := 4 * header_size k.
Definition swap_header `{ByteBufferMethods} (k : kind) :=
  match k with
  | Bank => swapBankHeader | Segment => swapSegmentHeader | Tagsegment => swapTagSegmentHeader
  end.
(** The bytes of each of the [n] words the other way round. *)
Definition flip_words (n : nat) (bs : list Z) : list Z := concat (map (@rev Z) (elements 4 n bs)).
Definition flipped (k : kind) (bs : list Z) : list Z := flip_words (Z.to_nat (header_size k)) bs.

(** A node after the call has the fields of a header at [p]. *)
Definition describes `{HeaderSetters} (k : kind) (p : Z) (h : header) (node node' : EvioNode) : Prop :=
  exists code, h.(h_dataType) = type_of_value code /\
    node' = fill_node h.(h_tag) code h.(h_padding) h.(h_number) h.(h_length) p (p + header_bytes k)
      (u32 (h.(h_length) - (header_size k - 1))) node.

(** The destination does not begin within the source. *)
Definition apart (src dest : ByteBuffer) (srcPos destPos n : Z) : Prop :=
  src.(buf) <> dest.(buf) \/ dest.(off) + destPos <= src.(off) + srcPos
  \/ src.(off) + srcPos + n <= dest.(off) + destPos.

Lemma order_val_rev o o' w : o <> o' -> order_val o' (rev w) = order_val o w.
Proof. destruct o, o'; try done; intros _; cbn; unfold be_val; by rewrite ?rev_involutive. Qed.

Lemma order_val_u32 o w : bytes_ok w -> zlen w = 4 -> is_u32 (order_val o w).
Proof.
  intros Hw Hl. unfold is_u32. change 4294967296 with (256 ^ 4). rewrite <- Hl.
  destruct o; [by apply le_val_bound | by apply be_val_bound].
Qed.

Section Agree.
Context {methods : ByteBufferMethods} {laws : ByteBufferLaws methods}.

Lemma swap_word_ok m src dest sp dp w m' : arrays_ok m -> src.(byteOrder) <> dest.(byteOrder) ->
  read_at m src 4 sp = Ok w -> write_at m dest (rev w) dp = Ok m' ->
  swap_word m src dest sp dp = (m', Ok (order_val src.(byteOrder) w)) /\ is_u32 (order_val src.(byteOrder) w).
Proof using laws.
  intros Hm Hne Hr Hw. destruct (read_at_bytes _ _ _ _ _ Hm Hr) as [Hl Hb].
  pose proof (order_val_u32 src.(byteOrder) w Hb Hl) as Hv. split; [|done].
  unfold swap_word. rewrite getInt_law, Hr. cbn [mbind result_bind]. unfold value.
  replace (u32 (i32 (order_val (byteOrder src) w))) with (order_val (byteOrder src) w)
    by (unfold is_u32 in Hv; wrap_lia).
  rewrite putInt_law. unfold bytes_of. replace 4%nat with (length w) by lia.
  rewrite order_bytes_turned, decide_False by done. by rewrite Hw.
Qed.

(** Where the two words of the header of a bank come from and go to. *)
Lemma two_words m src dest sp dp bs : arrays_ok m -> buffer_ok m src -> buffer_ok m dest ->
  0 <= sp -> sp + 8 < 4294967296 -> 0 <= dp -> dp + 8 <= dest.(lim) -> apart src dest sp dp 8 ->
  read_at m src 8 sp = Ok bs ->
  exists w1 w2 m1 m2, bs = w1 ++ w2 /\ length w1 = 4%nat /\ length w2 = 4%nat /\ arrays_ok m1 /\
    read_at m src 4 sp = Ok w1 /\ write_at m dest (rev w1) dp = Ok m1 /\
    read_at m1 src 4 (sp + 4) = Ok w2 /\ write_at m1 dest (rev w2) (dp + 4) = Ok m2 /\
    write_at m dest (rev w1 ++ rev w2) dp = Ok m2.
Proof using.
  intros Hm [_ So (a & Ha & Sf & _) Ss] Hbd Hsp Hs32 Hdp Hdl Hap Hr.
  pose proof Hbd as [_ Do (d & Hd & Df & Dok) Ds].
  destruct (Z.leb_spec (sp + 8) src.(lim)) as [Hsl|Hsl]; [|by rewrite read_at_beyond in Hr by lia].
  rewrite (read_at_ok m src a) in Hr by (done || lia). injection Hr as Hbs.
  set (w1 := take 4 (drop (Z.to_nat (off src + sp)) a)).
  set (w2 := take 4 (drop (Z.to_nat (off src + (sp + 4))) a)).
  assert (bs = w1 ++ w2) as Hsplit.
  { subst w1 w2. rewrite <- Hbs. replace (Z.to_nat (off src + (sp + 4))) with (Z.to_nat (off src + sp) + 4)%nat by lia.
    rewrite <- drop_drop. symmetry. apply (take_take_drop _ 4 4). }
  assert (length w1 = 4%nat /\ length w2 = 4%nat) as [H1 H2] by (subst w1 w2; rewrite !length_take, !length_drop; lia).
  set (d1 := splice (Z.to_nat (off dest + dp)) (rev w1) d).
  assert (zlen d1 = zlen d) as Hd1 by (unfold d1; rewrite length_splice; rewrite ?length_rev; lia).
  assert (bytes_ok (rev w1)) as Hb1 by (apply Forall_rev, Forall_take, Forall_drop; by eapply Hm).
  exists w1, w2, (<[buf dest := d1]> m).
  exists (<[buf dest := splice (Z.to_nat (off dest + (dp + 4))) (rev w2) d1]> (<[buf dest := d1]> m)).
  assert (arrays_ok (<[buf dest:=d1]> m)) as Hm1 by
    (apply map_Forall_insert_2; [by apply bytes_ok_splice|done]).
  split_and!; try done.
  - by rewrite (read_at_ok m src a) by (done || lia).
  - by rewrite (write_at_ok m dest d) by (done || rewrite ?length_rev; lia).
  - destruct (decide (src.(buf) = dest.(buf))) as [He|Hn].
    + rewrite (read_at_ok _ src d1) by (rewrite ?He, ?lookup_insert_eq; done || lia || congruence).
      assert (a = d) as -> by congruence. f_equal. unfold d1, w2.
      destruct Hap as [|Hap]; [done|]. apply load_splice_other; rewrite length_rev; lia.
    + rewrite (read_at_ok _ src a) by (rewrite ?lookup_insert_ne by congruence; done || lia). done.
  - rewrite (write_at_ok _ dest d1) by (rewrite ?lookup_insert_eq, ?length_rev; done || lia). done.
  - rewrite (write_at_ok m dest d) by (rewrite ?length_app, ?length_rev; done || lia).
    rewrite insert_insert_eq. do 2 f_equal. unfold d1.
    replace (Z.to_nat (off dest + (dp + 4))) with (Z.to_nat (off dest + dp) + length (rev w1))%nat by (rewrite length_rev; lia).
    symmetry. apply splice_adjacent. rewrite !length_rev. lia.
Qed.
End Agree.

Section AgreeHeaders.
Context {methods : ByteBufferMethods} {laws : ByteBufferLaws methods}.
Context {setters : HeaderSetters} {setter_laws : SetterLaws setters}.

(** A whole word that is read, wherever it stands. *)
Lemma read_word_app w rest o : bytes_ok (w ++ rest) -> length w = 4%nat ->
  read_word (w ++ rest) o = Ok (order_val o w).
Proof using. intros Hb Hl. rewrite read_word_ok; [by rewrite take_app_length'|done|]. rewrite length_app. lia. Qed.

Lemma create_bank_word w1 w2 o : bytes_ok (w1 ++ w2) -> length w1 = 4%nat -> length w2 = 4%nat ->
  let w := order_val o w2 in
  createBankHeader (w1 ++ w2) o =
    Ok (mk_header (order_val o w1) (w / 65536) (type_of_value (w / 256 mod 64)) (w / 16384 mod 4) (w mod 256)).
Proof using setter_laws.
  intros Hb H1 H2 w. unfold createBankHeader. rewrite read_word_app by done. cbn [mbind result_bind].
  rewrite drop_app_length' by done. apply bytes_ok_app in Hb as [_ Hb].
  rewrite <- (app_nil_r w2), read_word_app by (rewrite ?app_nil_r; done). cbn [mbind result_bind].
  rewrite fields_bank by (apply order_val_u32; [done|lia]). done.
Qed.

Lemma create_one_word k w0 o : k <> Bank -> bytes_ok w0 -> length w0 = 4%nat ->
  let w := order_val o w0 in
  create k w0 o = Ok (match k with
    | Segment => mk_header (w mod 65536) (w / 16777216) (type_of_value (w / 65536 mod 64)) (w / 4194304 mod 4) 0
    | _ => mk_header (w mod 65536) (w / 1048576) (type_of_value (w / 65536 mod 16)) 0 0
    end).
Proof using setter_laws.
  intros Hk Hb Hl w. assert (is_u32 w) as Hw by (apply order_val_u32; [done|lia]).
  pose proof (read_word_app w0 [] o ltac:(by rewrite app_nil_r) Hl) as Hr. rewrite app_nil_r in Hr.
  destruct k; [done| |]; cbn [create]; unfold createSegmentHeader, createTagSegmentHeader; rewrite Hr;
    cbn [mbind result_bind]; fold w; rewrite ?fields_segment, ?fields_tagsegment by done; done.
Qed.

(** Swapping a header between buffers of different byte order, which may share an
    array, writes its words with the bytes turned around and nothing else; what the
    node is filled with is the header that is created from the bytes, from those that
    were swapped as well as from those written. *)
Theorem swap_header_agrees k node m src dest sp dp bs (Hm : arrays_ok m)
    (Hs : buffer_ok m src) (Hd : buffer_ok m dest) (Hne : src.(byteOrder) <> dest.(byteOrder))
    (Hsp : 0 <= sp) (Hs32 : sp + header_bytes k < 4294967296)
    (Hdp : 0 <= dp) (Hd32 : dp + header_bytes k < 4294967296) (Hdl : dp + header_bytes k <= dest.(lim))
    (Hap : apart src dest sp dp (header_bytes k)) (Hr : read_at m src (header_bytes k) sp = Ok bs) :
  exists m' node' hd, swap_header k node m src dest sp dp = (m', node', Ok tt) /\
    write_at m dest (flipped k bs) dp = Ok m' /\
    create k bs src.(byteOrder) = Ok hd /\ create k (flipped k bs) dest.(byteOrder) = Ok hd /\
    describes k dp hd node node'.
Proof using laws setter_laws.
  destruct (read_at_bytes _ _ _ _ _ Hm Hr) as [Hl Hb]. unfold header_bytes in *.
  destruct (decide (k = Bank)) as [->|Hk].
  - cbn [header_size] in *. change (4 * 2) with 8 in *.
    destruct (two_words m src dest sp dp bs) as (w1 & w2 & m1 & m2 & -> & H1 & H2 & Hm1 & R1 & W1 & R2 & W2 & W); try done.
    destruct (swap_word_ok m src dest sp dp w1 m1) as [S1 U1]; try done.
    destruct (swap_word_ok m1 src dest (sp + 4) (dp + 4) w2 m2) as [S2 U2]; try done.
    assert (flipped Bank (w1 ++ w2) = rev w1 ++ rev w2) as Hfl.
    { unfold flipped, flip_words. change (Z.to_nat (header_size Bank)) with 2%nat.
      cbn [elements map concat]. rewrite take_app_length', drop_app_length' by done.
      rewrite take_ge by lia. by rewrite app_nil_r. }
    eexists m2, _, _. rewrite Hfl. split; [|split; [done|]].
    { cbn [swap_header]. unfold swapBankHeader. rewrite decide_False, S1 by done.
      rewrite !(u32_small (_ + 4)) by lia. rewrite S2. done. }
    split; [by apply create_bank_word|]. split.
    { cbn [create]. rewrite create_bank_word by (rewrite ?length_rev; try done; apply bytes_ok_app in Hb as [??];
        apply bytes_ok_app; split; by apply Forall_rev).
      rewrite !(order_val_rev (byteOrder src)) by done. done. }
    eexists. split; [done|]. unfold is_u32 in U2. set (w := order_val _ w2) in *. unfold header_bytes. cbn.
    f_equal; fields_lia.
  - assert (header_size k = 1) as Hk1 by (by destruct k). unfold flipped. rewrite Hk1 in *. change (4 * 1) with 4 in *.
    assert (flip_words (Z.to_nat 1) bs = rev bs) as -> by
      (unfold flip_words; change (Z.to_nat 1) with 1%nat; cbn [elements map concat];
       rewrite take_ge by lia; apply app_nil_r).
    destruct Hd as [_ Do (d & Hd & Df & _) Ds].
    assert (exists m', write_at m dest (rev bs) dp = Ok m') as [m' W] by
      (eexists; apply (write_at_ok m dest d); rewrite ?length_rev; done || lia).
    destruct (swap_word_ok m src dest sp dp bs m') as [S1 U1]; try done.
    assert (bytes_ok (rev bs)) as Hb' by by apply Forall_rev.
    pose proof (create_one_word k bs (byteOrder src) Hk Hb ltac:(lia)) as C1.
    pose proof (create_one_word k (rev bs) (byteOrder dest) Hk Hb' ltac:(rewrite length_rev; lia)) as C2.
    rewrite (order_val_rev (byteOrder src)) in C2 by done.
    unfold is_u32 in U1. set (w := order_val _ bs) in *. unfold describes, header_bytes.
    destruct k; [done| |]; eexists m', _, _;
      (split; [cbn [swap_header]; unfold swapSegmentHeader, swapTagSegmentHeader;
               rewrite decide_False, S1 by done; reflexivity|]);
      (split_and!; [done..|]; eexists; split; [reflexivity|]; cbn; f_equal; fields_lia).
Qed.

(** Buffers of one byte order are refused, before anything is read or written. *)
Theorem swap_header_refused k node m src dest sp dp (He : src.(byteOrder) = dest.(byteOrder)) :
  swap_header k node m src dest sp dp = (m, node, Throw same_order).
Proof using.
  destruct k; cbn [swap_header]; unfold swapBankHeader, swapSegmentHeader, swapTagSegmentHeader;
    by rewrite decide_True.
Qed.

(** When the destination ends within the header of a bank the first word is written,
    and the node is left as it was. *)
Theorem swapBankHeader_half node m src dest sp dp bs : arrays_ok m -> buffer_ok m src -> buffer_ok m dest ->
  src.(byteOrder) <> dest.(byteOrder) -> 0 <= sp -> sp + 8 <= src.(lim) -> sp + 8 < 4294967296 ->
  0 <= dp -> dp + 4 <= dest.(lim) < dp + 8 -> dp + 8 < 4294967296 -> src.(buf) <> dest.(buf) ->
  read_at m src 4 sp = Ok bs ->
  exists m', write_at m dest (rev bs) dp = Ok m' /\
    swapBankHeader node m src dest sp dp = (m', node, Throw overflow).
Proof using laws.
  intros Hm [_ So (a & Ha & Sf & _) Ss] [_ Do (d & Hd & Df & _) Ds] Hne Hsp Hsl Hs32 Hdp Hdl Hd32 Hb Hr.
  destruct (read_at_bytes _ _ _ _ _ Hm Hr) as [Hl _].
  assert (write_at m dest (rev bs) dp = Ok (<[buf dest := splice (Z.to_nat (off dest + dp)) (rev bs) d]> m)) as W
    by (apply (write_at_ok m dest d); rewrite ?length_rev; done || lia).
  eexists. split; [done|]. destruct (swap_word_ok m src dest sp dp bs _ Hm Hne Hr W) as [S1 _].
  unfold swapBankHeader. rewrite decide_False, S1 by done. cbv zeta. rewrite !(u32_small (_ + 4)) by lia.
  unfold swap_word. rewrite getInt_law, (read_at_ok _ src a) by (rewrite ?lookup_insert_ne by congruence; done || lia).
  cbn [mbind result_bind]. rewrite putInt_law, write_at_beyond; [done|lia| |]; unfold bytes_of;
    rewrite length_order_bytes; lia.
Qed.
End AgreeHeaders.

(** ** On concrete headers *)

Definition evio_types : list DataType :=
  [UNKNOWN32; UINT32; FLOAT32; CHARSTAR8; SHORT16; USHORT16; CHAR8; UCHAR8; DOUBLE64; LONG64; ULONG64;
   INT32; TAGSEGMENT; ALSOSEGMENT; ALSOBANK; COMPOSITE; BANK].
Definition plain_setters : HeaderSetters := {|
  set_length v h := mk_header v h.(h_tag) h.(h_dataType) h.(h_padding) h.(h_number);
  set_tag v h := mk_header h.(h_length) v h.(h_dataType) h.(h_padding) h.(h_number);
  set_type v h := mk_header h.(h_length) h.(h_tag)
    (type_of_value (setters := Build_HeaderSetters (fun _ h => h) (fun _ h => h) (fun _ h => h) (fun _ h => h)
       (fun _ h => h) (fun v => nth (Z.to_nat v) evio_types UNKNOWN32)) v) h.(h_padding) h.(h_number);
  set_padding v h := mk_header h.(h_length) h.(h_tag) h.(h_dataType) v h.(h_number);
  set_number v h := mk_header h.(h_length) h.(h_tag) h.(h_dataType) h.(h_padding) v;
  intToType v := nth (Z.to_nat v) evio_types UNKNOWN32
|}.
Lemma plain_setters_laws : SetterLaws plain_setters.
Proof. done. Qed.

Definition bank_example : header := mk_header 3 7 SHORT16 2 1.
Definition bank_bytes : list Z := [3; 0; 0; 0; 1; 132; 7; 0].

Lemma create_reads_fields_witness :
  create (H := plain_setters) Bank (bank_bytes ++ [5]) ENDIAN_LITTLE = Ok bank_example.
Proof.
  exact (create_reads_fields (laws := plain_setters_laws) Bank 4 bank_example ENDIAN_LITTLE [5]
    ltac:(cbn; unfold is_u32; lia) eq_refl ltac:(repeat constructor; lia)).
Defined.

(** One array, swapped in place. *)
Definition header_arrays : arrays := {[ 1%positive := bank_bytes ]}.
Definition little_buffer : ByteBuffer := mk_buffer 0 8 0 1%positive ENDIAN_LITTLE.
Definition big_buffer : ByteBuffer := mk_buffer 0 8 0 1%positive ENDIAN_BIG.
Definition empty_node : EvioNode := mk_node 0 0 0 0 0 0 0 0 0 0 false false 0 false.

Lemma header_buffer_ok b : b = little_buffer \/ b = big_buffer -> buffer_ok header_arrays b.
Proof.
  intros [-> | ->]; (split; cbn; [lia|lia| |lia]; exists bank_bytes; split; [by vm_compute|]; cbn; split; [lia|];
    repeat constructor; lia).
Qed.

Lemma swap_header_agrees_witness : exists m' node' hd,
  swap_header (H := java) Bank empty_node header_arrays little_buffer big_buffer 0 0 = (m', node', Ok tt) /\
  write_at header_arrays big_buffer [0; 0; 0; 3; 0; 7; 132; 1] 0 = Ok m' /\
  create (H := plain_setters) Bank bank_bytes ENDIAN_LITTLE = Ok hd /\
  create (H := plain_setters) Bank [0; 0; 0; 3; 0; 7; 132; 1] ENDIAN_BIG = Ok hd /\
  describes (H := plain_setters) Bank 0 hd empty_node node'.
Proof.
  exact (swap_header_agrees (laws := java_laws) (setter_laws := plain_setters_laws) Bank empty_node
    header_arrays little_buffer big_buffer 0 0 bank_bytes
    ltac:(apply map_Forall_singleton; repeat constructor; lia)
    (header_buffer_ok _ (or_introl eq_refl)) (header_buffer_ok _ (or_intror eq_refl)) ltac:(done)
    ltac:(lia) ltac:(by vm_compute) ltac:(lia) ltac:(by vm_compute) ltac:(by vm_compute)
    ltac:(right; left; cbn; lia) eq_refl).
Defined.

Lemma header_example :
  (swapBankHeader (methods := java) empty_node header_arrays little_buffer big_buffer 0 0).1.2
  = mk_node 3 7 1 2 0 0 2 8 4 0 false false 0 false.
Proof. by vm_compute. Qed.
