(* ===== verification/EvioFileName.v ===== *)
(** File names of Util.h, first part: generateBaseFileName, which puts the run type and
    environment variables into a name and counts the specifiers (%d, %03x, ...) for the
    numbers that generateFileName (EvioFileSplit.v) puts in. *)
From Stdlib Require Import Ascii.
From S2P Require Import Prelude.

(** ** Texts *)

Abbreviation text := (list ascii).
Definition txt (s : string) : text := String.list_ascii_of_string s.

(** [text.replace(pos, len, s)] *)
Definition replace (pos len : nat) (s t : text) : text := take pos t ++ s ++ drop (pos + len) t.

(** The longest prefix of characters of a kind, and the rest. *)
Fixpoint span (p : ascii -> bool) (t : text) : text * text :=
  match t with
  | c :: r => if p c then let '(a, b) := span p r in (c :: a, b) else ([], t)
  | [] => ([], [])
  end.

(** What C takes a string for: the characters in front of the first null. *)
Definition c_str (t : text) : text := (span (fun c => negb (bool_decide (c = "000"%char))) t).1.

(** The leftmost match of a pattern: the text in front of it, what it matched, and
    the text behind it; [at_] tries the pattern at the beginning of a text. *)
Section Search.
Context {A : Type} (at_ : text -> option (A * text)).
Fixpoint search (t : text) : option (text * A * text) :=
  match at_ t with
  | Some (a, r) => Some ([], a, r)
  | None => match t with
            | [] => None
            | c :: t => match search t with Some (p, a, r) => Some (c :: p, a, r) | None => None end
            end
  end.
End Search.

(** ** Environment variables *)

(** The pattern of a name in $(...), with its submatch. *)
Definition env_at (t : text) : option (text * text) :=
  match t with
  | "$"%char :: "("%char :: t =>
    match span (fun c => negb (bool_decide (c = ")"%char))) t with
    | (c :: name, ")"%char :: r) => Some (c :: name, r)
    | _ => None
    end
  | _ => None
  end.

Section Env.
Context (getenv : text -> option text).

(** A round of the loop of expandEnvironmentalVariables. *)
Definition env_step (t : text) : outcome text text :=
  match search env_at t with
  | Some (p, name, r) => Next (p ++ default [] (getenv (c_str name)) ++ r)
  | None => Halt t
  end.
Definition expandEnvironmentalVariables (t : text) (fuel : nat) : outcome text text := run env_step fuel t.
End Env.

(** ** Integer specifiers *)

Definition is_digit (c : ascii) : bool := ((48 <=? Ascii.N_of_ascii c) && (Ascii.N_of_ascii c <=? 57))%N.
Definition is_conversion (c : ascii) : bool := bool_decide (c = "x"%char) || bool_decide (c = "d"%char).

(** The pattern of %, digits, and x or d, with its submatches. *)
Definition specifier_at (t : text) : option (text * ascii * text) :=
  match t with
  | "%"%char :: t =>
    match span is_digit t with
    | (width, c :: r) => if is_conversion c then Some (width, c, r) else None
    | _ => None
    end
  | _ => None
  end.

(** What a regex iterator goes through: position, width and conversion of each match. *)
Fixpoint matches (fuel : nat) (at_ : nat) (t : text) : list (nat * (text * ascii)) :=
  match fuel with
  | O => []
  | S fuel =>
    match search specifier_at t with
    | Some (p, (w, c), r) =>
      let pos := (at_ + length p)%nat in
      (pos, (w, c)) :: matches fuel (pos + (2 + length w)) r
    | None => []
    end
  end.
Definition specifiers (t : text) : list (nat * (text * ascii)) := matches (length t) 0 t.

(** The rounds [j], [j + 1], ... of the loop; dereferencing the end of the matches
    is undefined.  The position is the one of the match, not of its first submatch. *)
Fixpoint fix_from (rounds j : nat) (t : text) : result text :=
  match rounds with
  | O => Ok t
  | S rounds =>
    match specifiers t !! j with
    | Some (pos, (specWidth, _)) =>
      let t :=
        match specWidth with
        | c :: _ => if bool_decide (c = "0"%char) then t
                    else replace pos (length specWidth) ("0"%char :: specWidth) t
        | [] => t
        end in
      fix_from rounds (S j) t
    | None => UB
    end
  end.
Definition countAndFixIntSpecifiers (t : text) : result (nat * text) :=
  let specifierCount := length (specifiers t) in
  t ← fix_from specifierCount 0 t; Ok (specifierCount, t).

(** ** generateBaseFileName *)

Definition type_at (t : text) : option (unit * text) :=
  match t with "%"%char :: "s"%char :: r => Some (tt, r) | _ => None end.
(** A round of the loop that replaces %s. *)
Definition type_step (runType : text) (t : text) : outcome text text :=
  match search type_at t with
  | Some (p, _, _) => Next (replace (length p) 2 runType t)
  | None => Halt t
  end.

Definition empty_name : string := "empty string arg".
Definition bad_base_name : string := "baseName arg is improperly formatted".

Section Base.
Context (getenv : text -> option text).

(** The name that is left in modifiedBaseName, and the answer. *)
Definition generateBaseFileName (baseName runType : text) (fuel : nat) : outcome text (text * result nat) :=
  match baseName with
  | [] => Halt ([], Throw empty_name)
  | _ =>
    match run (type_step runType) fuel baseName with
    | Halt t =>
      match expandEnvironmentalVariables getenv t fuel with
      | Halt t =>
        match countAndFixIntSpecifiers t with
        | Ok (specifierCount, t) =>
          if (3 <? specifierCount)%nat then Halt (t, Throw bad_base_name) else Halt (t, Ok specifierCount)
        | Throw e => Halt (t, Throw e)
        | UB => Stuck
        end
      | Next t => Next t
      | Stuck => Stuck
      end
    | Next t => Next t
    | Stuck => Stuck
    end
  end.
End Base.

(** ** Searching *)

Lemma span_app p a b : Forall (fun c => p c = true) a ->
  span p (a ++ b) = (a ++ (span p b).1, (span p b).2).
Proof.
  induction 1 as [|c a Hc _ IH]; cbn; [by destruct (span p b)|]. rewrite Hc, IH. done.
Qed.

Lemma span_all p a : Forall (fun c => p c = true) a -> span p a = (a, []).
Proof. intros Ha. rewrite <- (app_nil_r a) at 1. rewrite span_app by done. cbn. by rewrite app_nil_r. Qed.

Section SearchFacts.
Context {A : Type} (at_ : text -> option (A * text)).

(** Where no match begins nothing is found. *)
Lemma search_skip l t : Forall (fun c => forall r, at_ (c :: r) = None) l ->
  search at_ (l ++ t) = match search at_ t with Some (p, a, r) => Some (l ++ p, a, r) | None => None end.
Proof.
  induction 1 as [|c l Hc _ IH]; cbn [app]; [by destruct (search at_ t) as [[[? ?] ?]|]|].
  simpl. rewrite Hc, IH. by destruct (search at_ t) as [[[? ?] ?]|].
Qed.

Lemma search_here t a r : at_ t = Some (a, r) -> search at_ t = Some ([], a, r).
Proof. intros H. destruct t; simpl; rewrite H; done. Qed.

Lemma search_step c t : at_ (c :: t) = None ->
  search at_ (c :: t) = match search at_ t with Some (p, a, r) => Some (c :: p, a, r) | None => None end.
Proof. intros H. cbn. by rewrite H. Qed.

(** A match that is found is one, with what is in front of it. *)
Lemma search_Some t p a r : search at_ t = Some (p, a, r) -> exists t', t = p ++ t' /\ at_ t' = Some (a, r).
Proof.
  revert p. induction t as [|c t IH]; intros p; cbn.
  - destruct (at_ []) as [[a' r']|] eqn:H; [|done]. intros [= <- <- <-]. by exists [].
  - destruct (at_ (c :: t)) as [[a' r']|] eqn:H; [intros [= <- <- <-]; by exists (c :: t)|].
    destruct (search at_ t) as [[[p' a'] r']|]; [|done]. intros [= <- <- <-].
    destruct (IH p' eq_refl) as (t' & -> & Ht'). by exists t'.
Qed.

(** When there is one, one is found. *)
Lemma search_found a t : at_ t <> None -> search at_ (a ++ t) <> None.
Proof.
  intros Ht. induction a as [|c a IH]; cbn [app].
  - destruct (at_ t) as [[x r]|] eqn:H; [|done]. by rewrite (search_here _ _ _ H).
  - cbn. destruct (at_ (c :: a ++ t)) as [[x r]|]; [done|]. by destruct (search at_ (a ++ t)) as [[[? ?] ?]|].
Qed.
End SearchFacts.

(** ** Names as sequences of parts *)

Inductive part := Str (l : text) | Spec (width : text) (conversion : ascii) | RunType | EnvVar (name : text).

Definition render_part (q : part) : text :=
  match q with
  | Str l => l
  | Spec w c => "%"%char :: w ++ [c]
  | RunType => txt "%s"
  | EnvVar v => txt "$(" ++ v ++ txt ")"
  end.
Definition render (ps : list part) : text := concat (map render_part ps).

Definition plain (l : text) : Prop := Forall (fun c => c <> "%"%char /\ c <> "$"%char) l.
Definition well_formed (q : part) : Prop :=
  match q with
  | Str l => plain l
  | Spec w c => Forall (fun c => is_digit c = true) w /\ is_conversion c = true
  | RunType => True
  | EnvVar v => v <> [] /\ plain v /\ Forall (fun c => c <> ")"%char /\ c <> "000"%char) v
  end.

Definition is_spec (q : part) : bool := match q with Spec _ _ => true | _ => false end.
Definition is_type (q : part) : bool := match q with RunType => true | _ => false end.
Definition is_env (q : part) : bool := match q with EnvVar _ => true | _ => false end.
Definition count_specs (ps : list part) : nat := length (filter (fun q => is_spec q = true) ps).

Lemma render_cons q ps : render (q :: ps) = render_part q ++ render ps.
Proof. done. Qed.
Lemma render_app ps qs : render (ps ++ qs) = render ps ++ render qs.
Proof. unfold render. by rewrite map_app, concat_app. Qed.

Lemma render_snoc ps q : render (ps ++ [q]) = render ps ++ render_part q.
Proof. rewrite render_app. f_equal. apply app_nil_r. Qed.

Lemma digit_other c d : is_digit c = true -> is_digit d = false -> c <> d.
Proof. congruence. Qed.
Lemma conversion_cases c : is_conversion c = true -> c = "x"%char \/ c = "d"%char.
Proof. unfold is_conversion. rewrite orb_true_iff, !bool_decide_eq_true. done. Qed.
Lemma conversion_not_digit c : is_conversion c = true -> is_digit c = false.
Proof. intros [-> | ->]%conversion_cases; done. Qed.

(** ** Filling in, a place at a time *)

Section Fill.
Context (step : text -> outcome text text) (hole : part -> bool) (fill : part -> text).
Context (hole_str : forall l, hole (Str l) = false).
Context (fill_plain : forall h, well_formed h -> hole h = true -> plain (fill h)).
Context (step_next : forall pre h post, Forall well_formed (pre ++ h :: post) ->
  Forall (fun q => hole q = false) pre -> hole h = true ->
  step (render (pre ++ h :: post)) = Next (render pre ++ fill h ++ render post)).
Context (step_halt : forall ps, Forall well_formed ps -> Forall (fun q => hole q = false) ps ->
  step (render ps) = Halt (render ps)).

Definition filled (q : part) : part := if hole q then Str (fill q) else q.

Lemma filled_keeps ps : Forall (fun q => hole q = false) ps -> map filled ps = ps.
Proof using. induction 1 as [|q ps Hq _ IH]; cbn; [done|]. unfold filled at 1. by rewrite Hq, IH. Qed.

Lemma filled_well_formed ps : Forall well_formed ps -> Forall well_formed (map filled ps).
Proof using fill_plain.
  intros H. apply Forall_map. eapply Forall_impl; [exact H|]. intros q Hq. unfold filled.
  destruct (hole q) eqn:Hh; [|done]. by apply fill_plain.
Qed.

Lemma fill_terminates ps pre : Forall well_formed (pre ++ ps) -> Forall (fun q => hole q = false) pre ->
  terminates step (render (pre ++ ps)) (Halt (render (pre ++ map filled ps))).
Proof using All.
  revert pre. induction ps as [|q ps IH]; intros pre Hw Hp.
  - rewrite !app_nil_r in *. apply terminates_now; [by apply step_halt|done].
  - destruct (hole q) eqn:Hq.
    + assert (Forall well_formed ((pre ++ [Str (fill q)]) ++ ps)) as Hw'.
      { apply Forall_app in Hw as [H1 [H2 H3]%Forall_cons]. rewrite !Forall_app.
        split_and!; [done| |done]. apply Forall_singleton. by apply fill_plain. }
      eapply terminates_step; [by apply step_next|].
      specialize (IH (pre ++ [Str (fill q)]) Hw'). cbn [map]. unfold filled at 1. rewrite Hq.
      rewrite !(render_app (pre ++ [Str (fill q)])), !render_snoc in IH. rewrite render_app, render_cons.
      cbn [render_part] in *. rewrite <- !app_assoc in IH. apply IH. apply Forall_app. by split; [|constructor].
    + specialize (IH (pre ++ [q])). rewrite <- !app_assoc in IH. cbn [map]. unfold filled at 1. rewrite Hq.
      apply IH; [done|]. apply Forall_app. by split; [|constructor].
Qed.
End Fill.

(** ** The three patterns on parts *)

Lemma type_at_other c r : c <> "%"%char -> type_at (c :: r) = None.
Proof. intros H. destruct c as [[] [] [] [] [] [] [] []]; done. Qed.
Lemma specifier_at_other c r : c <> "%"%char -> specifier_at (c :: r) = None.
Proof. intros H. destruct c as [[] [] [] [] [] [] [] []]; done. Qed.
Lemma env_at_other c r : c <> "$"%char -> env_at (c :: r) = None.
Proof. intros H. destruct c as [[] [] [] [] [] [] [] []]; done. Qed.

Lemma digits_other w d : is_digit d = false -> Forall (fun c => is_digit c = true) w -> Forall (fun c => c <> d) w.
Proof. intros Hd Hw. eapply Forall_impl; [exact Hw|]. intros c Hc. by apply digit_other. Qed.
Lemma conversion_other c d : is_conversion c = true -> is_conversion d = false -> c <> d.
Proof. congruence. Qed.

(** The characters behind the first of a specifier. *)
Lemma spec_tail_other w c d : well_formed (Spec w c) -> is_digit d = false -> is_conversion d = false ->
  Forall (fun x => x <> d) (w ++ [c]).
Proof.
  intros [Hw Hc] H1 H2. apply Forall_app. split; [by apply digits_other|]. constructor; [|done]. congruence.
Qed.

Lemma type_at_spec w c t : well_formed (Spec w c) -> type_at ("%"%char :: (w ++ [c]) ++ t) = None.
Proof.
  intros Hs. pose proof (spec_tail_other w c "s"%char Hs eq_refl eq_refl) as H.
  destruct w as [|d w]; cbn [app] in *; apply Forall_cons in H as [H _].
  - destruct c as [[] [] [] [] [] [] [] []]; done.
  - destruct d as [[] [] [] [] [] [] [] []]; done.
Qed.

Lemma specifier_at_spec w c t : well_formed (Spec w c) ->
  specifier_at ("%"%char :: (w ++ [c]) ++ t) = Some (w, c, t).
Proof.
  intros [Hw Hc]. cbn. rewrite <- app_assoc, span_app by done. cbn. rewrite conversion_not_digit by done.
  cbn. by rewrite app_nil_r, Hc.
Qed.

Lemma env_at_env v t : well_formed (EnvVar v) -> env_at (render_part (EnvVar v) ++ t) = Some (v, t).
Proof.
  intros (Hv & _ & Hn). cbn. rewrite <- app_assoc.
  rewrite span_app by (eapply Forall_impl; [exact Hn|]; intros c [Hc _]; cbn; by rewrite bool_decide_eq_false_2).
  cbn. rewrite app_nil_r. by destruct v.
Qed.

(** In front of a part of another kind, nothing of that kind begins. *)
Lemma skip_type ps t : Forall well_formed ps -> Forall (fun q => is_type q = false) ps ->
  search type_at (render ps ++ t) =
    match search type_at t with Some (p, a, r) => Some (render ps ++ p, a, r) | None => None end.
Proof.
  intros Hw Hn. induction ps as [|q ps IH]; [cbn [render map concat app]; by destruct (search type_at t) as [[[? ?] ?]|]|].
  apply Forall_cons in Hw as [Hq Hw], Hn as [Hn1 Hn]. rewrite render_cons, <- app_assoc.
  destruct q as [l|w c| |v]; [| |done|].
  - rewrite search_skip by (eapply Forall_impl; [exact Hq|]; intros c [Hc _] r; by apply type_at_other).
    rewrite IH by done. destruct (search type_at t) as [[[? ?] ?]|]; [|done]. cbn. by rewrite <- app_assoc.
  - cbn [render_part]. rewrite <- app_comm_cons, search_step by by apply type_at_spec.
    rewrite search_skip by (eapply Forall_impl; [by apply (spec_tail_other w c "%"%char)|]; intros x Hx r; by apply type_at_other).
    rewrite IH by done. destruct (search type_at t) as [[[? ?] ?]|]; [|done]. cbn. by rewrite <- !app_assoc.
  - destruct Hq as (_ & Hq & _). rewrite search_skip.
    + rewrite IH by done. destruct (search type_at t) as [[[? ?] ?]|]; [|done]. by rewrite <- app_assoc.
    + cbn [render_part]. rewrite !Forall_app. split_and!; [by repeat constructor| |by repeat constructor].
      eapply Forall_impl; [exact Hq|]; intros x [Hx _] r; by apply type_at_other.
Qed.

Lemma skip_env ps t : Forall well_formed ps -> Forall (fun q => is_env q = false) ps ->
  search env_at (render ps ++ t) =
    match search env_at t with Some (p, a, r) => Some (render ps ++ p, a, r) | None => None end.
Proof.
  intros Hw Hn. apply search_skip. unfold render. apply Forall_concat, Forall_map.
  rewrite Forall_forall in Hw |- *. rewrite Forall_forall in Hn. intros q Hq. specialize (Hw q Hq). specialize (Hn q Hq).
  destruct q as [l|w c| |v]; [| | |done]; cbn [render_part].
  - eapply Forall_impl; [exact Hw|]. intros c [_ Hc] r. by apply env_at_other.
  - constructor; [done|]. eapply Forall_impl; [by apply (spec_tail_other w c "$"%char)|].
    intros x Hx r. by apply env_at_other.
  - by repeat constructor.
Qed.

(** Where the specifiers of a name are. *)
Fixpoint spec_places (at_ : nat) (ps : list part) : list (nat * (text * ascii)) :=
  match ps with
  | [] => []
  | Spec w c :: ps => (at_, (w, c)) :: spec_places (at_ + (2 + length w)) ps
  | q :: ps => spec_places (at_ + length (render_part q)) ps
  end.

Definition final (q : part) : Prop := well_formed q /\ is_type q = false /\ is_env q = false.

Lemma matches_skip fuel at_ l t : plain l -> matches fuel at_ (l ++ t) = matches fuel (at_ + length l) t.
Proof.
  intros Hl. destruct fuel as [|fuel]; [done|]. cbn. rewrite search_skip.
  - destruct (search specifier_at t) as [[[p [w c]] r]|]; [|done]. rewrite length_app.
    f_equal; f_equal; lia.
  - eapply Forall_impl; [exact Hl|]. intros c [Hc _] r. by apply specifier_at_other.
Qed.

Lemma matches_places fuel at_ ps : Forall final ps -> (count_specs ps <= fuel)%nat ->
  matches fuel at_ (render ps) = spec_places at_ ps.
Proof.
  intros Hf. revert fuel at_. induction Hf as [|q ps (Hq & Ht & He) _ IH]; intros fuel at_ Hc; [by destruct fuel|].
  rewrite render_cons. destruct q as [l|w c| |v]; [| |done|done]; cbn [render_part spec_places].
  - rewrite matches_skip by done. by apply IH.
  - unfold count_specs in Hc. rewrite filter_cons_True in Hc by done. cbn in Hc.
    destruct fuel as [|fuel]; [lia|]. rewrite <- app_comm_cons. cbn [matches].
    rewrite (search_here _ _ _ _ (specifier_at_spec w c (render ps) Hq)). cbn [length].
    rewrite !Nat.add_0_r. f_equal. apply IH. unfold count_specs. lia.
Qed.

Lemma length_spec_places at_ ps : length (spec_places at_ ps) = count_specs ps.
Proof.
  revert at_. induction ps as [|q ps IH]; intros at_; [done|]. unfold count_specs in *.
  destruct q; cbn [spec_places]; rewrite ?filter_cons_True, ?filter_cons_False by done; cbn [length]; by rewrite IH.
Qed.

Lemma count_specs_length ps : (2 * count_specs ps <= length (render ps))%nat.
Proof.
  induction ps as [|q ps IH]; [done|]. unfold count_specs in *. rewrite render_cons, length_app.
  destruct q; rewrite ?filter_cons_True, ?filter_cons_False by done; cbn [length render_part]; [lia| |lia|lia].
  rewrite length_app. cbn. lia.
Qed.

Lemma specifiers_render ps : Forall final ps -> specifiers (render ps) = spec_places 0 ps.
Proof. intros Hf. apply matches_places; [done|]. pose proof (count_specs_length ps). lia. Qed.

(** ** The base name *)

(** A width that generateFileName pads with zeros, or none. *)
Definition settled (q : part) : Prop :=
  match q with Spec (c :: _) _ => c = "0"%char | _ => True end.

Lemma settled_places at_ ps i pos w c : Forall settled ps -> spec_places at_ ps !! i = Some (pos, (w, c)) ->
  settled (Spec w c).
Proof.
  intros Hs. revert at_ i. induction Hs as [|q ps Hq _ IH]; intros at_ i; [done|].
  destruct q as [l|w' c'| |v]; cbn [spec_places]; try apply IH.
  destruct i as [|i]; cbn; [|apply IH]. intros [= _ <- <-]. done.
Qed.

(** With settled widths nothing is changed, and the specifiers are counted. *)
Lemma count_settled ps : Forall final ps -> Forall settled ps ->
  countAndFixIntSpecifiers (render ps) = Ok (count_specs ps, render ps).
Proof.
  intros Hf Hs. unfold countAndFixIntSpecifiers.
  assert (forall n j, (j + n = count_specs ps)%nat -> fix_from n j (render ps) = Ok (render ps)) as Hfix.
  { intros n. induction n as [|n IH]; intros j Hj; [done|]. cbn [fix_from]. rewrite specifiers_render by done.
    destruct (lookup_lt_is_Some_2 (spec_places 0 ps) j) as [[pos [w c]] Hl]; [rewrite length_spec_places; lia|].
    rewrite Hl. pose proof (settled_places _ _ _ _ _ _ Hs Hl) as Hw.
    destruct w as [|d w]; [|cbn in Hw; rewrite bool_decide_eq_true_2 by done]; apply IH; lia. }
  rewrite specifiers_render, length_spec_places by done. rewrite Hfix by lia. done.
Qed.

Section BaseName.
Context (getenv : text -> option text) (runType : text).

Definition substituted (q : part) : part :=
  match q with
  | RunType => Str runType
  | EnvVar v => Str (default [] (getenv v))
  | _ => q
  end.

Lemma count_substituted ps : count_specs (map substituted ps) = count_specs ps.
Proof using.
  unfold count_specs. induction ps as [|q ps IH]; [done|]. cbn [map].
  destruct q; cbn [substituted]; rewrite ?filter_cons_True, ?filter_cons_False by done; cbn [length]; by rewrite ?IH.
Qed.

Context (Hrun : plain runType) (Henv : forall v x, getenv v = Some x -> plain x).

Lemma type_terminates ps : Forall well_formed ps ->
  terminates (type_step runType) (render ps) (Halt (render (map (filled is_type (fun _ => runType)) ps))).
Proof using Hrun.
  intros Hw. apply (fill_terminates _ is_type (fun _ => runType)) with (pre := []); try done.
  - intros pre h post Hwf Hpre Hh. destruct h; try done. rewrite render_app, render_cons. unfold type_step.
    apply Forall_app in Hwf as [Hwf _]. rewrite skip_type by done.
    rewrite (search_here _ _ tt (render post)) by done. rewrite app_nil_r. unfold replace.
    rewrite take_app_length. f_equal. do 2 f_equal. rewrite <- drop_drop, drop_app_length. done.
  - intros qs Hq Hn. unfold type_step. rewrite <- (app_nil_r (render qs)) at 1. by rewrite skip_type.
Qed.

Lemma c_str_plain v : Forall (fun c => c <> "000"%char) v -> c_str v = v.
Proof using.
  intros H. unfold c_str. rewrite span_all; [done|]. eapply Forall_impl; [exact H|].
  intros c Hc. cbn. by rewrite bool_decide_eq_false_2.
Qed.

Definition env_value (q : part) : text := match q with EnvVar v => default [] (getenv v) | _ => [] end.

Lemma env_terminates ps : Forall well_formed ps -> Forall (fun q => is_type q = false) ps ->
  terminates (env_step getenv) (render ps) (Halt (render (map (filled is_env env_value) ps))).
Proof using Henv.
  intros Hw Ht. apply (fill_terminates _ is_env env_value) with (pre := []); try done.
  - intros h Hh Hi. destruct h as [| | |v]; try done. cbn.
    destruct (getenv v) eqn:Hv; [by eapply Henv | constructor].
  - intros pre h post Hwf Hpre Hh. destruct h as [| | |v]; try done. rewrite render_app, render_cons. unfold env_step.
    apply Forall_app in Hwf as [Hwf [Hv _]%Forall_cons]. rewrite skip_env by done.
    rewrite (search_here _ _ _ _ (env_at_env v (render post) Hv)), app_nil_r.
    destruct Hv as (_ & _ & Hv). rewrite c_str_plain; [done|]. eapply Forall_impl; [exact Hv|]. by intros c [_ Hc].
  - intros qs Hq Hn. unfold env_step. rewrite <- (app_nil_r (render qs)) at 1. by rewrite skip_env.
Qed.

(** The base name of a name made of texts, %s, environment variables and integer
    specifiers is that name with the run type and the values of the variables put in,
    unless these hold % or $ themselves; the routine returns, with the number of
    specifiers, or with an exception when they are more than three. *)
Theorem base_name_of_parts ps (Hw : Forall well_formed ps) (Hs : Forall settled ps) (Hne : render ps <> []) :
  returns (generateBaseFileName getenv (render ps) runType)
    (render (map substituted ps),
     if (3 <? count_specs ps)%nat then Throw bad_base_name else Ok (count_specs ps)).
Proof using All.
  destruct (type_terminates ps Hw) as (n1 & H1 & _).
  set (qs := map (filled is_type (fun _ => runType)) ps) in *.
  assert (Forall well_formed qs) as Hwq by by apply filled_well_formed.
  assert (Forall (fun q => is_type q = false) qs) as Hnt by (apply Forall_map, Forall_true; by intros []).
  destruct (env_terminates qs Hwq Hnt) as (n2 & H2 & _).
  assert (map (filled is_env env_value) qs = map substituted ps) as Hrs.
  { unfold qs. rewrite map_map. apply map_ext. by intros []. }
  assert (Forall well_formed (map substituted ps)) as Hwr.
  { rewrite <- Hrs. apply filled_well_formed; [|done]. intros [| | |v] _ Hi; try done. cbn.
    destruct (getenv v) eqn:Hv; [by eapply Henv | constructor]. }
  assert (Forall final (map substituted ps)) as Hf.
  { apply Forall_forall. intros q Hq. split; [by apply (proj1 (Forall_forall _ _) Hwr)|].
    apply list_elem_of_fmap in Hq as (q' & -> & _). by destruct q'. }
  assert (Forall settled (map substituted ps)) as Hsr by (apply Forall_map; eapply Forall_impl; [exact Hs|]; by intros []).
  pose proof (count_substituted ps) as Hc.
  exists (n1 + n2)%nat. intros fuel Hfuel. unfold generateBaseFileName.
  destruct (render ps) as [|c t] eqn:Hr; [done|].
  rewrite (run_more _ n1 fuel _ _ H1) by (done || lia). unfold expandEnvironmentalVariables.
  rewrite (run_more _ n2 fuel _ _ H2) by (done || lia). rewrite Hrs, count_settled by done.
  rewrite Hc. by destruct (3 <? count_specs ps)%nat.
Qed.
End BaseName.

(** ** Names that are not handled *)

(** A loop that never gets out of a set of states. *)
Lemma run_forever {St R} (step : St -> outcome St R) (P : St -> Prop) fuel s :
  (forall s, P s -> exists s', step s = Next s' /\ P s') -> P s -> exists s', run step fuel s = Next s'.
Proof.
  intros Hstep. revert s. induction fuel as [|fuel IH]; intros s Hs; [by exists s|].
  destruct (Hstep s Hs) as (s' & Hn & Hs'). cbn. rewrite Hn. by apply IH.
Qed.

Definition has_type (t : text) : Prop := exists a b, t = a ++ txt "%s" ++ b.

(** With %s in the run type, a name that holds %s is worked on for ever. *)
Theorem run_type_with_s getenv runType baseName fuel : has_type runType -> has_type baseName ->
  exists t, generateBaseFileName getenv baseName runType fuel = Next t.
Proof.
  intros (x & y & Hrt) Hb. destruct (run_forever (type_step runType) has_type fuel baseName) as [t Ht]; [|done|].
  - intros s (a & b & ->). unfold type_step.
    destruct (search type_at (a ++ txt "%s" ++ b)) as [[[p []] r]|] eqn:Hs;
      [|exfalso; by apply (search_found type_at a (txt "%s" ++ b)) in Hs].
    eexists. split; [done|]. unfold replace. rewrite Hrt.
    exists (take (length p) (a ++ txt "%s" ++ b) ++ x), (y ++ drop (length p + 2) (a ++ txt "%s" ++ b)).
    by rewrite <- !app_assoc.
  - exists t. unfold generateBaseFileName. destruct baseName; [by destruct Hb as ([] & ? & ?)|]. by rewrite Ht.
Qed.

(** A variable whose value mentions the variable is expanded for ever. *)
Theorem self_reference getenv v pre post l r fuel : well_formed (EnvVar v) -> plain pre -> plain l ->
  getenv v = Some (pre ++ render_part (EnvVar v) ++ post) ->
  exists t, expandEnvironmentalVariables getenv (l ++ render_part (EnvVar v) ++ r) fuel = Next t.
Proof.
  intros Hv Hpre Hl Hg.
  apply (run_forever _ (fun t => exists l r, plain l /\ t = l ++ render_part (EnvVar v) ++ r)); [|by exists l, r].
  clear l r Hl. intros s (l & r & Hl & ->). unfold env_step.
  rewrite search_skip by (eapply Forall_impl; [exact Hl|]; intros c [_ Hc] x; by apply env_at_other).
  rewrite (search_here _ _ _ _ (env_at_env v r Hv)), app_nil_r. eexists. split; [done|].
  exists (l ++ pre), (post ++ r). split; [by apply Forall_app|].
  destruct Hv as (_ & _ & Hv). rewrite c_str_plain, Hg by (eapply Forall_impl; [exact Hv|]; by intros c [_ Hc]).
  change (default [] (Some ?x)) with x. by rewrite <- !app_assoc.
Qed.

Lemma plain_no_specifiers s : plain s -> specifiers s = [].
Proof.
  intros Hp. rewrite <- (app_nil_r s). change (s ++ []) with (render [Str s]).
  rewrite specifiers_render; [done|]. by repeat constructor.
Qed.

(** A specifier whose width [w ++ [z]] does not begin with 0, in other text. *)
Section Destroyed.
Context (l w r : text) (z c : ascii).
Context (Hl : plain l) (Hr : plain r) (Hc : is_conversion c = true).
Context (Hw : Forall (fun c => is_digit c = true) (w ++ [z])) (Hz : hd_error (w ++ [z]) <> Some "0"%char).

Definition before_fix : text := l ++ "%"%char :: (w ++ [z]) ++ [c] ++ r.
Definition after_fix : text := l ++ "0"%char :: (w ++ [z]) ++ [z; c] ++ r.

Lemma after_fix_plain : plain after_fix.
Proof using Hl Hr Hc Hw.
  unfold plain, after_fix. rewrite app_comm_cons, !Forall_app. split_and!; [done| | |done].
  - constructor; [done|]. eapply Forall_impl; [exact Hw|]. intros d Hd. split; by apply digit_other.
  - apply Forall_app in Hw as [_ [Hz1 _]%Forall_cons].
    constructor; [split; by apply digit_other|]. constructor; [|done]. split; by apply conversion_other.
Qed.

Lemma replaced x : replace (length l) (length (w ++ [z])) ("0"%char :: w ++ [z]) (before_fix ++ x) = after_fix ++ x.
Proof using.
  unfold replace, before_fix, after_fix. rewrite <- app_assoc, take_app_length, <- drop_drop, drop_app_length.
  rewrite <- (app_assoc l). f_equal. rewrite length_app. cbn [length].
  replace (length w + 1)%nat with (S (length w)) by lia. rewrite <- !app_comm_cons. f_equal.
  cbn [drop]. rewrite <- !app_assoc, drop_app_length. done.
Qed.

Lemma specifiers_before qs : Forall final qs -> specifiers (before_fix ++ render qs) =
  (length l, (w ++ [z], c)) :: spec_places (length l + (2 + length (w ++ [z])) + length r) qs.
Proof using Hl Hr Hc Hw.
  intros Hqs.
  assert (before_fix ++ render qs = render (Str l :: Spec (w ++ [z]) c :: Str r :: qs)) as ->.
  { unfold before_fix. rewrite !render_cons. cbn [render_part]. rewrite <- !app_assoc. f_equal.
    rewrite <- !app_comm_cons, <- !app_assoc. done. }
  rewrite specifiers_render by (repeat constructor; done). done.
Qed.

Lemma first_round qs rounds : Forall final qs ->
  fix_from (S rounds) 0 (before_fix ++ render qs) = fix_from rounds 1 (after_fix ++ render qs).
Proof using Hl Hr Hc Hw Hz.
  intros Hqs. cbn [fix_from]. rewrite specifiers_before by done. cbn [lookup list_lookup].
  rewrite <- replaced. destruct (w ++ [z]) as [|d ds] eqn:Hd; [by destruct w|].
  rewrite bool_decide_eq_false_2; [done|]. intros ->. by apply Hz.
Qed.
End Destroyed.

(** A width that does not begin with 0 is not given one: the position is that of the
    percent sign, which is overwritten, so that the specifier counted is gone.  A
    specifier behind it is then looked for beyond the end of the matches. *)
Theorem width_destroys_specifier l w r z c : plain l -> plain r -> is_conversion c = true ->
  Forall (fun c => is_digit c = true) (w ++ [z]) -> hd_error (w ++ [z]) <> Some "0"%char ->
  countAndFixIntSpecifiers (before_fix l w r z c) = Ok (1%nat, after_fix l w r z c) /\
  specifiers (after_fix l w r z c) = [] /\
  (forall w' c', well_formed (Spec w' c') ->
     countAndFixIntSpecifiers (before_fix l w r z c ++ render [Spec w' c']) = UB).
Proof.
  intros Hl Hr Hc Hw Hz. unfold countAndFixIntSpecifiers. pose proof (after_fix_plain l w r z c Hl Hr Hc Hw) as Hp.
  split; [|split; [by apply plain_no_specifiers|]].
  - pose proof (specifiers_before l w r z c Hl Hr Hc Hw [] ltac:(constructor)) as H1.
    pose proof (first_round l w r z c Hl Hr Hc Hw Hz [] 0 ltac:(constructor)) as H2.
    change (render []) with (@nil ascii) in *. rewrite !app_nil_r in *. rewrite H1. cbn [spec_places length].
    by rewrite H2.
  - intros w' c' Hwf. assert (Forall final [Spec w' c']) as Hf by (constructor; [by split_and!|constructor]).
    rewrite specifiers_before by done. cbn [spec_places length]. rewrite first_round by done. cbn [fix_from].
    assert (specifiers (after_fix l w r z c ++ render [Spec w' c']) = [(length (after_fix l w r z c), (w', c'))]) as ->; [|done].
    change (after_fix l w r z c ++ render [Spec w' c']) with (render [Str (after_fix l w r z c); Spec w' c']).
    rewrite specifiers_render; [done|]. by constructor.
Qed.

(** ** On concrete names *)

Definition env_example (v : text) : option text := if decide (v = txt "DIR") then Some (txt "/data") else None.
Definition name_example : list part :=
  [EnvVar (txt "DIR"); Str (txt "/"); RunType; EnvVar (txt "NONE"); Str (txt "_"); Spec (txt "05") "d"; Str (txt ".evio")].

(** The conditions on parts, computed. *)
Definition without (ds : text) (l : text) : bool := forallb (fun c => negb (bool_decide (c ∈ ds))) l.
Definition well_formed_b (q : part) : bool :=
  match q with
  | Str l => without (txt "%$") l
  | Spec w c => forallb is_digit w && is_conversion c
  | RunType => true
  | EnvVar v => negb (bool_decide (v = [])) && without (txt "%$") v && without [")"%char; "000"%char] v
  end.

Lemma without_spec ds l : without ds l = true -> Forall (fun c => c ∉ ds) l.
Proof.
  intros H. unfold without in H. rewrite List.forallb_forall in H. apply Forall_forall. intros c Hc%list_elem_of_In.
  specialize (H c Hc). by rewrite negb_true_iff, bool_decide_eq_false in H.
Qed.
Lemma without_two a b l : without [a; b] l = true -> Forall (fun c => c <> a /\ c <> b) l.
Proof.
  intros H. eapply Forall_impl; [by apply without_spec|]. cbn. intros c Hc. rewrite !not_elem_of_cons in Hc. tauto.
Qed.
Lemma plain_dec_ok l : without (txt "%$") l = true -> plain l.
Proof. apply without_two. Qed.
Lemma well_formed_dec ps : forallb well_formed_b ps = true -> Forall well_formed ps.
Proof.
  intros H. rewrite List.forallb_forall in H. apply Forall_forall. intros q Hq%list_elem_of_In. specialize (H q Hq).
  destruct q as [l|w c| |v]; cbn in *; [by apply plain_dec_ok| |done|].
  - apply andb_true_iff in H as [H Hc]. split; [|done]. rewrite List.forallb_forall in H.
    apply Forall_forall. intros d Hd%list_elem_of_In. by apply H.
  - rewrite !andb_true_iff, negb_true_iff, bool_decide_eq_false in H. destruct H as [[H1 H2] H3].
    split_and!; [done|by apply plain_dec_ok|by apply without_two].
Qed.

Lemma base_name_of_parts_witness :
  returns (generateBaseFileName env_example (txt "$(DIR)/%s$(NONE)_%05d.evio") (txt "cosmic"))
    (txt "/data/cosmic_%05d.evio", Ok 1%nat).
Proof.
  refine (base_name_of_parts env_example (txt "cosmic") (plain_dec_ok (txt "cosmic") eq_refl) _ name_example _ _ _).
  - intros v x. unfold env_example. case_decide; [|done]. intros [= <-]. by apply plain_dec_ok.
  - by apply well_formed_dec.
  - by repeat constructor.
  - done.
Defined.

Lemma width_example : generateBaseFileName env_example (txt "run%3d") [] 9 = Halt (txt "run033d", Ok 1%nat).
Proof. by vm_compute. Qed.
