(* ===== verification/EvioFileSplit.v ===== *)
(** File names of Util.h, second part: generateFileName, which puts the number of the
    run, of the stream and of the split file into a base name or behind it. *)
From Stdlib Require Import Ascii.
From S2P Require Import Prelude EvioFileName.

(** ** Numbers as text *)

Definition digit_char (d : Z) : ascii := ascii_of_N (Z.to_N (if d <? 10 then 48 + d else 87 + d)).
Fixpoint digits (fuel : nat) (base n : Z) : text :=
  match fuel with
  | O => []
  | S fuel => if n <? base then [digit_char n] else digits fuel base (n / base) ++ [digit_char (n mod base)]
  end.
(** Numbers below 2^64 have at most 20 digits. *)
Definition to_base (base n : Z) : text := digits 20 base n.
(** [std::to_string] of an unsigned number *)
Definition to_string (n : Z) : text := to_base 10 n.

Definition digit_val (c : ascii) : Z :=
  let n := Z.of_N (N_of_ascii c) in if n <? 58 then n - 48 else n - 87.
Definition value_of (base : Z) (t : text) : Z := fold_left (fun a c => a * base + digit_val c) t 0.

(** The text for a conversion %d or %x: an argument of type int or unsigned int, a
    field width in digits, and 0 as a flag. *)
Definition printed (width : text) (conversion : ascii) (arg : Z) : text :=
  let n := Z.to_nat (value_of 10 width) in
  let '(sign, body) :=
    if bool_decide (conversion = "x"%char) then ([], to_base 16 (u32 arg))
    else (if i32 arg <? 0 then ["-"%char] else [], to_base 10 (Z.abs (i32 arg))) in
  let missing := (n - length (sign ++ body))%nat in
  if bool_decide (hd_error width = Some "0"%char) then sign ++ replicate missing "0"%char ++ body
  else replicate missing " "%char ++ sign ++ body.

(** ** sprintf *)

(** A format taken apart; [st] is what was read of a conversion.  [None]: there is a
    conversion other than %d and %x with a width, or %%. *)
Fixpoint parse_format (st : option text) (t : text) : option (list part) :=
  match t, st with
  | [], None => Some []
  | [], Some _ => None
  | c :: t, None =>
    if bool_decide (c = "%"%char) then parse_format (Some []) t
    else ps ← parse_format None t; Some (Str [c] :: ps)
  | c :: t, Some w =>
    if is_digit c then parse_format (Some (w ++ [c])) t
    else if is_conversion c then ps ← parse_format None t; Some (Spec w c :: ps)
    else if bool_decide (w = []) && bool_decide (c = "%"%char) then ps ← parse_format None t; Some (Str [c] :: ps)
    else None
  end.

(** [None]: there are fewer arguments than conversions. *)
Fixpoint print_parts (ps : list part) (args : list Z) : option text :=
  match ps, args with
  | [], _ => Some []
  | Spec w c :: ps, a :: args => t ← print_parts ps args; Some (printed w c a ++ t)
  | Str l :: ps, _ => t ← print_parts ps args; Some (l ++ t)
  | _, _ => None
  end.

Definition bad_file_name : string := "badly formatted file name".

Section FileName.
(** sprintf with other conversions; no text if its result is negative. *)
Context (other_format : nat -> text -> list Z -> result (option text)).

(** Into an array of [size] characters; the last one is the null. *)
Definition sprintf (size : nat) (format : text) (args : list Z) : result (option text) :=
  match parse_format None (c_str format) with
  | Some ps =>
    match print_parts ps args with
    | Some out => if (length out <? size)%nat then Ok (Some out) else UB
    | None => UB
    end
  | None => other_format size format args
  end.

(** [char tempChar[fileName.length() + 1024]; int err = sprintf(tempChar, ...); ...] *)
Definition print_name (fileName : text) (args : list Z) : result text :=
  err ← sprintf (length fileName + 1024) fileName args;
  match err with Some temp => Ok temp | None => Throw bad_file_name end.

(** The match a regex iterator stands at after [i] increments. *)
Definition specifier_match (fileName : text) (i : nat) : result (nat * text) :=
  match specifiers fileName !! i with
  | Some (pos, (w, c)) => Ok (pos, "%"%char :: w ++ [c])
  | None => UB
  end.

Definition dot (n : Z) : text := "."%char :: to_string n.

Definition generateFileName (fileName : text) (specifierCount runNumber split splitNumber streamId streamCount : Z)
    : result text :=
  let streamCount := if streamCount <? 1 then 1 else streamCount in
  let splitNumber := if splitNumber <? 1 then 0 else splitNumber in
  let runNumber := if runNumber <? 0 then 0 else runNumber in
  let streamId := if streamId <? 0 then 0 else streamId in
  let oneStream := streamCount <? 2 in
  let fileName := if (length fileName <? 1)%nat then txt "file" else fileName in
  if 0 <? split then
    if specifierCount <? 1 then
      if oneStream then Ok (fileName ++ dot splitNumber)
      else Ok (fileName ++ dot streamId ++ dot splitNumber)
    else if specifierCount =? 1 then
      fileName ← print_name fileName [runNumber];
      if oneStream then Ok (fileName ++ dot splitNumber)
      else Ok (fileName ++ dot streamId ++ dot splitNumber)
    else if specifierCount =? 2 then
      if negb oneStream then
        '(pos, str) ← specifier_match fileName 1;
        let fileName := replace pos (length str) (txt "%d." ++ str) fileName in
        print_name fileName [runNumber; streamId; splitNumber]
      else print_name fileName [runNumber; splitNumber]
    else if specifierCount =? 3 then print_name fileName [runNumber; streamId; splitNumber]
    else Ok fileName
  else
    if specifierCount <? 1 then
      if negb oneStream then Ok (fileName ++ dot streamId) else Ok fileName
    else if specifierCount =? 1 then
      fileName ← print_name fileName [runNumber];
      if negb oneStream then Ok (fileName ++ dot streamId) else Ok fileName
    else if specifierCount =? 2 then
      '(pos, str) ← specifier_match fileName 1;
      let fileName := replace pos (length str) [] fileName in
      fileName ← print_name fileName [runNumber];
      if negb oneStream then Ok (fileName ++ dot streamId) else Ok fileName
    else if specifierCount =? 3 then
      '(pos, str) ← specifier_match fileName 2;
      let fileName := replace pos (length str) [] fileName in
      print_name fileName [runNumber; streamId]
    else Ok fileName.
End FileName.

(** ** Digits *)

Lemma value_of_app base t u : value_of base (t ++ u) = value_of base t * base ^ zlen u + value_of base u.
Proof.
  unfold value_of. rewrite fold_left_app. generalize (fold_left (fun a c => a * base + digit_val c) t 0) as x.
  assert (forall x y, fold_left (fun a c => a * base + digit_val c) u (x + y) =
    x * base ^ zlen u + fold_left (fun a c => a * base + digit_val c) u y) as H.
  { induction u as [|c u IH]; intros x y; cbn [fold_left length]; [rewrite Z.pow_0_r; lia|].
    replace ((x + y) * base + digit_val c) with (x * base + (y * base + digit_val c)) by lia.
    rewrite IH. replace (Z.of_nat (S (length u))) with (1 + zlen u) by lia. rewrite Z.pow_add_r by lia. lia. }
  intros x. rewrite <- (Z.add_0_r x) at 1. apply H.
Qed.

Lemma digit_val_char d : 0 <= d < 16 -> digit_val (digit_char d) = d.
Proof.
  intros H. assert (exists n, (n < 16)%nat /\ d = Z.of_nat n) as (n & Hn & ->) by (exists (Z.to_nat d); lia).
  do 16 (destruct n as [|n]; [by vm_compute|]). lia.
Qed.

Lemma digits_value fuel base n : 2 <= base <= 16 -> 0 <= n < base ^ Z.of_nat fuel ->
  value_of base (digits fuel base n) = n.
Proof.
  intros Hb. revert n. induction fuel as [|fuel IH]; intros n Hn; [cbn in *; lia|].
  cbn [digits]. destruct (Z.ltb_spec n base).
  - unfold value_of. cbn. rewrite digit_val_char by lia. lia.
  - rewrite value_of_app, IH.
    + unfold value_of at 1. cbn [fold_left length]. rewrite digit_val_char by (Z.div_mod_to_equations; lia).
      change (zlen [digit_char (n mod base)]) with 1. rewrite Z.pow_1_r. Z.div_mod_to_equations. lia.
    + replace (Z.of_nat (S fuel)) with (1 + Z.of_nat fuel) in Hn by lia. rewrite Z.pow_add_r, Z.pow_1_r in Hn by lia.
      split; [Z.div_mod_to_equations; lia|]. apply Z.div_lt_upper_bound; lia.
Qed.

Lemma to_base_value base n : 10 <= base <= 16 -> is_u32 n -> value_of base (to_base base n) = n.
Proof.
  unfold is_u32. intros Hb Hn. apply digits_value; [lia|]. split; [lia|].
  apply Z.lt_le_trans with (10 ^ 20); [lia|]. change (Z.of_nat 20) with 20. apply Z.pow_le_mono_l. lia.
Qed.

(** A digit, of either base. *)
Definition is_hex (c : ascii) : Prop := exists d, 0 <= d < 16 /\ c = digit_char d.
Lemma digits_hex fuel base n : 2 <= base <= 16 -> 0 <= n -> Forall is_hex (digits fuel base n).
Proof.
  intros Hb. revert n. induction fuel as [|fuel IH]; intros n Hn; cbn [digits]; [done|].
  destruct (Z.ltb_spec n base); [constructor; [exists n; split; [lia|done]|done]|].
  apply Forall_app. split; [apply IH; Z.div_mod_to_equations; lia|].
  constructor; [|done]. eexists. split; [|done]. Z.div_mod_to_equations. lia.
Qed.

Lemma is_hex_other c : is_hex c -> c <> "."%char /\ c <> "-"%char.
Proof.
  intros (d & Hd & ->). split; intros H; apply (f_equal digit_val) in H; rewrite digit_val_char in H by lia;
    revert H; vm_compute; lia.
Qed.

Lemma length_digits fuel base n : (length (digits fuel base n) <= fuel)%nat.
Proof.
  revert n. induction fuel as [|fuel IH]; intros n; cbn [digits]; [done|].
  destruct (n <? base); cbn; [lia|]. rewrite length_app. cbn. specialize (IH (n / base)). lia.
Qed.

Lemma to_string_inj n m : is_u32 n -> is_u32 m -> to_string n = to_string m -> n = m.
Proof.
  intros Hn Hm H. rewrite <- (to_base_value 10 n), <- (to_base_value 10 m) by (done || lia). unfold to_string in H. by rewrite H.
Qed.

Lemma value_of_zeros base k t : value_of base (replicate k "0"%char ++ t) = value_of base t.
Proof.
  rewrite value_of_app. assert (value_of base (replicate k "0"%char) = 0) as ->; [|lia].
  induction k as [|k IH]; [done|]. cbn [replicate]. change ("0"%char :: ?l) with (["0"%char] ++ l).
  rewrite value_of_app, IH. change (value_of base ["0"%char]) with 0. lia.
Qed.

(** ** Conversions *)

(** Different numbers are printed differently, if padded with zeros or not at all. *)
Lemma printed_inj w c a b : settled (Spec w c) -> is_u32 a -> is_u32 b -> printed w c a = printed w c b -> a = b.
Proof.
  intros Hs Ha Hb.
  assert (forall base k l x y, 10 <= base <= 16 -> is_u32 x -> is_u32 y ->
    replicate k "0"%char ++ to_base base x = replicate l "0"%char ++ to_base base y -> x = y) as Hzeros.
  { intros base k l x y Hbase Hx Hy H. apply (f_equal (value_of base)) in H.
    rewrite !value_of_zeros, !to_base_value in H by done. done. }
  assert (forall x, printed w c x =
    if bool_decide (c = "x"%char) then replicate (Z.to_nat (value_of 10 w) - length (to_base 16 (u32 x))) "0"%char ++ to_base 16 (u32 x)
    else let sign := if i32 x <? 0 then ["-"%char] else [] in
      sign ++ replicate (Z.to_nat (value_of 10 w) - length (sign ++ to_base 10 (Z.abs (i32 x)))) "0"%char
        ++ to_base 10 (Z.abs (i32 x))) as Hp.
  { intros x. unfold printed. destruct w as [|d w]; cbn in Hs; [|subst d; cbn [hd_error]; rewrite (bool_decide_eq_true_2 (Some _ = _)) by done; by case_bool_decide].
    cbn. by case_bool_decide. }
  rewrite !Hp. case_bool_decide.
  - intros He%Hzeros; [|lia|apply u32_range..]. unfold is_u32 in *. rewrite !u32_small in He by done. done.
  - cbn zeta. unfold is_u32 in *.
    assert (forall x y, 0 <= x < 4294967296 -> 0 <= y < 4294967296 -> i32 x = i32 y -> x = y) as Hi by (intros x y Hx Hy; wrap_lia).
    assert (forall x, is_u32 (Z.abs (i32 x))) as Habs by (intros x; unfold is_u32; wrap_lia).
    assert (forall k x t, replicate k "0"%char ++ to_base 10 (Z.abs (i32 x)) <> "-"%char :: t) as Hminus.
    { intros k x t He. assert (Forall is_hex (replicate k "0"%char ++ to_base 10 (Z.abs (i32 x)))) as Hx.
      { apply Forall_app. split; [apply Forall_replicate; exists 0; done|]. apply digits_hex; lia. }
      rewrite He in Hx. apply Forall_cons in Hx as [Hx _]. by apply is_hex_other in Hx as [_ Hx]. }
    intros He. apply Hi; [done..|].
    destruct (Z.ltb_spec (i32 a) 0), (Z.ltb_spec (i32 b) 0); cbn [app] in He.
    + injection He as He. apply Hzeros in He; [lia|lia|apply Habs..].
    + symmetry in He. by apply Hminus in He.
    + by apply Hminus in He.
    + apply Hzeros in He; [lia|lia|apply Habs..].
Qed.

(** ** sprintf on names *)

(** What goes to the place of a specifier; what there is nothing for is left out. *)
Abbreviation slot := (text -> ascii -> text).
Fixpoint fill_in (ps : list part) (slots : list slot) : text :=
  match ps, slots with
  | [], _ => []
  | Str l :: ps, _ => l ++ fill_in ps slots
  | Spec w c :: ps, f :: slots => f w c ++ fill_in ps slots
  | _ :: ps, _ => fill_in ps slots
  end.
Definition number (n : Z) : slot := fun w c => printed w c n.
(** The stream, a dot, and the number of the file. *)
Definition stream_and (n m : Z) : slot := fun w c => printed [] "d" n ++ "."%char :: printed w c m.

(** A width of which three fit into the 1024 characters added to the name. *)
Definition narrow (q : part) : Prop := match q with Spec w _ => value_of 10 w <= 300 | _ => True end.
(** A part of a final name that can be printed. *)
Definition printable (q : part) : Prop :=
  final q /\ narrow q /\ Forall (fun c => c <> "000"%char) (render_part q).

Lemma length_printed w c a : narrow (Spec w c) -> (length (printed w c a) <= 300)%nat.
Proof.
  cbn. intros Hn. unfold printed.
  assert (forall base n, (length (to_base base n) <= 20)%nat) as Hl by (intros; apply length_digits).
  pose proof (Hl 16 (u32 a)). pose proof (Hl 10 (Z.abs (i32 a))).
  case_bool_decide; [|destruct (i32 a <? 0)]; case_bool_decide;
    rewrite ?length_app, ?length_replicate; cbn [app length]; rewrite ?length_app, ?length_replicate; cbn [length]; lia.
Qed.

(** The format is taken apart into characters and specifiers. *)
Definition pieces (ps : list part) : list part :=
  concat (map (fun q => match q with Str l => map (fun c => Str [c]) l | _ => [q] end) ps).

Lemma parse_plain l t : plain l -> parse_format None (l ++ t) =
  match parse_format None t with Some ps => Some (map (fun c => Str [c]) l ++ ps) | None => None end.
Proof.
  induction 1 as [|c l [Hc _] _ IH]; [cbn [app map]; by destruct (parse_format None t)|].
  cbn. rewrite bool_decide_eq_false_2, IH by done. by destruct (parse_format None t).
Qed.

Lemma parse_spec w0 w c t : Forall (fun c => is_digit c = true) w -> is_conversion c = true ->
  parse_format (Some w0) ((w ++ [c]) ++ t) =
    match parse_format None t with Some ps => Some (Spec (w0 ++ w) c :: ps) | None => None end.
Proof.
  intros Hw Hc. revert w0. induction Hw as [|d w Hd _ IH]; intros w0; cbn [app].
  - cbn. rewrite conversion_not_digit, Hc, app_nil_r by done. by destruct (parse_format None t).
  - cbn [parse_format]. rewrite Hd, IH. by rewrite <- app_assoc.
Qed.

Lemma parse_render ps : Forall final ps -> parse_format None (render ps) = Some (pieces ps).
Proof.
  induction 1 as [|q ps (Hq & Ht & He) _ IH]; [done|]. rewrite render_cons.
  destruct q as [l|w c| |v]; [| |done|done]; cbn [render_part].
  - by rewrite parse_plain, IH.
  - destruct Hq as [Hw Hc]. rewrite <- app_comm_cons. cbn [parse_format].
    rewrite bool_decide_eq_true_2, parse_spec, IH by done. done.
Qed.

Lemma print_chars l ps args : print_parts (map (fun c => Str [c]) l ++ ps) args =
  match print_parts ps args with Some t => Some (l ++ t) | None => None end.
Proof.
  induction l as [|c l IH]; cbn [app map]; [by destruct (print_parts ps args)|].
  cbn. rewrite IH. by destruct (print_parts ps args).
Qed.

Lemma print_pieces ps args : Forall final ps -> (count_specs ps <= length args)%nat ->
  print_parts (pieces ps) args = Some (fill_in ps (map number args)).
Proof.
  intros Hf. revert args. induction Hf as [|q ps (Hq & Ht & He) _ IH]; intros args Hc; [by destruct args|].
  unfold count_specs in *. destruct q as [l|w c| |v]; [| |done|done].
  - rewrite filter_cons_False in Hc by done. change (pieces (Str l :: ps)) with (map (fun c => Str [c]) l ++ pieces ps).
    rewrite print_chars, IH by done. done.
  - rewrite filter_cons_True in Hc by done. destruct args as [|a args]; cbn in Hc; [lia|].
    change (pieces (Spec w c :: ps)) with (Spec w c :: pieces ps). cbn [print_parts]. rewrite IH by lia. done.
Qed.

Lemma count_cons q ps : count_specs (q :: ps) = ((if is_spec q then 1 else 0) + count_specs ps)%nat.
Proof.
  unfold count_specs. destruct q; rewrite ?filter_cons_True, ?filter_cons_False by done; done.
Qed.
Lemma count_app ps qs : count_specs (ps ++ qs) = (count_specs ps + count_specs qs)%nat.
Proof. unfold count_specs. by rewrite filter_app, length_app. Qed.

Lemma length_fill ps args : Forall printable ps ->
  (length (fill_in ps (map number args)) <= length (render ps) + 300 * count_specs ps)%nat.
Proof.
  intros Hp. revert args. induction Hp as [|q ps (Hf & Hn & _) _ IH]; intros args; [by destruct args|].
  rewrite render_cons, length_app, count_cons.
  destruct q as [l|w c| |v]; cbn [fill_in is_spec]; [| | |]; rewrite ?length_app; cbn [render_part].
  - specialize (IH args). lia.
  - destruct args as [|a args]; cbn [map]; [specialize (IH []); cbn [map] in IH; lia|].
    rewrite length_app. unfold number at 1. pose proof (length_printed w c a Hn). specialize (IH args). lia.
  - specialize (IH args). lia.
  - specialize (IH args). lia.
Qed.

Lemma printable_final ps : Forall printable ps -> Forall final ps.
Proof. intros H. eapply Forall_impl; [exact H|]. by intros q [Hq _]. Qed.

Section PrintName.
Context (other : nat -> text -> list Z -> result (option text)).

Lemma print_name_fills ps args : Forall printable ps -> (count_specs ps <= length args)%nat ->
  (count_specs ps <= 3)%nat -> print_name other (render ps) args = Ok (fill_in ps (map number args)).
Proof.
  intros Hp Ha Hc. pose proof (printable_final ps Hp) as Hf. unfold print_name, sprintf. rewrite c_str_plain.
  - rewrite parse_render, print_pieces by done. pose proof (length_fill ps args Hp).
    destruct (Nat.ltb_spec (length (fill_in ps (map number args))) (length (render ps) + 1024)%nat); [done|lia].
  - unfold render. apply Forall_concat, Forall_map. eapply Forall_impl; [exact Hp|]. by intros q (_ & _ & H).
Qed.

(** ** Specifiers that are replaced *)

(** The [i]-th specifier, in the name and among the matches. *)
Lemma specifier_place i ps at_ : (i < count_specs ps)%nat ->
  exists pre w c post, ps = pre ++ Spec w c :: post /\ count_specs pre = i /\
    spec_places at_ ps !! i = Some ((at_ + length (render pre))%nat, (w, c)).
Proof.
  revert i at_. induction ps as [|q ps IH]; intros i at_ Hi; [cbn in Hi; lia|]. rewrite count_cons in Hi.
  assert (forall i', (i' < count_specs ps)%nat -> (i' + if is_spec q then 1 else 0)%nat = i ->
    spec_places at_ (q :: ps) !! i = spec_places (at_ + length (render_part q)) ps !! i' ->
    exists pre w c post, q :: ps = pre ++ Spec w c :: post /\ count_specs pre = i /\
      spec_places at_ (q :: ps) !! i = Some ((at_ + length (render pre))%nat, (w, c))) as Hlater.
  { intros i' Hi' Hci Hl. destruct (IH i' (at_ + length (render_part q))%nat Hi') as (pre & w & c & post & -> & Hc & Hs).
    exists (q :: pre), w, c, post. split; [done|]. rewrite count_cons, Hl, Hs, render_cons, length_app.
    split; [lia|]. do 2 f_equal. lia. }
  destruct q as [l|w c| |v]; cbn [is_spec] in *; try (apply (Hlater i); [lia|lia|done]).
  destruct i as [|i].
  - exists [], w, c, ps. split; [done|]. split; [done|]. cbn. by rewrite Nat.add_0_r.
  - apply (Hlater i); [lia|lia|]. cbn [spec_places lookup list_lookup].
    cbn [render_part length]. rewrite length_app. cbn [length].
    by replace (S (length w + 1)) with (2 + length w)%nat by lia.
Qed.

Lemma specifier_match_ok i ps : Forall final ps -> (i < count_specs ps)%nat ->
  exists pre w c post, ps = pre ++ Spec w c :: post /\ count_specs pre = i /\
    specifier_match (render ps) i = Ok (length (render pre), render_part (Spec w c)) /\
    (forall s, replace (length (render pre)) (length (render_part (Spec w c))) s (render ps)
       = render pre ++ s ++ render post).
Proof using.
  intros Hf Hi. destruct (specifier_place i ps 0 Hi) as (pre & w & c & post & -> & Hc & Hs).
  exists pre, w, c, post. split; [done|]. split; [done|]. split.
  - unfold specifier_match. rewrite specifiers_render, Hs by done. done.
  - intros s. unfold replace. rewrite render_app, render_cons, take_app_length, <- drop_drop, drop_app_length, drop_app_length.
    done.
Qed.
End PrintName.

Lemma fill_app pre qs slots : fill_in (pre ++ qs) slots = fill_in pre slots ++ fill_in qs (drop (count_specs pre) slots).
Proof.
  revert slots. induction pre as [|q pre IH]; intros slots; [by rewrite drop_0|].
  rewrite count_cons. destruct q as [l|w c| |v]; cbn [app fill_in is_spec]; rewrite ?Nat.add_0_l.
  - by rewrite IH, app_assoc.
  - destruct slots as [|f slots]; [|cbn; by rewrite IH, app_assoc]. rewrite IH. by rewrite !drop_nil.
  - apply IH.
  - apply IH.
Qed.

(** Slots beyond the specifiers are not used. *)
Lemma fill_take ps slots more : (count_specs ps <= length slots)%nat -> fill_in ps (slots ++ more) = fill_in ps slots.
Proof.
  revert slots. induction ps as [|q ps IH]; intros slots Hc; [by destruct slots, more|]. rewrite count_cons in Hc.
  destruct q as [l|w c| |v]; cbn [fill_in is_spec] in *; rewrite ?IH by lia; try done.
  destruct slots as [|f slots]; cbn in *; [lia|]. by rewrite IH by lia.
Qed.

Lemma fill_nothing ps slots : Forall final ps -> count_specs ps = 0%nat -> fill_in ps slots = render ps.
Proof.
  intros Hf. revert slots. induction Hf as [|q ps (_ & Ht & He) _ IH]; intros slots Hc; [by destruct slots|].
  rewrite count_cons in Hc. rewrite render_cons.
  destruct q; cbn [is_spec fill_in render_part] in *; try done. by rewrite IH.
Qed.

(** ** The name *)

Section Name.
Context (other : nat -> text -> list Z -> result (option text)).
Context (runNumber split splitNumber streamId streamCount : Z).
Context (Hrun : 0 <= runNumber) (Hnum : 0 <= splitNumber) (Hid : 0 <= streamId) (Hcount : 0 <= streamCount).

(** What is put in the places of [n] specifiers, and what behind the name. *)
Definition slots_of (n : nat) : list slot :=
  match n with
  | O => []
  | 1%nat => [number runNumber]
  | 2%nat =>
    if 0 <? split then
      if streamCount <? 2 then [number runNumber; number splitNumber]
      else [number runNumber; stream_and streamId splitNumber]
    else [number runNumber]
  | _ =>
    if 0 <? split then [number runNumber; number streamId; number splitNumber]
    else [number runNumber; number streamId]
  end.
Definition stream_suffix : text := if streamCount <? 2 then [] else dot streamId.
Definition suffix_of (n : nat) : text :=
  match n with
  | O | 1%nat => stream_suffix ++ (if 0 <? split then dot splitNumber else [])
  | 2%nat => if 0 <? split then [] else stream_suffix
  | _ => []
  end.

(** The same as the comment on generateFileName has it: the first specifier is for the
    run, the second for the split number, the third for the stream, what is not there
    is removed; without a specifier the split number and then the stream are tacked on. *)
Definition removed : slot := fun _ _ => [].
Definition documented_slots : list slot :=
  [number runNumber; if 0 <? split then number splitNumber else removed; if streamCount <? 2 then removed else number streamId].
Definition documented_suffix (n : nat) : text :=
  (if (0 <? split) && (n <? 2)%nat then dot splitNumber else []) ++
  (if negb (streamCount <? 2) && (n <? 3)%nat then dot streamId else []).
(** Where the code follows the comment. *)
Definition as_documented (n : nat) : Prop := (n <= 2)%nat /\ (split <= 0 \/ streamCount < 2).

Lemma fill_missing ps slots : fill_in ps (slots ++ [removed]) = fill_in ps slots.
Proof using.
  revert slots. induction ps as [|q ps IH]; intros slots; [by destruct slots|].
  destruct q as [l|w c| |v]; cbn [fill_in]; rewrite ?IH; try done. destruct slots as [|f slots]; [done|]. cbn. by rewrite IH.
Qed.

Lemma documented_name ps : as_documented (count_specs ps) ->
  fill_in ps documented_slots ++ documented_suffix (count_specs ps) =
  fill_in ps (slots_of (count_specs ps)) ++ suffix_of (count_specs ps).
Proof using.
  intros [Hn Ho]. unfold documented_slots, documented_suffix, suffix_of, stream_suffix, slots_of.
  destruct (count_specs ps) as [|[|[|]]] eqn:Hc; [| | |lia]; cbn [Nat.ltb Nat.leb]; rewrite ?andb_true_r, ?andb_false_r.
  - assert (forall more, fill_in ps more = fill_in ps []) as H0 by (intros more; apply (fill_take ps [] more); by rewrite Hc).
    rewrite H0.
    destruct (Z.ltb_spec 0 split), (Z.ltb_spec streamCount 2); cbn [negb app]; rewrite ?app_nil_r; done || lia.
  - assert (forall more, fill_in ps (number runNumber :: more) = fill_in ps [number runNumber]) as H1
      by (intros more; apply (fill_take ps [number runNumber] more); by rewrite Hc).
    rewrite H1.
    destruct (Z.ltb_spec 0 split), (Z.ltb_spec streamCount 2); cbn [negb app]; rewrite ?app_nil_r; done || lia.
  - assert (forall x y, fill_in ps [number runNumber; x; y] = fill_in ps [number runNumber; x]) as H2
      by (intros x y; apply (fill_take ps [number runNumber; x] [y]); by rewrite Hc).
    rewrite H2.
    destruct (Z.ltb_spec 0 split), (Z.ltb_spec streamCount 2); cbn [negb app]; rewrite ?app_nil_r; try done; try lia.
    + apply (fill_missing ps [number runNumber]).
    + f_equal. apply (fill_missing ps [number runNumber]).
Qed.

Lemma dollar_d : Forall printable [Spec [] "d"; Str (txt ".")].
Proof using. repeat constructor; try done; cbn; lia. Qed.

(** With a specifier in front of the second one the stream gets there, with a dot. *)
Lemma fill_stream pre w c post : count_specs pre = 1%nat -> count_specs post = 0%nat ->
  fill_in (pre ++ Spec [] "d" :: Str (txt ".") :: Spec w c :: post) (map number [runNumber; streamId; splitNumber])
  = fill_in (pre ++ Spec w c :: post) [number runNumber; stream_and streamId splitNumber].
Proof using.
  intros Hc1 Hc2. rewrite !fill_app, Hc1. cbn [map drop fill_in].
  change [number runNumber; number streamId; number splitNumber] with ([number runNumber] ++ [number streamId; number splitNumber]).
  change [number runNumber; stream_and streamId splitNumber] with ([number runNumber] ++ [stream_and streamId splitNumber]).
  rewrite !fill_take by (rewrite Hc1; done). f_equal. unfold number, stream_and. rewrite <- !app_assoc. done.
Qed.

(** Without one of the last specifiers, nothing is put there. *)
Lemma fill_removed pre w c post args : count_specs pre = length args -> count_specs post = 0%nat ->
  fill_in (pre ++ post) (map number args) = fill_in (pre ++ Spec w c :: post) (map number args).
Proof using.
  intros Hc1 Hc2. rewrite !fill_app, Hc1. rewrite <- (length_map number args), drop_all. done.
Qed.

(** The same for what is printed. *)
Lemma print_stream pre w c post : Forall printable (pre ++ Spec w c :: post) ->
  count_specs pre = 1%nat -> count_specs post = 0%nat ->
  print_name other (render pre ++ (txt "%d." ++ render_part (Spec w c)) ++ render post) [runNumber; streamId; splitNumber]
  = Ok (fill_in (pre ++ Spec w c :: post) [number runNumber; stream_and streamId splitNumber]).
Proof using.
  intros [Hp1 [Hp2 Hp3]%Forall_cons]%Forall_app Hc1 Hc2.
  assert (render pre ++ (txt "%d." ++ render_part (Spec w c)) ++ render post =
    render (pre ++ Spec [] "d" :: Str (txt ".") :: Spec w c :: post)) as -> by
    (rewrite render_app, !render_cons; by rewrite <- !app_assoc).
  rewrite print_name_fills.
  - by rewrite fill_stream.
  - apply Forall_app. split; [done|]. pose proof dollar_d as [H1 [H2 _]%Forall_cons]%Forall_cons.
    repeat (apply Forall_cons; split; [done|]). done.
  - rewrite count_app, !count_cons. cbn [is_spec length]. lia.
  - rewrite count_app, !count_cons. cbn [is_spec]. lia.
Qed.

Lemma print_removed pre w c post args : Forall printable (pre ++ Spec w c :: post) ->
  count_specs pre = length args -> count_specs post = 0%nat -> (length args <= 3)%nat ->
  print_name other (render pre ++ [] ++ render post) args = Ok (fill_in (pre ++ Spec w c :: post) (map number args)).
Proof using.
  intros [Hp1 [Hp2 Hp3]%Forall_cons]%Forall_app Hc1 Hc2 Hl. cbn [app]. rewrite <- render_app, print_name_fills.
  - by rewrite (fill_removed pre w c).
  - by apply Forall_app.
  - rewrite count_app. lia.
  - rewrite count_app. lia.
Qed.

(** For a base name with at most three specifiers generateFileName gives the name
    with the numbers put in the places of the specifiers or behind it: the run first,
    the stream when there are several, and the number of the file when the output is
    split; specifiers there is no number for are left out. *)
Theorem generateFileName_fills ps (Hp : Forall printable ps) (Hne : render ps <> []) (Hc : (count_specs ps <= 3)%nat) :
  generateFileName other (render ps) (Z.of_nat (count_specs ps)) runNumber split splitNumber streamId streamCount
  = Ok (fill_in ps (slots_of (count_specs ps)) ++ suffix_of (count_specs ps)).
Proof using Hrun Hnum Hid Hcount.
  pose proof (printable_final ps Hp) as Hf.
  assert (forall v, 0 <= v -> (if v <? 1 then 0 else v) = v) as H1 by (intros v Hv; destruct (Z.ltb_spec v 1); lia).
  assert (forall v, 0 <= v -> (if v <? 0 then 0 else v) = v) as H0 by (intros v Hv; destruct (Z.ltb_spec v 0); lia).
  assert (((if streamCount <? 1 then 1 else streamCount) <? 2) = (streamCount <? 2)) as Hone
    by (destruct (Z.ltb_spec streamCount 1); [|done]; symmetry; apply Z.ltb_lt; lia).
  assert ((length (render ps) <? 1)%nat = false) as Hlen by (destruct (render ps); done).
  unfold generateFileName. rewrite Hone, H1, !H0, Hlen by done.
  unfold slots_of, suffix_of, stream_suffix.
  destruct (count_specs ps) as [|[|[|[|]]]] eqn:Hn; [| | | |lia].
  - change (Z.of_nat 0 <? 1) with true. cbv iota zeta. rewrite fill_nothing by done.
    destruct (0 <? split), (streamCount <? 2); cbn [negb app]; by rewrite ?app_nil_r.
  - change (Z.of_nat 1 <? 1) with false. change (Z.of_nat 1 =? 1) with true. cbv iota zeta.
    rewrite (print_name_fills other ps [runNumber]) by (rewrite ?Hn; done || lia). cbn [mbind result_bind map].
    destruct (0 <? split), (streamCount <? 2); cbn [negb app]; by rewrite ?app_nil_r.
  - change (Z.of_nat 2 <? 1) with false. change (Z.of_nat 2 =? 1) with false. change (Z.of_nat 2 =? 2) with true.
    cbv iota zeta. destruct (specifier_match_ok 1 ps Hf ltac:(lia)) as (pre & w & c & post & -> & Hc1 & Hm & Hrep).
    rewrite count_app, count_cons in Hn. cbn [is_spec] in Hn. assert (count_specs post = 0%nat) as Hc2 by lia.
    destruct (0 <? split), (streamCount <? 2); cbn [negb]; rewrite ?Hm; cbn [mbind result_bind]; cbv zeta; rewrite ?Hrep.
    + rewrite (print_name_fills other _ [runNumber; splitNumber]);
        [by rewrite app_nil_r|done|rewrite count_app, count_cons; cbn; lia..].
    + rewrite print_stream by done. by rewrite app_nil_r.
    + rewrite (print_removed pre w c post [runNumber]) by (done || cbn; lia). cbn. by rewrite app_nil_r.
    + rewrite (print_removed pre w c post [runNumber]) by (done || cbn; lia). done.
  - change (Z.of_nat 3 <? 1) with false. change (Z.of_nat 3 =? 1) with false. change (Z.of_nat 3 =? 2) with false.
    change (Z.of_nat 3 =? 3) with true. cbv iota zeta. destruct (0 <? split).
    + rewrite (print_name_fills other ps [runNumber; streamId; splitNumber]) by (rewrite ?Hn; done || lia). by rewrite app_nil_r.
    + destruct (specifier_match_ok 2 ps Hf ltac:(lia)) as (pre & w & c & post & -> & Hc1 & Hm & Hrep).
      rewrite count_app, count_cons in Hn. cbn [is_spec] in Hn. rewrite Hm. cbn [mbind result_bind]. cbv zeta. rewrite Hrep.
      rewrite (print_removed pre w c post [runNumber; streamId]) by (done || cbn; lia). by rewrite app_nil_r.
Qed.
End Name.

(** ** Different numbers, different names *)

Lemma cut_at_dot t t' x x' : Forall (fun c => c <> "."%char) t -> Forall (fun c => c <> "."%char) t' ->
  t ++ "."%char :: x = t' ++ "."%char :: x' -> t = t' /\ x = x'.
Proof.
  intros Ht. revert t'. induction Ht as [|c t Hc _ IH]; intros t' Ht' H; destruct Ht' as [|c' t' Hc' Ht'].
  - by injection H as ->.
  - injection H as <- _. done.
  - injection H as -> _. done.
  - injection H as <- H. destruct (IH t' Ht' H) as [-> ->]. done.
Qed.

Lemma to_base_no_dot base n : 2 <= base <= 16 -> 0 <= n -> Forall (fun c => c <> "."%char) (to_base base n).
Proof. intros Hb Hn. eapply Forall_impl; [by apply digits_hex|]. by intros c [Hc _]%is_hex_other. Qed.

Lemma dot_end_inj n m : is_u32 n -> is_u32 m -> dot n = dot m -> n = m.
Proof. intros Hn Hm H. injection H as H. by apply to_string_inj. Qed.

Lemma dot_inj n m x y : is_u32 n -> is_u32 m -> dot n ++ "."%char :: x = dot m ++ "."%char :: y -> n = m /\ x = y.
Proof.
  unfold dot. intros Hn Hm H. injection H as H. apply cut_at_dot in H as [H1 H2];
    [|apply to_base_no_dot; unfold is_u32 in *; lia..]. split; [by apply to_string_inj|done].
Qed.

Lemma stream_and_inj w c n n' m m' : settled (Spec w c) -> is_u32 n -> is_u32 n' -> is_u32 m -> is_u32 m' ->
  stream_and n m w c = stream_and n' m' w c -> n = n' /\ m = m'.
Proof.
  intros Hs Hn Hn' Hm Hm' H.
  assert (forall x, is_u32 x -> Forall (fun c => c <> "."%char) (printed [] "d" x)) as Hd.
  { intros x _. unfold printed. cbn [hd_error]. rewrite !bool_decide_eq_false_2 by done.
    rewrite !Forall_app. split_and!; [by apply Forall_replicate|by destruct (i32 x <? 0); repeat constructor|].
    apply to_base_no_dot; lia. }
  apply cut_at_dot in H as [H1 H2]; [|by apply Hd..]. split; [by apply (printed_inj [] "d")|by apply (printed_inj w c)].
Qed.

(** What is put in one place can be told from the name. *)
Lemma fill_slot_inj ps args f f' rest : (length args < count_specs ps)%nat ->
  fill_in ps (args ++ f :: rest) = fill_in ps (args ++ f' :: rest) -> exists w c, Spec w c ∈ ps /\ f w c = f' w c.
Proof.
  intros Hl H. destruct (specifier_place (length args) ps 0 Hl) as (pre & w & c & post & -> & Hc & _).
  exists w, c. split; [apply elem_of_app; right; by left|].
  rewrite !fill_app, !(fill_take pre args) in H by lia. apply app_inv_head in H.
  rewrite Hc, !drop_app_length in H. cbn [fill_in] in H. by apply app_inv_tail in H.
Qed.

Section Differ.
Context (other : nat -> text -> list Z -> result (option text)).
Context (ps : list part) (Hp : Forall printable ps) (Hs : Forall settled ps) (Hne : render ps <> []).
Context (runNumber split n n' s s' streamCount : Z) (Hrun : 0 <= runNumber) (Hcount : 0 <= streamCount).
Context (Hn : is_u32 n) (Hn' : is_u32 n') (Hs1 : is_u32 s) (Hs2 : is_u32 s').

Lemma slot_number_inj args m m' rest : (length args < count_specs ps)%nat -> is_u32 m -> is_u32 m' ->
  fill_in ps (args ++ number m :: rest) = fill_in ps (args ++ number m' :: rest) -> m = m'.
Proof using Hs.
  intros Hl Hm Hm' H. destruct (fill_slot_inj ps args _ _ rest Hl H) as (w & c & Hin & He).
  apply (printed_inj w c); [|done..]. by apply (proj1 (Forall_forall _ _) Hs).
Qed.

Lemma slot_stream_inj args : (length args < count_specs ps)%nat ->
  fill_in ps (args ++ [stream_and s n]) = fill_in ps (args ++ [stream_and s' n']) -> s = s' /\ n = n'.
Proof using Hs Hn Hn' Hs1 Hs2.
  intros Hl H. destruct (fill_slot_inj ps args _ _ [] Hl H) as (w & c & Hin & He).
  apply (stream_and_inj w c); [|done..]. by apply (proj1 (Forall_forall _ _) Hs).
Qed.

(** What equal names have in common. *)
Lemma equal_names (Hc : (count_specs ps <= 3)%nat)
  (Heq : generateFileName other (render ps) (Z.of_nat (count_specs ps)) runNumber split n s streamCount
       = generateFileName other (render ps) (Z.of_nat (count_specs ps)) runNumber split n' s' streamCount) :
  (0 < split -> streamCount < 2 -> (count_specs ps <= 2)%nat -> n = n') /\
  (0 < split -> 2 <= streamCount -> (count_specs ps <= 2)%nat -> s = s' /\ n = n') /\
  (0 < split -> count_specs ps = 3%nat -> s = s' -> n = n') /\
  (split <= 0 -> 2 <= streamCount -> s = s').
Proof using All.
  rewrite !generateFileName_fills in Heq by (done || unfold is_u32 in *; lia). injection Heq as H.
  unfold slots_of, suffix_of, stream_suffix in H.
  assert (count_specs ps = 0 \/ count_specs ps = 1 \/ count_specs ps = 2 \/ count_specs ps = 3)%nat as [Hk|[Hk|[Hk|Hk]]] by lia;
    rewrite Hk in *; cbv iota beta in H; destruct (Z.ltb_spec 0 split), (Z.ltb_spec streamCount 2);
    split_and!; intros; try lia; cbn [app] in H; rewrite ?app_nil_r in H.
  all: try (apply app_inv_head in H;
            first [by apply dot_end_inj in H | apply dot_inj in H as [-> He]; [|done..]; split; [done|]; by apply to_string_inj]).
  - apply (slot_number_inj [number runNumber] n n' []); try done. cbn. lia.
  - apply (slot_stream_inj [number runNumber]); [cbn; lia|done].
  - subst s'. apply (slot_number_inj [number runNumber; number s] n n' []); try done. cbn. lia.
  - subst s'. apply (slot_number_inj [number runNumber; number s] n n' []); try done. cbn. lia.
  - apply (slot_number_inj [number runNumber] s s' []); try done. cbn. lia.
Qed.

(** Numbers that a name must tell apart, with [k] specifiers in it. *)
Definition told_apart (k : nat) : Prop :=
  (0 < split /\ streamCount < 2 /\ (k <= 2)%nat /\ n <> n') \/
  (0 < split /\ 2 <= streamCount /\ (k <= 2)%nat /\ (s <> s' \/ n <> n')) \/
  (0 < split /\ k = 3%nat /\ s = s' /\ n <> n') \/
  (split <= 0 /\ 2 <= streamCount /\ s <> s').

(** Files of one run get different names: split files of one stream by their number,
    files of several streams by stream and number, unless the name has a place for
    each of the three numbers, where the last two may run into each other. *)
Theorem names_differ (Hc : (count_specs ps <= 3)%nat) (Ht : told_apart (count_specs ps)) :
  generateFileName other (render ps) (Z.of_nat (count_specs ps)) runNumber split n s streamCount <>
  generateFileName other (render ps) (Z.of_nat (count_specs ps)) runNumber split n' s' streamCount.
Proof using All.
  intros Heq. pose proof (equal_names Hc Heq) as (H1 & H2 & H3 & H4). unfold told_apart in Ht.
  destruct Ht as [(A & B & C & D)|[(A & B & C & D)|[(A & B & C & D)|(A & B & C)]]].
  - by apply D, H1.
  - destruct (H2 A B C) as [-> ->]. by destruct D.
  - by apply D, H3.
  - by apply C, H4.
Qed.
End Differ.

(** ** From the template to the name *)

(** C29: A name made of texts, the run type, environment variables and at most three
    integer specifiers goes through both routines: generateBaseFileName returns a base
    and the number of its specifiers, with which generateFileName gives the name with
    everything put in the order run, stream, split number, in the places there are or
    behind the name.  With two specifiers at most, and when the output is not split or
    has one stream, that is the name the comment on generateFileName promises; else the
    comment has stream and split number the other way round. *)
Theorem file_name_of_template other getenv runType ps runNumber split splitNumber streamId streamCount
    (Hrt : plain runType) (Henv : forall v x, getenv v = Some x -> plain x)
    (Hw : Forall well_formed ps) (Hs : Forall settled ps) (Hc : (count_specs ps <= 3)%nat)
    (Hp : Forall printable (map (substituted getenv runType) ps))
    (Hne : render ps <> []) (Hne' : render (map (substituted getenv runType) ps) <> [])
    (Hpos : 0 <= runNumber /\ 0 <= splitNumber /\ 0 <= streamId /\ 0 <= streamCount) :
  exists base name, returns (generateBaseFileName getenv (render ps) runType) (base, Ok (count_specs ps)) /\
    generateFileName other base (Z.of_nat (count_specs ps)) runNumber split splitNumber streamId streamCount = Ok name /\
    name = fill_in (map (substituted getenv runType) ps)
             (slots_of runNumber split splitNumber streamId streamCount (count_specs ps))
           ++ suffix_of split splitNumber streamId streamCount (count_specs ps) /\
    (as_documented split streamCount (count_specs ps) ->
     name = fill_in (map (substituted getenv runType) ps)
              (documented_slots runNumber split splitNumber streamId streamCount)
            ++ documented_suffix split splitNumber streamId streamCount (count_specs ps)).
Proof.
  destruct Hpos as (H1 & H2 & H3 & H4). exists (render (map (substituted getenv runType) ps)). eexists. split; [|split; [|split]].
  - pose proof (base_name_of_parts getenv runType Hrt Henv ps Hw Hs Hne) as H.
    destruct (Nat.ltb_spec 3 (count_specs ps)); [lia|done].
  - rewrite <- (count_substituted getenv runType). apply generateFileName_fills; try done.
    by rewrite count_substituted.
  - by rewrite count_substituted.
  - rewrite <- (count_substituted getenv runType ps). intros Hd. symmetry. by apply documented_name.
Qed.

(** ** Names that are not handled *)

Lemma printed_width w c a : value_of 10 w <= zlen (printed w c a).
Proof.
  unfold printed. case_bool_decide; [|destruct (i32 a <? 0)]; case_bool_decide;
    rewrite ?length_app, ?length_replicate; cbn [app length]; rewrite ?length_app, ?length_replicate; cbn [length]; lia.
Qed.

(** A width above 1024 and a little makes sprintf write past the end of its array. *)
Theorem wide_width_overflows other w c runNumber split splitNumber streamId streamCount :
  well_formed (Spec w c) -> 1026 + zlen w <= value_of 10 w ->
  generateFileName other (render [Spec w c]) 1 runNumber split splitNumber streamId streamCount = UB.
Proof.
  intros Hw Hv. assert (Forall final [Spec w c]) as Hf by (apply Forall_singleton; by split_and!).
  assert (length (render [Spec w c]) = (2 + length w)%nat) as Hl.
  { cbn. rewrite app_nil_r, length_app. cbn. lia. }
  unfold generateFileName. destruct (Nat.ltb_spec (length (render [Spec w c])) 1); [lia|].
  change (1 <? 1) with false. change (1 =? 1) with true. cbv iota zeta.
  assert (forall r, print_name other (render [Spec w c]) [r] = UB) as Hub; [|rewrite !Hub; by destruct (0 <? split)].
  intros r. unfold print_name, sprintf. rewrite c_str_plain.
  - rewrite parse_render, print_pieces by done. cbn [map fill_in]. rewrite app_nil_r. unfold number.
    pose proof (printed_width w c r). destruct (Nat.ltb_spec (length (printed w c r)) (length (render [Spec w c]) + 1024)); [lia|done].
  - rewrite render_cons, app_nil_r. constructor; [done|]. by apply spec_tail_other.
Qed.

(** Without places for them the stream is put in front of the number of the file, where
    the comment has it behind. *)
Lemma stream_in_front other ps : ps = [Str (txt "run")] ->
  generateFileName other (render ps) 0 42 1000 3 6 8 = Ok (txt "run.6.3") /\
  fill_in ps (documented_slots 42 1000 3 6 8) ++ documented_suffix 1000 3 6 8 0 = txt "run.3.6".
Proof. intros ->. by vm_compute. Qed.
(** With places for all three numbers the number of the stream is put before that of
    the file, and also when there is one stream only. *)
Lemma third_specifier other : generateFileName other (txt "%d_%d_%d") 3 7 1 11 0 1 = Ok (txt "7_0_11").
Proof. by vm_compute. Qed.
(** Numbers of streams and files may run into each other then. *)
Lemma names_collide other : generateFileName other (txt "%d%d%d") 3 7 1 1 12 4 = generateFileName other (txt "%d%d%d") 3 7 1 21 1 4.
Proof. by vm_compute. Qed.
(** When the output is not split the last of two or three specifiers is left out, and
    the second of three gets the stream, also when there is one only. *)
Lemma not_split other :
  generateFileName other (txt "run%05d_%02x.evio") 2 7 0 11 3 4 = Ok (txt "run00007_.evio.3") /\
  generateFileName other (txt "%d_%d_%d") 3 7 0 11 3 4 = Ok (txt "7_3_") /\
  generateFileName other (txt "%d_%d_%d") 3 7 0 11 0 1 = Ok (txt "7_0_").
Proof. by vm_compute. Qed.

(** ** On concrete names *)

Definition printable_b (q : part) : bool :=
  well_formed_b q && negb (is_type q) && negb (is_env q)
  && match q with Spec w _ => value_of 10 w <=? 300 | _ => true end && without ["000"%char; "000"%char] (render_part q).
Lemma printable_dec ps : forallb printable_b ps = true -> Forall printable ps.
Proof.
  intros H. rewrite List.forallb_forall in H. apply Forall_forall. intros q Hq%list_elem_of_In. specialize (H q Hq).
  unfold printable_b in H. rewrite !andb_true_iff, !negb_true_iff in H. destruct H as [[[[H1 H2] H3] H4] H5].
  pose proof (well_formed_dec [q]) as Hw. cbn in Hw. rewrite H1 in Hw. specialize (Hw eq_refl).
  apply Forall_cons in Hw as [Hw _]. split_and!; [done| |].
  - destruct q; cbn; try done. by apply Z.leb_le.
  - eapply Forall_impl; [by apply without_two|]. by intros c [Hc _].
Qed.

Definition run_template : list part :=
  [EnvVar (txt "DIR"); Str (txt "/"); RunType; Str (txt "_"); Spec (txt "05") "d"; Str (txt "."); Spec [] "d"].

Lemma run_template_ok : Forall well_formed run_template /\ Forall settled run_template /\
  Forall printable (map (substituted env_example (txt "cosmic")) run_template).
Proof. split_and!; [by apply well_formed_dec|by repeat constructor|by apply printable_dec]. Qed.

Lemma env_example_plain v x : env_example v = Some x -> plain x.
Proof. unfold env_example. case_decide; [|done]. intros [= <-]. by apply plain_dec_ok. Qed.

Lemma file_name_of_template_witness : exists base name,
  returns (generateBaseFileName env_example (txt "$(DIR)/%s_%05d.%d") (txt "cosmic")) (base, Ok 2%nat) /\
  generateFileName (fun _ _ _ => Ok None) base 2 42 1000 3 6 1 = Ok name /\ name = txt "/data/cosmic_00042.3".
Proof.
  destruct (file_name_of_template (fun _ _ _ => Ok None) env_example (txt "cosmic") run_template 42 1000 3 6 1
    (plain_dec_ok (txt "cosmic") eq_refl) env_example_plain (proj1 run_template_ok) (proj1 (proj2 run_template_ok))
    ltac:(vm_compute; lia) (proj2 (proj2 run_template_ok)) ltac:(done) ltac:(done) ltac:(lia)) as (base & name & Hb & Hn & _ & Hd).
  exists base, name. split; [exact Hb|]. split; [exact Hn|]. rewrite (Hd ltac:(split; [vm_compute; lia|right; lia])). by vm_compute.
Defined.

Definition split_template : list part := [Str (txt "run."); Spec (txt "05") "d"].
Lemma names_differ_witness :
  generateFileName (fun _ _ _ => Ok None) (txt "run.%05d") 1 42 1000 11 3 4 <>
  generateFileName (fun _ _ _ => Ok None) (txt "run.%05d") 1 42 1000 1 13 4.
Proof.
  refine (names_differ (fun _ _ _ => Ok None) split_template _ _ _ 42 1000 11 1 3 13 4 _ _ _ _ _ _ _ _);
    try done; try (unfold is_u32; lia).
  - by apply printable_dec.
  - by repeat constructor.
  - vm_compute. lia.
  - right; left. split_and!; try lia. vm_compute. lia.
Defined.
