(* ===== verification/Processors.v ===== *)
(** The classes of the Disruptor port that hand events to handlers: EventPoller.h,
    BatchEventProcessor.h and WorkProcessor.h.  An event is named by its sequence; a
    handler is any function of what it was given so far. *)
From S2P Require Import Prelude.

(** ** Handlers *)

Inductive reaction := Continue | Stop | Raise.
#[export] Instance reaction_eq_dec : EqDecision reaction.
Proof. solve_decision. Defined.

(** A call of a handler, and how it ended. *)
Record call := mk_call { c_sequence : Z; c_endOfBatch : bool; c_reaction : reaction }.
Definition delivered (calls : list call) : list Z :=
  map c_sequence (filter (fun c => c.(c_reaction) <> Raise) calls).

Section Handlers.
(** What the handler does when it gets a sequence, after these calls. *)
Context (onEvent : list call -> Z -> bool -> reaction).

Definition handle (calls : list call) (sequence : Z) (endOfBatch : bool) : reaction * list call :=
  let r := onEvent calls sequence endOfBatch in (r, calls ++ [mk_call sequence endOfBatch r]).

(** ** EventPoller *)

Inductive PollState := Processing | Gating | Idle.
(** The calls made, the sequence of the poller, and how [poll] ended: an exception of
    the handler is thrown on. *)
Record polled := mk_polled { e_calls : list call; e_sequence : Z; e_state : option PollState }.

(** The body of the do-while loop; the state is the calls made, nextSequence and
    processedSequence. *)
Definition poll_step (availableSequence : Z) (s : list call * Z * Z) : outcome (list call * Z * Z) polled :=
  let '(calls, nextSequence, processedSequence) := s in
  match handle calls nextSequence (nextSequence =? availableSequence) with
  | (Raise, calls) => Halt (mk_polled calls processedSequence None)
  | (r, calls) =>
    let processedSequence := nextSequence in
    let nextSequence := nextSequence + 1 in
    if (nextSequence <=? availableSequence) && bool_decide (r = Continue)
    then Next (calls, nextSequence, processedSequence)
    else Halt (mk_polled calls processedSequence (Some Processing))
  end.

(** [highest] is getHighestPublishedSequence of the sequencer, [gating] the value of the
    gating sequence. *)
Definition poll (highest : Z -> Z -> Z) (gating cursor : Z) (calls : list call) (sequence : Z) (fuel : nat)
    : outcome (list call * Z * Z) polled :=
  let currentSequence := sequence in
  let nextSequence := currentSequence + 1 in
  let availableSequence := highest nextSequence gating in
  if nextSequence <=? availableSequence then
    run (poll_step availableSequence) fuel (calls, nextSequence, currentSequence)
  else if nextSequence <=? cursor then Halt (mk_polled calls sequence (Some Gating))
  else Halt (mk_polled calls sequence (Some Idle)).

(** ** BatchEventProcessor *)

(** How a call of waitFor ends; an alert comes with what m_running is then. *)
Inductive wait := Available (a : Z) | Timeout | Alert (running : bool) | WaitError.

(** [b_errors] are the sequences the exception handler got; [b_evt] says whether evt
    points to an event. *)
Record batch := mk_batch {
  b_sequence : Z; b_nextSequence : Z; b_evt : bool; b_calls : list call; b_errors : list Z
}.

(** The catch clause for std::exception. *)
Definition batch_error (b : batch) : option batch :=
  if b.(b_evt) then
    Some (mk_batch b.(b_nextSequence) (b.(b_nextSequence) + 1) true b.(b_calls) (b.(b_errors) ++ [b.(b_nextSequence)]))
  else None.

(** The loop over a batch, of which [n] events are left. *)
Fixpoint batch_loop (n : nat) (availableSequence : Z) (b : batch) : option batch :=
  match n with
  | O => Some (mk_batch availableSequence b.(b_nextSequence) b.(b_evt) b.(b_calls) b.(b_errors))
  | S n =>
    let '(r, calls) := handle b.(b_calls) b.(b_nextSequence) (b.(b_nextSequence) =? availableSequence) in
    match r with
    | Raise => batch_error (mk_batch b.(b_sequence) b.(b_nextSequence) true calls b.(b_errors))
    | _ => batch_loop n availableSequence (mk_batch b.(b_sequence) (b.(b_nextSequence) + 1) true calls b.(b_errors))
    end
  end.

(** A round of the loop of run(). *)
Definition batch_step (b : batch) (w : wait) : outcome batch batch :=
  match w with
  | Available a =>
    match batch_loop (Z.to_nat (a - b.(b_nextSequence) + 1)) a b with Some b => Next b | None => Stuck end
  | Timeout => Next b
  | Alert running => if negb running then Halt b else Next b
  | WaitError => match batch_error b with Some b => Next b | None => Stuck end
  end.

Definition already_running : string := "Thread is already running".
(** [run()]: whether it was running, and the answers of waitFor; the processor is not
    running afterwards. *)
Definition run_batch (running : bool) (sequence : Z) (calls : list call) (errors : list Z) (waits : list wait)
    : result (outcome batch batch) :=
  if running then Throw already_running
  else Ok (feed batch_step (mk_batch sequence (sequence + 1) false calls errors) waits).
End Handlers.

(** ** EventPoller delivers in order *)

Definition poll_calls (start n available : Z) (r : Z -> reaction) : list call :=
  map (fun k => mk_call k (k =? available) (r k)) (seqZ start n).

Lemma delivered_app xs ys : delivered (xs ++ ys) = delivered xs ++ delivered ys.
Proof. unfold delivered. by rewrite filter_app, map_app. Qed.

Lemma delivered_one s e r : delivered [mk_call s e r] = if decide (r = Raise) then [] else [s].
Proof. unfold delivered. rewrite filter_cons. cbn [c_reaction]. destruct r; by repeat case_decide. Qed.

Section Poll.
Context (onEvent : list call -> Z -> bool -> reaction) (highest : Z -> Z -> Z).

(** A poll returns; what the handler got without an exception are the sequences
    behind that of the poller, one after the other and none beyond what is published,
    and the poller's sequence is the last of these, also when the handler throws, so
    that the event it threw at comes again with the next poll. *)
Theorem poll_in_order gating cursor calls sequence :
  exists e n, returns (poll onEvent highest gating cursor calls sequence) e /\ 0 <= n /\
    e.(e_sequence) = sequence + n /\
    delivered e.(e_calls) = delivered calls ++ seqZ (sequence + 1) n /\
    (0 < n -> sequence + n <= highest (sequence + 1) gating) /\
    (e.(e_state) = Some Gating \/ e.(e_state) = Some Idle -> e.(e_calls) = calls /\
       highest (sequence + 1) gating <= sequence) /\
    (e.(e_state) = Some Gating <-> highest (sequence + 1) gating <= sequence < cursor).
Proof.
  unfold poll. set (a := highest (sequence + 1) gating). destruct (Z.leb_spec (sequence + 1) a) as [Hle|Hgt].
  - set (inv := fun s : list call * Z * Z => exists n, 0 <= n /\ sequence + n < a /\
      s.1.2 = sequence + n + 1 /\ s.2 = sequence + n /\
      delivered s.1.1 = delivered calls ++ seqZ (sequence + 1) n).
    destruct (terminates_total (poll_step onEvent a) inv (fun s => Z.to_nat (a - s.1.2 + 1))
      (fun e => exists n, 0 <= n /\ sequence + n <= a /\ e.(e_sequence) = sequence + n /\
         delivered e.(e_calls) = delivered calls ++ seqZ (sequence + 1) n /\
         (e.(e_state) = Some Processing \/ e.(e_state) = None))
      (calls, sequence + 1, sequence)) as (e & He & n & Hn & Ha & Hs & Hd & Hst).
    + intros [[cs next] processed] (n & Hn & Ha & Hnext & Hp & Hd). cbn [fst snd] in *. subst next processed.
      assert (seqZ (sequence + 1) (n + 1) = seqZ (sequence + 1) n ++ [sequence + n + 1]) as Hsnoc.
      { rewrite seqZ_app by lia. f_equal. change [sequence + n + 1] with (seqZ (sequence + n + 1) 1). f_equal. lia. }
      cbn [poll_step handle]. destruct (onEvent cs (sequence + n + 1) (sequence + n + 1 =? a)) eqn:Hr.
      * destruct (Z.leb_spec (sequence + n + 1 + 1) a); cbn [andb].
        -- rewrite bool_decide_eq_true_2 by done. split; [|cbn [fst snd]; lia]. exists (n + 1). cbn [fst snd].
           rewrite delivered_app, delivered_one, decide_False, Hd, <- app_assoc, Hsnoc by done. split_and!; lia || done.
        -- exists (n + 1). cbn [e_calls e_sequence e_state]. rewrite delivered_app, delivered_one, decide_False, Hd, <- app_assoc, Hsnoc by done.
           split_and!; try lia; try done. by left.
      * rewrite bool_decide_eq_false_2, andb_false_r by done. exists (n + 1). cbn [e_calls e_sequence e_state].
        rewrite delivered_app, delivered_one, decide_False, Hd, <- app_assoc, Hsnoc by done.
        split_and!; try lia; try done. by left.
      * exists n. cbn [e_calls e_sequence e_state]. rewrite delivered_app, delivered_one, decide_True, Hd, app_nil_r by done.
        split_and!; try lia; try done. by right.
    + exists 0. cbn [fst snd]. rewrite app_nil_r. split_and!; lia || done.
    + exists e, n. split; [by apply returns_run|]. split_and!; try done.
      * intros [H|H]; rewrite H in Hst; by destruct Hst.
      * split; [intros H; rewrite H in Hst; by destruct Hst|intros [H _]; lia].
  - destruct (Z.leb_spec (sequence + 1) cursor).
    + exists (mk_polled calls sequence (Some Gating)), 0. split; [by exists 0%nat|]. cbn [e_calls e_sequence e_state]. rewrite app_nil_r.
      split_and!; try lia; try done; [intros _; split; [done|lia]|split; [intros _; lia|done]].
    + exists (mk_polled calls sequence (Some Idle)), 0. split; [by exists 0%nat|]. cbn [e_calls e_sequence e_state]. rewrite app_nil_r.
      split_and!; try lia; try done; [intros _; split; [done|lia]|split; [done|intros [_ H1]; lia]].
Qed.
End Poll.

(** ** BatchEventProcessor hands out every event once *)

Section Batch.
Context (onEvent : list call -> Z -> bool -> reaction).

(** From a start on, each sequence was given to the handler once, in order; those at
    which it threw went to the exception handler.  The sequence of the processor is
    behind, and no event that is still to come is below it. *)
Record batch_inv (start : Z) (b : batch) : Prop := {
  bi_next : start < b.(b_nextSequence);
  bi_sequence : b.(b_sequence) < b.(b_nextSequence);
  bi_calls : map c_sequence b.(b_calls) = seqZ (start + 1) (b.(b_nextSequence) - start - 1);
  bi_errors : b.(b_errors) = map c_sequence (filter (fun c => c.(c_reaction) = Raise) b.(b_calls))
}.

Lemma seqZ_snoc m n : 0 <= n -> seqZ m (n + 1) = seqZ m n ++ [m + n].
Proof. intros Hn. rewrite seqZ_app by lia. done. Qed.

Lemma raised_app xs c :
  map c_sequence (filter (fun c => c.(c_reaction) = Raise) (xs ++ [c])) =
  map c_sequence (filter (fun c => c.(c_reaction) = Raise) xs) ++
    (if decide (c.(c_reaction) = Raise) then [c.(c_sequence)] else []).
Proof. rewrite filter_app, map_app, (filter_cons _ c []). f_equal. by case_decide. Qed.

Lemma batch_loop_inv start n a b : batch_inv start b -> a < b.(b_nextSequence) + Z.of_nat n ->
  exists b', batch_loop onEvent n a b = Some b' /\ batch_inv start b'.
Proof.
  revert b. induction n as [|n IH]; intros b [H1 H2 H3 H4] Hn; cbn [batch_loop].
  - eexists. split; [done|]. split; cbn; try done. lia.
  - unfold handle. set (s := b_nextSequence b) in *.
    assert (map c_sequence (b_calls b) ++ [s] = seqZ (start + 1) (s + 1 - start - 1)) as Hs.
    { rewrite H3. replace (s + 1 - start - 1) with ((s - start - 1) + 1) by lia.
      rewrite seqZ_snoc by lia. do 2 f_equal. lia. }
    destruct (onEvent (b_calls b) s (s =? a)) eqn:Hr.
    + apply IH; [|cbn; lia]. split; cbn [b_nextSequence b_sequence b_calls b_errors]; [lia|lia| |].
      * rewrite map_app. exact Hs.
      * rewrite raised_app, decide_False by done. by rewrite app_nil_r.
    + apply IH; [|cbn; lia]. split; cbn [b_nextSequence b_sequence b_calls b_errors]; [lia|lia| |].
      * rewrite map_app. exact Hs.
      * rewrite raised_app, decide_False by done. by rewrite app_nil_r.
    + eexists. split; [done|]. split; cbn [b_nextSequence b_sequence b_calls b_errors]; [lia|lia| |].
      * rewrite map_app. exact Hs.
      * rewrite raised_app, decide_True by done. by rewrite H4.
Qed.

(** An answer that is not the alert after a halt changes nothing about it. *)
Lemma not_the_alert start w waits (o : outcome batch batch) : w <> Alert false ->
  match o with
  | Next b => batch_inv start b /\ ~ Alert false ∈ waits
  | Halt b => batch_inv start b /\ Alert false ∈ waits
  | Stuck => False
  end ->
  match o with
  | Next b => batch_inv start b /\ ~ Alert false ∈ w :: waits
  | Halt b => batch_inv start b /\ Alert false ∈ w :: waits
  | Stuck => False
  end.
Proof.
  intros Hw. destruct o as [b|b|]; [| |done]; intros [Hb Ha]; (split; [done|]); rewrite elem_of_cons; [|by right].
  intros [He|?]; [by apply Hw|done].
Qed.

(** Whatever the barrier answers, a timeout or an alert in between, run() gives the
    handler every sequence behind the processor's once and in order, hands those at
    which it throws to the exception handler, and keeps its own sequence below the
    next; it stops with the first alert after a halt and not before. *)
Theorem batch_in_order sequence waits (Hw : Forall (fun w => w <> WaitError) waits) :
  match run_batch onEvent false sequence [] [] waits with
  | Ok (Next b) => batch_inv sequence b /\ ~ Alert false ∈ waits
  | Ok (Halt b) => batch_inv sequence b /\ Alert false ∈ waits
  | _ => False
  end.
Proof.
  unfold run_batch. assert (batch_inv sequence (mk_batch sequence (sequence + 1) false [] [])) as Hi.
  { split; cbn; try lia; [|done]. by replace (sequence + 1 - sequence - 1) with 0 by lia. }
  revert Hi. generalize (mk_batch sequence (sequence + 1) false [] []) as b.
  induction Hw as [|w waits Hw1 _ IH]; intros b Hb; cbn [feed]; [split; [done|by apply not_elem_of_nil]|].
  destruct w as [a| |[]|]; cbn [batch_step negb]; [| | | |done].
  - destruct (batch_loop_inv sequence (Z.to_nat (a - b.(b_nextSequence) + 1)) a b Hb) as (b' & -> & Hb'); [lia|].
    apply IH in Hb' as Hf. by apply not_the_alert.
  - apply IH in Hb as Hf. by apply not_the_alert.
  - apply IH in Hb as Hf. by apply not_the_alert.
  - split; [done|by left].
Qed.

(** The catch clause for the exceptions of the handler also gets those of waitFor: the
    event of the next sequence is then skipped, though it was not given to the
    handler; before any event was handled a null pointer is followed. *)
Theorem wait_error_skips b :
  batch_step onEvent b WaitError =
    if b.(b_evt) then Next (mk_batch b.(b_nextSequence) (b.(b_nextSequence) + 1) true b.(b_calls)
                              (b.(b_errors) ++ [b.(b_nextSequence)]))
    else Stuck.
Proof. cbn. unfold batch_error. by destruct (b_evt b). Qed.
End Batch.

(** ** WorkProcessor

    The processors of a pool share workSequence, of which each claims the next event.
    A step is an access of one processor to what is shared, the begin or the end of a
    call of its handler, a release of the event by the handler, or a wait. *)
Inductive work_pc := Claim | SetSequence | Cas | Work | Handling | Ended.

(** What comes of a handler that runs: it returns, throws one of the two exceptions that
    have a clause of their own - an alert with what m_running is then - or another one,
    or releases its event and goes on. *)
Inductive work_reaction := Returns | Throws | ThrowsTimeout | ThrowsAlert (running : bool) | Releases.

(** [k_released]: the handler has released the event that is claimed. *)
Record worker := mk_worker {
  k_pc : work_pc; k_sequence : Z; k_nextSequence : Z; k_cached : Z; k_eventRef : bool; k_released : bool
}.
(** [w_dropped] are sequences that were claimed and given up. *)
Record pool := mk_pool {
  w_workSequence : Z; w_workers : list worker; w_handled : list (Z * work_reaction); w_dropped : list Z
}.

Definition set_pc (pc : work_pc) (k : worker) : worker :=
  mk_worker pc k.(k_sequence) k.(k_nextSequence) k.(k_cached) k.(k_eventRef) k.(k_released).

Definition int64_max : Z := 9223372036854775807.
(** EventReleaser::release(): the producer no longer waits for the worker. *)
Definition release_event (k : worker) : worker :=
  mk_worker k.(k_pc) int64_max k.(k_nextSequence) k.(k_cached) k.(k_eventRef) true.

(** A worker at the beginning of run(). *)
Definition new_worker (sequence : Z) : worker := mk_worker Claim sequence sequence (-9223372036854775808) false false.

Definition abandon (p : pool) (next : Z) : pool :=
  mk_pool p.(w_workSequence) p.(w_workers) p.(w_handled) (p.(w_dropped) ++ [next]).
Definition done_with (p : pool) (next : Z) (react : work_reaction) : pool :=
  mk_pool p.(w_workSequence) p.(w_workers) (p.(w_handled) ++ [(next, react)]) p.(w_dropped).

(** The next step of a worker; [react] is what comes of its handler, [w] how waitFor
    ends, when it comes to that.  [None]: a null pointer is followed. *)
Definition work_step (react : work_reaction) (w : wait) (p : pool) (k : worker) : option (worker * pool) :=
  let next := k.(k_nextSequence) in
  match k.(k_pc) with
  | Claim =>
    Some (mk_worker SetSequence k.(k_sequence) (p.(w_workSequence) + 1) k.(k_cached) k.(k_eventRef) k.(k_released), p)
  | SetSequence => Some (mk_worker Cas (next - 1) next k.(k_cached) k.(k_eventRef) false, p)
  | Cas =>
    if p.(w_workSequence) =? next - 1
    then Some (set_pc Work k, mk_pool next p.(w_workers) p.(w_handled) p.(w_dropped))
    else Some (set_pc Claim k, p)
  | Work =>
    if next <=? k.(k_cached) then
      Some (mk_worker Handling k.(k_sequence) next k.(k_cached) true k.(k_released), p)
    else
      match w with
      | Available a => Some (mk_worker Work k.(k_sequence) next a k.(k_eventRef) k.(k_released), p)
      | Timeout => Some (k, p)
      | Alert running => if negb running then Some (set_pc Ended k, abandon p next) else Some (k, p)
      | WaitError => if k.(k_eventRef) then Some (set_pc Claim k, abandon p next) else None
      end
  | Handling =>
    match react with
    | Returns | Throws => Some (set_pc Claim k, done_with p next react)
    | ThrowsTimeout => Some (set_pc Work k, p)
    | ThrowsAlert running => if negb running then Some (set_pc Ended k, abandon p next) else Some (set_pc Work k, p)
    | Releases => Some (release_event k, p)
    end
  | Ended => Some (k, p)
  end.

(** Worker [i] makes a step. *)
Definition pool_step (p : pool) (e : nat * work_reaction * wait) : outcome pool unit :=
  let '(i, react, w) := e in
  match p.(w_workers) !! i with
  | Some k =>
    match work_step react w p k with
    | Some (k', p') =>
      Next (mk_pool p'.(w_workSequence) (<[i := k']> p'.(w_workers)) p'.(w_handled) p'.(w_dropped))
    | None => Stuck
    end
  | None => Next p
  end.

(** The sequence a worker holds. *)
Definition holds_event (k : worker) : bool := match k.(k_pc) with Work | Handling => true | _ => false end.
Definition held (k : worker) : list Z := if holds_event k then [k.(k_nextSequence)] else [].
Definition all_held (ks : list worker) : list Z := concat (map held ks).

(** The sequence of a worker keeps the producer from the event it is after, until the
    handler releases that. *)
Definition gates (k : worker) : Prop :=
  match k.(k_pc) with
  | Cas => k.(k_sequence) = k.(k_nextSequence) - 1
  | Work | Handling => k.(k_sequence) = if k.(k_released) then int64_max else k.(k_nextSequence) - 1
  | _ => True
  end.
Definition no_release_before (k : worker) : Prop := match k.(k_pc) with Cas => k.(k_released) = false | _ => True end.

Record pool_inv (start : Z) (p : pool) : Prop := {
  pi_work : start <= p.(w_workSequence);
  pi_once : map fst p.(w_handled) ++ all_held p.(w_workers) ++ p.(w_dropped)
            ≡ₚ seqZ (start + 1) (p.(w_workSequence) - start);
  pi_gates : Forall gates p.(w_workers);
  pi_released : Forall no_release_before p.(w_workers)
}.

(** One worker, and what the others hold. *)
Lemma all_held_insert ks i k : ks !! i = Some k ->
  exists rest, forall k', all_held (<[i := k']> ks) ≡ₚ held k' ++ rest.
Proof.
  revert i. induction ks as [|x ks IH]; intros [|i] Hi; [done|done| |].
  - exists (all_held ks). intros k'. done.
  - destruct (IH i Hi) as [rest Hr]. exists (held x ++ rest). intros k'. unfold all_held in *. cbn [insert list_insert map concat].
    rewrite Hr. rewrite !(assoc_L (++)). f_equiv. apply Permutation_app_comm.
Qed.

(** What a step of a worker does to the sequences that were claimed. *)
Definition keeps (p p' : pool) (k k' : worker) : Prop :=
  p'.(w_workers) = p.(w_workers) /\ p.(w_workSequence) <= p'.(w_workSequence) /\
  (map fst p'.(w_handled) ++ held k') ++ p'.(w_dropped) ≡ₚ
    ((map fst p.(w_handled) ++ held k) ++ p.(w_dropped))
      ++ seqZ (p.(w_workSequence) + 1) (p'.(w_workSequence) - p.(w_workSequence)) /\
  gates k' /\ no_release_before k'.

Lemma keeps_same p k k' : held k' = held k -> gates k' -> no_release_before k' -> keeps p p k k'.
Proof. intros Hh Hk Hr. unfold keeps. rewrite Hh, Z.sub_diag. cbn [seqZ]. split_and!; [done|lia| |done|done]. by rewrite app_nil_r. Qed.

(** A sequence that was held is given up or handled. *)
Lemma keeps_dropped p k pc : holds_event k = true -> pc = Claim \/ pc = Ended ->
  keeps p (abandon p k.(k_nextSequence)) k (set_pc pc k).
Proof.
  intros Hk Hpc. unfold keeps, abandon, held. cbn [w_workers w_workSequence w_handled w_dropped]. rewrite Hk, Z.sub_diag.
  cbn [seqZ]. split_and!; [done|lia| |by destruct Hpc; subst pc..].
  destruct Hpc; subst pc; cbn; rewrite !app_nil_r, <- app_assoc; f_equiv; apply Permutation_app_comm.
Qed.
Lemma keeps_handled p k react : holds_event k = true -> keeps p (done_with p k.(k_nextSequence) react) k (set_pc Claim k).
Proof.
  intros Hk. unfold keeps, done_with, held. cbn [w_workers w_workSequence w_handled w_dropped]. rewrite Hk, Z.sub_diag.
  split_and!; [done|lia| |done..]. cbn. by rewrite map_app, !app_nil_r.
Qed.

Lemma work_step_keeps react w p k k' p' : gates k -> no_release_before k ->
  work_step react w p k = Some (k', p') -> keeps p p' k k'.
Proof.
  intros Hg Hr Hs. unfold work_step in Hs. unfold gates, no_release_before in Hg, Hr. destruct (k_pc k) eqn:Hpc.
  - injection Hs as <- <-. apply keeps_same; [|done..]. unfold held, holds_event. by rewrite Hpc.
  - injection Hs as <- <-. apply keeps_same; [|done..]. unfold held, holds_event. by rewrite Hpc.
  - destruct (Z.eqb_spec (w_workSequence p) (k_nextSequence k - 1)); injection Hs as <- <-.
    + unfold keeps, held, holds_event, gates. cbn [w_workers w_workSequence w_handled w_dropped set_pc k_pc k_sequence k_nextSequence k_released].
      rewrite Hpc. split_and!; [done|lia| |by rewrite Hr|done]. replace (k_nextSequence k - w_workSequence p) with 1 by lia.
      replace (w_workSequence p + 1) with (k_nextSequence k) by lia. change (seqZ ?x 1) with [x].
      rewrite app_nil_r, <- !app_assoc. f_equiv. apply Permutation_app_comm.
    + apply keeps_same; [|done..]. unfold held, holds_event. by rewrite Hpc.
  - assert (holds_event k = true) as Hh by (unfold holds_event; by rewrite Hpc).
    destruct (k_nextSequence k <=? k_cached k).
    + injection Hs as <- <-. apply keeps_same; [|done..]. unfold held. by rewrite Hh.
    + destruct w as [a| |[]|]; cbn [negb] in Hs.
      * injection Hs as <- <-. apply keeps_same; [|done..]. unfold held. by rewrite Hh.
      * injection Hs as <- <-. apply keeps_same; unfold gates, no_release_before; by rewrite ?Hpc.
      * injection Hs as <- <-. apply keeps_same; unfold gates, no_release_before; by rewrite ?Hpc.
      * injection Hs as <- <-. apply keeps_dropped; [done|by right].
      * destruct (k_eventRef k); [|done]. injection Hs as <- <-. apply keeps_dropped; [done|by left].
  - assert (holds_event k = true) as Hh by (unfold holds_event; by rewrite Hpc).
    destruct react as [| | |[]|]; cbn [negb] in Hs; injection Hs as <- <-.
    1-2: by apply keeps_handled.
    1-2: apply keeps_same; [|done..]; unfold held; by rewrite Hh.
    + apply keeps_dropped; [done|by right].
    + apply keeps_same; unfold held, holds_event, gates, no_release_before, release_event; cbn; by rewrite Hpc.
  - injection Hs as <- <-. apply keeps_same; unfold gates, no_release_before; by rewrite ?Hpc.
Qed.

Lemma perm_middle (a b c d : list Z) : a ++ (b ++ c) ++ d ≡ₚ ((a ++ b) ++ d) ++ c.
Proof. rewrite <- !app_assoc. do 2 f_equiv. apply Permutation_app_comm. Qed.

Lemma pool_step_inv start p e : pool_inv start p ->
  match pool_step p e with Next p' => pool_inv start p' | Halt _ => False | Stuck => True end.
Proof.
  destruct e as [[i react] w]. intros [Hw Ho Hg Hrel]. unfold pool_step.
  destruct (w_workers p !! i) as [k|] eqn:Hk; [|done].
  destruct (all_held_insert _ _ _ Hk) as [rest Hrest].
  pose proof (Hrest k) as Hold. rewrite list_insert_id in Hold by done.
  pose proof (Forall_lookup_1 _ _ _ _ Hg Hk) as Hgk. pose proof (Forall_lookup_1 _ _ _ _ Hrel Hk) as Hrk.
  destruct (work_step react w p k) as [[k' p']|] eqn:Hs; [|done].
  destruct (work_step_keeps _ _ _ _ _ _ Hgk Hrk Hs) as (H1 & H2 & H3 & H4 & H5).
  split; cbn [w_workers w_workSequence w_handled w_dropped].
  - lia.
  - rewrite H1, Hrest, perm_middle, H3.
    rewrite Hold, perm_middle in Ho.
    replace (w_workSequence p' - start) with ((w_workSequence p - start) + (w_workSequence p' - w_workSequence p)) by lia.
    rewrite seqZ_app by lia. replace (start + 1 + (w_workSequence p - start)) with (w_workSequence p + 1) by lia.
    rewrite <- Ho. rewrite <- !app_assoc. do 3 f_equiv. apply Permutation_app_comm.
  - rewrite H1. by apply Forall_insert.
  - rewrite H1. by apply Forall_insert.
Qed.

Lemma all_held_elem ks j l : ks !! j = Some l -> holds_event l = true -> l.(k_nextSequence) ∈ all_held ks.
Proof.
  intros Hj Hl. unfold all_held. apply list_elem_of_In, in_concat. exists [l.(k_nextSequence)]. split; [|by left].
  apply in_map_iff. exists l. split; [unfold held; by rewrite Hl|]. by apply list_elem_of_In, list_elem_of_lookup_2 with j.
Qed.

Lemma held_once ks i j k l : NoDup (all_held ks) -> ks !! i = Some k -> ks !! j = Some l ->
  holds_event k = true -> holds_event l = true -> k.(k_nextSequence) = l.(k_nextSequence) -> i = j.
Proof.
  intros Hn Hi Hj Hk Hl He. destruct (decide (i = j)) as [|Hne]; [done|]. exfalso.
  destruct (all_held_insert ks i k Hi) as [rest Hr].
  pose proof (Hr k) as H1. rewrite list_insert_id in H1 by done.
  pose proof (Hr (set_pc Claim k)) as H2.
  assert (l.(k_nextSequence) ∈ rest) as Hin.
  { pose proof (all_held_elem (<[i := set_pc Claim k]> ks) j l) as H3. rewrite list_lookup_insert_ne in H3 by done.
    rewrite H2 in H3. by apply H3. }
  rewrite H1 in Hn. unfold held in Hn. rewrite Hk in Hn. apply NoDup_cons in Hn as [Hn _]. by rewrite He in Hn.
Qed.

Lemma pool_never_halts p es u : feed pool_step p es <> Halt u.
Proof.
  revert p. induction es as [|[[i react] w] es IH]; intros p; [done|]. cbn.
  destruct (w_workers p !! i); [|apply IH]. destruct (work_step _ _ _ _) as [[k' p']|]; [apply IH|done].
Qed.

(** C27: In any interleaving of the workers of a pool each event is claimed by one of
    them, whatever the handlers throw: those handled, those held and those given up are
    together every sequence up to workSequence once.  The sequence by which a worker
    holds back the producer is the one before the event it holds, unless its handler
    has released that event. *)
Theorem work_exclusive start n es :
  match feed pool_step (mk_pool start (replicate n (new_worker start)) [] []) es with
  | Next p => pool_inv start p /\ NoDup (map fst p.(w_handled)) /\
      (forall i j k l, p.(w_workers) !! i = Some k -> p.(w_workers) !! j = Some l ->
         holds_event k = true -> holds_event l = true -> k.(k_nextSequence) = l.(k_nextSequence) -> i = j)
  | Halt _ => False
  | Stuck => True
  end.
Proof.
  destruct (feed pool_step _ es) as [p|u|] eqn:Hf; [|by apply pool_never_halts in Hf|done].
  assert (pool_inv start p) as Hp.
  { apply (feed_waiting pool_step (pool_inv start) _ es p) in Hf; [done| |].
    - intros s e s' Hs He. pose proof (pool_step_inv start s e Hs) as H. by rewrite He in H.
    - assert (all_held (replicate n (new_worker start)) = []) as H0 by (clear; induction n; [done|]; done).
      split; cbn [w_workers w_workSequence w_handled w_dropped]; [lia| |by apply Forall_replicate..].
      rewrite H0, Z.sub_diag. done. }
  assert (NoDup (map fst p.(w_handled) ++ all_held p.(w_workers) ++ p.(w_dropped))) as Hn.
  { rewrite (pi_once _ _ Hp). apply NoDup_seqZ. }
  split; [done|]. apply NoDup_app in Hn as (H1 & _ & Hn). apply NoDup_app in Hn as (H2 & _).
  split; [done|]. intros i j k l. by apply held_once.
Qed.

(** A worker handles an event only when it is known to be available. *)
Theorem work_available start n es bound
    (Hw : Forall (fun e => match e.2 with Available a => a <= bound | _ => True end) es)
    (Hb : -9223372036854775808 <= bound) :
  match feed pool_step (mk_pool start (replicate n (new_worker start)) [] []) es with
  | Next p => Forall (fun h => h.1 <= bound) p.(w_handled)
  | _ => True
  end.
Proof.
  set (inv := fun p => Forall (fun h => h.1 <= bound) p.(w_handled) /\ Forall (fun k => k.(k_cached) <= bound /\ (k.(k_pc) = Handling -> k.(k_nextSequence) <= bound)) p.(w_workers)).
  assert (inv (mk_pool start (replicate n (new_worker start)) [] [])) as Hi by (split; [done|by apply Forall_replicate]).
  revert Hi. generalize (mk_pool start (replicate n (new_worker start)) [] []) as p.
  induction Hw as [|[[i react] w] es He _ IH]; intros p [Hh Hk]; [done|]. cbn [feed]. unfold pool_step.
  destruct (w_workers p !! i) as [k|] eqn:Hi; [|by apply IH].
  pose proof (Forall_lookup_1 _ _ _ _ Hk Hi) as Hki. destruct Hki as [Hki Hkh]. cbn in He.
  destruct (work_step react w p k) as [[k' p']|] eqn:Hs; [|done]. apply IH.
  assert (p'.(w_workers) = p.(w_workers) /\ Forall (fun h => h.1 <= bound) p'.(w_handled) /\
    (k'.(k_cached) <= bound /\ (k'.(k_pc) = Handling -> k'.(k_nextSequence) <= bound)))
    as (H1 & H2 & H3); [|split; cbn; [done|rewrite H1; by apply Forall_insert]].
  unfold work_step in Hs. repeat case_match; simplify_eq; cbn; split_and!; try done; try (intros _; lia); try (by intros; congruence).
  all: try (apply Forall_app; split; [done|]; apply Forall_singleton; cbn; by apply Hkh).
  all: by intros; apply Hkh.
Qed.

(** Errors of waitFor give a claimed event up, or follow a null pointer. *)
Theorem work_wait_error react p k : k.(k_pc) = Work -> k.(k_cached) < k.(k_nextSequence) ->
  work_step react WaitError p k =
    if k.(k_eventRef)
    then Some (set_pc Claim k, abandon p k.(k_nextSequence)) else None.
Proof. intros Hk Hc. unfold work_step. rewrite Hk. by destruct (Z.leb_spec (k_nextSequence k) (k_cached k)); [lia|]. Qed.

(** ** On concrete runs *)

Definition picky (calls : list call) (sequence : Z) (endOfBatch : bool) : reaction :=
  if decide (sequence = 2) then Raise else Continue.

Lemma batch_in_order_witness :
  match run_batch picky false (-1) [] [] [Available 1; Timeout; Alert true; Available 3; Available 3; Alert false] with
  | Ok (Next b) => batch_inv (-1) b /\ ~ Alert false ∈ [Available 1; Timeout; Alert true; Available 3; Available 3; Alert false]
  | Ok (Halt b) => batch_inv (-1) b /\ Alert false ∈ [Available 1; Timeout; Alert true; Available 3; Available 3; Alert false]
  | _ => False
  end.
Proof.
  apply (batch_in_order picky (-1) [Available 1; Timeout; Alert true; Available 3; Available 3; Alert false]).
  by repeat constructor.
Defined.

Lemma batch_example :
  run_batch picky false (-1) [] [] [Available 1; Timeout; Available 3; Available 3; Alert false] =
    Ok (Halt (mk_batch 3 4 true
      [mk_call 0 false Continue; mk_call 1 true Continue; mk_call 2 false Raise; mk_call 3 true Continue] [2])).
Proof. by vm_compute. Qed.

(** Two workers, of which one loses the race for the first event. *)
Lemma work_example :
  match feed pool_step (mk_pool (-1) (replicate 2 (new_worker (-1))) [] [])
    (map (fun i => (i, Returns, Available 1)) [0; 1; 0; 1; 0; 1; 1; 1; 1; 0; 0; 0; 1; 1; 1]%nat) with
  | Next p => p.(w_workSequence) = 1 /\ map fst p.(w_handled) = [0; 1]
  | _ => False
  end.
Proof. by vm_compute. Qed.

(** A handler that releases its event, then throws a timeout: the producer is not held
    back any more, and the event is handed out again. *)
Lemma work_again :
  feed pool_step (mk_pool (-1) [new_worker (-1)] [] [])
    (map (fun r => (0%nat, r, Available 0))
      [Returns; Returns; Returns; Returns; Returns; Releases; ThrowsTimeout; Returns; Returns; Returns]) =
  Next (mk_pool 0 [mk_worker SetSequence int64_max 1 0 true true] [(0, Returns)] []).
Proof. by vm_compute. Qed.
