(* ===== verification/RingPublish.v ===== *)
(** RingBuffer.h: the templates that claim places of the ring, let translators fill the
    entries and publish them, on any sequencer. *)
From S2P Require Import Prelude Sequencer.

(** What RingBuffer asks of its sequencer: one look of next(n) at the gating sequences
    (nothing granted means that it goes on spinning), tryNext(n) and publish(lo, hi);
    publish(s) is publish(s, s). *)
Class ISequencer (S : Type) := {
  seq_next : S -> list Z -> Z -> result (S * option Z);
  seq_tryNext : S -> list Z -> Z -> S * result Z;
  seq_publish : S -> Z -> Z -> S;
  seq_size : S -> Z
}.

(** The single-producer sequencer; its publish(lo, hi) is publish(hi). *)
#[export] Instance SingleProducer `{SequenceUtil} : ISequencer sequencer := {|
  seq_next := next;
  seq_tryNext := tryNext;
  seq_publish s lo hi := sq_publish s hi;
  seq_size s := s.(m_bufferSize)
|}.

Definition bad_batch : string := "Both batchStartsAt and batchSize must be positive".
Definition batch_too_big : string := "The ring buffer cannot accommodate".
Definition batch_overruns : string := "will overrun the available number of arguments".
Definition insufficient : string := "InsufficientCapacityException".

Section RingBuffer.
Context {T S A : Type} {iseq : ISequencer S}.

(** m_entries without the padding, and the sequencer. *)
Record ring := mk_rb { rb_entries : list T; rb_sequencer : S }.

(** What translateTo makes of an entry, and whether it throws. *)
Abbreviation translator := (T -> Z -> T * bool).

(** ** Translating *)

(** translateTo of the entry at a sequence *)
Definition translate (f : translator) (sequence : Z) (r : ring) : result (ring * bool) :=
  let i := entry_index (seq_size r.(rb_sequencer)) sequence in
  t ← checked (r.(rb_entries) !! i);
  let '(t, thrown) := f t sequence in
  Ok (mk_rb (<[i := t]> r.(rb_entries)) r.(rb_sequencer), thrown).

Definition rb_publish (lo hi : Z) (r : ring) : ring :=
  mk_rb r.(rb_entries) (seq_publish r.(rb_sequencer) lo hi).

(** An exception of the translator ends here. *)
Definition translateAndPublish (f : translator) (sequence : Z) (r : ring) : result ring :=
  '(r, _) ← translate f sequence r;
  Ok (rb_publish sequence sequence r).

(** The loop over a batch, of which [n] places are left; the first exception ends it. *)
Fixpoint translate_loop (n : nat) (get : Z -> option translator) (i sequence : Z) (r : ring) : result ring :=
  match n with
  | O => Ok r
  | Datatypes.S n =>
    f ← checked (get i);
    '(r, thrown) ← translate f sequence r;
    if thrown : bool then Ok r else translate_loop n get (i + 1) (sequence + 1) r
  end.

Definition translateAndPublishBatch (get : Z -> option translator) (batchStartsAt batchSize finalSequence : Z)
    (r : ring) : result ring :=
  let initialSequence := finalSequence - (batchSize - 1) in
  r ← translate_loop (Z.to_nat batchSize) get batchStartsAt initialSequence r;
  Ok (rb_publish initialSequence finalSequence r).

(** The translator for each place: one of a container, or one with the arguments at
    that place of every list. *)
Definition of_container (translators : list translator) (i : Z) : option translator := translators !! Z.to_nat i.
Definition of_lists (f : T -> Z -> list A -> T * bool) (args : list (list A)) (i : Z) : option translator :=
  match mapM (fun l : list A => l !! Z.to_nat i) args with
  | Some xs => Some (fun t sequence => f t sequence xs)
  | None => None
  end.

(** ** Bounds *)

Definition getGreatestLength (ls : list (list A)) : Z :=
  i32 (fold_left (fun length l => if length <? zlen l then zlen l else length) ls 0).

Definition checkBatchSizing (r : ring) (batchStartsAt batchSize : Z) : result unit :=
  if (batchStartsAt <? 0) || (batchSize <? 0) then Throw bad_batch
  else if seq_size r.(rb_sequencer) <? batchSize then Throw batch_too_big
  else Ok tt.

(** The sum is one of 32-bit signed integers. *)
Definition batchOverRuns (argumentCount batchStartsAt batchSize : Z) : result unit :=
  if decide (batchStartsAt + batchSize < 2147483648) then
    if argumentCount <? batchStartsAt + batchSize then Throw batch_overruns else Ok tt
  else UB.

Definition checkBounds (r : ring) (argumentCount batchStartsAt batchSize : Z) : result unit :=
  _ ← checkBatchSizing r batchStartsAt batchSize;
  batchOverRuns argumentCount batchStartsAt batchSize.

(** ** Publishing *)

Definition with_sequencer (s : S) (r : ring) : ring := mk_rb r.(rb_entries) s.

(** A call up to one look at the gating sequences; [false]: it waits, and calling it
    again in the state it leaves is to go on waiting. *)
Definition publishEvent (f : translator) (gating : list Z) (r : ring) : result (ring * bool) :=
  '(s, o) ← seq_next r.(rb_sequencer) gating 1;
  match o with
  | None => Ok (with_sequencer s r, false)
  | Some sequence => r ← translateAndPublish f sequence (with_sequencer s r); Ok (r, true)
  end.

(** [false] is the answer when there is no room. *)
Definition tryPublishEvent (f : translator) (gating : list Z) (r : ring) : result (ring * bool) :=
  match seq_tryNext r.(rb_sequencer) gating 1 with
  | (s, Ok sequence) => r ← translateAndPublish f sequence (with_sequencer s r); Ok (r, true)
  | (s, Throw e) => if String.eqb e insufficient then Ok (with_sequencer s r, false) else Throw e
  | (s, UB) => UB
  end.

Definition publish_batch (get : Z -> option translator) (argumentCount batchStartsAt batchSize : Z)
    (gating : list Z) (r : ring) : result (ring * bool) :=
  _ ← checkBounds r argumentCount batchStartsAt batchSize;
  '(s, o) ← seq_next r.(rb_sequencer) gating batchSize;
  match o with
  | None => Ok (with_sequencer s r, false)
  | Some finalSequence =>
    r ← translateAndPublishBatch get batchStartsAt batchSize finalSequence (with_sequencer s r); Ok (r, true)
  end.

Definition tryPublish_batch (get : Z -> option translator) (argumentCount batchStartsAt batchSize : Z)
    (gating : list Z) (r : ring) : result (ring * bool) :=
  _ ← checkBounds r argumentCount batchStartsAt batchSize;
  match seq_tryNext r.(rb_sequencer) gating batchSize with
  | (s, Ok finalSequence) =>
    r ← translateAndPublishBatch get batchStartsAt batchSize finalSequence (with_sequencer s r); Ok (r, true)
  | (s, Throw e) => if String.eqb e insufficient then Ok (with_sequencer s r, false) else Throw e
  | (s, UB) => UB
  end.

(** The overloads for a container of translators and for lists of arguments. *)
Definition publishEvents (translators : list translator) (batchStartsAt batchSize : Z) :=
  publish_batch (of_container translators) (i32 (zlen translators)) batchStartsAt batchSize.
Definition tryPublishEvents (translators : list translator) (batchStartsAt batchSize : Z) :=
  tryPublish_batch (of_container translators) (i32 (zlen translators)) batchStartsAt batchSize.
Definition publishEvents_args (f : T -> Z -> list A -> T * bool) (args : list (list A)) (batchStartsAt batchSize : Z) :=
  publish_batch (of_lists f args) (getGreatestLength args) batchStartsAt batchSize.
Definition tryPublishEvents_args (f : T -> Z -> list A -> T * bool) (args : list (list A)) (batchStartsAt batchSize : Z) :=
  tryPublish_batch (of_lists f args) (getGreatestLength args) batchStartsAt batchSize.
End RingBuffer.
Arguments ring : clear implicits.

(** ** What is published *)

Class ISequencerLaws (S : Type) {iseq : ISequencer S} : Prop := {
  seq_next_size s g n s' o : seq_next s g n = Ok (s', o) -> seq_size s' = seq_size s;
  seq_tryNext_size s g n : seq_size (seq_tryNext s g n).1 = seq_size s
}.

#[export] Instance SingleProducer_laws `{SequenceUtil} : ISequencerLaws sequencer.
Proof.
  split.
  - intros s g n s' o. cbn. unfold next. repeat case_match; try done; intros [= <- <-]; done.
  - intros s g n. cbn. unfold tryNext, hasAvailableCapacity. repeat case_match; simplify_eq; done.
Qed.

Section Published.
Context {T S : Type} {iseq : ISequencer S} {laws : ISequencerLaws S}.

(** Places [sequence], [sequence + 1], ... with entries [old], for translators [f]. *)
Definition thrown_before (f : nat -> T -> Z -> T * bool) (old : nat -> T) (sequence : Z) (k : nat) : bool :=
  existsb (fun m => (f m (old m) (sequence + Z.of_nat m)).2) (seq 0 k).

Lemma thrown_before_S f old sequence k : thrown_before f old sequence (Datatypes.S k) =
  (f O (old O) sequence).2 || thrown_before (fun m => f (Datatypes.S m)) (fun m => old (Datatypes.S m)) (sequence + 1) k.
Proof using.
  unfold thrown_before. cbn [seq existsb]. rewrite Z.add_0_r. f_equal. rewrite <- seq_shift.
  generalize 0%nat as j. induction k as [|k IH]; intros j; [done|]. cbn [seq map existsb].
  rewrite IH. do 3 f_equal. lia.
Qed.

Definition place (r : ring T S) (sequence : Z) : nat := entry_index (seq_size r.(rb_sequencer)) sequence.

Lemma translate_loop_fills n get i sequence (r : ring T S) f old :
  ring_size (seq_size r.(rb_sequencer)) -> zlen r.(rb_entries) = seq_size r.(rb_sequencer) ->
  Z.of_nat n <= seq_size r.(rb_sequencer) ->
  (forall k, (k < n)%nat -> get (i + Z.of_nat k) = Some (f k)) ->
  (forall k, (k < n)%nat -> r.(rb_entries) !! place r (sequence + Z.of_nat k) = Some (old k)) ->
  exists es, translate_loop n get i sequence r = Ok (mk_rb es r.(rb_sequencer)) /\ length es = length r.(rb_entries) /\
    (forall k, (k < n)%nat -> es !! place r (sequence + Z.of_nat k) =
       Some (if thrown_before f old sequence k then old k else (f k (old k) (sequence + Z.of_nat k)).1)) /\
    (forall j, (forall k, (k < n)%nat -> j <> place r (sequence + Z.of_nat k)) -> es !! j = r.(rb_entries) !! j).
Proof using.
  revert i sequence r f old. induction n as [|n IH]; intros i sequence [es s] f old; unfold place; cbn [rb_entries rb_sequencer];
    intros Hsz Hl Hn Hget Hold.
  - exists es. cbn. split_and!; try done. lia.
  - cbn [translate_loop]. specialize (Hget O ltac:(lia)) as H0. rewrite Z.add_0_r in H0. rewrite H0.
    specialize (Hold O ltac:(lia)) as H1. rewrite Z.add_0_r in H1. unfold translate. cbn [rb_entries rb_sequencer checked mbind result_bind].
    rewrite H1. cbn [checked mbind result_bind].
    assert (forall k, (0 < k <= n)%nat -> entry_index (seq_size s) sequence <> entry_index (seq_size s) (sequence + Z.of_nat k)) as Hne.
    { intros k Hk He. apply entry_index_inj in He; [lia|done|lia]. }
    destruct (f O (old O) sequence) as [t b] eqn:Hf. set (es1 := <[_ := t]> es).
    assert (es1 !! entry_index (seq_size s) sequence = Some t) as Hes1 by
      (apply list_lookup_insert_eq; by eapply lookup_lt_Some).
    destruct b.
    + exists es1. split; [done|]. split; [apply length_insert|]. split.
      * intros [|k] Hk; [rewrite Z.add_0_r; cbn; by rewrite Hf|]. rewrite thrown_before_S, Hf. cbn [snd orb].
        unfold es1. rewrite list_lookup_insert_ne by (apply Hne; lia). apply Hold. lia.
      * intros j Hj. unfold es1. rewrite list_lookup_insert_ne; [done|]. specialize (Hj O ltac:(lia)).
        rewrite Z.add_0_r in Hj. congruence.
    + destruct (IH (i + 1) (sequence + 1) (mk_rb es1 s) (fun m => f (Datatypes.S m)) (fun m => old (Datatypes.S m)))
        as (es2 & He & Hl2 & Hin & Hout); unfold place in *; cbn [rb_entries rb_sequencer] in *; try done.
      * unfold es1. by rewrite length_insert.
      * lia.
      * intros k Hk. rewrite <- Z.add_assoc. replace (1 + Z.of_nat k) with (Z.of_nat (Datatypes.S k)) by lia. apply Hget. lia.
      * intros k Hk. unfold es1. rewrite <- Z.add_assoc. replace (1 + Z.of_nat k) with (Z.of_nat (Datatypes.S k)) by lia.
        rewrite list_lookup_insert_ne by (apply Hne; lia). apply Hold. lia.
      * exists es2. split; [done|]. split; [rewrite Hl2; apply length_insert|]. split.
        -- intros [|k] Hk.
           ++ rewrite Z.add_0_r. cbn [thrown_before seq existsb]. rewrite Hout, Hes1, Hf; [done|].
              intros k Hk'. rewrite <- Z.add_assoc. replace (1 + Z.of_nat k) with (Z.of_nat (Datatypes.S k)) by lia. apply Hne. lia.
           ++ rewrite thrown_before_S, Hf. cbn [snd orb]. replace (sequence + Z.of_nat (Datatypes.S k)) with (sequence + 1 + Z.of_nat k) by lia.
              apply Hin. lia.
        -- intros j Hj. rewrite Hout.
           ++ unfold es1. rewrite list_lookup_insert_ne; [done|]. specialize (Hj O ltac:(lia)). rewrite Z.add_0_r in Hj. congruence.
           ++ intros k Hk. rewrite <- Z.add_assoc. replace (1 + Z.of_nat k) with (Z.of_nat (Datatypes.S k)) by lia. apply Hj. lia.
Qed.

(** A batch for which the sequencer has room is published whole: the entries of its
    sequences, and no others, become what the translators make of them; an exception
    ends the translating, not the publishing, so that the entries behind it are
    published as they were. *)
Theorem publishEvents_fills (r : ring T S) (translators : list (T -> Z -> T * bool)) gating start n s' final f old
    (Hsz : ring_size (seq_size r.(rb_sequencer))) (Hl : zlen r.(rb_entries) = seq_size r.(rb_sequencer))
    (Hn : 0 <= n <= seq_size r.(rb_sequencer)) (Hst : 0 <= start) (Hlen : start + n <= zlen translators < 2147483648)
    (Hgrant : seq_next r.(rb_sequencer) gating n = Ok (s', Some final))
    (Hf : forall k, (k < Z.to_nat n)%nat -> translators !! (Z.to_nat start + k)%nat = Some (f k))
    (Hold : forall k, (k < Z.to_nat n)%nat -> r.(rb_entries) !! place r (final - (n - 1) + Z.of_nat k) = Some (old k)) :
  exists es, publishEvents translators start n gating r =
      Ok (mk_rb es (seq_publish s' (final - (n - 1)) final), true) /\
    (forall k, (k < Z.to_nat n)%nat -> es !! place r (final - (n - 1) + Z.of_nat k) =
       Some (if thrown_before f old (final - (n - 1)) k then old k
             else (f k (old k) (final - (n - 1) + Z.of_nat k)).1)) /\
    (forall j, (forall k, (k < Z.to_nat n)%nat -> j <> place r (final - (n - 1) + Z.of_nat k)) ->
       es !! j = r.(rb_entries) !! j).
Proof using laws.
  pose proof (seq_next_size _ _ _ _ _ Hgrant) as Hs'.
  destruct (translate_loop_fills (Z.to_nat n) (of_container translators) start (final - (n - 1))
    (mk_rb r.(rb_entries) s') f old) as (es & He & _ & Hin & Hout); unfold place in *; cbn [rb_entries rb_sequencer] in *.
  - by rewrite Hs'.
  - by rewrite Hs'.
  - rewrite Hs'. lia.
  - intros k Hk. unfold of_container. rewrite <- Hf by done. f_equal. lia.
  - by rewrite Hs'.
  - exists es. rewrite Hs' in Hin, Hout. split; [|done].
    unfold publishEvents, publish_batch, checkBounds, checkBatchSizing, batchOverRuns.
    destruct (Z.ltb_spec start 0), (Z.ltb_spec n 0), (Z.ltb_spec (seq_size (rb_sequencer r)) n); try lia. cbn [orb mbind result_bind].
    rewrite decide_True, i32_small by lia. destruct (Z.ltb_spec (zlen translators) (start + n)); [lia|]. cbn [mbind result_bind].
    rewrite Hgrant. cbn [mbind result_bind]. unfold translateAndPublishBatch, with_sequencer. rewrite He. done.
Qed.
End Published.

(** ** What goes wrong *)

Section Wrong.
Context {T S A : Type} {iseq : ISequencer S} {laws : ISequencerLaws S}.

(** Without room nothing is translated, and the answer is false; another exception of
    the sequencer goes to the caller. *)
Theorem tryPublishEvents_no_room (r : ring T S) (get : Z -> option (T -> Z -> T * bool)) count start n gating e :
  checkBounds r count start n = Ok tt -> (seq_tryNext r.(rb_sequencer) gating n).2 = Throw e ->
  match tryPublish_batch get count start n gating r with
  | Ok (r', granted) => e = insufficient /\ granted = false /\ r'.(rb_entries) = r.(rb_entries)
  | Throw e' => e' = e /\ e <> insufficient
  | UB => False
  end.
Proof using.
  intros Hb He. unfold tryPublish_batch. rewrite Hb. cbn [mbind result_bind].
  destruct (seq_tryNext (rb_sequencer r) gating n) as [s o]. cbn in He. subst o.
  destruct (String.eqb_spec e insufficient); done.
Qed.

Lemma of_lists_2 (f : T -> Z -> list A -> T * bool) l1 l2 i : of_lists f [l1; l2] i =
  match l1 !! Z.to_nat i, l2 !! Z.to_nat i with
  | Some x, Some y => Some (fun t sequence => f t sequence [x; y])
  | _, _ => None
  end.
Proof using.
  unfold of_lists. cbn. by destruct (l1 !! Z.to_nat i), (l2 !! Z.to_nat i).
Qed.

(** The batch is held against the longest list of arguments: a shorter one is read
    beyond its end. *)
Theorem shorter_list_overrun (r : ring T S) (f : T -> Z -> list A -> T * bool) l1 l2 gating s' final :
  (forall t sequence xs, (f t sequence xs).2 = false) -> zlen l2 < zlen l1 -> zlen l1 < 2147483648 ->
  zlen l1 <= seq_size r.(rb_sequencer) -> ring_size (seq_size r.(rb_sequencer)) ->
  zlen r.(rb_entries) = seq_size r.(rb_sequencer) ->
  seq_next r.(rb_sequencer) gating (zlen l1) = Ok (s', Some final) ->
  publishEvents_args f [l1; l2] 0 (zlen l1) gating r = UB.
Proof using laws.
  intros Hf H21 Hmax Hcap Hsz Hl Hgrant. pose proof (seq_next_size _ _ _ _ _ Hgrant) as Hs'.
  assert (forall n i sequence (r' : ring T S), zlen r'.(rb_entries) = seq_size r'.(rb_sequencer) ->
    ring_size (seq_size r'.(rb_sequencer)) -> 0 <= i <= zlen l2 -> i + Z.of_nat n = zlen l1 ->
    translate_loop n (of_lists f [l1; l2]) i sequence r' = UB) as Hub.
  { induction n as [|n IH]; intros i sequence r' Hl' Hsz' Hi Hn; [lia|]. cbn [translate_loop].
    rewrite of_lists_2. destruct (lookup_lt_is_Some_2 l1 (Z.to_nat i)) as [x ->]; [lia|].
    destruct (decide (i = zlen l2)) as [->|Hne].
    - rewrite (lookup_ge_None_2 l2) by lia. done.
    - destruct (lookup_lt_is_Some_2 l2 (Z.to_nat i)) as [y ->]; [lia|]. cbn [mbind option_bind mret option_ret checked result_bind].
      unfold translate. destruct (lookup_lt_is_Some_2 (rb_entries r') (entry_index (seq_size (rb_sequencer r')) sequence)) as [t ->].
      { pose proof (entry_index_lt _ sequence Hsz'). lia. }
      cbn [checked mbind result_bind]. specialize (Hf t sequence [x; y]). destruct (f t sequence [x; y]) as [t' b]. cbn in Hf. subst b.
      apply IH; cbn [rb_entries rb_sequencer]; rewrite ?length_insert; done || lia. }
  unfold publishEvents_args, publish_batch, checkBounds, checkBatchSizing, batchOverRuns.
  assert (getGreatestLength [l1; l2] = zlen l1) as ->.
  { unfold getGreatestLength. cbn. destruct (Z.ltb_spec 0 (zlen l1)), (Z.ltb_spec (zlen l1) (zlen l2)); try lia. by rewrite i32_small by lia. }
  destruct (Z.ltb_spec (zlen l1) 0), (Z.ltb_spec (seq_size (rb_sequencer r)) (zlen l1)); try lia. cbn [orb Z.ltb Z.compare mbind result_bind].
  rewrite decide_True, Z.ltb_irrefl by lia. cbn [mbind result_bind]. rewrite Hgrant. cbn [mbind result_bind].
  unfold translateAndPublishBatch, with_sequencer. rewrite Hub; [done|cbn; by rewrite Hs'|cbn; by rewrite Hs'|lia|lia].
Qed.

(** The check against the number of arguments adds in 32 bits, which overflows. *)
Theorem batch_bounds_overflow (r : ring T S) count start n :
  0 <= start -> 0 <= n <= seq_size r.(rb_sequencer) -> 2147483648 <= start + n -> checkBounds r count start n = UB.
Proof using.
  intros H1 H2 H3. unfold checkBounds, checkBatchSizing, batchOverRuns.
  destruct (Z.ltb_spec start 0), (Z.ltb_spec n 0), (Z.ltb_spec (seq_size (rb_sequencer r)) n); try lia. cbn [orb mbind result_bind].
  by rewrite decide_False by lia.
Qed.
End Wrong.

(** ** On a ring of four *)

Definition ring_example : ring Z sequencer := mk_rb [10; 20; 30; 40] (mk_sequencer 4 2 (-1) 2).
(** Add one, twice; the third throws. *)
Definition translators_example : list (Z -> Z -> Z * bool) :=
  [fun t _ => (t + 1, false); fun t _ => (t + 1, true); fun t _ => (t + 1, false)].

#[local] Existing Instances util_example util_example_laws.

(** The events at 3 and 4 are translated, the one at 5 is published as it was. *)
Lemma publishEvents_fills_witness : exists es,
  publishEvents (iseq := SingleProducer) translators_example 0 3 [2] ring_example =
    Ok (mk_rb es (seq_publish (mk_sequencer 4 5 2 2) 3 5), true) /\
  es !! 3%nat = Some 41 /\ es !! 0%nat = Some 11 /\ es !! 1%nat = Some 20.
Proof.
  destruct (publishEvents_fills (iseq := SingleProducer) ring_example translators_example [2] 0 3
    (mk_sequencer 4 5 2 2) 5
    (fun k t _ => (t + 1, Nat.eqb k 1)) (fun k => match k with O => 40 | 1%nat => 10 | _ => 20 end))
    as (es & He & Hin & _);
    [by exists 2|reflexivity|cbn; lia|lia|cbn; lia|reflexivity| | |].
  - intros [|[|[|k]]] Hk; try reflexivity. change (Z.to_nat 3) with 3%nat in Hk. lia.
  - intros [|[|[|k]]] Hk; try reflexivity. change (Z.to_nat 3) with 3%nat in Hk. lia.
  - exists es. split; [exact He|]. split_and!.
    + apply (Hin 0%nat). change (Z.to_nat 3) with 3%nat. lia.
    + apply (Hin 1%nat). change (Z.to_nat 3) with 3%nat. lia.
    + apply (Hin 2%nat). change (Z.to_nat 3) with 3%nat. lia.
Defined.
