(* ===== verification/Wiring.v ===== *)
(** Disruptor.h, EventHandlerGroup.h, ConsumerRepository.h and WorkerPool.h: how the
    consumers of a ring are set up, started and halted.  Consumers wait for each
    other through barriers; the producer waits for those at the ends of the chains. *)
From stdpp Require Import gmap.
From S2P Require Import Prelude Sequencer.

(** ** Sequences, barriers, processors *)

(** A Sequence made by the library, or one that a processor of the user has. *)
Inductive sequence_id := Own (n : nat) | Foreign (n : nat).
#[export] Instance sequence_id_eq_dec : EqDecision sequence_id.
Proof. solve_decision. Defined.
#[export] Instance sequence_id_countable : Countable sequence_id.
Proof.
  refine (inj_countable' (fun s => match s with Own n => inl n | Foreign n => inr n end)
    (fun x => match x with inl n => Own n | inr n => Foreign n end) _).
  by intros [].
Defined.

(** A ProcessingSequenceBarrier: its identity and the sequences it tracks besides the
    cursor. *)
Record barrier := mk_barrier { b_id : nat; b_dependent : list sequence_id }.

(** An IEventProcessor: one over an event handler, or any other. *)
Inductive processor :=
  | BatchEventProcessor (eventHandler : nat) (b : barrier) (s : sequence_id)
  | OtherProcessor (s : sequence_id).
Definition p_sequence (p : processor) : sequence_id :=
  match p with BatchEventProcessor _ _ s => s | OtherProcessor s => s end.

(** An exception handler: the wrapper a disruptor is made with, or one of the user
    ([None]: a null pointer). *)
Inductive exceptions := Wrapper | Given (h : option nat).

(** WorkerPool: the handlers with the sequences of their WorkProcessors, and the
    sequence they claim from. *)
Record pool := mk_pool { m_workProcessors : list (nat * sequence_id); m_workSequence : sequence_id;
  wp_barrier : barrier; wp_exceptions : exceptions }.
Definition getWorkerSequences (p : pool) : list sequence_id := map snd p.(m_workProcessors) ++ [p.(m_workSequence)].

(** ** IConsumerInfo: EventProcessorInfo or WorkerPoolInfo *)

Inductive IConsumerInfo := Processor (p : processor) (handler : option nat) | Workers (p : pool).
Record info := mk_info { i_consumer : IConsumerInfo; i_barrier : option barrier; m_isEndOfChain : bool }.
Definition consumer_sequences (c : IConsumerInfo) : list sequence_id :=
  match c with Processor p _ => [p_sequence p] | Workers p => getWorkerSequences p end.
Definition sequences (i : info) : list sequence_id := consumer_sequences i.(i_consumer).
Definition markAsUsedInBarrier (i : info) : info := mk_info i.(i_consumer) i.(i_barrier) false.

(** ** ConsumerRepository *)

(** The maps hold shared pointers to members of m_consumerInfos: their indices. *)
Record repository := mk_repository { by_handler : gmap nat nat; by_sequence : gmap sequence_id nat; m_consumerInfos : list info }.

Definition add_info (i : info) (r : repository) : repository :=
  mk_repository r.(by_handler)
    (foldl (fun m s => <[s := length r.(m_consumerInfos)]> m) r.(by_sequence) (sequences i))
    (r.(m_consumerInfos) ++ [i]).
Definition add_handler (p : processor) (eventHandler : nat) (b : barrier) (r : repository) : repository :=
  let r' := add_info (mk_info (Processor p (Some eventHandler)) (Some b) true) r in
  mk_repository (<[eventHandler := length r.(m_consumerInfos)]> r'.(by_handler)) r'.(by_sequence) r'.(m_consumerInfos).
Definition add_processor (p : processor) : repository -> repository := add_info (mk_info (Processor p None) None true).
Definition add_pool (p : pool) (b : barrier) : repository -> repository := add_info (mk_info (Workers p) (Some b) true).

Definition getLastSequenceInChain (includeStopped : bool) (isRunning : info -> bool) (r : repository) : list sequence_id :=
  mjoin (map sequences (filter (fun i => Is_true ((includeStopped || isRunning i) && i.(m_isEndOfChain))) r.(m_consumerInfos))).

Definition not_processing : string := "The event handler is not processing events.".
Definition getEventProcessorFor (eventHandler : nat) (r : repository) : result processor :=
  match r.(by_handler) !! eventHandler with
  | None => Throw not_processing
  | Some k => match r.(m_consumerInfos) !! k with Some (mk_info (Processor p _) _ _) => Ok p | _ => UB end
  end.
Definition getSequenceFor (eventHandler : nat) (r : repository) : result sequence_id :=
  p ← getEventProcessorFor eventHandler r; Ok (p_sequence p).
Definition getBarrierFor (eventHandler : nat) (r : repository) : result (option barrier) :=
  match r.(by_handler) !! eventHandler with
  | None => Ok None
  | Some k => i ← checked (r.(m_consumerInfos) !! k); Ok i.(i_barrier)
  end.

Definition unmark_step (r : repository) (s : sequence_id) : repository :=
  match r.(by_sequence) !! s with
  | Some k => mk_repository r.(by_handler) r.(by_sequence) (alter markAsUsedInBarrier k r.(m_consumerInfos))
  | None => r
  end.
Definition unMarkEventProcessorsAsEndOfChain (barrierEventProcessors : list sequence_id) (r : repository) : repository :=
  foldl unmark_step r barrierEventProcessors.

(** ** The state of a disruptor *)

(** What threads are asked to do, in order. *)
Inductive event :=
  | SetValue (s : sequence_id) (v : Z)
  | RunProcessor (p : processor)
  | RunWorker (p : pool) (s : sequence_id)
  | HaltProcessor (p : processor)
  | HaltWorker (p : pool) (s : sequence_id)
  | Alerted (b : barrier).

Record disruptor := mk_disruptor {
  fresh : nat;                             (** names not yet given *)
  m_consumerRepository : repository;
  m_gatingSequences : list sequence_id;    (** of the sequencer *)
  m_exceptionHandler : exceptions;
  m_handler : option nat;                  (** of the wrapper; [Some 0] is the FatalExceptionHandler *)
  batch_exceptions : gmap sequence_id exceptions;  (** m_exceptionHandler of the processors *)
  m_started : bool;
  m_running : gset sequence_id;            (** pools that run, by their work sequences *)
  trace : list event
}.

Definition new_disruptor (gating : list sequence_id) : disruptor :=
  mk_disruptor 0 (mk_repository ∅ ∅ []) gating Wrapper (Some 0%nat) ∅ false ∅ [].

Definition set_repository (r : repository) (d : disruptor) : disruptor :=
  mk_disruptor d.(fresh) r d.(m_gatingSequences) d.(m_exceptionHandler) d.(m_handler) d.(batch_exceptions)
    d.(m_started) d.(m_running) d.(trace).
Definition take_names (n : nat) (d : disruptor) : disruptor :=
  mk_disruptor (d.(fresh) + n) d.(m_consumerRepository) d.(m_gatingSequences) d.(m_exceptionHandler) d.(m_handler)
    d.(batch_exceptions) d.(m_started) d.(m_running) d.(trace).
Definition set_exceptions (s : sequence_id) (e : exceptions) (d : disruptor) : disruptor :=
  mk_disruptor d.(fresh) d.(m_consumerRepository) d.(m_gatingSequences) d.(m_exceptionHandler) d.(m_handler)
    (<[s := e]> d.(batch_exceptions)) d.(m_started) d.(m_running) d.(trace).
Definition set_gating (g : list sequence_id) (d : disruptor) : disruptor :=
  mk_disruptor d.(fresh) d.(m_consumerRepository) g d.(m_exceptionHandler) d.(m_handler) d.(batch_exceptions)
    d.(m_started) d.(m_running) d.(trace).
Definition set_started (d : disruptor) : disruptor :=
  mk_disruptor d.(fresh) d.(m_consumerRepository) d.(m_gatingSequences) d.(m_exceptionHandler) d.(m_handler)
    d.(batch_exceptions) true d.(m_running) d.(trace).
Definition set_running (r : gset sequence_id) (d : disruptor) : disruptor :=
  mk_disruptor d.(fresh) d.(m_consumerRepository) d.(m_gatingSequences) d.(m_exceptionHandler) d.(m_handler)
    d.(batch_exceptions) d.(m_started) r d.(trace).
Definition note (l : list event) (d : disruptor) : disruptor :=
  mk_disruptor d.(fresh) d.(m_consumerRepository) d.(m_gatingSequences) d.(m_exceptionHandler) d.(m_handler)
    d.(batch_exceptions) d.(m_started) d.(m_running) (d.(trace) ++ l).
Definition set_handlers (e : exceptions) (h : option nat) (d : disruptor) : disruptor :=
  mk_disruptor d.(fresh) d.(m_consumerRepository) d.(m_gatingSequences) e h d.(batch_exceptions)
    d.(m_started) d.(m_running) d.(trace).
Definition on_repository (f : repository -> repository) (d : disruptor) : disruptor :=
  set_repository (f d.(m_consumerRepository)) d.

(** ** Setting up consumers *)

Definition already_started : string := "All event handlers must be added before calling starts.".
Definition checkNotStarted (d : disruptor) : result unit := if d.(m_started) then Throw already_started else Ok tt.

Definition newBarrier (barrierSequences : list sequence_id) (d : disruptor) : barrier * disruptor :=
  (mk_barrier d.(fresh) barrierSequences, take_names 1 d).

(** The loop over the handlers: their sequences, in order. *)
Fixpoint create_processors (b : barrier) (eventHandlers : list nat) (d : disruptor) : list sequence_id * disruptor :=
  match eventHandlers with
  | [] => ([], d)
  | eventHandler :: eventHandlers =>
    let s := Own d.(fresh) in
    let d := take_names 1 d in
    let d := match d.(m_exceptionHandler) with Given None => d | e => set_exceptions s e d end in
    let d := on_repository (add_handler (BatchEventProcessor eventHandler b s) eventHandler b) d in
    let '(l, d) := create_processors b eventHandlers d in
    (s :: l, d)
  end.

(** A group of consumers is the list of its sequences. *)
Definition createEventProcessors (barrierSequences : list sequence_id) (eventHandlers : list nat) (d : disruptor)
    : result (list sequence_id * disruptor) :=
  _ ← checkNotStarted d;
  let '(b, d) := newBarrier barrierSequences d in
  let '(processorSequences, d) := create_processors b eventHandlers d in
  Ok (processorSequences,
      match processorSequences with
      | [] => d
      | _ => on_repository (unMarkEventProcessorsAsEndOfChain barrierSequences) d
      end).

Definition createWorkerPool (barrierSequences : list sequence_id) (workHandlers : list nat) (d : disruptor)
    : list sequence_id * disruptor :=
  let '(b, d) := newBarrier barrierSequences d in
  let workSequence := Own d.(fresh) in
  let workers := imap (fun k h => (h, Own (d.(fresh) + Datatypes.S k)%nat)) workHandlers in
  let p := mk_pool workers workSequence b d.(m_exceptionHandler) in
  (getWorkerSequences p, on_repository (add_pool p b) (take_names (Datatypes.S (length workHandlers)) d)).

(** The loops over processors of the user in handleEventsWith, after and And. *)
Definition add_processors (processors : list processor) (d : disruptor) : disruptor :=
  on_repository (fun r => foldl (fun r p => add_processor p r) r processors) d.

Section Setup.
(** SequenceGroups::addSequences and Util::getSequencesFor are declared only. *)
Context (addSequences : list sequence_id -> list sequence_id -> list sequence_id)
  (getSequencesFor : list processor -> list sequence_id).

Definition handleEventsWith_processors (processors : list processor) (d : disruptor) : list sequence_id * disruptor :=
  (getSequencesFor processors, add_processors processors d).

(** A factory of the user, given the sequences of the barrier. *)
Definition createEventProcessors_factories (barrierSequences : list sequence_id)
    (processorFactories : list (list sequence_id -> processor)) (d : disruptor) : list sequence_id * disruptor :=
  handleEventsWith_processors (map (fun createEventProcessor => createEventProcessor barrierSequences) processorFactories) d.

Fixpoint after (handlers : list nat) (d : disruptor) : result (list sequence_id) :=
  match handlers with
  | [] => Ok []
  | handler :: handlers =>
    s ← getSequenceFor handler d.(m_consumerRepository);
    l ← after handlers d;
    Ok (s :: l)
  end.

(** EventHandlerGroup::And *)
Definition and_group (m_sequences other : list sequence_id) : list sequence_id := m_sequences ++ other.
Definition and_processors (m_sequences : list sequence_id) (processors : list processor) (d : disruptor)
    : list sequence_id * disruptor :=
  (map p_sequence processors ++ m_sequences, add_processors processors d).

(** ** Exception handlers *)

Definition handleExceptionsWith (h : option nat) (d : disruptor) : disruptor := set_handlers (Given h) d.(m_handler) d.

(** The cast to the wrapper gives a null pointer when the handler is another one. *)
Definition setDefaultExceptionHandler (h : option nat) (d : disruptor) : result disruptor :=
  _ ← checkNotStarted d;
  match d.(m_exceptionHandler) with
  | Wrapper => Ok (set_handlers Wrapper h d)
  | Given _ => UB
  end.

Definition null_argument : string := "ArgumentNullException".
(** handleExceptionsFor(eventHandler).with(exceptionHandler) *)
Definition with_exceptions (eventHandler : nat) (h : option nat) (d : disruptor) : result disruptor :=
  p ← getEventProcessorFor eventHandler d.(m_consumerRepository);
  match p with
  | BatchEventProcessor _ _ s =>
    match h with
    | None => Throw null_argument
    | Some _ =>
      b ← getBarrierFor eventHandler d.(m_consumerRepository);
      b ← checked b;
      Ok (note [Alerted b] (set_exceptions s (Given h) d))
    end
  | OtherProcessor _ => UB
  end.

(** The handler that gets the exceptions of a processor: none is a null pointer. *)
Definition handler_of (s : sequence_id) (d : disruptor) : option nat :=
  match d.(batch_exceptions) !! s with
  | None => None
  | Some Wrapper => d.(m_handler)
  | Some (Given h) => h
  end.

(** ** Starting and halting *)

Definition pool_running : string := "WorkerPool has already been started and cannot be restarted until halted".
Definition start_pool (cursor : Z) (p : pool) (d : disruptor) : disruptor * result unit :=
  if decide (p.(m_workSequence) ∈ d.(m_running)) then (d, Throw pool_running)
  else (note (SetValue p.(m_workSequence) cursor
              :: mjoin (map (fun '(_, s) => [SetValue s cursor; RunWorker p s]) p.(m_workProcessors)))
         (set_running ({[p.(m_workSequence)]} ∪ d.(m_running)) d), Ok tt).

Definition start_info (cursor : Z) (i : info) (d : disruptor) : disruptor * result unit :=
  match i.(i_consumer) with
  | Processor p _ => (note [RunProcessor p] d, Ok tt)
  | Workers p => start_pool cursor p d
  end.
Fixpoint start_all (cursor : Z) (l : list info) (d : disruptor) : disruptor * result unit :=
  match l with
  | [] => (d, Ok tt)
  | i :: l => match start_info cursor i d with (d, Ok _) => start_all cursor l d | r => r end
  end.

Definition only_once : string := "Disruptor.start() must only be called once.".
Definition start (cursor : Z) (d : disruptor) : disruptor * result unit :=
  let d := set_gating (addSequences d.(m_gatingSequences)
    (getLastSequenceInChain true (fun _ => false) d.(m_consumerRepository))) d in
  if d.(m_started) then (d, Throw only_once)
  else start_all cursor d.(m_consumerRepository).(m_consumerInfos) (set_started d).

Definition halt_pool (p : pool) (d : disruptor) : disruptor :=
  set_running (d.(m_running) ∖ {[p.(m_workSequence)]})
    (note (map (fun '(_, s) => HaltWorker p s) p.(m_workProcessors)) d).
Definition halt_info (d : disruptor) (i : info) : disruptor :=
  match i.(i_consumer) with
  | Processor p _ => note [HaltProcessor p] d
  | Workers p => halt_pool p d
  end.
Definition halt (d : disruptor) : disruptor := foldl halt_info d d.(m_consumerRepository).(m_consumerInfos).

(** What one look at the threads finds: the cursor, the values of the sequences, which
    consumers run and the time. *)
Record look := mk_look { l_cursor : Z; l_value : sequence_id -> Z; l_running : info -> bool; l_now : Z }.

Definition hasBacklog (l : look) (d : disruptor) : bool :=
  existsb (fun s => l.(l_value) s <? l.(l_cursor)) (getLastSequenceInChain false l.(l_running) d.(m_consumerRepository)).

(** The largest duration; times and durations are 64-bit numbers of ticks. *)
Definition duration_max : Z := 9223372036854775807.
Definition timed_out : string := "TimeoutException".
(** shutdown(timeout) with the looks its loop takes; [None]: it still waits. *)
Fixpoint shutdown_wait (timeout timeoutAt : Z) (looks : list look) (d : disruptor) : option (result disruptor) :=
  match looks with
  | [] => None
  | l :: looks =>
    if hasBacklog l d then
      if negb (timeout =? duration_max) && (0 <=? timeout) && (timeoutAt <? l.(l_now)) then Some (Throw timed_out)
      else shutdown_wait timeout timeoutAt looks d
    else Some (Ok (halt d))
  end.
Definition shutdown (timeout now : Z) (looks : list look) (d : disruptor) : option (result disruptor) :=
  let timeoutAt := now + timeout in
  if decide (- 9223372036854775808 <= timeoutAt <= duration_max) then shutdown_wait timeout timeoutAt looks d
  else Some UB.

(** WorkerPool::drainAndHalt, with the cursor and the values its loop sees; it waits
    without end when these run out. *)
Fixpoint drainAndHalt `{SequenceUtil} (looks : list (Z * (sequence_id -> Z))) (p : pool) (d : disruptor) : option disruptor :=
  match looks with
  | [] => None
  | (cursor, value) :: looks =>
    if getMinimumSequence (map value (getWorkerSequences p)) duration_max <? cursor then drainAndHalt looks p d
    else Some (halt_pool p d)
  end.

(** ** Calls of a set-up, with the groups made so far *)

Inductive op :=
  | OHandlers (g : option nat) (eventHandlers : list nat)
  | OFactories (g : option nat) (processorFactories : list (list sequence_id -> processor))
  | OPool (g : option nat) (workHandlers : list nat)
  | OProcessors (processors : list processor)
  | OAfter (handlers : list nat)
  | OAnd (g h : nat)
  | OAndProcessors (g : nat) (processors : list processor)
  | OExceptions (h : option nat)
  | ODefault (h : option nat)
  | OFor (eventHandler : nat) (h : option nat).

Definition setup : Type := disruptor * list (list sequence_id).
(** The sequences of a group, none for the disruptor itself. *)
Definition group (gs : list (list sequence_id)) (g : option nat) : result (list sequence_id) :=
  match g with None => Ok [] | Some g => checked (gs !! g) end.

Definition exec (o : op) (st : setup) : result setup :=
  let '(d, gs) := st in
  match o with
  | OHandlers g hs => l ← group gs g; '(g', d) ← createEventProcessors l hs d; Ok (d, gs ++ [g'])
  | OFactories g fs => l ← group gs g; let '(g', d) := createEventProcessors_factories l fs d in Ok (d, gs ++ [g'])
  | OPool g hs => l ← group gs g; let '(g', d) := createWorkerPool l hs d in Ok (d, gs ++ [g'])
  | OProcessors ps => let '(g', d) := handleEventsWith_processors ps d in Ok (d, gs ++ [g'])
  | OAfter hs => g' ← after hs d; Ok (d, gs ++ [g'])
  | OAnd g h => l ← group gs (Some g); l' ← group gs (Some h); Ok (d, gs ++ [and_group l l'])
  | OAndProcessors g ps => l ← group gs (Some g); let '(g', d) := and_processors l ps d in Ok (d, gs ++ [g'])
  | OExceptions h => Ok (handleExceptionsWith h d, gs)
  | ODefault h => d ← setDefaultExceptionHandler h d; Ok (d, gs)
  | OFor e h => d ← with_exceptions e h d; Ok (d, gs)
  end.

(** Processors of the user have sequences of their own. *)
Definition foreign (s : sequence_id) : Prop := match s with Own _ => False | Foreign _ => True end.
Definition op_ok (o : op) : Prop :=
  match o with
  | OFactories _ fs => forall f l, f ∈ fs -> foreign (p_sequence (f l))
  | OProcessors ps | OAndProcessors _ ps => forall p, p ∈ ps -> foreign (p_sequence p)
  | _ => True
  end.

Inductive built : setup -> Prop :=
  | built_new gating : built (new_disruptor gating, [])
  | built_exec o st st' : built st -> op_ok o -> exec o st = Ok st' -> built st'.

(** What a user asked to be run: a handler behind a processor of the library, a work
    handler in a pool, or a processor of his own. *)
Inductive runnable := Handler (h : nat) | Worker (h : nat) | User (p : processor).
Definition asked (o : op) (gs : list (list sequence_id)) : list runnable :=
  match o with
  | OHandlers _ hs => map Handler hs
  | OFactories g fs => match group gs g with Ok l => map (fun f => User (f l)) fs | _ => [] end
  | OPool _ hs => map Worker hs
  | OProcessors ps | OAndProcessors _ ps => map User ps
  | _ => []
  end.
(** A set-up with all that its calls asked for, in their order. *)
Inductive called : list runnable -> setup -> Prop :=
  | called_new gating : called [] (new_disruptor gating, [])
  | called_exec l o st st' : called l st -> op_ok o -> exec o st = Ok st' -> called (l ++ asked o st.2) st'.
Lemma called_built l st : called l st -> built st.
Proof using. induction 1; [apply built_new|by eapply built_exec]. Qed.
End Setup.

(** What a thread is told to run, and the sequence of the library it then counts on. *)
Definition run_of (e : event) : option runnable :=
  match e with
  | RunProcessor (BatchEventProcessor h _ (Own _)) => Some (Handler h)
  | RunProcessor p => Some (User p)
  | RunWorker p s => option_map (fun w => Worker w.1) (find (fun w => bool_decide (w.2 = s)) p.(m_workProcessors))
  | _ => None
  end.
Definition run_own (e : event) : option nat :=
  match e with
  | RunProcessor p => match p_sequence p with Own n => Some n | Foreign _ => None end
  | RunWorker _ (Own n) => Some n
  | _ => None
  end.

(** ** How the consumers hang together *)

Definition existing (n : nat) (s : sequence_id) : Prop := match s with Own k => (k < n)%nat | Foreign _ => True end.
Definition rank (s : sequence_id) : nat := match s with Own n => Datatypes.S n | Foreign _ => O end.

(** Names below [n] are given; a consumer waits for older sequences only, shares no
    sequence with another one, and when it is not at the end of the chain another one
    waits for all its sequences. *)
Record wired (n : nat) (r : repository) : Prop := {
  w_existing i s : i ∈ r.(m_consumerInfos) -> s ∈ sequences i -> existing n s;
  w_foreign i f : i ∈ r.(m_consumerInfos) -> Foreign f ∈ sequences i -> sequences i = [Foreign f];
  w_disjoint i j s : i ∈ r.(m_consumerInfos) -> j ∈ r.(m_consumerInfos) ->
    s ∈ sequences i -> s ∈ sequences j -> sequences i = sequences j;
  w_barrier i b s d : i ∈ r.(m_consumerInfos) -> i.(i_barrier) = Some b -> s ∈ sequences i ->
    d ∈ b.(b_dependent) -> (rank d < rank s)%nat;
  w_used i : i ∈ r.(m_consumerInfos) -> i.(m_isEndOfChain) = false ->
    exists j b, j ∈ r.(m_consumerInfos) /\ j.(i_barrier) = Some b /\ sequences i ⊆ b.(b_dependent);
  w_index s k : r.(by_sequence) !! s = Some k -> exists i, r.(m_consumerInfos) !! k = Some i /\ s ∈ sequences i;
  w_handlers h k : r.(by_handler) !! h = Some k -> exists b s e,
    r.(m_consumerInfos) !! k = Some (mk_info (Processor (BatchEventProcessor h b s) (Some h)) (Some b) e)
}.

(** A group has the sequences of whole consumers. *)
Definition closed (r : repository) (g : list sequence_id) : Prop :=
  forall i s, i ∈ r.(m_consumerInfos) -> s ∈ g -> s ∈ sequences i -> sequences i ⊆ g.
Definition group_ok (n : nat) (r : repository) (g : list sequence_id) : Prop :=
  closed r g /\ forall s, s ∈ g -> existing n s.

Lemma existing_mono n n' s : existing n s -> (n <= n')%nat -> existing n' s.
Proof. destruct s; cbn; [lia|done]. Qed.
Lemma sequences_nonempty i : exists s, s ∈ sequences i.
Proof.
  destruct i as [[p h|p] b e]; unfold sequences; cbn; [exists (p_sequence p); left|].
  exists p.(m_workSequence). apply elem_of_app. right. by left.
Qed.
Lemma existing_rank n s : existing n s -> (rank s <= n)%nat.
Proof. destruct s; cbn; lia. Qed.

Lemma index_fold l (m : gmap sequence_id nat) k s j :
  foldl (fun m s => <[s := k]> m) m l !! s = Some j -> (s ∈ l /\ j = k) \/ m !! s = Some j.
Proof.
  revert m. induction l as [|x l IH]; intros m Hm; [by right|]. cbn in Hm. destruct (IH _ Hm) as [[Hin ->]|Hm'].
  - left. split; [by right|done].
  - destruct (decide (x = s)) as [->|Hne].
    + rewrite lookup_insert_eq in Hm'. simplify_eq. left. split; [left|done].
    + rewrite lookup_insert_ne in Hm' by done. by right.
Qed.

(** A new consumer: of the user, or with sequences that nothing had before. *)
Definition addable (n n' : nat) (i : info) : Prop :=
  i.(m_isEndOfChain) = true /\
  ((exists f, sequences i = [Foreign f] /\ i.(i_barrier) = None) \/
   ((forall s, s ∈ sequences i -> exists k, s = Own k /\ (n <= k < n')%nat) /\
    (forall b d, i.(i_barrier) = Some b -> d ∈ b.(b_dependent) -> existing n d))).

Lemma addable_old n n' i s : addable n n' i -> s ∈ sequences i -> existing n s -> exists f, s = Foreign f /\ sequences i = [s].
Proof.
  intros [_ [(f & He & _)|[Hs _]]] Hin Hex.
  - rewrite He in Hin. apply list_elem_of_singleton in Hin as ->. eauto.
  - destruct (Hs _ Hin) as (k & -> & Hk). cbn in Hex. lia.
Qed.

Lemma add_info_wired n n' r i : wired n r -> (n <= n')%nat -> addable n n' i -> wired n' (add_info i r).
Proof.
  intros [We Wf Wd Wb Wu Wi Wh] Hn Ha. pose proof Ha as [Hend Hk]. split; unfold add_info; cbn [m_consumerInfos by_sequence by_handler].
  - intros j s Hj Hs. apply elem_of_app in Hj as [Hj|Hj]; [by eapply existing_mono; [eapply We|]|].
    apply list_elem_of_singleton in Hj as ->. destruct Hk as [(f & He & _)|[Hf _]].
    + rewrite He in Hs. by apply list_elem_of_singleton in Hs as ->.
    + destruct (Hf _ Hs) as (k & -> & ?). cbn. lia.
  - intros j f Hj Hs. apply elem_of_app in Hj as [Hj|Hj]; [by apply Wf|]. apply list_elem_of_singleton in Hj as ->.
    by destruct (addable_old n n' i (Foreign f) Ha Hs) as (f' & _ & ?).
  - intros j j' s Hj Hj' Hs Hs'.
    assert (forall j0, j0 ∈ r.(m_consumerInfos) -> s ∈ sequences j0 -> s ∈ sequences i -> sequences j0 = sequences i) as Hcross.
    { intros j0 Hj0 Hs0 Hsi. destruct (addable_old n n' i s Ha Hsi ltac:(by eapply We)) as (f & -> & ->). by apply Wf. }
    apply elem_of_app in Hj as [Hj|Hj], Hj' as [Hj'|Hj']; try (apply list_elem_of_singleton in Hj as ->);
      try (apply list_elem_of_singleton in Hj' as ->); eauto. symmetry. eauto.
  - intros j b s d Hj Hb Hs Hd. apply elem_of_app in Hj as [Hj|Hj]; [by eapply Wb|]. apply list_elem_of_singleton in Hj as ->.
    destruct Hk as [(f & _ & He)|[Hf He]]; [congruence|]. destruct (Hf _ Hs) as (k & -> & ?).
    pose proof (existing_rank n d ltac:(by eapply He)). cbn. lia.
  - intros j Hj Hf. apply elem_of_app in Hj as [Hj|Hj].
    + destruct (Wu j Hj Hf) as (j' & b & Hj' & ?). exists j', b. split; [apply elem_of_app; by left|done].
    + apply list_elem_of_singleton in Hj as ->. congruence.
  - intros s k Hm. apply index_fold in Hm as [[Hin ->]|Hm].
    + exists i. split; [by rewrite lookup_app_r, Nat.sub_diag by done|done].
    + destruct (Wi _ _ Hm) as (j & Hj & ?). exists j. split; [by apply lookup_app_l_Some|done].
  - intros h k Hm. destruct (Wh _ _ Hm) as (b & s & e & Hj). exists b, s, e. by apply lookup_app_l_Some.
Qed.

Lemma add_info_group n n' r i g : group_ok n r g -> (n <= n')%nat -> addable n n' i -> group_ok n' (add_info i r) g.
Proof.
  intros [Hc He] Hn Ha. split; [|intros s Hs; eapply existing_mono; eauto].
  intros j s Hj Hg Hs. unfold add_info in Hj. cbn [m_consumerInfos] in Hj. apply elem_of_app in Hj as [Hj|Hj]; [by eapply Hc|].
  apply list_elem_of_singleton in Hj as ->. destruct (addable_old n n' i s Ha Hs (He _ Hg)) as (f & -> & ->).
  intros s' Hs'. by apply list_elem_of_singleton in Hs' as ->.
Qed.

(** Marking consumers changes neither their sequences nor their barriers. *)
Lemma alter_mark k (l : list info) i : i ∈ alter markAsUsedInBarrier k l ->
  (exists j, j ∈ l /\ i = markAsUsedInBarrier j /\ l !! k = Some j) \/ i ∈ l.
Proof.
  intros (m & Hm)%list_elem_of_lookup. destruct (decide (k = m)) as [->|Hne].
  - rewrite list_lookup_alter_eq in Hm. destruct (l !! m) as [j|] eqn:Hj; cbn in Hm; [|done]. simplify_eq.
    left. exists j. split; [by eapply list_elem_of_lookup_2|done].
  - rewrite list_lookup_alter_ne in Hm by done. right. by eapply list_elem_of_lookup_2.
Qed.
Lemma in_alter_mark k (l : list info) i : i ∈ l -> exists j, j ∈ alter markAsUsedInBarrier k l /\
  j.(i_consumer) = i.(i_consumer) /\ j.(i_barrier) = i.(i_barrier) /\ (j.(m_isEndOfChain) = true -> i.(m_isEndOfChain) = true).
Proof.
  intros (m & Hm)%list_elem_of_lookup. destruct (decide (k = m)) as [->|Hne].
  - exists (markAsUsedInBarrier i). split; [|done]. apply (list_elem_of_lookup_2 _ m). by rewrite list_lookup_alter_eq, Hm.
  - exists i. split; [|done]. apply (list_elem_of_lookup_2 _ m). by rewrite list_lookup_alter_ne by done.
Qed.

(** Consumers of [r'] are those of [r], some of them marked. *)
Definition marks (r r' : repository) : Prop :=
  forall i, i ∈ r'.(m_consumerInfos) -> exists j, j ∈ r.(m_consumerInfos) /\ j.(i_consumer) = i.(i_consumer) /\ j.(i_barrier) = i.(i_barrier).

Lemma unmark_step_wired n r s : wired n r ->
  (forall i, i ∈ r.(m_consumerInfos) -> s ∈ sequences i ->
    exists j b, j ∈ r.(m_consumerInfos) /\ j.(i_barrier) = Some b /\ sequences i ⊆ b.(b_dependent)) ->
  wired n (unmark_step r s).
Proof.
  intros W Hs. unfold unmark_step. destruct (r.(by_sequence) !! s) as [k|] eqn:Hk; [|done].
  destruct W as [We Wf Wd Wb Wu Wi Wh].
  destruct (Wi _ _ Hk) as (i0 & Hi0 & Hs0).
  assert (forall i, i ∈ alter markAsUsedInBarrier k r.(m_consumerInfos) -> exists j, j ∈ r.(m_consumerInfos) /\
    sequences j = sequences i /\ j.(i_barrier) = i.(i_barrier) /\ (i.(m_isEndOfChain) = false -> j.(m_isEndOfChain) = false \/ j = i0)) as Hold.
  { intros i [(j & Hj & -> & He)|Hi]%alter_mark; [|exists i; split_and!; auto]. exists j. split_and!; try done.
    intros _. right. congruence. }
  assert (forall j b, j ∈ r.(m_consumerInfos) -> j.(i_barrier) = Some b ->
    exists j', j' ∈ alter markAsUsedInBarrier k r.(m_consumerInfos) /\ j'.(i_barrier) = Some b) as Hnew.
  { intros j b Hj Hb. destruct (in_alter_mark k _ _ Hj) as (j' & Hj' & _ & He & _). exists j'. by rewrite He. }
  split; cbn [m_consumerInfos by_sequence by_handler].
  - intros i x Hi Hx. destruct (Hold i Hi) as (j & Hj & He & _). rewrite <- He in Hx. by eapply We.
  - intros i f Hi Hx. destruct (Hold i Hi) as (j & Hj & He & _). rewrite <- He in *. by eapply Wf.
  - intros i i' x Hi Hi' Hx Hx'. destruct (Hold i Hi) as (j & Hj & He & _), (Hold i' Hi') as (j' & Hj' & He' & _).
    rewrite <- He, <- He' in *. by eapply Wd.
  - intros i b x d Hi Hb Hx Hd. destruct (Hold i Hi) as (j & Hj & He & Hb' & _). rewrite <- He in Hx. rewrite <- Hb' in Hb. by eapply Wb.
  - intros i Hi Hf. destruct (Hold i Hi) as (j & Hj & He & _ & Hor). rewrite <- He.
    destruct (Hor Hf) as [Hjf|Hj0]; [destruct (Wu j Hj Hjf) as (j' & b & Hj' & Hb & Hin)|subst j; destruct (Hs i0 Hj Hs0) as (j' & b & Hj' & Hb & Hin)];
      destruct (Hnew _ _ Hj' Hb) as (j'' & ? & ?); exists j'', b; done.
  - intros x m Hm. destruct (Wi _ _ Hm) as (i & Hi & Hx). destruct (decide (k = m)) as [->|Hne].
    + exists (markAsUsedInBarrier i). by rewrite list_lookup_alter_eq, Hi.
    + exists i. by rewrite list_lookup_alter_ne by done.
  - intros h m Hm. destruct (Wh _ _ Hm) as (b & x & e & Hi). destruct (decide (k = m)) as [->|Hne].
    + exists b, x, false. by rewrite list_lookup_alter_eq, Hi.
    + exists b, x, e. by rewrite list_lookup_alter_ne by done.
Qed.

Lemma unmark_step_marks r s : marks r (unmark_step r s) /\ marks (unmark_step r s) r.
Proof.
  unfold unmark_step. destruct (by_sequence r !! s) as [k|]; [|split; intros i Hi; by exists i].
  split; intros i Hi; cbn [m_consumerInfos] in *.
  - apply alter_mark in Hi as [(j & Hj & -> & _)|Hi]; [by exists j|by exists i].
  - destruct (in_alter_mark k _ _ Hi) as (j & ? & ? & ? & _). by exists j.
Qed.
Lemma marks_closed r r' g : marks r r' -> closed r g -> closed r' g.
Proof.
  intros Hm Hc i s Hi Hg Hs. destruct (Hm i Hi) as (j & Hj & He & _). unfold sequences in *. rewrite <- He in *. by eapply Hc.
Qed.

Lemma unmark_wired n r l b : wired n r ->
  (exists j, j ∈ r.(m_consumerInfos) /\ j.(i_barrier) = Some b) -> closed r b.(b_dependent) -> l ⊆ b.(b_dependent) ->
  wired n (unMarkEventProcessorsAsEndOfChain l r) /\ marks r (unMarkEventProcessorsAsEndOfChain l r).
Proof.
  unfold unMarkEventProcessorsAsEndOfChain. revert r. induction l as [|s l IH]; intros r W Hj Hc Hl; cbn [foldl].
  - split; [done|]. intros i Hi. by exists i.
  - destruct (unmark_step_marks r s) as [Hm1 Hm2]. destruct Hj as (j & Hj & Hb).
    destruct (IH (unmark_step r s)) as [H1 H2].
    + apply unmark_step_wired; [done|]. intros i Hi Hs. exists j, b. split_and!; try done. eapply Hc; [done| |done]. apply Hl. left.
    + destruct (Hm2 j Hj) as (j' & Hj' & _ & He). exists j'. by rewrite He.
    + by eapply marks_closed.
    + intros x Hx. apply Hl. by right.
    + split; [done|]. intros i Hi. destruct (H2 i Hi) as (i1 & Hi1 & E1 & E2). destruct (Hm1 i1 Hi1) as (i2 & Hi2 & E3 & E4).
      exists i2. split; [done|]. split; congruence.
Qed.

(** A whole set-up in order. *)
Definition setup_ok (st : setup) : Prop :=
  wired st.1.(fresh) st.1.(m_consumerRepository) /\ forall g, g ∈ st.2 -> group_ok st.1.(fresh) st.1.(m_consumerRepository) g.

Lemma add_handler_wired n n' r h b s : wired n r -> (n <= n')%nat ->
  addable n n' (mk_info (Processor (BatchEventProcessor h b s) (Some h)) (Some b) true) ->
  wired n' (add_handler (BatchEventProcessor h b s) h b r).
Proof.
  intros W Hn Ha. destruct (add_info_wired _ _ _ _ W Hn Ha) as [We Wf Wd Wb Wu Wi Wh].
  split; try done. unfold add_handler. cbn [m_consumerInfos by_handler]. intros h' k Hm. destruct (decide (h = h')) as [->|Hne].
  - rewrite lookup_insert_eq in Hm. simplify_eq. exists b, s, true. unfold add_info. cbn [m_consumerInfos].
    by rewrite lookup_app_r, Nat.sub_diag by done.
  - rewrite lookup_insert_ne in Hm by done. by apply Wh.
Qed.

Lemma Own_addable n c b : (forall d, d ∈ b.(b_dependent) -> existing n d) -> (forall s, s ∈ consumer_sequences c -> s = Own n) ->
  addable n (n + 1) (mk_info c (Some b) true).
Proof.
  intros Hb Hs. split; [done|]. right. split; [intros s Hin; exists n; split; [by apply Hs|lia]|]. intros b' d [= <-]. apply Hb.
Qed.
Lemma foreign_addable n p : foreign (p_sequence p) -> addable n n (mk_info (Processor p None) None true).
Proof.
  intros Hf. split; [done|]. left. unfold sequences. cbn. destruct (p_sequence p) as [k|f]; [done|]. by exists f.
Qed.

(** What the loop over the handlers makes. *)
Definition new_info (b : barrier) (eventHandler : nat) (s : sequence_id) : info :=
  mk_info (Processor (BatchEventProcessor eventHandler b s) (Some eventHandler)) (Some b) true.

Lemma create_processors_spec b hs d : let '(l, d') := create_processors b hs d in
  l = map Own (seq d.(fresh) (length hs)) /\ d'.(fresh) = (d.(fresh) + length hs)%nat /\
  d'.(m_consumerRepository).(m_consumerInfos) = d.(m_consumerRepository).(m_consumerInfos) ++ zip_with (new_info b) hs l /\
  d'.(m_started) = d.(m_started) /\ d'.(m_gatingSequences) = d.(m_gatingSequences) /\ d'.(trace) = d.(trace) /\
  d'.(m_exceptionHandler) = d.(m_exceptionHandler) /\ d'.(m_handler) = d.(m_handler).
Proof.
  revert d. induction hs as [|h hs IH]; intros d; cbn [create_processors].
  - cbn. split_and!; try done; by rewrite app_nil_r.
  - set (d1 := on_repository _ _). specialize (IH d1). destruct (create_processors b hs d1) as [l d2].
    destruct IH as (-> & Hf & Hi & Hs & Hg & Ht & He & Hh).
    assert (d1.(fresh) = (d.(fresh) + 1)%nat /\ d1.(m_consumerRepository).(m_consumerInfos) =
      d.(m_consumerRepository).(m_consumerInfos) ++ [new_info b h (Own d.(fresh))] /\ d1.(m_started) = d.(m_started) /\
      d1.(m_gatingSequences) = d.(m_gatingSequences) /\ d1.(trace) = d.(trace) /\
      d1.(m_exceptionHandler) = d.(m_exceptionHandler) /\ d1.(m_handler) = d.(m_handler)) as (E1 & E2 & E3 & E4 & E5 & E6 & E7).
    { subst d1. cbn [take_names m_exceptionHandler]. destruct (m_exceptionHandler d) as [|[?|]] eqn:?; cbn; done. }
    rewrite Hf, Hi, Hs, Hg, Ht, He, Hh, E1, E2, E3, E4, E5, E6, E7. cbn [length seq map zip_with].
    rewrite <- app_assoc, Nat.add_1_r. split_and!; try done. lia.
Qed.

Lemma create_processors_wired b hs d gs :
  setup_ok (d, gs) -> (forall x, x ∈ b.(b_dependent) -> existing d.(fresh) x) -> setup_ok ((create_processors b hs d).2, gs).
Proof.
  revert d. induction hs as [|h hs IH]; intros d [W Hg] Hb; cbn [create_processors]; [done|].
  set (d1 := on_repository _ _).
  assert (d1.(fresh) = (d.(fresh) + 1)%nat /\ d1.(m_consumerRepository) =
    add_handler (BatchEventProcessor h b (Own d.(fresh))) h b d.(m_consumerRepository)) as [E1 E2].
  { subst d1. cbn [take_names m_exceptionHandler]. destruct (m_exceptionHandler d) as [|[?|]] eqn:?; cbn; done. }
  assert (addable d.(fresh) (d.(fresh) + 1) (new_info b h (Own d.(fresh)))) as Ha.
  { apply Own_addable; [done|]. by intros s Hs%list_elem_of_singleton. }
  specialize (IH d1). destruct (create_processors b hs d1) as [l d2]. apply IH.
  - split; cbn [fst snd] in *; rewrite E1, E2; [apply (add_handler_wired d.(fresh)); done || lia|].
    intros g Hin. apply (add_info_group d.(fresh)); [by apply Hg|lia|done].
  - intros x Hx. rewrite E1. eapply existing_mono; [by apply Hb|lia].
Qed.

Lemma wired_mono n n' r : wired n r -> (n <= n')%nat -> wired n' r.
Proof. intros [? ? ? ? ? ? ?] Hn. split; try done. intros. eapply existing_mono; eauto. Qed.
Lemma group_mono n n' r g : group_ok n r g -> (n <= n')%nat -> group_ok n' r g.
Proof. intros [Hc He] Hn. split; [done|]. intros. eapply existing_mono; eauto. Qed.

(** A group of sequences of whole consumers is one. *)
Lemma whole_group n r g : wired n r -> (forall s, s ∈ g -> exists i, i ∈ r.(m_consumerInfos) /\ s ∈ sequences i /\ sequences i ⊆ g) ->
  group_ok n r g.
Proof.
  intros W Hw. split.
  - intros i s Hi Hg Hs. destruct (Hw s Hg) as (j & Hj & Hsj & Hin). by rewrite (w_disjoint _ _ W i j s Hi Hj Hs Hsj).
  - intros s Hg. destruct (Hw s Hg) as (j & Hj & Hsj & _). by eapply w_existing.
Qed.
Lemma setup_ok_snoc d gs g : setup_ok (d, gs) -> group_ok d.(fresh) d.(m_consumerRepository) g -> setup_ok (d, gs ++ [g]).
Proof.
  intros [W Hg] Ho. split; [done|]. intros g' Hin. apply elem_of_app in Hin as [Hin|Hin]; [by apply Hg|]. by apply list_elem_of_singleton in Hin as ->.
Qed.
Lemma setup_ok_same d d' gs : setup_ok (d, gs) -> d'.(fresh) = d.(fresh) -> d'.(m_consumerRepository) = d.(m_consumerRepository) ->
  setup_ok (d', gs).
Proof. intros [W Hg] E1 E2. split; cbn [fst snd] in *; by rewrite E1, E2. Qed.

Lemma createEventProcessors_wired l hs d gs g d' : setup_ok (d, gs) -> group_ok d.(fresh) d.(m_consumerRepository) l ->
  createEventProcessors l hs d = Ok (g, d') -> setup_ok (d', gs ++ [g]).
Proof.
  intros Hok [Hl1 Hl2] H. unfold createEventProcessors in H. apply result_bind_Ok in H as ([] & _ & H).
  unfold newBarrier in H. set (b := mk_barrier _ _) in H. set (d0 := take_names 1 d) in H.
  assert (setup_ok (d0, l :: gs)) as Hok0.
  { destruct Hok as [W Hg]. split; cbn [fst snd d0 take_names fresh m_consumerRepository] in *; [eapply wired_mono; [done|lia]|].
    intros g' Hin. apply elem_of_cons in Hin as [->|Hin]; (apply (group_mono d.(fresh)); [|lia]); [done|by apply Hg]. }
  pose proof (create_processors_wired b hs d0 _ Hok0) as Hok1. pose proof (create_processors_spec b hs d0) as Hspec.
  destruct (create_processors b hs d0) as [s d1]. destruct Hspec as (Hs & Hf & Hi & _). cbn [snd] in Hok1.
  destruct Hok1 as [W1 Hg1]; [intros y Hy; eapply existing_mono; [by apply Hl2|cbn; lia]|]. cbn [fst snd] in W1, Hg1.
  destruct (Hg1 l ltac:(left)) as [Hc1 _].
  assert (forall s0, s0 ∈ s -> exists i, i ∈ d1.(m_consumerRepository).(m_consumerInfos) /\ i.(i_barrier) = Some b /\ sequences i = [s0]) as Hnew.
  { intros s0 (k & Hk)%list_elem_of_lookup. destruct (lookup_lt_is_Some_2 hs k) as [h Hh].
    { apply lookup_lt_Some in Hk. by rewrite Hs, length_map, length_seq in Hk. }
    exists (new_info b h s0). split; [|done]. rewrite Hi. apply elem_of_app. right. apply (list_elem_of_lookup_2 _ k).
    by rewrite lookup_zip_with, Hh, Hk. }
  destruct s as [|s0 s]; injection H as <- <-.
  - apply setup_ok_snoc; [|apply whole_group; [done|]; by intros ? ?%elem_of_nil]. split; [done|]. intros g Hin. apply Hg1. by right.
  - destruct (unmark_wired d1.(fresh) d1.(m_consumerRepository) l b) as [W2 Hm]; try done.
    { destruct (Hnew s0 ltac:(left)) as (i & ? & ? & _). by exists i. }
    assert (forall g, group_ok d1.(fresh) d1.(m_consumerRepository) g ->
      group_ok d1.(fresh) (unMarkEventProcessorsAsEndOfChain l d1.(m_consumerRepository)) g) as Hgm.
    { intros g [Hc He]. split; [by eapply marks_closed|done]. }
    apply setup_ok_snoc.
    + split; [done|]. intros g Hin. apply Hgm, Hg1. by right.
    + apply Hgm, whole_group; [done|]. intros x Hx. destruct (Hnew x Hx) as (i & Hin & _ & He). exists i. rewrite He.
      split_and!; [done|left|]. intros y Hy. by apply list_elem_of_singleton in Hy as ->.
Qed.

Lemma createWorkerPool_wired l hs d gs : setup_ok (d, gs) -> group_ok d.(fresh) d.(m_consumerRepository) l ->
  let '(g, d') := createWorkerPool l hs d in setup_ok (d', gs ++ [g]).
Proof.
  intros [W Hg] [_ Hl]. unfold createWorkerPool, newBarrier. cbn [take_names fresh m_exceptionHandler]. set (p := mk_pool _ _ _ _).
  set (i := mk_info (Workers p) (Some p.(wp_barrier)) true). set (n' := (d.(fresh) + 1 + Datatypes.S (length hs))%nat).
  assert (addable d.(fresh) n' i) as Ha.
  { split; [done|]. right. split.
    - intros s [Hs|Hs%list_elem_of_singleton]%elem_of_app; [|exists (d.(fresh) + 1)%nat; split; [done|lia]].
      apply list_elem_of_In, in_map_iff in Hs as ([h s'] & Hs1 & Hs%list_elem_of_In). cbn in Hs1. subst s'.
      apply list_elem_of_lookup in Hs as [k Hk]. subst p. cbn in Hk. rewrite list_lookup_imap in Hk.
      destruct (hs !! k) eqn:Hh; cbn in Hk; [|done]. apply lookup_lt_Some in Hh. injection Hk as _ <-. eexists. split; [done|lia].
    - intros b x [= <-] Hx. by apply Hl. }
  assert (wired n' (add_info i d.(m_consumerRepository))) as W' by (apply (add_info_wired d.(fresh)); done || lia).
  apply setup_ok_snoc.
  - split; [done|]. intros g Hin. apply (add_info_group d.(fresh)); [by apply Hg|cbn; lia|done].
  - apply whole_group; [done|]. intros s Hs. exists i. split_and!; [|done|done]. apply elem_of_app. right. by left.
Qed.

Lemma add_processors_wired n ps r (gs : list (list sequence_id)) : wired n r -> (forall g, g ∈ gs -> group_ok n r g) ->
  (forall p, p ∈ ps -> foreign (p_sequence p)) ->
  let r' := foldl (fun r p => add_processor p r) r ps in
  wired n r' /\ (forall g, g ∈ gs -> group_ok n r' g) /\ group_ok n r' (map p_sequence ps).
Proof.
  intros W Hg Hps. cbn.
  assert (forall ps r, wired n r -> (forall g, g ∈ gs -> group_ok n r g) -> (forall p, p ∈ ps -> foreign (p_sequence p)) ->
    let r' := foldl (fun r p => add_processor p r) r ps in
    wired n r' /\ (forall g, g ∈ gs -> group_ok n r' g) /\ m_consumerInfos r ⊆ m_consumerInfos r' /\
    forall p, p ∈ ps -> mk_info (Processor p None) None true ∈ m_consumerInfos r') as Hgen.
  { clear. intros ps. induction ps as [|p ps IH]; intros r W Hg Hps; cbn [foldl]; [by split_and!; try done; intros ? ?%elem_of_nil|].
    pose proof (foreign_addable n p (Hps p ltac:(left))) as Ha.
    destruct (IH (add_processor p r)) as (H1 & H2 & H3 & H4).
    - apply (add_info_wired n); done || lia.
    - intros g Hin. apply (add_info_group n); auto.
    - intros q Hq. apply Hps. by right.
    - split_and!; try done.
      + intros i Hi. apply H3. apply elem_of_app. by left.
      + intros q Hq. apply elem_of_cons in Hq as [->|Hq]; [|by apply H4]. apply H3, elem_of_app. right. by left. }
  destruct (Hgen ps r W Hg Hps) as (H1 & H2 & _ & H4). split; [done|]. split; [done|]. apply whole_group; [done|].
  intros s Hs. apply list_elem_of_In, in_map_iff in Hs as (p & <- & Hp%list_elem_of_In). eexists. split; [by apply H4|].
  split; [left|]. intros y Hy. apply list_elem_of_singleton in Hy as ->. apply list_elem_of_In, in_map, list_elem_of_In, Hp.
Qed.

Lemma after_wired hs d gs g : setup_ok (d, gs) -> after hs d = Ok g -> setup_ok (d, gs ++ [g]).
Proof.
  intros Hok H. apply setup_ok_snoc; [done|]. destruct Hok as [W _]. cbn [fst] in W. apply whole_group; [done|].
  revert g H. induction hs as [|h hs IH]; intros g H; cbn [after] in H; [injection H as <-; by intros ? ?%elem_of_nil|].
  apply result_bind_Ok in H as (s & Hs & H). apply result_bind_Ok in H as (l & Hl & H). injection H as <-.
  intros x Hx. apply elem_of_cons in Hx as [->|Hx].
  - unfold getSequenceFor in Hs. apply result_bind_Ok in Hs as (p & Hp & Hs). injection Hs as <-. unfold getEventProcessorFor in Hp.
    destruct (by_handler _ !! h) as [k|]; [|done]. destruct (m_consumerInfos _ !! k) as [[[q e|] b c]|] eqn:Hk; simplify_eq.
    exists (mk_info (Processor p e) b c). split; [by eapply list_elem_of_lookup_2|]. split; [left|].
    intros y Hy. apply list_elem_of_singleton in Hy as ->. left.
  - destruct (IH l Hl x Hx) as (i & ? & ? & Hin). exists i. split_and!; [done|done|]. intros y Hy. right. by apply Hin.
Qed.

Lemma group_app n r g h : group_ok n r g -> group_ok n r h -> group_ok n r (g ++ h).
Proof.
  intros [Hc He] [Hc' He']. split.
  - intros i s Hi Hg Hs y Hy. apply elem_of_app in Hg as [Hg|Hg]; apply elem_of_app; [left; by eapply Hc|right; by eapply Hc'].
  - intros s [Hs|Hs]%elem_of_app; auto.
Qed.
Lemma group_found d gs g l : setup_ok (d, gs) -> group gs g = Ok l -> group_ok d.(fresh) d.(m_consumerRepository) l.
Proof.
  intros [_ Hg] H. destruct g as [k|]; cbn in H; [|injection H as <-; split; [intros ? ? _ []%elem_of_nil|intros ? []%elem_of_nil]].
  destruct (gs !! k) as [l'|] eqn:Hk; cbn in H; [|done]. injection H as <-. apply Hg. by eapply list_elem_of_lookup_2.
Qed.

Section Built.
Context (getSequencesFor : list processor -> list sequence_id) (getSequencesFor_spec : forall ps, getSequencesFor ps = map p_sequence ps).

Lemma user_processors_wired d gs ps g' : setup_ok (d, gs) -> (forall p, p ∈ ps -> foreign (p_sequence p)) ->
  group_ok d.(fresh) d.(m_consumerRepository) g' ->
  setup_ok (add_processors ps d, gs ++ [map p_sequence ps ++ g']).
Proof using.
  intros [W Hg] Hps Hg'. destruct (add_processors_wired d.(fresh) ps d.(m_consumerRepository) (g' :: gs) W) as (H1 & H2 & H3).
  - intros g Hin. apply elem_of_cons in Hin as [->|Hin]; [done|by apply Hg].
  - done.
  - apply setup_ok_snoc; [split; [done|intros g Hin; apply H2; by right]|]. apply group_app; [done|]. apply H2. left.
Qed.

Lemma exec_wired o st st' : setup_ok st -> op_ok o -> exec getSequencesFor o st = Ok st' -> setup_ok st'.
Proof using getSequencesFor_spec.
  assert (forall d, group_ok d.(fresh) d.(m_consumerRepository) []) as Hnil by (intros d; split; [intros ? ? _ []%elem_of_nil|intros ? []%elem_of_nil]).
  destruct st as [d gs]. intros Hok Ho H.
  destruct o as [g hs|g fs|g hs|ps|hs|g h|g ps|h|h|e h]; cbn [exec] in H.
  - apply result_bind_Ok in H as (l & Hl & H). apply result_bind_Ok in H as ([g' d'] & Hc & H). injection H as <-.
    by eapply createEventProcessors_wired; [|eapply group_found|].
  - apply result_bind_Ok in H as (l & Hl & H). cbn in H. injection H as <-. rewrite getSequencesFor_spec.
    rewrite <- (app_nil_r (map p_sequence _)). apply user_processors_wired; [done| |done].
    intros p (f & <- & Hf%list_elem_of_In)%list_elem_of_In%in_map_iff. by apply (Ho f l).
  - apply result_bind_Ok in H as (l & Hl & H). pose proof (createWorkerPool_wired l hs d gs Hok ltac:(by eapply group_found)) as Hp.
    destruct (createWorkerPool l hs d) as [g' d']. by injection H as <-.
  - cbn in H. injection H as <-. rewrite getSequencesFor_spec. rewrite <- (app_nil_r (map p_sequence _)). by apply user_processors_wired.
  - apply result_bind_Ok in H as (l & Hl & H). injection H as <-. by eapply after_wired.
  - apply result_bind_Ok in H as (l & Hl & H). apply result_bind_Ok in H as (l' & Hl' & H). injection H as <-.
    apply setup_ok_snoc; [done|]. by apply group_app; eapply group_found.
  - apply result_bind_Ok in H as (l & Hl & H). cbn in H. injection H as <-. apply user_processors_wired; [done..|]. by eapply group_found.
  - injection H as <-. by eapply setup_ok_same.
  - apply result_bind_Ok in H as (d' & Hd & H). injection H as <-. unfold setDefaultExceptionHandler in Hd.
    apply result_bind_Ok in Hd as ([] & _ & Hd). destruct (m_exceptionHandler d); [|done]. injection Hd as <-. by eapply setup_ok_same.
  - apply result_bind_Ok in H as (d' & Hd & H). injection H as <-. unfold with_exceptions in Hd.
    apply result_bind_Ok in Hd as (p & _ & Hd). destruct p; [|done]. destruct h; [|done].
    apply result_bind_Ok in Hd as (b' & _ & Hd). apply result_bind_Ok in Hd as (b'' & _ & Hd). injection Hd as <-. by eapply setup_ok_same.
Qed.

Lemma built_wired st : built getSequencesFor st -> setup_ok st.
Proof using getSequencesFor_spec.
  induction 1 as [gating|o st st' _ IH Ho He]; [|by eapply exec_wired].
  split; [|by intros ? ?%elem_of_nil]. split; cbn [fst new_disruptor m_consumerRepository m_consumerInfos by_sequence by_handler];
    try (by intros ? ? ?%elem_of_nil); try (by intros ? ?%elem_of_nil); try (by intros ? ? ? ?%elem_of_nil); try (by intros ? ? ? ? ?%elem_of_nil).
  all: intros ? ? ?; by rewrite lookup_empty in *.
Qed.
End Built.

(** ** What the producer waits for *)

(** Every consumer waits for its barrier: the slowest of its sequences is not ahead of
    what the barrier tracks. *)
Definition respects (r : repository) (value : sequence_id -> Z) : Prop :=
  forall i b d, i ∈ r.(m_consumerInfos) -> i.(i_barrier) = Some b -> d ∈ b.(b_dependent) ->
    exists s, s ∈ sequences i /\ value s <= value d.

Lemma in_last includeStopped isRunning r s : s ∈ getLastSequenceInChain includeStopped isRunning r <->
  exists i, i ∈ r.(m_consumerInfos) /\ s ∈ sequences i /\ (includeStopped || isRunning i) = true /\ i.(m_isEndOfChain) = true.
Proof.
  unfold getLastSequenceInChain. rewrite list_elem_of_join. split.
  - intros (l & Hs & Hl). apply list_elem_of_fmap in Hl as (i & -> & Hi).
    apply list_elem_of_filter in Hi as [Hp Hi]. apply Is_true_true, andb_true_iff in Hp as [? ?]. by exists i.
  - intros (i & Hi & Hs & H1 & H2). exists (sequences i). split; [done|]. apply list_elem_of_fmap. exists i. split; [done|].
    apply list_elem_of_filter. split; [|done]. by rewrite H1, H2.
Qed.

(** Behind every sequence of a consumer there is one at the end of a chain. *)
Lemma chain_end n r value i s : wired n r -> respects r value -> i ∈ r.(m_consumerInfos) -> s ∈ sequences i ->
  exists g, g ∈ getLastSequenceInChain true (fun _ => false) r /\ value g <= value s.
Proof.
  intros W Hv. remember (n - rank s)%nat as m eqn:Hm. revert i s Hm. induction m as [m IH] using lt_wf_ind. intros i s -> Hi Hs.
  destruct i.(m_isEndOfChain) eqn:He.
  - exists s. split; [|done]. apply in_last. by exists i.
  - destruct (w_used _ _ W i Hi He) as (j & b & Hj & Hb & Hin). destruct (Hv j b s Hj Hb (Hin s Hs)) as (t & Ht & Hle).
    pose proof (w_barrier _ _ W j b t s Hj Hb Ht (Hin s Hs)). pose proof (existing_rank n t ltac:(by eapply w_existing)).
    destruct (IH (n - rank t)%nat ltac:(lia) j t eq_refl Hj Ht) as (g & Hg & Hgt). exists g. split; [done|lia].
Qed.

(** Before the start nothing runs, and each pool is known once. *)
Definition works (l : list info) : list sequence_id :=
  omap (fun i => match i.(i_consumer) with Workers p => Some p.(m_workSequence) | Processor _ _ => None end) l.
Definition calm (d : disruptor) : Prop :=
  d.(m_started) = false /\ d.(m_running) = ∅ /\ NoDup (works d.(m_consumerRepository).(m_consumerInfos)).

Lemma works_in l s : s ∈ works l -> exists i, i ∈ l /\ s ∈ sequences i.
Proof.
  intros (i & Hi & Hs)%list_elem_of_omap. exists i. split; [done|]. destruct i as [[|p] b e]; cbn in Hs; [done|]. injection Hs as <-.
  apply elem_of_app. right. by left.
Qed.
Lemma works_snoc l i : works (l ++ [i]) = works l ++ works [i].
Proof. apply omap_app. Qed.
Lemma works_mark k l : works (alter markAsUsedInBarrier k l) = works l.
Proof.
  revert k. induction l as [|i l IH]; intros [|k]; try done. cbn. unfold works in IH. by rewrite IH.
Qed.
Lemma unmark_works l r : works (unMarkEventProcessorsAsEndOfChain l r).(m_consumerInfos) = works r.(m_consumerInfos).
Proof.
  unfold unMarkEventProcessorsAsEndOfChain. revert r. induction l as [|s l IH]; intros r; [done|]. cbn [foldl]. rewrite IH.
  unfold unmark_step. destruct (by_sequence r !! s); [apply works_mark|done].
Qed.
Lemma create_processors_calm b hs d : calm d -> calm (create_processors b hs d).2.
Proof.
  revert d. induction hs as [|h hs IH]; intros d Hc; cbn [create_processors]; [done|].
  set (d1 := on_repository _ _). specialize (IH d1). destruct (create_processors b hs d1) as [l d2]. apply IH.
  destruct Hc as (H1 & H2 & H3). subst d1. cbn [take_names m_exceptionHandler].
  destruct (m_exceptionHandler d) as [|[?|]]; (split; [done|]; split; [done|]; cbn in *; rewrite works_snoc; cbn; by rewrite app_nil_r).
Qed.

Lemma add_processors_works ps r : works (foldl (fun r p => add_processor p r) r ps).(m_consumerInfos) = works r.(m_consumerInfos).
Proof.
  revert r. induction ps as [|p ps IH]; intros r; [done|]. cbn [foldl]. rewrite IH. cbn. rewrite works_snoc. apply app_nil_r.
Qed.

Lemma exec_calm getSequencesFor o st st' : setup_ok st -> calm st.1 -> exec getSequencesFor o st = Ok st' -> calm st'.1.
Proof.
  destruct st as [d gs]. intros [W _] Hc H. cbn [fst] in *.
  assert (forall ps, calm (add_processors ps d)) as Hps.
  { intros ps. destruct Hc as (H1 & H2 & H3). split; [done|]. split; [done|]. cbn. by rewrite add_processors_works. }
  destruct o as [g hs|g fs|g hs|ps|hs|g h|g ps|h|h|e h]; cbn [exec] in H.
  - apply result_bind_Ok in H as (l & Hl & H). apply result_bind_Ok in H as ([g' d'] & He & H). injection H as <-. cbn.
    unfold createEventProcessors in He. apply result_bind_Ok in He as ([] & _ & He). unfold newBarrier in He.
    pose proof (create_processors_calm (mk_barrier d.(fresh) l) hs (take_names 1 d) Hc) as H1.
    destruct (create_processors _ _ _) as [s d1]. cbn [snd] in H1. injection He as <- <-. destruct s; [done|].
    destruct H1 as (? & ? & ?). split; [done|]. split; [done|]. cbn. by rewrite unmark_works.
  - apply result_bind_Ok in H as (l & Hl & H). cbn in H. injection H as <-. apply Hps.
  - apply result_bind_Ok in H as (l & Hl & H). cbn in H. injection H as <-. destruct Hc as (H1 & H2 & H3).
    split; [done|]. split; [done|]. cbn. rewrite works_snoc. apply NoDup_app. split; [done|]. split.
    + intros s (i & Hi & Hs)%works_in Hn%list_elem_of_singleton. subst s. pose proof (w_existing _ _ W i _ Hi Hs) as He. cbn in He. lia.
    + apply NoDup_singleton.
  - injection H as <-. apply Hps.
  - apply result_bind_Ok in H as (l & Hl & H). by injection H as <-.
  - apply result_bind_Ok in H as (l & Hl & H). apply result_bind_Ok in H as (l' & Hl' & H). by injection H as <-.
  - apply result_bind_Ok in H as (l & Hl & H). cbn in H. injection H as <-. apply Hps.
  - by injection H as <-.
  - apply result_bind_Ok in H as (d' & Hd & H). injection H as <-. unfold setDefaultExceptionHandler in Hd.
    apply result_bind_Ok in Hd as ([] & _ & Hd). destruct (m_exceptionHandler d); [|done]. by injection Hd as <-.
  - apply result_bind_Ok in H as (d' & Hd & H). injection H as <-. unfold with_exceptions in Hd.
    apply result_bind_Ok in Hd as (p & _ & Hd). destruct p; [|done]. destruct h; [|done].
    apply result_bind_Ok in Hd as (b' & _ & Hd). apply result_bind_Ok in Hd as (b'' & _ & Hd). by injection Hd as <-.
Qed.
Lemma built_calm getSequencesFor st : (forall ps, getSequencesFor ps = map p_sequence ps) -> built getSequencesFor st -> calm st.1.
Proof.
  intros Hspec. induction 1 as [gating|o st st' Hb IH Ho He].
  - split; [done|]. split; [done|]. apply NoDup_nil_2.
  - eapply exec_calm; [by eapply built_wired|done|done].
Qed.

Lemma create_processors_exceptions b hs d : d.(m_exceptionHandler) = Wrapper ->
  let '(l, d') := create_processors b hs d in
  forall s, d'.(batch_exceptions) !! s = if decide (s ∈ l) then Some Wrapper else d.(batch_exceptions) !! s.
Proof.
  revert d. induction hs as [|h hs IH]; intros d Hw; cbn [create_processors]; [done|].
  set (d1 := on_repository _ _). specialize (IH d1). destruct (create_processors b hs d1) as [l d2]. intros s.
  assert (d1.(batch_exceptions) = <[Own d.(fresh) := Wrapper]> d.(batch_exceptions) /\ d1.(m_exceptionHandler) = Wrapper) as [E1 E2].
  { subst d1. cbn [take_names m_exceptionHandler]. by rewrite Hw. }
  rewrite (IH E2), E1. destruct (decide (s ∈ l)) as [Hl|Hl]; [rewrite decide_True; [done|by right]|].
  destruct (decide (s = Own d.(fresh))) as [->|Hne]; [rewrite lookup_insert_eq, decide_True; [done|left]|].
  rewrite lookup_insert_ne, decide_False; [done| |done]. rewrite elem_of_cons. by intros [|].
Qed.

Lemma unmark_marks l r : marks (unMarkEventProcessorsAsEndOfChain l r) r.
Proof.
  unfold unMarkEventProcessorsAsEndOfChain. revert r. induction l as [|s l IH]; intros r; cbn [foldl]; [intros i Hi; by exists i|].
  intros i Hi. destruct (unmark_step_marks r s) as [_ Hm]. destruct (Hm i Hi) as (j & Hj & E1 & E2).
  destruct (IH (unmark_step r s) j Hj) as (j' & Hj' & E3 & E4). exists j'. split; [done|]. split; congruence.
Qed.

(** What the threads are told when a consumer starts or is halted. *)
Definition start_events (cursor : Z) (i : info) : list event :=
  match i.(i_consumer) with
  | Processor p _ => [RunProcessor p]
  | Workers p => SetValue p.(m_workSequence) cursor
      :: mjoin (map (fun '(_, s) => [SetValue s cursor; RunWorker p s]) p.(m_workProcessors))
  end.
Definition halt_events (i : info) : list event :=
  match i.(i_consumer) with
  | Processor p _ => [HaltProcessor p]
  | Workers p => map (fun '(_, s) => HaltWorker p s) p.(m_workProcessors)
  end.

Lemma start_all_spec cursor l d : NoDup (works l) -> (forall s, s ∈ works l -> s ∉ d.(m_running)) ->
  exists d', start_all cursor l d = (d', Ok tt) /\ d'.(trace) = d.(trace) ++ mjoin (map (start_events cursor) l) /\
    d'.(m_gatingSequences) = d.(m_gatingSequences) /\ d'.(m_consumerRepository) = d.(m_consumerRepository) /\
    d'.(m_started) = d.(m_started).
Proof.
  revert d. induction l as [|i l IH]; intros d Hnd Hr; cbn [start_all].
  - exists d. split_and!; try done. by rewrite app_nil_r.
  - unfold start_info. destruct i as [[p h|p] b e]; cbn [i_consumer] in *.
    + destruct (IH (note [RunProcessor p] d)) as (d' & H1 & H2 & H3); [done|done|]. exists d'. split; [done|]. split; [|done].
      rewrite H2. cbn. by rewrite <- app_assoc.
    + change (works _) with (p.(m_workSequence) :: works l) in Hnd, Hr. apply NoDup_cons in Hnd as [Hp Hnd]. unfold start_pool.
      destruct (decide _) as [Hin|_]; [by destruct (Hr p.(m_workSequence) ltac:(left))|].
      set (d1 := note _ _). destruct (IH d1) as (d' & H1 & H2 & H3); [done| |].
      * intros s Hs. subst d1. cbn. apply not_elem_of_union. split; [|apply Hr; by right]. intros He%elem_of_singleton. by subst s.
      * exists d'. split; [done|]. split; [|done]. rewrite H2. subst d1. cbn. by rewrite <- app_assoc.
Qed.

Lemma halt_spec d : (halt d).(trace) = d.(trace) ++ mjoin (map halt_events d.(m_consumerRepository).(m_consumerInfos)) /\
  (halt d).(m_consumerRepository) = d.(m_consumerRepository).
Proof.
  unfold halt. generalize (m_consumerInfos (m_consumerRepository d)) as l. intros l. revert d.
  induction l as [|i l IH]; intros d; cbn [foldl map mjoin]; [by rewrite app_nil_r|].
  destruct (IH (halt_info d i)) as [-> ->]. destruct i as [[p h|p] b e]; cbn; by rewrite <- app_assoc.
Qed.

(** ** What a call adds to be run *)

(** What a consumer makes the threads run, by the calls and by the library's sequences. *)
Definition consumer_events (c : IConsumerInfo) : list event := start_events 0 (mk_info c None true).
Definition runs (cs : list IConsumerInfo) : list runnable := omap run_of (mjoin (map consumer_events cs)).
Definition owns (cs : list IConsumerInfo) : list nat := omap run_own (mjoin (map consumer_events cs)).
Definition consumers (r : repository) : list IConsumerInfo := map i_consumer r.(m_consumerInfos).

Lemma join_cons {A} (x : list A) l : mjoin (x :: l) = x ++ mjoin l.
Proof. done. Qed.
Lemma map_cons_app {A B} (f : A -> B) x l : map f (x :: l) = [f x] ++ map f l.
Proof. done. Qed.
Lemma runs_app l l' : runs (l ++ l') = runs l ++ runs l'.
Proof. unfold runs. by rewrite map_app, join_app, omap_app. Qed.
Lemma owns_app l l' : owns (l ++ l') = owns l ++ owns l'.
Proof. unfold owns. by rewrite map_app, join_app, omap_app. Qed.

Lemma start_runs {A} (f : event -> option A) cursor l : (forall s v, f (SetValue s v) = None) ->
  omap f (mjoin (map (start_events cursor) l)) = omap f (mjoin (map consumer_events (map i_consumer l))).
Proof.
  intros Hf. induction l as [|i l IH]; [done|]. cbn [map]. rewrite !join_cons, !omap_app, IH. f_equal. destruct i as [[p h|p] b e]; [done|]. unfold consumer_events, start_events. cbn [i_consumer omap list_omap].
  rewrite !Hf. generalize (m_workProcessors p) as ws. intros ws.
  enough (forall q : pool, omap f (mjoin (map (fun '(_, s) => [SetValue s cursor; RunWorker q s]) ws)) =
    omap f (mjoin (map (fun '(_, s) => [SetValue s 0; RunWorker q s]) ws))) as H by apply H.
  intros q. induction ws as [|[h s] ws IHw]; [done|]. cbn [map]. rewrite !join_cons, !omap_app, IHw. f_equal. cbn. by rewrite !Hf.
Qed.

Lemma unmark_consumers l r : consumers (unMarkEventProcessorsAsEndOfChain l r) = consumers r.
Proof.
  unfold unMarkEventProcessorsAsEndOfChain. revert r. induction l as [|s l IH]; intros r; [done|]. cbn [foldl]. rewrite IH.
  unfold unmark_step. destruct (by_sequence r !! s) as [k|]; [|done]. unfold consumers. cbn [m_consumerInfos].
  generalize (m_consumerInfos r) as il. intros il. revert k. induction il as [|i il IHi]; intros [|k]; try done. cbn. f_equal. apply IHi.
Qed.

Lemma add_processors_consumers ps r : consumers (foldl (fun r p => add_processor p r) r ps) =
  consumers r ++ map (fun p => Processor p None) ps.
Proof.
  revert r. induction ps as [|p ps IH]; intros r; cbn [foldl map]; [by rewrite app_nil_r|]. rewrite IH. unfold consumers. cbn.
  by rewrite map_app, <- app_assoc.
Qed.

Lemma runs_processors ps : (forall p, p ∈ ps -> foreign (p_sequence p)) ->
  runs (map (fun p => Processor p None) ps) = map User ps /\ owns (map (fun p => Processor p None) ps) = [].
Proof.
  intros Hps. induction ps as [|p ps IH]; [done|]. destruct IH as [IH1 IH2]; [intros q Hq; apply Hps; by right|].
  pose proof (Hps p ltac:(left)) as Hp. rewrite (map_cons_app (fun p => Processor p None)).
  rewrite runs_app, owns_app, IH1, IH2. destruct p as [h b [n|n]|[n|n]]; done.
Qed.

Lemma runs_handlers b hs n :
  let cs := map i_consumer (zip_with (new_info b) hs (map Own (seq n (length hs)))) in
  runs cs = map Handler hs /\ owns cs = seq n (length hs).
Proof.
  cbn. revert n. induction hs as [|h hs IH]; intros n; [done|]. destruct (IH (Datatypes.S n)) as [IH1 IH2].
  cbn [length seq]. change (zip_with _ _ _) with (new_info b h (Own n) :: zip_with (new_info b) hs (map Own (seq (Datatypes.S n) (length hs)))).
  rewrite (map_cons_app i_consumer), runs_app, owns_app, IH1, IH2. done.
Qed.

Lemma find_worker (ws : list (nat * sequence_id)) h s : NoDup (map snd ws) -> (h, s) ∈ ws ->
  find (fun w => bool_decide (w.2 = s)) ws = Some (h, s).
Proof.
  induction ws as [|[h' s'] ws IH]; intros Hnd Hin; [by apply elem_of_nil in Hin|]. cbn in *. apply NoDup_cons in Hnd as [Hn Hnd].
  apply elem_of_cons in Hin as [[= <- <-]|Hin]; [by rewrite bool_decide_true|]. rewrite bool_decide_false; [by apply IH|].
  intros ->. apply Hn. apply list_elem_of_fmap. by exists (h, s).
Qed.

Lemma runs_pool p : NoDup (map snd p.(m_workProcessors)) ->
  runs [Workers p] = map (fun w => Worker w.1) p.(m_workProcessors) /\
  owns [Workers p] = omap (fun w => match w.2 with Own n => Some n | Foreign _ => None end) p.(m_workProcessors).
Proof.
  intros Hnd. unfold runs, owns, consumer_events, start_events. cbn. rewrite !app_nil_r.
  assert (forall ws, ws ⊆ p.(m_workProcessors) ->
    omap run_of (mjoin (map (fun '(_, s) => [SetValue s 0; RunWorker p s]) ws)) = map (fun w => Worker w.1) ws /\
    omap run_own (mjoin (map (fun '(_, s) => [SetValue s 0; RunWorker p s]) ws)) =
      omap (fun w => match w.2 with Own n => Some n | Foreign _ => None end) ws) as H; [|by apply H].
  induction ws as [|[h s] ws IH]; intros Hs; [done|]. destruct IH as [IH1 IH2]; [intros x Hx; apply Hs; by right|].
  cbn [map]. rewrite !join_cons, !omap_app, IH1, IH2. cbn.
  rewrite (find_worker _ h s Hnd) by (apply Hs; left). cbn. by destruct s.
Qed.

Lemma create_pool_names k hs n :
  omap (fun w => match w.2 with Own n => Some n | Foreign _ => None end) (imap (fun j h => (h, Own (n + Datatypes.S (k + j))%nat)) hs) =
    seq (n + Datatypes.S k) (length hs) /\
  map snd (imap (fun j h => (h, Own (n + Datatypes.S (k + j))%nat)) hs) = map Own (seq (n + Datatypes.S k) (length hs)) /\
  map (fun w => Worker w.1) (imap (fun j h => (h, Own (n + Datatypes.S (k + j))%nat)) hs) = map Worker hs.
Proof.
  revert k. induction hs as [|h hs IH]; intros k; [done|]. rewrite imap_cons. cbn [length seq].
  assert (imap ((fun j h => (h, Own (n + Datatypes.S (k + j)))) ∘ Datatypes.S) hs =
    imap (fun j h => (h, Own (n + Datatypes.S (Datatypes.S k + j))%nat)) hs) as E.
  { apply imap_ext. intros j x _. cbn. do 2 f_equal. lia. }
  rewrite E. destruct (IH (Datatypes.S k)) as (H1 & H2 & H3). cbn [map omap list_omap fst snd]. rewrite H2, H3.
  change (list_omap _ _ ?f ?l) with (omap f l). rewrite H1. rewrite Nat.add_0_r, (Nat.add_succ_r n (Datatypes.S k)). done.
Qed.

(** What one call adds: just the consumers asked for, with new names. *)
Definition added (o : op) (d d' : disruptor) (gs : list (list sequence_id)) : Prop :=
  exists cs, consumers d'.(m_consumerRepository) = consumers d.(m_consumerRepository) ++ cs /\
    runs cs = asked o gs /\ NoDup (owns cs) /\ (forall n, n ∈ owns cs -> (d.(fresh) <= n < d'.(fresh))%nat) /\
    (d.(fresh) <= d'.(fresh))%nat /\ omap run_of d'.(trace) = omap run_of d.(trace) /\ omap run_own d'.(trace) = omap run_own d.(trace).

Lemma added_none o d d' gs : asked o gs = [] -> consumers d'.(m_consumerRepository) = consumers d.(m_consumerRepository) ->
  d'.(fresh) = d.(fresh) -> omap run_of d'.(trace) = omap run_of d.(trace) -> omap run_own d'.(trace) = omap run_own d.(trace) ->
  added o d d' gs.
Proof.
  intros Ha Hc Hf Ht Ht'. exists []. rewrite app_nil_r. split_and!; try done; [apply NoDup_nil_2|intros n []%elem_of_nil|lia].
Qed.

Lemma added_processors o ps d gs : asked o gs = map User ps -> (forall p, p ∈ ps -> foreign (p_sequence p)) ->
  added o d (add_processors ps d) gs.
Proof.
  intros Ha Hps. destruct (runs_processors ps Hps) as [H1 H2]. exists (map (fun p => Processor p None) ps).
  split; [apply add_processors_consumers|]. split; [by rewrite Ha|]. rewrite H2.
  split_and!; try done; [apply NoDup_nil_2|intros n []%elem_of_nil].
Qed.

Lemma added_handlers l hs d gs g d' : createEventProcessors l hs d = Ok (g, d') -> forall k, added (OHandlers k hs) d d' gs.
Proof.
  intros He k. unfold createEventProcessors in He. apply result_bind_Ok in He as ([] & _ & He). unfold newBarrier in He.
  pose proof (create_processors_spec (mk_barrier d.(fresh) l) hs (take_names 1 d)) as Hspec.
  destruct (create_processors _ _ _) as [s d1]. destruct Hspec as (-> & Hf & Hi & _ & _ & Ht & _). cbn [take_names fresh trace] in *.
  destruct (runs_handlers (mk_barrier d.(fresh) l) hs (d.(fresh) + 1)) as [Hr Ho].
  exists (map i_consumer (zip_with (new_info (mk_barrier d.(fresh) l)) hs (map Own (seq (d.(fresh) + 1) (length hs))))).
  assert (d'.(fresh) = d1.(fresh) /\ d'.(trace) = d1.(trace) /\ consumers d'.(m_consumerRepository) = consumers d1.(m_consumerRepository)) as (E1 & E2 & E3).
  { destruct (map Own _) as [|? ?]; injection He as <- <-; [done|]. split; [done|]. split; [done|]. apply unmark_consumers. }
  rewrite E1, E2, E3, Hf, Ht, Hr, Ho. split_and!; try done; try lia.
  - unfold consumers. by rewrite Hi, map_app.
  - apply NoDup_seq.
  - intros n Hn%elem_of_seq. lia.
Qed.

Lemma added_pool l hs d gs k : added (OPool k hs) d (createWorkerPool l hs d).2 gs.
Proof.
  unfold createWorkerPool, newBarrier. cbn [take_names fresh m_exceptionHandler snd]. set (ws := imap _ hs).
  destruct (create_pool_names 0 hs (d.(fresh) + 1)) as (H1 & H2 & H3). change (imap (fun j h => (h, Own (d.(fresh) + 1 + Datatypes.S (0 + j))%nat)) hs) with ws in H1, H2, H3.
  set (p := mk_pool ws _ _ _). destruct (runs_pool p) as [Hr Ho].
  { cbn [p m_workProcessors]. rewrite H2.
    apply NoDup_fmap_2; [congruence|apply NoDup_seq]. }
  exists [Workers p]. rewrite Hr, Ho. cbn [p m_workProcessors].
  rewrite H1, H3. cbn. split_and!; try done; try lia.
  - unfold consumers. cbn. by rewrite map_app.
  - apply NoDup_seq.
  - intros n Hn%elem_of_seq. lia.
Qed.

Lemma exec_added getSequencesFor o st st' : op_ok o -> exec getSequencesFor o st = Ok st' -> added o st.1 st'.1 st.2.
Proof.
  destruct st as [d gs]. intros Ho H. cbn [fst snd] in *.
  destruct o as [g hs|g fs|g hs|ps|hs|g h|g ps|h|h|e h]; cbn [exec] in H.
  - apply result_bind_Ok in H as (l & Hl & H). apply result_bind_Ok in H as ([g' d'] & He & H). injection H as <-.
    by eapply added_handlers.
  - apply result_bind_Ok in H as (l & Hl & H). cbn in H. injection H as <-. cbn [fst]. apply added_processors; cbn.
    + rewrite Hl. by rewrite map_map.
    + intros p (f & -> & Hf)%list_elem_of_fmap. by apply Ho.
  - apply result_bind_Ok in H as (l & Hl & H). pose proof (added_pool l hs d gs g) as Ha.
    destruct (createWorkerPool l hs d) as [g' d']. by injection H as <-.
  - injection H as <-. by apply added_processors.
  - apply result_bind_Ok in H as (l & Hl & H). injection H as <-. by apply added_none.
  - apply result_bind_Ok in H as (l & Hl & H). apply result_bind_Ok in H as (l' & Hl' & H). injection H as <-. by apply added_none.
  - apply result_bind_Ok in H as (l & Hl & H). cbn in H. injection H as <-. by apply added_processors.
  - injection H as <-. by apply added_none.
  - apply result_bind_Ok in H as (d' & Hd & H). injection H as <-. unfold setDefaultExceptionHandler in Hd.
    apply result_bind_Ok in Hd as ([] & _ & Hd). destruct (m_exceptionHandler d); [|done]. injection Hd as <-. by apply added_none.
  - apply result_bind_Ok in H as (d' & Hd & H). injection H as <-. unfold with_exceptions in Hd.
    apply result_bind_Ok in Hd as (p & _ & Hd). destruct p; [|done]. destruct h; [|done].
    apply result_bind_Ok in Hd as (b' & _ & Hd). apply result_bind_Ok in Hd as (b'' & _ & Hd). injection Hd as <-.
    apply added_none; cbn; try done; rewrite omap_app; apply app_nil_r.
Qed.

Lemma called_runs getSequencesFor l st : called getSequencesFor l st ->
  let cs := consumers st.1.(m_consumerRepository) in
  runs cs = l /\ NoDup (owns cs) /\ (forall n, n ∈ owns cs -> (n < st.1.(fresh))%nat) /\
  omap run_of st.1.(trace) = [] /\ omap run_own st.1.(trace) = [].
Proof.
  induction 1 as [gating|l o st st' _ (H1 & H2 & H3 & H4 & H5) Ho He].
  - split_and!; try done; [apply NoDup_nil_2|intros n []%elem_of_nil].
  - destruct (exec_added _ _ _ _ Ho He) as (cs & -> & Hr & Hn & Hf & Hle & E1 & E2). cbn. rewrite runs_app, owns_app, H1, Hr, E1, E2.
    split_and!; try done.
    + apply NoDup_app. split; [done|]. split; [|done]. intros n Hin Hin'. specialize (H3 n Hin). specialize (Hf n Hin'). lia.
    + intros n [Hin|Hin]%elem_of_app; [specialize (H3 n Hin); lia|apply Hf, Hin].
Qed.

(** ** What a set-up guarantees *)

Section Guarantees.
Context `{SequenceUtilLaws}.
Context (addSequences : list sequence_id -> list sequence_id -> list sequence_id)
  (getSequencesFor : list processor -> list sequence_id).
Hypothesis addSequences_spec : forall g l s, s ∈ addSequences g l <-> s ∈ g \/ s ∈ l.
Hypothesis getSequencesFor_spec : forall ps, getSequencesFor ps = map p_sequence ps.

(** C23: However handlers, pools and processors are set up and chained, start returns and
    runs just what the calls asked for, in their order - a processor of the user once for
    every call that was given it, each processor and worker of the library once.  From
    then on what the gating sequences of the producer have all released was released by
    every consumer, also by one in the middle of a chain; so a single producer claims no
    place whose entry is yet to be processed. *)
Theorem start_protects l d gs cursor value q n q' hi :
  called getSequencesFor l (d, gs) ->
  exists d', start addSequences cursor d = (d', Ok tt) /\
    omap run_of d'.(trace) = l /\ NoDup (omap run_own d'.(trace)) /\
    (respects d.(m_consumerRepository) value ->
     forall i s, i ∈ d.(m_consumerRepository).(m_consumerInfos) -> s ∈ sequences i ->
     (forall bound, (forall g, g ∈ d'.(m_gatingSequences) -> bound <= value g) -> bound <= value s) /\
     (sequencer_ok q (map value d'.(m_gatingSequences)) -> 1 <= n <= q.(m_bufferSize) ->
      next q (map value d'.(m_gatingSequences)) n = Ok (q', Some hi) -> hi - q.(m_bufferSize) <= value s)).
Proof using All.
  intros Hb. destruct (called_runs _ _ _ Hb) as (Hru & Hrn & _ & Ht1 & Ht2). apply called_built in Hb. cbn [fst] in *.
  pose proof (built_wired _ getSequencesFor_spec _ Hb) as [W _]. destruct (built_calm _ _ getSequencesFor_spec Hb) as (Hns & Hr & Hnd).
  cbn [fst] in *. unfold start. cbn [set_gating m_started m_consumerRepository]. rewrite Hns.
  set (g := addSequences _ _). set (d1 := set_started _).
  destruct (start_all_spec cursor d.(m_consumerRepository).(m_consumerInfos) d1 Hnd) as (d' & Hd & Ht & Hg & _ & _).
  { intros s _. subst d1. cbn. rewrite Hr. apply not_elem_of_empty. }
  exists d'. split; [done|]. rewrite Ht, !omap_app. cbn [d1 set_started set_gating trace]. rewrite Ht1, Ht2, !start_runs by done.
  split; [done|]. split; [done|]. intros Hv i s Hi Hs. destruct (chain_end _ _ value i s W Hv Hi Hs) as (x & Hx & Hle).
  assert (x ∈ d'.(m_gatingSequences)) as Hxg by (rewrite Hg; apply addSequences_spec; by right).
  split; [intros bound Hbound; specialize (Hbound x Hxg); lia|]. intros Hq Hn Hnx.
  destruct (next_spec q _ n Hq Hn) as [[Hroom (q1 & Hq1 & _)]|[_ Hno]]; [|congruence].
  rewrite Hnx in Hq1. injection Hq1 as -> ->.
  pose proof (fold_min_le (value x) (map value d'.(m_gatingSequences)) q.(m_nextValue)) as Hmin. unfold gate in Hroom.
  specialize (Hmin ltac:(apply list_elem_of_fmap; by exists x)). lia.
Qed.

(** A shutdown of a running disruptor halts every consumer once, at the first look
    that finds no backlog, and then every event up to the cursor has been released by
    every consumer, provided that all of them run at that look. *)
Theorem shutdown_drained d gs timeout now looks d' :
  built getSequencesFor (d, gs) -> shutdown timeout now looks (start addSequences 0 d).1 = Some (Ok d') ->
  exists l, l ∈ looks /\ hasBacklog l d = false /\
    d'.(trace) = (start addSequences 0 d).1.(trace) ++ mjoin (map halt_events d.(m_consumerRepository).(m_consumerInfos)) /\
    ((forall i, i ∈ d.(m_consumerRepository).(m_consumerInfos) -> l.(l_running) i = true) ->
     respects d.(m_consumerRepository) l.(l_value) ->
     forall i s, i ∈ d.(m_consumerRepository).(m_consumerInfos) -> s ∈ sequences i -> l.(l_cursor) <= l.(l_value) s).
Proof using All.
  intros Hb Hs. pose proof (built_wired _ getSequencesFor_spec _ Hb) as [W _]. destruct (built_calm _ _ getSequencesFor_spec Hb) as (Hns & Hr & Hnd).
  cbn [fst] in *. set (d1 := (start addSequences 0 d).1) in *.
  assert (d1.(m_consumerRepository) = d.(m_consumerRepository)) as Hrep.
  { subst d1. unfold start. cbn [set_gating m_started m_consumerRepository]. rewrite Hns. set (d2 := set_started _).
    destruct (start_all_spec 0 d.(m_consumerRepository).(m_consumerInfos) d2 Hnd) as (d3 & -> & _ & _ & He & _); [|done].
    intros s _. subst d2. cbn. rewrite Hr. apply not_elem_of_empty. }
  unfold shutdown in Hs. destruct (decide _); [|done].
  assert (exists l, l ∈ looks /\ hasBacklog l d1 = false /\ d' = halt d1) as (l & Hl & Hbl & ->).
  { induction looks as [|l looks IH]; cbn [shutdown_wait] in Hs; [done|]. destruct (hasBacklog l d1) eqn:Hbl.
    - destruct (_ && _ && _); [done|]. destruct (IH Hs) as (l' & ? & ?). exists l'. split; [by right|done].
    - injection Hs as <-. exists l. split; [left|done]. }
  exists l. destruct (halt_spec d1) as [Ht _]. rewrite Hrep in Ht. unfold hasBacklog in *. rewrite Hrep in Hbl. split; [done|].
  split; [done|]. split; [done|]. intros Hrun Hv i s Hi Hin. destruct (chain_end _ _ _ i s W Hv Hi Hin) as (g & Hg & Hle).
  apply in_last in Hg as (j & Hj & Hgj & _ & Hend).
  destruct (Z.ltb_spec (l.(l_value) g) l.(l_cursor)) as [Hlt|]; [|lia]. exfalso. apply Bool.not_true_iff_false in Hbl. apply Hbl.
  apply existsb_exists. exists g. split; [|by apply Z.ltb_lt]. apply list_elem_of_In, in_last. exists j. rewrite Hrun; done.
Qed.

(** A later look without backlog is reached, unless the time is up before. *)
Lemma shutdown_returns d timeout now before l after :
  - 9223372036854775808 <= now + timeout <= duration_max ->
  (forall x, x ∈ before -> hasBacklog x d = true /\ (timeout = duration_max \/ timeout < 0 \/ x.(l_now) <= now + timeout)) ->
  hasBacklog l d = false -> shutdown timeout now (before ++ l :: after) d = Some (Ok (halt d)).
Proof using.
  intros Ht Hb Hl. unfold shutdown. rewrite decide_True by done. induction before as [|x before IH]; cbn [app shutdown_wait]; [by rewrite Hl|].
  destruct (Hb x ltac:(left)) as [-> Hx].
  destruct (Z.eqb_spec timeout duration_max), (Z.leb_spec 0 timeout), (Z.ltb_spec (now + timeout) x.(l_now)); cbn; try lia;
    apply IH; intros y Hy; apply Hb; by right.
Qed.

(** handleExceptionsFor finds the processor of every handler that was set up. *)
Lemma with_exceptions_safe d gs e h : built getSequencesFor (d, gs) -> with_exceptions e h d <> UB.
Proof using getSequencesFor_spec.
  intros Hb. pose proof (built_wired _ getSequencesFor_spec _ Hb) as [W _]. cbn [fst] in W. unfold with_exceptions, getEventProcessorFor, getBarrierFor.
  destruct (by_handler _ !! e) as [k|] eqn:Hk; [|done]. destruct (w_handlers _ _ W _ _ Hk) as (b & s & c & ->). cbn. by destruct h.
Qed.

(** The handler of setDefaultExceptionHandler gets the exceptions of the processors that
    exist and of those set up later. *)
Lemma default_reaches_all h d d1 l hs g d2 s :
  setDefaultExceptionHandler h d = Ok d1 -> createEventProcessors l hs d1 = Ok (g, d2) ->
  (s ∈ g) \/ ((s ∉ g) /\ d.(batch_exceptions) !! s = Some Wrapper) -> handler_of s d2 = h.
Proof using.
  intros Hd Hc Hs. unfold setDefaultExceptionHandler in Hd. apply result_bind_Ok in Hd as ([] & _ & Hd).
  destruct (m_exceptionHandler d) eqn:Hw; [|done]. injection Hd as <-. unfold createEventProcessors in Hc.
  apply result_bind_Ok in Hc as ([] & _ & Hc). unfold newBarrier in Hc. set (d0 := take_names 1 _) in Hc.
  pose proof (create_processors_exceptions (mk_barrier (set_handlers Wrapper h d).(fresh) l) hs d0 eq_refl) as He.
  pose proof (create_processors_spec (mk_barrier (set_handlers Wrapper h d).(fresh) l) hs d0) as Hspec.
  destruct (create_processors _ hs d0) as [ss d3]. destruct Hspec as (_ & _ & _ & _ & _ & _ & _ & Hh). injection Hc as <- <-.
  assert (d3.(batch_exceptions) !! s = Some Wrapper) as Hl by (rewrite He; destruct Hs as [Hs|[Hs Hs']]; [by rewrite decide_True|by rewrite decide_False]).
  assert (handler_of s d3 = h) as Hf by (unfold handler_of; by rewrite Hl, Hh). by destruct ss.
Qed.

(** drainAndHalt halts a pool once all its sequences have reached the cursor. *)
Lemma drainAndHalt_drains looks p d d' : drainAndHalt looks p d = Some d' ->
  exists cursor value, (cursor, value) ∈ looks /\ d' = halt_pool p d /\
    forall s, s ∈ getWorkerSequences p -> cursor <= value s.
Proof using All.
  induction looks as [|[cursor value] looks IH]; cbn [drainAndHalt]; [done|]. intros Hd. rewrite getMinimumSequence_spec in Hd.
  destruct (Z.ltb_spec (foldr Z.min duration_max (map value (getWorkerSequences p))) cursor) as [Hlt|Hge].
  - destruct (IH Hd) as (c & v & ? & ? & ?). exists c, v. split_and!; [by right|done..].
  - injection Hd as <-. exists cursor, value. split; [left|]. split; [done|]. intros s Hs.
    enough (foldr Z.min duration_max (map value (getWorkerSequences p)) <= value s) by lia.
    apply fold_min_le. apply list_elem_of_fmap. by exists s.
Qed.

(** ** What goes wrong *)

(** Consumers that were started but do not run yet count as drained: a shutdown halts
    them although nothing was processed. *)
Theorem shutdown_before_running d timeout now l looks :
  - 9223372036854775808 <= now + timeout <= duration_max -> (forall i, l.(l_running) i = false) ->
  shutdown timeout now (l :: looks) d = Some (Ok (halt d)).
Proof using.
  intros Ht Hr. apply (shutdown_returns d timeout now [] l looks Ht); [intros x Hx; by apply elem_of_nil in Hx|].
  apply Bool.not_true_iff_false. intros (s & Hs & _)%existsb_exists. apply list_elem_of_In, in_last in Hs as (i & _ & _ & Hi & _).
  cbn in Hi. congruence.
Qed.

(** shutdown() adds the largest duration to the time of the clock. *)
Theorem shutdown_overflows d now looks : 0 < now -> shutdown duration_max now looks d = Some UB.
Proof using.
  intros Hn. unfold shutdown. rewrite decide_False; [done|]. unfold duration_max. lia.
Qed.

(** A pool set up after the start is neither refused nor run nor waited for. *)
Theorem pool_after_start d l hs : d.(m_started) = true ->
  let '(g, d') := createWorkerPool l hs d in
  createEventProcessors l hs d = Throw already_started /\ length g = Datatypes.S (length hs) /\
  d'.(trace) = d.(trace) /\ d'.(m_gatingSequences) = d.(m_gatingSequences).
Proof using.
  intros Hs. unfold createWorkerPool, newBarrier, createEventProcessors, checkNotStarted. cbn. rewrite Hs. split; [done|].
  split; [|done]. unfold getWorkerSequences. cbn. rewrite length_app, length_map, length_imap. cbn. lia.
Qed.

(** after(processors) of processors that were set up before adds them again, and they
    are run twice. *)
Theorem after_runs_twice p cursor : foreign (p_sequence p) ->
  exists d gs d', built getSequencesFor (d, gs) /\
    (g ← exec getSequencesFor (OProcessors [p]) (new_disruptor [], []); exec getSequencesFor (OProcessors [p]) g) = Ok (d, gs) /\
    start addSequences cursor d = (d', Ok tt) /\ d'.(trace) = [RunProcessor p; RunProcessor p].
Proof using.
  intros Hf. do 3 eexists. split.
  - eapply (built_exec _ (OProcessors [p])); [eapply (built_exec _ (OProcessors [p])); [apply built_new|..]|..]; try reflexivity;
      intros q Hq; by apply list_elem_of_singleton in Hq as ->.
  - split; [reflexivity|]. split; reflexivity.
Qed.

(** Once handleExceptionsWith was called there is no wrapper to switch. *)
Theorem default_after_with h h' d : d.(m_started) = false -> setDefaultExceptionHandler h (handleExceptionsWith h' d) = UB.
Proof using. intros Hs. unfold setDefaultExceptionHandler, checkNotStarted. cbn. by rewrite Hs. Qed.
End Guarantees.

(** ** Two handlers, and a third behind them *)

#[local] Existing Instances util_example util_example_laws.

Definition setup_of (r : result setup) : setup := match r with Ok st => st | _ => (new_disruptor [], []) end.
Definition example_first : setup :=
  setup_of (exec (map p_sequence) (OHandlers None [1; 2]%nat) (new_disruptor [], [])).
Definition example_setup : setup := setup_of (exec (map p_sequence) (OHandlers (Some 0) [3])%nat example_first).
Definition example_disruptor : disruptor := example_setup.1.
Definition example_value (s : sequence_id) : Z := match s with Own 1 => 9 | Own 2 => 8 | _ => 7 end.

Lemma example_called : called (map p_sequence) [Handler 1; Handler 2; Handler 3] (example_disruptor, [[Own 1; Own 2]; [Own 4]]).
Proof.
  refine (called_exec _ [Handler 1; Handler 2] (OHandlers (Some 0) [3])%nat example_first _ _ I _); [|by vm_compute].
  refine (called_exec _ [] (OHandlers None [1; 2])%nat (new_disruptor [], []) _ _ I _); [constructor|by vm_compute].
Qed.
Lemma example_built : built (map p_sequence) (example_disruptor, [[Own 1; Own 2]; [Own 4]]).
Proof. eapply called_built, example_called. Qed.

Lemma example_respects : respects example_disruptor.(m_consumerRepository) example_value.
Proof.
  intros i b x Hi Hb Hx. set (l := m_consumerInfos (m_consumerRepository example_disruptor)) in Hi. vm_compute in l. subst l.
  rewrite !elem_of_cons, elem_of_nil in Hi. destruct Hi as [-> | [-> | [-> | []]]]; injection Hb as <-; cbn [b_dependent] in Hx;
    rewrite ?elem_of_cons, ?elem_of_nil in Hx; [done|done|]. exists (Own 4). split; [left|]. destruct Hx as [-> | [-> | []]]; done.
Qed.

Lemma start_protects_witness :
  exists d', start app 0 example_disruptor = (d', Ok tt) /\ d'.(m_gatingSequences) = [Own 4] /\
  omap run_of d'.(trace) = [Handler 1; Handler 2; Handler 3] /\ omap run_own d'.(trace) = [1; 2; 4]%nat /\
  forall i s, i ∈ example_disruptor.(m_consumerRepository).(m_consumerInfos) -> s ∈ sequences i ->
    7 <= example_value s /\ 11 - 4 <= example_value s.
Proof.
  destruct (start_protects app (map p_sequence) (fun g l s => elem_of_app g l s) (fun _ => eq_refl) [Handler 1; Handler 2; Handler 3]
    example_disruptor [[Own 1; Own 2]; [Own 4]] 0 example_value (mk_sequencer 4 9 7 9) 2 (mk_sequencer 4 11 7 9) 11 example_called)
    as (d' & Hd & Hr & _ & Hp).
  assert (d'.(m_gatingSequences) = [Own 4] /\ omap run_own d'.(trace) = [1; 2; 4]%nat) as [Hg Ho]
    by (vm_compute in Hd; injection Hd as <-; split; reflexivity).
  exists d'. split; [exact Hd|]. split; [exact Hg|]. split; [exact Hr|]. split; [exact Ho|]. intros i s Hi Hs.
  rewrite Hg in Hp. destruct (Hp example_respects i s Hi Hs) as [H1 H2]. split.
  - apply H1. intros g Hin. apply list_elem_of_singleton in Hin as ->. cbn. lia.
  - apply H2; [|cbn; lia|reflexivity]. constructor; cbn; try lia. intros g Hin. apply list_elem_of_singleton in Hin as ->. lia.
Defined.

(** One look at a drained ring. *)
Definition example_look : look := mk_look 7 example_value (fun _ => true) 100.
Lemma shutdown_drained_witness : exists d', shutdown 50 60 [example_look] (start app 0 example_disruptor).1 = Some (Ok d') /\
  (forall i s, i ∈ example_disruptor.(m_consumerRepository).(m_consumerInfos) -> s ∈ sequences i -> 7 <= example_value s).
Proof.
  exists (halt (start app 0 example_disruptor).1).
  assert (shutdown 50 60 [example_look] (start app 0 example_disruptor).1 = Some (Ok (halt (start app 0 example_disruptor).1))) as Hs
    by (vm_compute; reflexivity).
  split; [exact Hs|].
  destruct (shutdown_drained app (map p_sequence) (fun g l s => elem_of_app g l s) (fun _ => eq_refl)
    example_disruptor [[Own 1; Own 2]; [Own 4]] 50 60 [example_look] _ example_built Hs) as (l & Hl & _ & _ & Hp).
  apply list_elem_of_singleton in Hl as ->. exact (Hp (fun _ _ => eq_refl) example_respects).
Defined.
