(* ===== verification/EvioCloser.v ===== *)
(** EventWriter.h: the closing of files behind the writer's back.  CloseAsyncFChan
    writes the trailer of a file and patches its header, in a thread of its own;
    FileCloser keeps these threads. *)
From S2P Require Import Prelude Bytes ByteOrder.

(** ** Files *)

(** A std::fstream: the bytes of its file, the one position it reads and writes at,
    and whether its next writes succeed (those that are not listed do). *)
Record fstream := mk_fstream { f_bytes : list Z; f_pos : Z; f_writes : list bool }.

(** What is written lies over the old bytes; a gap behind the end is filled with zeros. *)
Definition put_at (bytes : list Z) (p : Z) (bs : list Z) : list Z :=
  let bytes := bytes ++ replicate (Z.to_nat p + length bs - length bytes) 0 in
  splice (Z.to_nat p) bs bytes.

Definition write_failed : string := "error writing to file".
(** write() and the test of fail() behind it *)
Definition f_write (bs : list Z) (f : fstream) : result fstream :=
  match f.(f_writes) with
  | false :: _ => Throw write_failed
  | [] => Ok (mk_fstream (put_at f.(f_bytes) f.(f_pos) bs) (f.(f_pos) + zlen bs) [])
  | true :: ws => Ok (mk_fstream (put_at f.(f_bytes) f.(f_pos) bs) (f.(f_pos) + zlen bs) ws)
  end.
Definition seekg (p : Z) (f : fstream) : fstream := mk_fstream f.(f_bytes) p f.(f_writes).

(** ** The trailer *)

Definition HEADER_SIZE_BYTES : Z := 56.
Definition RECORD_COUNT_OFFSET : Z := 12.
Definition FileHeader_BIT_INFO_OFFSET : Z := 20.
Definition TRAILER_POSITION_OFFSET : Z := 40.

(** RecordHeader::writeTrailer into the first [limit] bytes of a buffer in some byte
    order, with the number of the record and what the index is made of: the bytes the
    buffer has then.  FileHeader's bits for a first event, a dictionary and an index.
    These are declared only. *)
Class Headers := {
  writeTrailer : endian -> Z -> Z -> option (list Z) -> list Z;
  setBitInfo : bool -> bool -> bool -> Z
}.
Class HeadersLaws `{Headers} : Prop := {
  length_writeTrailer o limit n recs : 0 <= limit -> zlen (writeTrailer o limit n recs) = limit;
  setBitInfo_range a b c : 0 <= setBitInfo a b c < 4294967296
}.

Section Trailer.
Context {host : Host} `{Headers}.

Definition isLocalEndian (o : endian) : bool := bool_decide (o = host_order).

(** The fields of CloseAsyncFChan that the trailer depends on. *)
Record closing := mk_closing {
  hasFirstEvent : bool; hasDictionary : bool;  (** of fHeader *)
  recLengths : list Z; bytesWrittenToFile : Z; recordNum : Z;
  addTrailer : bool; writeIndx : bool; noFileWriting : bool; c_order : endian
}.

(** hdrBuffer: its capacity and its byte order. *)
Definition hdrBufferBytes : Z := HEADER_SIZE_BYTES + 2048.
(** A buffer that is too small is replaced by a new one, in the order of the host. *)
Definition index_order (c : closing) (bytesToWrite : Z) : endian :=
  if hdrBufferBytes <? bytesToWrite then host_order else c.(c_order).

(** An integer of [w] bytes as it is in memory. *)
Definition f_write_int (w : nat) (v : Z) (f : fstream) : result fstream := f_write (order_bytes host_order w v) f.

Definition writeTrailerToFile (c : closing) (f : fstream) : result fstream :=
  let trailerPosition := c.(bytesWrittenToFile) in
  f ← (if c.(writeIndx) then
         let bytesToWrite := u32 (HEADER_SIZE_BYTES + 4 * zlen c.(recLengths)) in
         f_write (writeTrailer (index_order c bytesToWrite) bytesToWrite c.(recordNum) (Some c.(recLengths))) f
       else f_write (writeTrailer c.(c_order) HEADER_SIZE_BYTES c.(recordNum) None) f);
  let trailerPosition := if isLocalEndian c.(c_order) then trailerPosition else SWAP_64 trailerPosition in
  f ← f_write_int 8 trailerPosition (seekg TRAILER_POSITION_OFFSET f);
  f ← (if c.(writeIndx) then
         let bitInfo := setBitInfo c.(hasFirstEvent) c.(hasDictionary) true in
         let bitInfo := if isLocalEndian c.(c_order) then bitInfo else SWAP_32 bitInfo in
         f_write_int 4 bitInfo (seekg FileHeader_BIT_INFO_OFFSET f)
       else Ok f);
  let recordCount := u32 (c.(recordNum) - 1) in
  let recordCount := if isLocalEndian c.(c_order) then recordCount else SWAP_32 recordCount in
  f_write_int 4 recordCount (seekg RECORD_COUNT_OFFSET f).

(** run(): it waits for the last write, whose exceptions end there as those of the
    trailer do, hands the item back to the supply and closes the file. *)
Inductive closer_event := ReleasedSequential | Closed | RemovedThread.
Definition closer_run (c : closing) (f : fstream) : option fstream * list closer_event :=
  let f := if c.(addTrailer) && negb c.(noFileWriting)
           then match writeTrailerToFile c f with Ok f => Some f | _ => None end
           else Some f in
  (f, [ReleasedSequential; Closed; RemovedThread]).
End Trailer.

(** ** FileCloser *)

Section FileCloser.

(** The threads that it keeps, and those that know the pointer to themselves. *)
Record FileCloser := mk_closer { threads : list nat; sharedPtrOfMe : list nat }.

(** removeThread(sharedPtrOfMe), called for a thread; a null pointer is not found. *)
Definition removeThread (t : nat) (c : FileCloser) : FileCloser :=
  if decide (t ∈ c.(sharedPtrOfMe)) then mk_closer (filter (fun x => x <> t) c.(threads)) c.(sharedPtrOfMe) else c.

(** stopThread(), the interrupting and the joining left out *)
Definition stopThread (t : nat) (c : FileCloser) : FileCloser := removeThread t c.

(** The loop of close(): its iterators are those of the vector it began with, [n] of
    whose places are left, and behind the end of the vector there is nothing. *)
Fixpoint close_loop (n i : nat) (c : FileCloser) : result FileCloser :=
  match n with
  | O => Ok c
  | S n => t ← checked (c.(threads) !! i); close_loop n (S i) (stopThread t c)
  end.
Definition close (c : FileCloser) : result FileCloser :=
  c ← close_loop (length c.(threads)) 0 c;
  Ok (mk_closer [] c.(sharedPtrOfMe)).

(** closeAsyncFile: the thread runs from its constructor on, before it is put into the
    vector and before it knows itself. *)
Inductive closer_action := Push (t : nat) | SetSelf (t : nat) | End (t : nat).
Definition closer_step (c : FileCloser) (a : closer_action) : FileCloser :=
  match a with
  | Push t => mk_closer (c.(threads) ++ [t]) c.(sharedPtrOfMe)
  | SetSelf t => mk_closer c.(threads) (t :: c.(sharedPtrOfMe))
  | End t => removeThread t c
  end.
End FileCloser.

(** ** What the file is afterwards *)

Lemma put_at_inside bytes p bs : 0 <= p -> p + zlen bs <= zlen bytes -> put_at bytes p bs = splice (Z.to_nat p) bs bytes.
Proof.
  intros. unfold put_at. replace (_ - _)%nat with 0%nat by lia. cbn. by rewrite app_nil_r.
Qed.
Lemma put_at_end bytes bs : put_at bytes (zlen bytes) bs = bytes ++ bs.
Proof.
  unfold put_at, splice. rewrite Nat2Z.id. replace (length bytes + length bs - length bytes)%nat with (length bs) by lia.
  rewrite take_app_length. rewrite drop_ge by (rewrite length_app, length_replicate; lia). by rewrite app_nil_r.
Qed.
Lemma length_put_at bytes p bs : 0 <= p -> p + zlen bs <= zlen bytes -> length (put_at bytes p bs) = length bytes.
Proof. intros. rewrite put_at_inside by done. apply length_splice. lia. Qed.
Lemma put_at_app p bs a b : 0 <= p -> p + zlen bs <= zlen a -> put_at (a ++ b) p bs = put_at a p bs ++ b.
Proof.
  intros. rewrite !put_at_inside by (rewrite ?length_app; lia). unfold splice.
  rewrite take_app_le, drop_app_le by lia. by rewrite <- !app_assoc.
Qed.

Lemma put_at_store bytes p bs : 0 <= p -> p + zlen bs <= zlen bytes -> store bytes p bs = Some (put_at bytes p bs).
Proof. intros. by rewrite put_at_inside, store_spec by done. Qed.
Lemma put_at_lookup bytes p bs i : 0 <= p -> p + zlen bs <= zlen bytes ->
  (Z.of_nat i < p \/ p + zlen bs <= Z.of_nat i) -> put_at bytes p bs !! i = bytes !! i.
Proof. intros. rewrite put_at_inside, lookup_splice by lia. rewrite decide_False; [done|lia]. Qed.

Section Written.
Context {host : Host} `{HeadersLaws}.

(** An integer that is swapped when the order is not the host's. *)
Lemma swapped_bytes_8 o v : 0 <= v < 18446744073709551616 ->
  order_bytes host_order 8 (if isLocalEndian o then v else SWAP_64 v) = order_bytes o 8 v.
Proof using.
  intros Hv. unfold isLocalEndian. case_bool_decide as Ho; [by subst o|]. rewrite SWAP_64_val, u64_small by done.
  destruct o, host_order; try done; cbn [order_bytes].
  - unfold be_bytes at 1. rewrite <- (length_be_bytes 8 v) at 1. rewrite le_bytes_val by apply be_bytes_ok. unfold be_bytes. by rewrite rev_involutive.
  - rewrite <- (length_be_bytes 8 v) at 1. by rewrite le_bytes_val by apply be_bytes_ok.
Qed.
Lemma swapped_bytes_4 o v : 0 <= v < 4294967296 ->
  order_bytes host_order 4 (if isLocalEndian o then v else SWAP_32 v) = order_bytes o 4 v.
Proof using.
  intros Hv. unfold isLocalEndian. case_bool_decide as Ho; [by subst o|]. rewrite SWAP_32_val, u32_small by done.
  destruct o, host_order; try done; cbn [order_bytes].
  - unfold be_bytes at 1. rewrite <- (length_be_bytes 4 v) at 1. rewrite le_bytes_val by apply be_bytes_ok. unfold be_bytes. by rewrite rev_involutive.
  - rewrite <- (length_be_bytes 4 v) at 1. by rewrite le_bytes_val by apply be_bytes_ok.
Qed.

(** The header of a file with the place of the trailer, the bits and the count put in. *)
Definition patched (c : closing) (bytes : list Z) : list Z :=
  let bytes := put_at bytes TRAILER_POSITION_OFFSET (order_bytes c.(c_order) 8 c.(bytesWrittenToFile)) in
  let bytes := if c.(writeIndx)
    then put_at bytes FileHeader_BIT_INFO_OFFSET (order_bytes c.(c_order) 4 (setBitInfo c.(hasFirstEvent) c.(hasDictionary) true)) else bytes in
  put_at bytes RECORD_COUNT_OFFSET (order_bytes c.(c_order) 4 (u32 (c.(recordNum) - 1))).

(** The trailer that belongs behind the records. *)
Definition trailer (c : closing) (o : endian) : list Z :=
  if c.(writeIndx) then writeTrailer o (HEADER_SIZE_BYTES + 4 * zlen c.(recLengths)) c.(recordNum) (Some c.(recLengths))
  else writeTrailer o HEADER_SIZE_BYTES c.(recordNum) None.
Definition trailer_order (c : closing) : endian :=
  if c.(writeIndx) then index_order c (HEADER_SIZE_BYTES + 4 * zlen c.(recLengths)) else c.(c_order).

Lemma length_order_bytes_Z o n v : zlen (order_bytes o n v) = Z.of_nat n.
Proof using. by rewrite length_order_bytes. Qed.

Lemma f_write_Ok bs bytes p : f_write bs (mk_fstream bytes p []) = Ok (mk_fstream (put_at bytes p bs) (p + zlen bs) []).
Proof using. done. Qed.

(** C30: When the writes succeed, closing a file of at least a header's length appends
    the trailer to its records and changes nothing else but three words of its header,
    which hold, in the byte order of the file, where the trailer is, that there is an
    index, and the number of records. *)
Theorem trailer_written (c : closing) bytes :
  zlen bytes = c.(bytesWrittenToFile) -> 56 <= zlen bytes < 18446744073709551616 ->
  HEADER_SIZE_BYTES + 4 * zlen c.(recLengths) < 4294967296 ->
  exists p, writeTrailerToFile c (mk_fstream bytes (zlen bytes) []) =
    Ok (mk_fstream (patched c bytes ++ trailer c (trailer_order c)) p []) /\
  length (patched c bytes) = length bytes /\
  field (patched c bytes) 40 (order_bytes c.(c_order) 8 (zlen bytes)) /\
  field (patched c bytes) 12 (order_bytes c.(c_order) 4 (u32 (c.(recordNum) - 1))) /\
  (c.(writeIndx) = true -> field (patched c bytes) 20 (order_bytes c.(c_order) 4 (setBitInfo c.(hasFirstEvent) c.(hasDictionary) true))) /\
  (forall i, (i < 12 \/ 16 <= i < 20 \/ 24 <= i < 40 \/ 48 <= i)%nat -> patched c bytes !! i = bytes !! i).
Proof using All.
  intros Hb Hl Hr.
  set (b1 := put_at bytes 40 (order_bytes c.(c_order) 8 c.(bytesWrittenToFile))).
  set (b2 := if c.(writeIndx) then put_at b1 20 (order_bytes c.(c_order) 4 (setBitInfo c.(hasFirstEvent) c.(hasDictionary) true)) else b1).
  assert (patched c bytes = put_at b2 12 (order_bytes c.(c_order) 4 (u32 (c.(recordNum) - 1)))) as Hp by done.
  assert (length b1 = length bytes) as Hl1 by (apply length_put_at; rewrite ?length_order_bytes; lia).
  assert (length b2 = length bytes) as Hl2 by (subst b2; destruct c.(writeIndx); [rewrite length_put_at; rewrite ?length_order_bytes; lia|done]).
  assert (store bytes 40 (order_bytes c.(c_order) 8 c.(bytesWrittenToFile)) = Some b1) as S1 by (apply put_at_store; rewrite ?length_order_bytes; lia).
  assert (store b2 12 (order_bytes c.(c_order) 4 (u32 (c.(recordNum) - 1))) = Some (patched c bytes)) as S3
    by (rewrite Hp; apply put_at_store; rewrite ?length_order_bytes; lia).
  assert (field b2 40 (order_bytes c.(c_order) 8 c.(bytesWrittenToFile))) as F1.
  { pose proof (field_stored _ _ _ _ S1) as F. subst b2. destruct c.(writeIndx); [|done].
    apply (field_kept b1 _ _ 20 (order_bytes c.(c_order) 4 (setBitInfo c.(hasFirstEvent) c.(hasDictionary) true)) _ F);
      [apply put_at_store; rewrite ?length_order_bytes; lia|rewrite !length_order_bytes; lia]. }
  exists 16. split; [|split; [|split; [|split; [|split]]]].
  - unfold writeTrailerToFile. rewrite (u32_small (HEADER_SIZE_BYTES + _)) by (unfold HEADER_SIZE_BYTES in *; lia).
    match goal with |- (?m ≫= _) = _ => assert (m = Ok (mk_fstream (bytes ++ trailer c (trailer_order c)) (zlen bytes + zlen (trailer c (trailer_order c))) [])) as -> end.
    { unfold trailer, trailer_order. destruct c.(writeIndx); by rewrite f_write_Ok, put_at_end. }
    generalize (trailer c (trailer_order c)) as t. intros t. unfold f_write_int, seekg. cbn [mbind result_bind f_bytes f_writes].
    rewrite swapped_bytes_8 by lia. rewrite f_write_Ok, put_at_app by (rewrite ?length_order_bytes; unfold TRAILER_POSITION_OFFSET; lia).
    cbn [mbind result_bind]. change TRAILER_POSITION_OFFSET with 40. fold b1.
    rewrite !swapped_bytes_4 by (apply setBitInfo_range || apply u32_range).
    match goal with |- (?m ≫= _) = _ => assert (exists q, m = Ok (mk_fstream (b2 ++ t) q [])) as [q ->] end.
    { subst b2. destruct c.(writeIndx); [|by eexists]. cbn [f_bytes f_writes]. rewrite f_write_Ok, put_at_app; [by eexists|..];
        rewrite ?length_order_bytes; unfold FileHeader_BIT_INFO_OFFSET; lia. }
    cbn [mbind result_bind f_bytes f_writes]. change RECORD_COUNT_OFFSET with 12.
    rewrite f_write_Ok, put_at_app by (rewrite ?length_order_bytes; lia). rewrite <- Hp. do 2 f_equal.
    rewrite length_order_bytes. done.
  - by rewrite (store_length _ _ _ _ S3).
  - rewrite Hb. eapply field_kept; [exact F1|exact S3|]. rewrite !length_order_bytes. lia.
  - by eapply field_stored.
  - intros Hw. eapply field_kept; [|exact S3|rewrite !length_order_bytes; lia]. subst b2. rewrite Hw.
    eapply field_stored, put_at_store; rewrite ?length_order_bytes; lia.
  - intros i Hi. rewrite Hp. rewrite put_at_lookup by (rewrite ?length_order_bytes; lia).
    subst b2. destruct c.(writeIndx); rewrite ?put_at_lookup by (rewrite ?length_order_bytes; lia);
      unfold b1; rewrite put_at_lookup by (rewrite ?length_order_bytes; lia); done.
Qed.

(** An index of more than 2048 bytes goes through a new buffer, which has the byte
    order of the host: the trailer of a file in the other order is not in its order. *)
Theorem long_index_order (c : closing) :
  c.(writeIndx) = true -> c.(c_order) <> host_order -> 512 < zlen c.(recLengths) ->
  trailer_order c <> c.(c_order).
Proof using.
  intros Hw Ho Hl. unfold trailer_order, index_order. rewrite Hw. unfold hdrBufferBytes, HEADER_SIZE_BYTES.
  destruct (Z.ltb_spec (56 + 2048) (56 + 4 * zlen c.(recLengths))); [congruence|lia].
Qed.
Lemma short_index_order (c : closing) : zlen c.(recLengths) <= 512 -> trailer_order c = c.(c_order).
Proof using.
  intros Hl. unfold trailer_order, index_order, hdrBufferBytes, HEADER_SIZE_BYTES.
  destruct c.(writeIndx); [|done]. destruct (Z.ltb_spec (56 + 2048) (56 + 4 * zlen c.(recLengths))); [lia|done].
Qed.

(** Whatever the writes do, the item goes back to the supply first, and the file is closed. *)
Lemma closer_always_closes c f : (closer_run c f).2 = [ReleasedSequential; Closed; RemovedThread].
Proof using. done. Qed.
End Written.

(** ** What FileCloser does with its threads *)

Lemma filter_remove (t : nat) (l : list nat) : t ∉ l -> filter (fun x => x <> t) l = l.
Proof.
  induction l as [|x l IH]; intros Ht; [done|]. apply not_elem_of_cons in Ht as [H1 H2].
  rewrite filter_cons_True by congruence. f_equal. by apply IH.
Qed.

(** One thread is stopped and forgotten. *)
Lemma close_one t s : close (mk_closer [t] s) = Ok (mk_closer [] s).
Proof.
  unfold close. cbn [threads sharedPtrOfMe length close_loop lookup list_lookup checked mbind result_bind].
  unfold stopThread, removeThread. cbn [sharedPtrOfMe]. by destruct (decide (t ∈ s)).
Qed.

Lemma length_filter_remove (t : nat) (l : list nat) i : NoDup l -> l !! i = Some t ->
  Datatypes.S (length (filter (fun x => x <> t) l)) = length l.
Proof.
  revert i. induction l as [|x l IH]; intros i Hnd Hi; [done|]. apply NoDup_cons in Hnd as [Hx Hnd]. destruct i as [|i]; cbn in Hi.
  - assert (x = t) as -> by congruence. rewrite filter_cons_False by (intros Hc; by apply Hc). by rewrite filter_remove.
  - rewrite filter_cons_True; [cbn; by rewrite (IH i)|]. intros ->. apply Hx. by eapply list_elem_of_lookup_2.
Qed.

Lemma close_loop_overruns n i ts s : (forall t, t ∈ ts -> t ∈ s) -> NoDup ts -> (1 <= n)%nat -> (length ts < n + i)%nat ->
  close_loop n i (mk_closer ts s) = UB.
Proof.
  revert i ts. induction n as [|n IH]; intros i ts Hs Hnd Hn Hl; [lia|]. cbn [close_loop threads].
  destruct (ts !! i) as [t|] eqn:Ht; [|done]. cbn [checked mbind result_bind]. unfold stopThread, removeThread. cbn [sharedPtrOfMe threads].
  rewrite decide_True by (apply Hs; by eapply list_elem_of_lookup_2).
  pose proof (length_filter_remove t ts i Hnd Ht) as Hlen. apply lookup_lt_Some in Ht as Hi. apply IH.
  - intros x [_ Hx]%list_elem_of_filter. by apply Hs.
  - by apply NoDup_filter.
  - lia.
  - lia.
Qed.

(** FileCloser::close with two or more threads that still run and know themselves:
    the first one stopped takes itself out of the vector under the loop, which then
    goes on behind the end of the vector. *)
Theorem close_overruns c : NoDup c.(threads) -> (forall t, t ∈ c.(threads) -> t ∈ c.(sharedPtrOfMe)) ->
  (2 <= length c.(threads))%nat -> close c = UB.
Proof.
  destruct c as [ts s]. cbn [threads sharedPtrOfMe]. intros Hnd Hs Hl. unfold close. cbn [threads].
  destruct ts as [|a ts]; [cbn in Hl; lia|]. cbn [length close_loop threads lookup list_lookup checked mbind result_bind].
  unfold stopThread at 1, removeThread at 1. cbn [sharedPtrOfMe threads]. rewrite decide_True by (apply Hs; left).
  pose proof (length_filter_remove a (a :: ts) 0 Hnd eq_refl) as Hlen. cbn [length] in Hlen, Hl.
  rewrite close_loop_overruns; [done| | |lia|lia].
  - intros x [_ Hx]%list_elem_of_filter. by apply Hs.
  - by apply NoDup_filter.
Qed.

(** A thread that ends before it is told the pointer to itself stays in the vector. *)
Theorem early_end_stays t c : t ∉ c.(sharedPtrOfMe) -> t ∉ c.(threads) ->
  t ∈ (foldl closer_step c [End t; Push t; SetSelf t]).(threads).
Proof.
  intros Hs Ht. cbn. unfold removeThread. rewrite decide_False by done. cbn. apply elem_of_app. right. left.
Qed.
(** One that ends later is forgotten. *)
Lemma late_end_forgotten t c : t ∉ c.(threads) ->
  (foldl closer_step c [Push t; SetSelf t; End t]).(threads) = c.(threads).
Proof.
  intros Ht. cbn. unfold removeThread. cbn [sharedPtrOfMe]. rewrite decide_True by left. cbn [threads].
  rewrite filter_app, filter_remove by done. rewrite filter_cons_False by (intros Hc; by apply Hc). by rewrite app_nil_r.
Qed.

Lemma close_overruns_witness : close (mk_closer [3; 5]%nat [3; 5]%nat) = UB.
Proof.
  apply close_overruns; cbn.
  - apply NoDup_cons. split; [|apply NoDup_singleton]. intros H%list_elem_of_singleton. done.
  - done.
  - lia.
Defined.

(** ** A file of 60 bytes, big endian on a little-endian host *)

Definition headers_example : Headers := {|
  writeTrailer := fun _ limit n _ => replicate (Z.to_nat limit) (n mod 256);
  setBitInfo := fun a b c => Z.b2z a + 2 * Z.b2z b + 4 * Z.b2z c
|}.
Lemma headers_example_laws : @HeadersLaws headers_example.
Proof.
  constructor; cbn.
  - intros _ limit n _ Hl. rewrite length_replicate. lia.
  - by intros [] [] [].
Qed.

Definition closing_example : closing := mk_closing true false [100; 3] 60 2 true true false ENDIAN_BIG.
Lemma trailer_written_witness : exists bytes : list Z,
  @patched headers_example closing_example (replicate 60%nat 7) = bytes /\ field bytes 40 [0; 0; 0; 0; 0; 0; 0; 60] /\ field bytes 12 [0; 0; 0; 1].
Proof.
  destruct (@trailer_written ENDIAN_LITTLE headers_example headers_example_laws closing_example (replicate 60 7))
    as (p & _ & _ & H40 & H12 & _); [reflexivity|rewrite length_replicate; lia|cbn; unfold HEADER_SIZE_BYTES; lia|].
  eexists. split; [reflexivity|]. split; [exact H40|exact H12].
Defined.
