(* ===== verification/EvioWriteThread.v ===== *)
(** The threads behind the writers of evio: RecordWriter of EventWriter.h and of
    WriterMT.h, which write records to a file, and RecordCompressor.h. *)
From Stdlib Require Import Sorted.
From S2P Require Import Prelude Bytes.

(** ** RecordWriter of EventWriter *)

(** A RecordRingItem as far as the thread asks it; a copy is not one of the ring. *)
Record item := mk_item { getSequence : Z; getId : Z; isCheckDisk : bool; splitFileAfterWrite : bool;
  isAlreadyReleased : bool; from_ring : bool }.

(** What the thread does to the outside, in order. *)
Inductive writer_event :=
  | Got (it : item)
  | ToDisk (it : item) (force : bool)   (** writeToFileMT *)
  | Split                               (** splitFile *)
  | Released (it : item).               (** releaseWriter *)

(** Where run() is, between two accesses to what other threads share. *)
Inductive writer_pc :=
  | Getting | Start (it : item)
  | Look (it : item) | LookForce (it : item) | Sleep (it : item)
  | Write (it : item) | Writing (it : item) (force : bool)
  | Wrote (it : item) | WroteForced (it : item) | Clear (it : item)
  | Processed (it : item) | Splitting (it : item) | Releasing (it : item)
  | Crashed (it : item).

Record thread := mk_thread {
  pc : writer_pc; currentSeq : Z;
  lastSeqProcessed : Z; forceToDisk : bool; forcedRecordId : Z;  (** atomic variables *)
  trace : list writer_event
}.
Definition new_thread : thread := mk_thread Getting 0 (-1) false 0 [].

(** What comes in: the item of getToWrite, whether nothing was written to the file yet,
    whether the disk is full, how writeToFileMT ends; the two stores of
    setForcedRecordId, by another thread; [Go]: the thread goes on. *)
Inductive action :=
  | Item (it : item) | Nothing (written : bool) | FullDisk (full : bool) | Done | Fails | Go
  | SetForcedId (id : Z) | SetForce.

Section RecordWriter.
(** The copy constructor of items is declared only: whether a copy counts as released. *)
Context (copy_released : item -> bool).

Definition storeRecordCopy (it : item) : item :=
  mk_item it.(getSequence) it.(getId) it.(isCheckDisk) it.(splitFileAfterWrite) (copy_released it) false.

Definition at_place (p : writer_pc) (s : thread) : thread :=
  mk_thread p s.(currentSeq) s.(lastSeqProcessed) s.(forceToDisk) s.(forcedRecordId) s.(trace).
Definition emits (e : list writer_event) (p : writer_pc) (s : thread) : thread :=
  mk_thread p s.(currentSeq) s.(lastSeqProcessed) s.(forceToDisk) s.(forcedRecordId) (s.(trace) ++ e).

Definition run_step (s : thread) (a : action) : option thread :=
  match s.(pc), a with
  | _, SetForcedId id => Some (mk_thread s.(pc) s.(currentSeq) s.(lastSeqProcessed) s.(forceToDisk) id s.(trace))
  | _, SetForce => Some (mk_thread s.(pc) s.(currentSeq) s.(lastSeqProcessed) true s.(forcedRecordId) s.(trace))
  | Getting, Item it =>
    Some (mk_thread (Start it) it.(getSequence) s.(lastSeqProcessed) s.(forceToDisk) s.(forcedRecordId) (s.(trace) ++ [Got it]))
  | Start it, Nothing written =>
    Some (at_place (if written && it.(isCheckDisk) && negb s.(forceToDisk) then Look it else Write it) s)
  | Look it, FullDisk full => Some (at_place (if full then LookForce it else Write it) s)
  | LookForce it, Go => Some (at_place (if s.(forceToDisk) then Write it else Sleep it) s)
  | Sleep it, Go =>
    Some (if it.(isAlreadyReleased) then at_place (Look it) s
          else emits [Released it] (Look (storeRecordCopy it)) s)
  | Write it, Go => Some (at_place (Writing it s.(forceToDisk)) s)
  | Writing it force, Done => Some (emits [ToDisk it force] (Wrote it) s)
  | Writing it force, Fails => Some (at_place (Crashed it) s)
  | Wrote it, Go => Some (at_place (if s.(forceToDisk) then WroteForced it else Processed it) s)
  | WroteForced it, Go => Some (at_place (if s.(forcedRecordId) =? it.(getId) then Clear it else Processed it) s)
  | Clear it, Go => Some (mk_thread (Processed it) s.(currentSeq) s.(lastSeqProcessed) false s.(forcedRecordId) s.(trace))
  | Processed it, Go => Some (mk_thread (Splitting it) s.(currentSeq) s.(currentSeq) s.(forceToDisk) s.(forcedRecordId) s.(trace))
  | Splitting it, Go => Some (emits (if it.(splitFileAfterWrite) then [Split] else []) (Releasing it) s)
  | Releasing it, Go => Some (emits [Released it] Getting s)
  | _, _ => None
  end.

Fixpoint run_writer (actions : list action) (s : thread) : option thread :=
  match actions with
  | [] => Some s
  | a :: actions => s' ← run_step s a; run_writer actions s'
  end.

(** waitForLastItem, with the two sequences each of its looks finds; [None]: it waits. *)
Fixpoint waitForLastItem (looks : list (Z * Z)) : option Z :=
  match looks with
  | [] => None
  | (getLastSequence, lastSeqProcessed) :: looks =>
    if lastSeqProcessed <? getLastSequence then waitForLastItem looks else Some getLastSequence
  end.

(** ** What is written *)

(** The items got, those on disk and the splits; the hand-backs to the ring are apart. *)
Inductive visible := VGot (seq : Z) | VDisk (seq : Z) | VSplit.
#[export] Instance visible_eq_dec : EqDecision visible.
Proof. solve_decision. Defined.
Definition see (e : writer_event) : list visible :=
  match e with
  | Got it => [VGot it.(getSequence)]
  | ToDisk it _ => [VDisk it.(getSequence)]
  | Split => [VSplit]
  | Released _ => []
  end.
Definition seen (t : list writer_event) : list visible := mjoin (map see t).
Definition ring_releases (t : list writer_event) : list Z :=
  omap (fun e => match e with Released it => if it.(from_ring) then Some it.(getSequence) else None | _ => None end) t.

(** All that is seen of an item: it is got and written, and the file may be split. *)
Definition whole (it : item) : list visible :=
  [VGot it.(getSequence); VDisk it.(getSequence)] ++ (if it.(splitFileAfterWrite) then [VSplit] else []).

(** The item at hand, and how much of it is seen. *)
Definition at_hand (p : writer_pc) : option (item * list visible) :=
  match p with
  | Getting => None
  | Start it | Look it | LookForce it | Sleep it | Write it | Writing it _ | Crashed it => Some (it, [VGot it.(getSequence)])
  | Wrote it | WroteForced it | Clear it | Processed it | Splitting it =>
    Some (it, [VGot it.(getSequence); VDisk it.(getSequence)])
  | Releasing it => Some (it, whole it)
  end.
Definition processed (p : writer_pc) : bool := match p with Splitting _ | Releasing _ => true | _ => false end.
Definition last_seq (done : list item) : Z := match last done with Some it => it.(getSequence) | None => -1 end.

Lemma seen_app a b : seen (a ++ b) = seen a ++ seen b.
Proof using. unfold seen. rewrite map_app. apply join_app. Qed.
Lemma ring_releases_app a b : ring_releases (a ++ b) = ring_releases a ++ ring_releases b.
Proof using. apply omap_app. Qed.

(** The items that were dealt with, one after the other, and the one at hand. *)
Record writes_in_order (s : thread) (done : list item) : Prop := {
  io_current it l : at_hand s.(pc) = Some (it, l) -> s.(currentSeq) = it.(getSequence);
  io_seen : seen s.(trace) = mjoin (map whole done) ++ match at_hand s.(pc) with Some (_, l) => l | None => [] end;
  io_last : s.(lastSeqProcessed) = if processed s.(pc) then s.(currentSeq) else last_seq done
}.

(** Items of the supply. *)
Definition action_ok (a : action) : Prop :=
  match a with Item it => it.(from_ring) = true /\ it.(isAlreadyReleased) = false | _ => True end.

Lemma run_step_in_order s a s' done : run_step s a = Some s' -> writes_in_order s done -> exists done', writes_in_order s' done'.
Proof using.
  intros Hs [Hc Hse Hl]. pose proof Hs as Hs0. unfold run_step in Hs.
  assert ((exists it, s.(pc) = Releasing it /\ a = Go) \/ ~ (exists it, s.(pc) = Releasing it /\ a = Go)) as [(it & Hp & ->)|Hno]
    by (clear; destruct s.(pc), a; first [left; by eauto | right; by intros (? & ? & ?)]).
  - exists (done ++ [it]). rewrite Hp in *. injection Hs as <-. specialize (Hc it _ eq_refl). split; cbn [emits pc currentSeq lastSeqProcessed trace at_hand processed].
    + done.
    + rewrite seen_app, Hse. cbn [at_hand seen map see mjoin]. rewrite !app_nil_r, map_app, join_app. cbn. by rewrite app_nil_r.
    + cbn in Hl. rewrite Hl, Hc. unfold last_seq. by rewrite last_snoc.
  - exists done. destruct s as [p cur last force id t]. cbn [pc currentSeq lastSeqProcessed forceToDisk forcedRecordId trace] in *.
    destruct p, a; try discriminate Hs; try (by exfalso; apply Hno; eauto); injection Hs as <-;
      cbn [emits at_place pc currentSeq lastSeqProcessed trace at_hand processed] in *; clear Hno Hs0;
      repeat match goal with |- context [if ?b then _ else _] => destruct b eqn:? end;
      (split; cbn [emits at_place pc currentSeq lastSeqProcessed trace at_hand processed] in *;
        [ try done; try (by intros ? ? [= <- <-]); try (intros ? ? [= <- <-]; by eapply Hc)
        | rewrite ?seen_app, ?Hse; unfold seen, whole; cbn [map see mjoin list_join storeRecordCopy getSequence app];
          rewrite ?app_nil_r, <- ?app_assoc; try done
        | try done; try congruence ]).
    + intros ? ? [= <- <-]. by apply (Hc it _ eq_refl).
    + by rewrite Heqb.
    + by rewrite Heqb.
Qed.

Lemma run_app l1 l2 s : run_writer (l1 ++ l2) s = (s' ← run_writer l1 s; run_writer l2 s').
Proof using.
  revert s. induction l1 as [|a l1 IH]; intros s; cbn; [done|]. by destruct (run_step s a); cbn.
Qed.

Lemma run_in_order actions s s' done : run_writer actions s = Some s' -> writes_in_order s done -> exists done', writes_in_order s' done'.
Proof using.
  revert s done. induction actions as [|a actions IH]; intros s done Hr Hi; cbn [run_writer] in Hr; [injection Hr as <-; by exists done|].
  apply option_bind_Some in Hr as (s1 & H1 & H2). destruct (run_step_in_order _ _ _ _ H1 Hi) as (d1 & Hd). by eapply IH.
Qed.
Lemma new_in_order : writes_in_order new_thread [].
Proof using. by split. Qed.

(** C25: Whatever other threads do and however often the disk is full, every record got
    from the supply is written once, in the order of the supply, a file is split behind
    the record that asks for it and before the next one is got, and the last sequence
    processed is that of the last record on disk. *)
Theorem written_in_order actions s : run_writer actions new_thread = Some s ->
  exists done, seen s.(trace) = mjoin (map whole done) ++ match at_hand s.(pc) with Some (_, l) => l | None => [] end /\
    s.(lastSeqProcessed) = match at_hand s.(pc) with
      | Some (it, _) => if processed s.(pc) then it.(getSequence) else last_seq done
      | None => last_seq done
      end.
Proof using.
  intros Hr. destruct (run_in_order _ _ _ _ Hr new_in_order) as (done & [Hc Hs Hl]). exists done. split; [done|].
  rewrite Hl. destruct (at_hand s.(pc)) as [[it l]|] eqn:Ha; [by rewrite (Hc _ _ eq_refl)|]. by destruct s.(pc).
Qed.

(** ** What waitForLastItem waits for *)

Definition got_seqs (t : list writer_event) : list Z := omap (fun e => match e with Got it => Some it.(getSequence) | _ => None end) t.
Definition vgot (v : visible) : option Z := match v with VGot q => Some q | _ => None end.
Lemma got_seqs_seen t : got_seqs t = omap vgot (seen t).
Proof using.
  induction t as [|e t IH]; [done|]. change (seen (e :: t)) with (see e ++ seen t). rewrite omap_app, <- IH. by destruct e.
Qed.
Lemma got_whole done : omap vgot (mjoin (map whole done)) = map getSequence done.
Proof using.
  induction done as [|it done IH]; [done|].
  change (mjoin (map whole (it :: done))) with (whole it ++ mjoin (map whole done)). rewrite omap_app, IH. unfold whole.
  by destruct it.(splitFileAfterWrite).
Qed.
Lemma whole_on_disk done it : it ∈ done -> VDisk it.(getSequence) ∈ mjoin (map whole done).
Proof using.
  intros Hi. apply list_elem_of_join. exists (whole it). split; [|by apply list_elem_of_fmap_2]. right. left.
Qed.

Lemma waitForLastItem_spec looks n : waitForLastItem looks = Some n -> exists p, (n, p) ∈ looks /\ n <= p.
Proof using.
  induction looks as [|[n' p] looks IH]; cbn [waitForLastItem]; [done|]. destruct (Z.ltb_spec p n').
  - intros Hw. destruct (IH Hw) as (q & ? & ?). exists q. split; [by right|done].
  - intros [= ->]. exists p. split; [left|done].
Qed.

Lemma seqZ_next k : 0 <= k -> seqZ 0 (k + 1) = seqZ 0 k ++ [k].
Proof using. intros. by rewrite seqZ_app by lia. Qed.

Lemma seqZ_sorted m n : StronglySorted Z.lt (seqZ m n).
Proof using.
  destruct (Z.le_gt_cases 0 n) as [Hn|Hn]; [|rewrite seqZ_nil by lia; constructor]. revert m.
  pattern n. apply natlike_ind; [|clear n Hn; intros n Hn IH m|done]; [intros m; constructor|].
  rewrite seqZ_cons by lia. rewrite Z.pred_succ. constructor; [apply IH|].
  apply Forall_forall. intros x Hx%elem_of_seqZ. lia.
Qed.

Lemma sorted_next (l : list Z) x y : StronglySorted Z.lt (l ++ [x] ++ [y]) -> x < y.
Proof using.
  induction l as [|z l IH]; cbn; intros [Hs Hf]%StronglySorted_inv; [|by apply IH]. by apply Forall_cons in Hf as [? _].
Qed.

(** When the last sequence processed has reached a sequence, every record up to it that
    was got is on disk. *)
Lemma got_on_disk actions s n q :
  run_writer actions new_thread = Some s -> StronglySorted Z.lt (got_seqs s.(trace)) ->
  n <= s.(lastSeqProcessed) -> q ∈ got_seqs s.(trace) -> 0 <= q <= n -> VDisk q ∈ seen s.(trace).
Proof using.
  intros Hr Hsort Hn Hq Hle. destruct (run_in_order _ _ _ _ Hr new_in_order) as (done & [Hc Hs Hl]).
  rewrite got_seqs_seen, Hs, omap_app, got_whole in Hsort, Hq. rewrite Hs. apply elem_of_app in Hq as [Hq|Hq].
  - apply elem_of_app. left. apply list_elem_of_In, in_map_iff in Hq as (it & <- & Hi%list_elem_of_In). by apply whole_on_disk.
  - apply elem_of_app. destruct (at_hand s.(pc)) as [[it l]|] eqn:Ha; [|by apply elem_of_nil in Hq].
    assert (omap vgot l = [it.(getSequence)]) as Hl1
      by (destruct s.(pc); cbn in Ha; simplify_eq; unfold whole; try (destruct (splitFileAfterWrite it)); done).
    rewrite Hl1 in Hsort, Hq. apply list_elem_of_singleton in Hq as ->.
    destruct (decide (VDisk it.(getSequence) ∈ l)) as [Hd|Hd]; [by right|]. exfalso.
    assert (processed s.(pc) = false) as Hp.
    { destruct s.(pc); try done; cbn in Ha; simplify_eq; exfalso; apply Hd; right; left. }
    rewrite Hp in Hl.
    unfold last_seq in Hl. destruct (last done) as [it'|] eqn:Hlast; [|lia].
    assert (it'.(getSequence) < it.(getSequence)); [|lia].
    assert (exists d, done = d ++ [it']) as [d ->] by (apply last_Some in Hlast as [d ->]; by exists d).
    rewrite map_app in Hsort. cbn [map] in Hsort. rewrite <- app_assoc in Hsort. by eapply sorted_next.
Qed.

(** The writing thread, the thread that publishes records and the one that calls
    waitForLastItem.  The supply hands the records published out one at a time, in the
    order of their sequences from 0 on, and getLastSequence is the last one published.
    A look of the waiting thread reads two variables, in either order. *)
Record system := mk_system { writer : thread; published : Z; last_read : option Z; processed_read : option Z;
  looks : list (Z * Z) }.
Definition new_system : system := mk_system new_thread (-1) None None [].
Inductive sys_action := ByWriter (a : action) | Publish | ReadLast | ReadProcessed.

Definition supplied (s : system) (a : action) : bool :=
  match a with
  | Item it => (it.(getSequence) =? zlen (got_seqs s.(writer).(trace))) && (it.(getSequence) <=? s.(published))
  | _ => true
  end.

(** A look is complete when both variables were read. *)
Definition take_look (s : system) : system :=
  match s.(last_read), s.(processed_read) with
  | Some n, Some p => mk_system s.(writer) s.(published) None None (s.(looks) ++ [(n, p)])
  | _, _ => s
  end.

Definition sys_step (s : system) (a : sys_action) : option system :=
  match a with
  | ByWriter a =>
    if supplied s a then t ← run_step s.(writer) a; Some (mk_system t s.(published) s.(last_read) s.(processed_read) s.(looks))
    else None
  | Publish => Some (mk_system s.(writer) (s.(published) + 1) s.(last_read) s.(processed_read) s.(looks))
  | ReadLast => Some (take_look (mk_system s.(writer) s.(published) (Some s.(published)) s.(processed_read) s.(looks)))
  | ReadProcessed =>
    Some (take_look (mk_system s.(writer) s.(published) s.(last_read) (Some s.(writer).(lastSeqProcessed)) s.(looks)))
  end.

Fixpoint sys_run (actions : list sys_action) (s : system) : option system :=
  match actions with
  | [] => Some s
  | a :: actions => s' ← sys_step s a; sys_run actions s'
  end.

Definition records (s : system) : Z := zlen (got_seqs s.(writer).(trace)).

Record sys_ok (s : system) : Prop := mk_sys_ok {
  sy_reached : exists actions, run_writer actions new_thread = Some s.(writer);
  sy_got : got_seqs s.(writer).(trace) = seqZ 0 (records s);
  sy_published : records s <= s.(published) + 1;
  sy_hand it l : at_hand s.(writer).(pc) = Some (it, l) -> s.(writer).(currentSeq) = records s - 1;
  sy_processed : s.(writer).(lastSeqProcessed) < records s;
  sy_looks n p : (n, p) ∈ s.(looks) -> n <= s.(published) /\ p <= s.(writer).(lastSeqProcessed);
  sy_last n : s.(last_read) = Some n -> n <= s.(published);
  sy_proc p : s.(processed_read) = Some p -> p <= s.(writer).(lastSeqProcessed)
}.

Lemma new_ok : sys_ok new_system.
Proof using. split; try done. - by exists []. - intros n p Hn. by apply elem_of_nil in Hn. Qed.

Lemma look_ok s : sys_ok s -> sys_ok (take_look s).
Proof using.
  intros Hs. unfold take_look. destruct s.(last_read) as [n|] eqn:Hn; [|exact Hs].
  destruct s.(processed_read) as [p|] eqn:Hp; [|exact Hs]. destruct Hs.
  split; try done. cbn. intros n' p' [H|H%list_elem_of_singleton]%elem_of_app; [by apply sy_looks0|].
  injection H as -> ->. split; [by apply sy_last0|by apply sy_proc0].
Qed.

(** A step of the writer gets at most one record, and only then; the last sequence
    processed becomes that of the record at hand, or stays. *)
Lemma writer_step_seqs t a t' : run_step t a = Some t' ->
  match a with
  | Item it => got_seqs t'.(trace) = got_seqs t.(trace) ++ [it.(getSequence)] /\ t'.(currentSeq) = it.(getSequence)
               /\ t'.(lastSeqProcessed) = t.(lastSeqProcessed)
  | _ => got_seqs t'.(trace) = got_seqs t.(trace) /\ t'.(currentSeq) = t.(currentSeq)
         /\ (t'.(lastSeqProcessed) = t.(lastSeqProcessed) \/ is_Some (at_hand t.(pc)) /\ t'.(lastSeqProcessed) = t.(currentSeq))
         /\ (is_Some (at_hand t'.(pc)) -> is_Some (at_hand t.(pc)))
  end.
Proof using.
  unfold run_step. destruct t as [p cur last force id tr]. cbn [pc currentSeq lastSeqProcessed forceToDisk forcedRecordId trace].
  destruct p, a; try discriminate; intros [= <-]; cbn [emits at_place pc currentSeq lastSeqProcessed trace at_hand];
    repeat match goal with |- context [if ?b then _ else _] => destruct b end;
    cbn [emits at_place pc currentSeq lastSeqProcessed trace at_hand];
    unfold got_seqs; rewrite ?omap_app; cbn; rewrite ?app_nil_r; split_and?; eauto.
Qed.

Lemma writer_step_ok s a t : supplied s a = true -> run_step s.(writer) a = Some t -> sys_ok s ->
  sys_ok (mk_system t s.(published) s.(last_read) s.(processed_read) s.(looks)).
Proof using.
  intros Hsup Hstep []. pose proof (writer_step_seqs _ _ _ Hstep) as Hw.
  assert (Hreach : exists actions, run_writer actions new_thread = Some t).
  { destruct sy_reached0 as (acts & Ha). exists (acts ++ [a]). rewrite run_app, Ha. cbn. by rewrite Hstep. }
  assert (Hmono : s.(writer).(lastSeqProcessed) <= t.(lastSeqProcessed) /\
    got_seqs t.(trace) = seqZ 0 (zlen (got_seqs t.(trace))) /\ zlen (got_seqs t.(trace)) <= s.(published) + 1 /\
    (is_Some (at_hand t.(pc)) -> t.(currentSeq) = zlen (got_seqs t.(trace)) - 1) /\
    t.(lastSeqProcessed) < zlen (got_seqs t.(trace))).
  { unfold records in *. destruct a as [it| | | | | | |].
    1: { destruct Hw as (Hg & Hc & Hl). cbn in Hsup. apply andb_prop in Hsup as [H1%Z.eqb_eq H2%Z.leb_le].
      rewrite Hl, Hc, Hg, length_app. cbn [length]. rewrite Nat2Z.inj_add, seqZ_next, <- sy_got0, H1 by lia.
      split_and!; try done; try lia. }
    all: destruct Hw as (Hg & Hc & Hl & Hh); rewrite Hc, Hg;
      assert (Hcur : is_Some (at_hand s.(writer).(pc)) -> s.(writer).(currentSeq) = zlen (got_seqs s.(writer).(trace)) - 1)
        by (intros [[it l] Hit]; by eapply sy_hand0);
      (split; [|split; [done|split; [done|split; [auto|]]]]); destruct Hl as [->|[Hs ->]]; try lia;
      specialize (Hcur Hs); lia. }
  destruct Hmono as (Hm1 & Hm2 & Hm3 & Hm4 & Hm5). split; unfold records; cbn [writer published looks last_read processed_read]; try done.
  - intros it l Hit. by apply Hm4.
  - intros n p Hin. apply sy_looks0 in Hin. lia.
  - intros p Hp. apply sy_proc0 in Hp. lia.
Qed.

Lemma sys_step_ok s a s' : sys_step s a = Some s' -> sys_ok s -> sys_ok s'.
Proof using.
  intros Hstep Hs. destruct a as [a| | |]; cbn [sys_step] in Hstep.
  - destruct (supplied s a) eqn:Hsup; [|done]. apply option_bind_Some in Hstep as (t & Ht & Hstep).
    injection Hstep as <-. by eapply writer_step_ok.
  - injection Hstep as <-. destruct Hs. split; unfold records in *; cbn [writer published looks last_read processed_read]; try done; try lia.
    + intros n p Hin. apply sy_looks0 in Hin. lia.
    + intros n Hn. apply sy_last0 in Hn. lia.
  - injection Hstep as <-. apply look_ok. destruct Hs. split; try done. cbn. by intros n [= <-].
  - injection Hstep as <-. apply look_ok. destruct Hs. split; try done. cbn. by intros n [= <-].
Qed.

Lemma sys_run_ok actions s s' : sys_run actions s = Some s' -> sys_ok s -> sys_ok s'.
Proof using.
  revert s. induction actions as [|a actions IH]; intros s Hr Hs; cbn in Hr; [by injection Hr as <-|].
  apply option_bind_Some in Hr as (s1 & H1 & H2). eapply IH; [done|]. by eapply sys_step_ok.
Qed.

Lemma waitForLastItem_snoc l n p : waitForLastItem l = None ->
  waitForLastItem (l ++ [(n, p)]) = if p <? n then None else Some n.
Proof using.
  induction l as [|[n' p'] l IH]; [done|]. cbn [waitForLastItem app]. destruct (p' <? n'); [by apply IH|done].
Qed.

(** When the disk has room and writes succeed: what the thread is told at a place, and how
    far it is from asking for the next record. *)
Definition told (p : writer_pc) : action :=
  match p with Start _ => Nothing false | Look _ => FullDisk false | Writing _ _ => Done | _ => Go end.
Definition good_action (a : action) : Prop :=
  match a with Item _ | Nothing _ | Done | Go => True | FullDisk full => full = false | _ => False end.
Definition rank (p : writer_pc) : nat :=
  match p with
  | Getting | Crashed _ => 0 | Releasing _ => 1 | Splitting _ => 2 | Processed _ => 3 | Clear _ => 4 | WroteForced _ => 5
  | Wrote _ => 6 | Writing _ _ => 7 | Write _ => 8 | Look _ => 9 | Start _ => 10 | Sleep _ => 10 | LookForce _ => 11
  end.
Definition running (p : writer_pc) : bool := match p with Crashed _ => false | _ => true end.

Lemma told_step t : running t.(pc) = true -> t.(pc) <> Getting ->
  exists t', run_step t (told t.(pc)) = Some t' /\ (rank t'.(pc) < rank t.(pc))%nat /\ running t'.(pc) = true.
Proof using.
  intros Hr Hg. unfold run_step. destruct t as [p cur last force id tr]. cbn [pc forceToDisk forcedRecordId] in *.
  destruct p; try done; cbn [told]; eexists; (split; [reflexivity|]);
    repeat match goal with |- context [if ?b then _ else _] => destruct b eqn:? end;
    cbn [emits at_place pc rank running]; try (split; [lia|done]).
Qed.

Lemma told_good p : good_action (told p).
Proof using. by destruct p. Qed.

Definition good_sys (a : sys_action) : Prop := match a with ByWriter a => good_action a | Publish => False | _ => True end.

Lemma sys_run_app l1 l2 s : sys_run (l1 ++ l2) s = (s' ← sys_run l1 s; sys_run l2 s').
Proof using. revert s. induction l1 as [|a l1 IH]; intros s; cbn; [done|]. by destruct (sys_step s a); cbn. Qed.

Lemma records_told t t' p : run_step t (told p) = Some t' -> got_seqs t'.(trace) = got_seqs t.(trace).
Proof using. intros H. apply writer_step_seqs in H. destruct p; cbn [told] in H; by destruct H as [-> _]. Qed.

(** The thread comes to the point where it asks for the next record. *)
Lemma comes_back n : forall s, (rank s.(writer).(pc) < n)%nat -> running s.(writer).(pc) = true ->
  exists acts t, sys_run acts s = Some (mk_system t s.(published) s.(last_read) s.(processed_read) s.(looks)) /\
    Forall good_sys acts /\ t.(pc) = Getting /\ got_seqs t.(trace) = got_seqs s.(writer).(trace).
Proof using.
  induction n as [|n IH]; intros s Hn Hr; [lia|].
  destruct (decide (rank s.(writer).(pc) = 0%nat)) as [H0|H0].
  { exists [], s.(writer). split; [by destruct s|]. split; [done|]. split; [by destruct s.(writer).(pc)|done]. }
  destruct (told_step s.(writer) Hr) as (t' & Ht & Hlt & Hr'); [by intros E; rewrite E in H0|].
  destruct (IH (mk_system t' s.(published) s.(last_read) s.(processed_read) s.(looks))) as (acts & t & Ha & Hg & Hp & Hgot);
    cbn [writer] in *; [lia|done|].
  exists (ByWriter (told s.(writer).(pc)) :: acts), t. split.
  - cbn [sys_run sys_step]. replace (supplied s (told s.(writer).(pc))) with true by (by destruct s.(writer).(pc)).
    rewrite Ht. exact Ha.
  - split; [by constructor; [apply told_good|]|]. split; [done|]. rewrite Hgot. by eapply records_told.
Qed.

Lemma getting_processed s : sys_ok s -> s.(writer).(pc) = Getting -> s.(writer).(lastSeqProcessed) = records s - 1.
Proof using.
  intros [] Hp. destruct sy_reached0 as (acts & Hacts).
  destruct (run_in_order _ _ _ _ Hacts new_in_order) as (done & [_ Hs Hl]). rewrite Hp in Hs, Hl. cbn in Hs, Hl.
  rewrite app_nil_r in Hs. unfold records in *. rewrite got_seqs_seen, Hs, got_whole in sy_got0 |- *. rewrite Hl. unfold last_seq.
  rewrite length_map in *. destruct done as [|it done _] using rev_ind; [done|].
  rewrite last_snoc, length_app in *. cbn [length] in *. rewrite Nat2Z.inj_add, seqZ_next, map_app in sy_got0 by lia.
  apply app_inj_2 in sy_got0 as [_ H]; [|done]. injection H as ->. lia.
Qed.

(** When the disk has room and writes succeed, everything published gets processed. *)
Lemma catches_up n : forall s, sys_ok s -> running s.(writer).(pc) = true -> Z.to_nat (s.(published) + 1 - records s) = n ->
  exists acts t, sys_run acts s = Some (mk_system t s.(published) s.(last_read) s.(processed_read) s.(looks)) /\
    Forall good_sys acts /\ t.(lastSeqProcessed) = s.(published).
Proof using.
  induction n as [|n IH]; intros s Hs Hr Hn;
    destruct (comes_back _ s (Nat.lt_succ_diag_r _) Hr) as (acts & t & Ha & Hg & Hp & Hgot);
    pose proof (sys_run_ok _ _ _ Ha Hs) as Hs1; pose proof (getting_processed _ Hs1 Hp) as Hl;
    pose proof (sy_published _ Hs) as Hpub; unfold records in *; cbn [writer] in *; rewrite Hgot in Hl.
  - exists acts, t. split; [exact Ha|]. split; [done|]. lia.
  - set (it := mk_item (zlen (got_seqs t.(trace))) 0 false false false true).
    set (s1 := mk_system t s.(published) s.(last_read) s.(processed_read) s.(looks)) in *.
    assert (Hstep : sys_step s1 (ByWriter (Item it)) = Some (mk_system (mk_thread (Start it) it.(getSequence) t.(lastSeqProcessed)
      t.(forceToDisk) t.(forcedRecordId) (t.(trace) ++ [Got it])) s.(published) s.(last_read) s.(processed_read) s.(looks))).
    { cbn [sys_step supplied s1 writer published]. cbn [it getSequence]. rewrite Z.eqb_refl, (proj2 (Z.leb_le _ _)) by (rewrite Hgot; lia).
      cbn [andb]. unfold run_step. by rewrite Hp. }
    destruct (IH _ (sys_step_ok _ _ _ Hstep Hs1)) as (acts2 & t2 & Ha2 & Hg2 & Hl2); cbn [writer pc published trace] in *;
      [done| |].
    { unfold got_seqs in *. rewrite omap_app, length_app, Hgot. cbn. lia. }
    exists (acts ++ ByWriter (Item it) :: acts2), t2. split; [|split; [|done]].
    + rewrite sys_run_app, Ha. cbn [mbind option_bind sys_run]. by rewrite Hstep.
    + apply Forall_app. split; [done|]. by constructor.
Qed.

(** C28: When waitForLastItem is done waiting, every record that was published up to the
    sequence it waited for is on disk, however the threads were interleaved.  And its
    wait can end: from any state in which the writer has not failed, when the disk has room,
    writes succeed and nothing more is published, steps of the writer and one more look end it. *)
Theorem waited_on_disk actions s : sys_run actions new_system = Some s ->
  (forall n q, waitForLastItem s.(looks) = Some n -> 0 <= q <= n -> VDisk q ∈ seen s.(writer).(trace)) /\
  (waitForLastItem s.(looks) = None -> s.(last_read) = None -> s.(processed_read) = None ->
   running s.(writer).(pc) = true ->
   exists acts s', Forall good_sys acts /\ sys_run acts s = Some s' /\ waitForLastItem s'.(looks) = Some s.(published)).
Proof using.
  intros Hr. pose proof (sys_run_ok _ _ _ Hr new_ok) as Hok. split.
  - destruct Hok. intros n q Hw Hq. apply waitForLastItem_spec in Hw as (p & Hin & Hle). apply sy_looks0 in Hin as [Hn Hp].
    destruct sy_reached0 as (acts & Hacts).
    apply (got_on_disk acts _ n q Hacts); [|lia| |lia]; rewrite sy_got0.
    + apply seqZ_sorted.
    + apply elem_of_seqZ. lia.
  - intros Hw Hl Hp Hrun. destruct (catches_up _ s Hok Hrun eq_refl) as (acts & t & Ha & Hg & Ht).
    destruct s as [t0 pub l p lk]. cbn in Hw, Hl, Hp, Ha, Ht |- *. subst l p.
    exists (acts ++ [ReadLast; ReadProcessed]). eexists. split; [by apply Forall_app; split; [|repeat constructor]|].
    rewrite sys_run_app, Ha. cbn. split; [reflexivity|]. cbn.
    rewrite waitForLastItem_snoc by done. by rewrite Ht, Z.ltb_irrefl.
Qed.

(** ** Handing records back *)

(** The item at hand, when it is not back in the ring yet. *)
Definition not_back (p : writer_pc) : list Z :=
  match at_hand p with Some (it, _) => if it.(from_ring) then [it.(getSequence)] else [] | None => [] end.
Record releases_ok (s : thread) : Prop := {
  ro_seqs : got_seqs s.(trace) = ring_releases s.(trace) ++ not_back s.(pc);
  ro_flag it l : at_hand s.(pc) = Some (it, l) -> it.(isAlreadyReleased) = negb it.(from_ring)
}.

Lemma got_seqs_app a b : got_seqs (a ++ b) = got_seqs a ++ got_seqs b.
Proof using. apply omap_app. Qed.

Section Marked.
Hypothesis copy_marked : forall it, copy_released it = true.

Lemma run_step_releases s a s' : run_step s a = Some s' -> action_ok a -> releases_ok s -> releases_ok s'.
Proof using copy_marked.
  intros Hs Hok [Hg Hf]. unfold run_step in Hs. destruct s as [p cur last force id t].
  cbn [pc currentSeq lastSeqProcessed forceToDisk forcedRecordId trace] in *.
  destruct p as [|it|it|it|it|it|it fc|it|it|it|it|it|it|it], a; try discriminate Hs; injection Hs as <-;
    cbn [emits at_place pc currentSeq lastSeqProcessed trace at_hand] in *;
    repeat match goal with |- context [if ?b then _ else _] =>
      lazymatch b with from_ring _ => fail | _ => destruct b eqn:? end end;
    try specialize (Hf _ _ eq_refl);
    (split; unfold not_back in *; cbn [emits at_place pc currentSeq lastSeqProcessed trace at_hand] in *;
      [ rewrite ?got_seqs_app, ?ring_releases_app, Hg; cbn; rewrite ?app_nil_r; try done
      | try (intros ? ? [= <- <-]; cbn; try done; by rewrite ?copy_marked) ]).
  - by destruct Hok as [-> _].
  - intros ? ? [= <- <-]. by destruct Hok as [-> ->].
  - by destruct it.(from_ring).
  - by destruct it.(from_ring).
Qed.

(** When a copy of an item counts as released, every record of the ring is handed
    back to it once and in order, also one that waited for space on the disk: whenever
    the thread asks for the next record, those handed back are those it got. *)
Theorem released_once actions s : run_writer actions new_thread = Some s -> Forall action_ok actions ->
  got_seqs s.(trace) = ring_releases s.(trace) ++ not_back s.(pc).
Proof using copy_marked.
  intros Hr Hok. enough (releases_ok s) as [? _] by done.
  assert (releases_ok new_thread) as H0 by (split; done). revert Hr H0. generalize new_thread as s0. clear -copy_marked Hok.
  induction Hok as [|a actions Ha _ IH]; intros s0 Hr H0; cbn [run_writer] in Hr; [by injection Hr as <-|].
  apply option_bind_Some in Hr as (s1 & H1 & H2). eapply IH; [done|]. by eapply run_step_releases.
Qed.
End Marked.

(** ** Forced writes *)

(** Nobody sets a forced record, and the record that was set does not come. *)
Definition no_request (x : Z) (a : action) : Prop :=
  match a with Item it => it.(getId) <> x | SetForcedId _ | SetForce => False | _ => True end.
Definition forced_writes (t : list writer_event) : Prop := Forall (fun e => match e with ToDisk _ f => f = true | _ => True end) t.
Definition forced_at (x : Z) (p : writer_pc) : Prop :=
  match p with
  | Look _ | LookForce _ | Sleep _ | Clear _ | Writing _ false => False
  | _ => match at_hand p with Some (it, _) => it.(getId) <> x | None => True end
  end.

(** After setForcedRecordId, and until the record it names has come, every record is
    written without a look at the disk and with the mark that forces it. *)
Theorem force_holds x actions s s' : run_writer actions s = Some s' -> Forall (no_request x) actions ->
  s.(forceToDisk) = true -> s.(forcedRecordId) = x -> forced_at x s.(pc) -> forced_writes s.(trace) ->
  s'.(forceToDisk) = true /\ forced_writes s'.(trace) /\ forced_at x s'.(pc).
Proof using.
  intros Hr Hq. revert s Hr. induction Hq as [|a actions Ha _ IH]; intros s Hr Hf Hid Hp Hw; cbn [run_writer] in Hr; [by injection Hr as <-|].
  apply option_bind_Some in Hr as (s1 & H1 & H2).
  assert (s1.(forceToDisk) = true /\ s1.(forcedRecordId) = x /\ forced_at x s1.(pc) /\ forced_writes s1.(trace)) as (? & ? & ? & ?);
    [|by apply (IH s1)].
  clear IH H2. unfold run_step in H1. destruct s as [p cur last force id t].
  cbn [pc currentSeq lastSeqProcessed forceToDisk forcedRecordId trace] in *. subst force id.
  destruct p as [|it|it|it|it|it|it [|]|it|it|it|it|it|it|it], a; try discriminate H1; try done; injection H1 as <-;
    unfold forced_writes; cbn [emits at_place pc forceToDisk forcedRecordId trace negb andb] in *; rewrite ?andb_false_r;
    rewrite ?Forall_app; try (split_and!; try done; by repeat constructor).
  - cbn in Hp. destruct (Z.eqb_spec x it.(getId)); [congruence|done].
  - split_and!; try done. destruct it.(splitFileAfterWrite); by repeat constructor.
Qed.

(** Another record set while the thread is between its look at the old one and the
    clearing of the flag: the new request is lost. *)
Definition race_of_requests : list action :=
  [SetForcedId 1; SetForce; Item (mk_item 0 1 true false false true); Nothing true; Go; Done; Go; Go;
   SetForcedId 2; SetForce; Go].
Theorem force_lost : exists s, run_writer race_of_requests new_thread = Some s /\ s.(forceToDisk) = false /\ s.(forcedRecordId) = 2.
Proof using. eexists. split; [reflexivity|]. split; reflexivity. Qed.

(** While the disk stays full and nothing is forced nothing is written. *)
Theorem full_disk_waits it actions s s' : run_writer actions s = Some s' ->
  Forall (fun a => match a with FullDisk full => full = true | Go => True | _ => False end) actions ->
  s.(pc) = Look it -> s.(forceToDisk) = false ->
  s'.(forceToDisk) = false /\ seen s'.(trace) = seen s.(trace) /\
  (exists it', at_hand s'.(pc) = Some (it', [VGot it.(getSequence)])).
Proof using.
  intros Hr Hq Hp Hf.
  assert (match s.(pc) with Look i | LookForce i | Sleep i => i.(getSequence) = it.(getSequence) | _ => False end) as Hl by (by rewrite Hp).
  clear Hp. revert s Hr Hf Hl. induction Hq as [|a actions Ha _ IH]; intros s Hr Hf Hl; cbn [run_writer] in Hr.
  - injection Hr as <-. split; [done|]. split; [done|]. destruct s.(pc); try done; rewrite <- Hl; by eexists.
  - apply option_bind_Some in Hr as (s1 & H1 & H2). unfold run_step in H1. destruct s as [p cur last force id t].
    cbn [pc currentSeq lastSeqProcessed forceToDisk forcedRecordId trace] in *. subst force.
    destruct p, a; try done; injection H1 as <-; subst; specialize (IH _ H2).
    all: try (apply IH; done).
    destruct (isAlreadyReleased it0); cbn [emits at_place trace] in IH; [by apply IH|].
    rewrite seen_app in IH. change (seen [Released it0]) with (@nil visible) in IH. rewrite app_nil_r in IH. by apply IH.
Qed.
End RecordWriter.

(** ** RecordWriter of WriterMT *)

(** A record to be written: length and number of entries of its header, and the array of
    its buffer. *)
Record record := mk_record { getLength : Z; getEntries : Z; r_array : list Z }.
Inductive mt_event := Reset (seq : Z) | MtReleased (seq : Z).
Record mt_writer := mk_mt { recordLengths : list Z; writerBytesWritten : Z; outFile : list Z; mt_last : Z; mt_trace : list mt_event }.

Definition write_error : string := "failed write to file".
(** The body of the loop for a record and its sequence; an exception of the write is no
    interruption: it leaves the thread, which ends the program. *)
Definition mt_step (w : mt_writer) (seq : Z) (r : record) (fails : bool) : result mt_writer :=
  let bytesToWrite := i32 r.(getLength) in
  let lengths := w.(recordLengths) ++ [u32 bytesToWrite; r.(getEntries)] in
  let bytes := u64 (w.(writerBytesWritten) + bytesToWrite) in
  bs ← checked (load r.(r_array) 0 bytesToWrite);
  if fails : bool then Throw write_error
  else Ok (mk_mt lengths bytes (w.(outFile) ++ bs) seq (w.(mt_trace) ++ [Reset seq; MtReleased seq])).

Fixpoint mt_run (rs : list (Z * record)) (w : mt_writer) : result mt_writer :=
  match rs with
  | [] => Ok w
  | (seq, r) :: rs => w ← mt_step w seq r false; mt_run rs w
  end.

Definition record_ok (r : record) : Prop := 0 <= r.(getLength) < 2147483648 /\ r.(getLength) <= zlen r.(r_array).
Definition record_bytes (r : record) : list Z := take (Z.to_nat r.(getLength)) r.(r_array).

(** What is written of records, one behind the other, and what is noted of them. *)
Theorem mt_writes_records rs w : Forall (fun x => record_ok x.2) rs ->
  0 <= w.(writerBytesWritten) -> zlen w.(outFile) = w.(writerBytesWritten) ->
  zlen w.(outFile) + zlen (mjoin (map (fun x => record_bytes x.2) rs)) < 18446744073709551616 ->
  exists w', mt_run rs w = Ok w' /\
    w'.(outFile) = w.(outFile) ++ mjoin (map (fun x => record_bytes x.2) rs) /\
    w'.(writerBytesWritten) = zlen w'.(outFile) /\
    w'.(recordLengths) = w.(recordLengths) ++ mjoin (map (fun x => [getLength x.2; getEntries x.2]) rs) /\
    w'.(mt_trace) = w.(mt_trace) ++ mjoin (map (fun x => [Reset x.1; MtReleased x.1]) rs).
Proof.
  intros Hok. revert w. induction Hok as [|[q r] rs [Hr Hlen] _ IH]; intros w Hb Hf Hs.
  - exists w. split; [done|]. rewrite !app_nil_r. done.
  - cbn [mt_run]. unfold mt_step. cbn [fst snd] in *. rewrite i32_small by lia. rewrite load_spec by lia. cbn [checked mbind result_bind].
    change (mjoin (map _ ((q, r) :: rs))) with (record_bytes r ++ mjoin (map (fun x : Z * record => record_bytes x.2) rs)) in Hs.
    assert (zlen (record_bytes r) = r.(getLength)) as Hrl by (unfold record_bytes; rewrite length_take; lia).
    rewrite length_app in Hs.
    destruct (IH (mk_mt (w.(recordLengths) ++ [u32 r.(getLength); r.(getEntries)]) (u64 (w.(writerBytesWritten) + r.(getLength)))
      (w.(outFile) ++ record_bytes r) q (w.(mt_trace) ++ [Reset q; MtReleased q]))) as (w' & Hw & H1 & H2 & H3 & H4);
      cbn [outFile writerBytesWritten recordLengths mt_trace] in *.
    + apply u64_range.
    + rewrite length_app, u64_small by lia. lia.
    + rewrite length_app. lia.
    + exists w'. split; [unfold record_bytes in Hw; by rewrite drop_0|].
      rewrite H1, H3, H4, u32_small, <- !app_assoc by lia. split_and!; [done|rewrite H2, H1; by rewrite <- app_assoc|done|done].
Qed.

Theorem mt_write_error w seq r : record_ok r -> mt_step w seq r true = Throw write_error.
Proof. intros [? ?]. unfold mt_step. rewrite i32_small by lia. by rewrite load_spec by lia. Qed.

(** ** RecordCompressor *)

Inductive compress_event := Release (thread : Z) (seq : Z) | SetCompressionType (r : nat) | Build (r : nat) | ReleaseCompressor (r : nat).
(** run() of the thread with a number, given the records it gets: first everything
    before its first record is released. *)
Definition compress (threadNumber : Z) (rs : list nat) : list compress_event :=
  let seqNumber := i64 (i64 threadNumber - 1) in
  Release threadNumber seqNumber :: mjoin (map (fun r => [SetCompressionType r; Build r; ReleaseCompressor r]) rs).
Lemma compress_first threadNumber rs : 0 <= threadNumber < 4294967296 ->
  hd_error (compress threadNumber rs) = Some (Release threadNumber (threadNumber - 1)).
Proof. intros Ht. cbn. by rewrite !i64_small by (rewrite ?i64_small; lia). Qed.

(** ** Two records, the disk being full at first *)

Definition first_item : item := mk_item 0 1 true true false true.
Definition second_item : item := mk_item 1 2 false false false true.
Definition example_actions : list action :=
  [Item first_item; Nothing true; FullDisk true; Go; Go; FullDisk true; Go; Go; FullDisk false; Go; Done; Go; Go; Go; Go;
   Item second_item; Nothing false; Go; Done; Go; Go; Go; Go].
Definition example_thread : thread :=
  mk_thread Getting 1 1 false 0
    [Got first_item; Released first_item; ToDisk (storeRecordCopy (fun _ => true) first_item) false; Split;
     Released (storeRecordCopy (fun _ => true) first_item); Got second_item; ToDisk second_item false; Released second_item].
Lemma example_runs : run_writer (fun _ => true) example_actions new_thread = Some example_thread.
Proof. reflexivity. Qed.

Lemma written_in_order_witness : exists done, seen example_thread.(trace) = mjoin (map whole done) ++ [].
Proof.
  destruct (written_in_order (fun _ => true) example_actions example_thread example_runs) as (done & Hs & _). exists done. exact Hs.
Defined.
(** Two records are published; a first look finds none of them written, one after the writer's
    work finds both. *)
Definition example_interleaving : list sys_action :=
  [Publish; ReadLast; ReadProcessed; Publish; ReadLast] ++ map ByWriter example_actions ++ [ReadProcessed].
Definition example_system : system := mk_system example_thread 1 None None [(0, -1); (1, 1)].
Lemma interleaving_runs : sys_run (fun _ => true) example_interleaving new_system = Some example_system.
Proof. vm_compute. reflexivity. Qed.

Lemma waited_on_disk_witness : waitForLastItem example_system.(looks) = Some 1 /\
  VDisk 0 ∈ seen example_system.(writer).(trace) /\ VDisk 1 ∈ seen example_system.(writer).(trace).
Proof.
  split; [reflexivity|].
  split; apply (waited_on_disk (fun _ => true) example_interleaving example_system interleaving_runs) with (n := 1);
    [reflexivity|lia|reflexivity|lia].
Defined.
Lemma released_once_witness : got_seqs example_thread.(trace) = ring_releases example_thread.(trace) ++ not_back example_thread.(pc).
Proof.
  apply (released_once (fun _ => true) (fun _ => eq_refl) example_actions example_thread example_runs).
  unfold example_actions. repeat constructor.
Defined.
Lemma force_holds_witness : exists s, run_writer (fun _ => false) [SetForcedId 7; SetForce; Item first_item; Nothing true; Go; Done] new_thread = Some s /\
  forced_writes s.(trace).
Proof.
  eexists. split; [reflexivity|].
  apply (force_holds (fun _ => false) 7 [Item first_item; Nothing true; Go; Done] (mk_thread Getting 0 (-1) true 7 [])); try reflexivity.
  - repeat constructor. cbn. lia.
  - constructor.
Defined.
