(* ===== verification/EvioFiles.v ===== *)
(** Util.h: buffers written to files and read back, and the ranges of bytes that
    printBytes prints. *)
From stdpp Require Import gmap strings.
From S2P Require Import Prelude Bytes ByteOrder EvioBuffer.

(** ** Files by name *)

Definition invalid_file_name : string := "fileName arg is invalid".
Definition file_open_failed (fileName : string) : string := String.append "error opening file " fileName.
Definition file_write_failed (fileName : string) : string := String.append "error writing to file " fileName.
Definition file_read_failed (fileName : string) : string := String.append "error reading from file " fileName.

Section Files.
Context {methods : ByteBufferMethods} {laws : ByteBufferLaws methods}.
(** The names that can be opened for writing, whether a write to them is reported to
    have succeeded, and what is in the file when not. *)
Context (writable written : string -> bool) (left_behind : list Z -> list Z).
Abbreviation disk := (gmap string (list Z)).

(** The bytes from the position to the limit, in the array behind a buffer. *)
Definition array_pos (b : ByteBuffer) : Z := u64 (b.(off) + b.(pos)).

(** Opening for writing empties the file, whether the writing succeeds or not. *)
Definition writeBytes (fileName : string) (b : ByteBuffer) (m : arrays) (d : disk) : disk * result unit :=
  if String.eqb fileName EmptyString then (d, Throw invalid_file_name)
  else if negb (writable fileName) then (d, Throw (file_open_failed fileName))
  else match peek m b (array_pos b) (remaining b) with
       | Ok bs => if written fileName then (<[fileName := bs]> d, Ok tt)
                  else (<[fileName := left_behind bs]> d, Throw (file_write_failed fileName))
       | Throw e => (d, Throw e)
       | UB => (d, UB)
       end.

(** A file that is too short fills what it can, and the read fails. *)
Definition readBytes (fileName : string) (b : ByteBuffer) (m : arrays) (d : disk) : arrays * result ByteBuffer :=
  if String.eqb fileName EmptyString then (m, Throw invalid_file_name)
  else match d !! fileName with
       | None => (m, Throw (file_open_failed fileName))
       | Some bytes =>
         let bs := take (Z.to_nat (remaining b)) bytes in
         match poke m b (array_pos b) bs with
         | Ok m' => if zlen bs <? remaining b then (m', Throw (file_read_failed fileName)) else (m', Ok (set_pos b.(lim) b))
         | Throw e => (m, Throw e)
         | UB => (m, UB)
         end
       end.

(** What the array of a buffer must hold, and that it does. *)
Record io_buffer_ok (m : arrays) (b : ByteBuffer) : Prop := {
  bo_pos : 0 <= b.(pos) <= b.(lim);
  bo_off : 0 <= b.(off);
  bo_array : exists a, m !! b.(buf) = Some a /\ b.(off) + b.(lim) <= zlen a < 18446744073709551616
}.
(** The bytes between position and limit. *)
Definition contents (m : arrays) (b : ByteBuffer) : option (list Z) :=
  a ← m !! b.(buf); Some (take (Z.to_nat (b.(lim) - b.(pos))) (drop (Z.to_nat (b.(off) + b.(pos))) a)).

Lemma array_pos_small m b : io_buffer_ok m b -> array_pos b = b.(off) + b.(pos) /\ remaining b = b.(lim) - b.(pos).
Proof using laws.
  intros [? ? (a & _ & ?)]. unfold array_pos. rewrite (remaining_law (methods := methods)). by rewrite !u64_small by lia.
Qed.

Lemma write_succeeds fileName b m d : fileName <> EmptyString -> writable fileName = true -> io_buffer_ok m b ->
  written fileName = true ->
  exists bs, contents m b = Some bs /\ zlen bs = b.(lim) - b.(pos) /\ writeBytes fileName b m d = (<[fileName := bs]> d, Ok tt).
Proof using laws.
  intros Hn Hw Hb Hroom. destruct (array_pos_small m b Hb) as [Hp Hr]. destruct Hb as [? ? (a & Ha & ?)].
  unfold writeBytes, contents. destruct (String.eqb_spec fileName EmptyString); [done|]. rewrite Hw, Hp, Hr, Ha. cbn [negb].
  unfold peek, array_of. rewrite Ha. cbn [checked mbind result_bind option_bind]. rewrite load_spec by lia. cbn [checked].
  rewrite Hroom. eexists. split; [done|]. rewrite length_take, length_drop. split; [lia|done].
Qed.

(** What writeBytes puts into a file readBytes gets back: into any buffer with room
    for as many bytes, which is full then, and no other array is touched. *)
Theorem file_roundtrip fileName b b' m m' d :
  fileName <> EmptyString -> writable fileName = true -> io_buffer_ok m b -> io_buffer_ok m' b' ->
  written fileName = true -> b'.(lim) - b'.(pos) = b.(lim) - b.(pos) ->
  exists d' m'', writeBytes fileName b m d = (d', Ok tt) /\
    readBytes fileName b' m' d' = (m'', Ok (set_pos b'.(lim) b')) /\
    contents m'' b' = contents m b /\ (forall k, k <> b'.(buf) -> m'' !! k = m' !! k).
Proof using laws.
  intros Hn Hw Hb Hb' Hroom Hlen. destruct (write_succeeds fileName b m d Hn Hw Hb Hroom) as (bs & Hc & Hbs & Hwr).
  destruct (array_pos_small m' b' Hb') as [Hp Hr]. destruct Hb' as [? ? (a & Ha & ?)].
  exists (<[fileName := bs]> d). rewrite Hwr. unfold readBytes. destruct (String.eqb_spec fileName EmptyString); [done|].
  rewrite lookup_insert_eq, Hr, Hp. rewrite take_ge by lia. unfold poke, array_of. rewrite Ha. cbn [checked mbind result_bind].
  rewrite store_spec by lia. cbn [checked]. destruct (Z.ltb_spec (zlen bs) (b'.(lim) - b'.(pos))); [lia|].
  eexists. split; [done|]. split; [done|]. split.
  - rewrite Hc. unfold contents. rewrite lookup_insert_eq. cbn [mbind option_bind]. f_equal.
    rewrite load_splice_at by lia. rewrite Nat.sub_diag, drop_0. rewrite take_ge by lia. done.
  - intros k Hk. by rewrite lookup_insert_ne by done.
Qed.

(** A file that is too short is an error, although the buffer was written to. *)
Theorem short_file_fails fileName b m d bytes : fileName <> EmptyString -> d !! fileName = Some bytes -> io_buffer_ok m b ->
  zlen bytes < b.(lim) - b.(pos) ->
  (readBytes fileName b m d).2 = Throw (file_read_failed fileName).
Proof using laws.
  intros Hn Hd Hb Hl. destruct (array_pos_small m b Hb) as [Hp Hr]. destruct Hb as [? ? (a & Ha & ?)].
  unfold readBytes. destruct (String.eqb_spec fileName EmptyString); [done|]. rewrite Hd, Hr, Hp, take_ge by lia.
  unfold poke, array_of. rewrite Ha. cbn [checked mbind result_bind]. rewrite store_spec by lia. cbn [checked].
  by destruct (Z.ltb_spec (zlen bytes) (b.(lim) - b.(pos))); [|lia].
Qed.
End Files.

(** ** printBytes *)

(** How many bytes of a buffer are printed: all in 32 bits, the capacity being a
    size_t; then the indices they have. *)
Definition print_count (capacity position bytes : Z) : Z :=
  if capacity <? u32 (bytes + position) then u32 (u64 (capacity - position)) else bytes.
Definition printed_indices (capacity position bytes : Z) : list Z :=
  map (fun i => u32 (Z.of_nat i + position)) (seq 0 (Z.to_nat (print_count capacity position bytes))).

(** The file is read from its start: seekg(0). *)
Definition print_file (fileBytes : list Z) (offset bytes : Z) : list Z :=
  let fileSize := zlen fileBytes in
  let limit := if fileSize <? u64 (bytes + offset) then fileSize else u64 (bytes + offset) in
  let dataLen := u32 (u64 (limit - offset)) in
  take (Z.to_nat dataLen) fileBytes.

(** A range that begins inside the buffer is cut at its end. *)
Lemma printed_inside capacity position bytes : 0 <= position <= capacity -> capacity < 4294967296 -> 0 <= bytes ->
  bytes + position < 4294967296 ->
  forall x, x ∈ printed_indices capacity position bytes <-> position <= x < Z.min capacity (position + bytes).
Proof.
  intros Hp Hc Hb Hs x. unfold printed_indices.
  assert (print_count capacity position bytes = Z.min capacity (position + bytes) - position) as ->.
  { unfold print_count. rewrite u32_small by lia. destruct (Z.ltb_spec capacity (bytes + position)); [|lia].
    rewrite u64_small, u32_small by lia. lia. }
  rewrite list_elem_of_In, in_map_iff. split.
  - intros (i & <- & Hi%in_seq). rewrite u32_small by lia. lia.
  - intros Hx. exists (Z.to_nat (x - position)). rewrite u32_small by lia. split; [lia|]. apply in_seq. lia.
Qed.

(** One that begins behind the end is not: the rest is a 32-bit difference. *)
Theorem printed_behind capacity position bytes : 0 <= capacity < position -> position < 4294967296 -> 0 <= bytes ->
  bytes + position < 4294967296 -> print_count capacity position bytes = 4294967296 - (position - capacity).
Proof.
  intros Hc Hp Hb Hs. unfold print_count. rewrite u32_small by lia. destruct (Z.ltb_spec capacity (bytes + position)); [|lia].
  unfold u32, u64. replace (capacity - position) with (18446744073709551616 - (position - capacity) + (-1) * 18446744073709551616) at 1 by lia.
  rewrite Z_mod_plus_full, (Z.mod_small (18446744073709551616 - _)) by lia.
  replace (18446744073709551616 - (position - capacity)) with (4294967296 - (position - capacity) + 4294967295 * 4294967296) by lia.
  rewrite Z_mod_plus_full. apply Z.mod_small. lia.
Qed.

(** Of a file the first bytes are printed, whatever the offset. *)
Theorem print_file_offset fileBytes offset bytes : 0 <= offset -> 0 <= bytes < 4294967296 ->
  offset + bytes <= zlen fileBytes < 18446744073709551616 ->
  print_file fileBytes offset bytes = take (Z.to_nat bytes) fileBytes.
Proof.
  intros Ho Hb Hs. unfold print_file. rewrite (u64_small (bytes + offset)) by lia.
  destruct (Z.ltb_spec (zlen fileBytes) (bytes + offset)); [lia|]. rewrite u64_small, u32_small by lia. do 2 f_equal. lia.
Qed.

Lemma file_roundtrip_witness : exists d' m'',
  writeBytes (methods := java) (fun _ => true) (fun _ => true) (fun bs => bs) "f" (mk_buffer 1 3 0 1 ENDIAN_BIG) {[1%positive := [7; 8; 9; 10]]} ∅ = (d', Ok tt) /\
  readBytes (methods := java) "f" (mk_buffer 0 2 1 1 ENDIAN_LITTLE) {[1%positive := [0; 0; 0]]} d' =
    (m'', Ok (mk_buffer 2 2 1 1 ENDIAN_LITTLE)).
Proof.
  destruct (file_roundtrip (laws := java_laws) (fun _ => true) (fun _ => true) (fun bs => bs) "f" (mk_buffer 1 3 0 1 ENDIAN_BIG)
    (mk_buffer 0 2 1 1 ENDIAN_LITTLE) {[1%positive := [7; 8; 9; 10]]} {[1%positive := [0; 0; 0]]} ∅) as (d' & m'' & H1 & H2 & _).
  - discriminate.
  - reflexivity.
  - constructor; cbn; try lia. eexists. split; [reflexivity|cbn; lia].
  - constructor; cbn; try lia. eexists. split; [reflexivity|cbn; lia].
  - reflexivity.
  - reflexivity.
  - exists d', m''. split; [exact H1|exact H2].
Defined.
