(* ===== verification/Helpers.v ===== *)
(** Small classes of the Disruptor port: BlockingQueue.h, AggregateEventHandler.h and
    NoOpEventProcessor.h. *)
From S2P Require Import Prelude Sequencer.

(** ** BlockingQueue *)

Section BlockingQueue.
Context {T : Type}.

(** Every method holds the mutex while it works on m_queue; waiting gives it up, so that
    a call of timedWaitAndPop is a step when it ends: with a value, or with none when the
    time is up, which can only be while the queue is empty. *)
Inductive queue_call := Push (value : T) | TimedWaitAndPop (timeout : bool) | Empty.
Inductive queue_answer := Pushed | Popped (value : T) | TimedOut | IsEmpty (b : bool) | Waits.

Definition queue_step (m_queue : list T) (c : queue_call) : list T * queue_answer :=
  match c with
  | Push value => (m_queue ++ [value], Pushed)
  | TimedWaitAndPop timeout =>
    match m_queue with
    | [] => ([], if timeout then TimedOut else Waits)
    | value :: m_queue => (m_queue, Popped value)
    end
  | Empty => (m_queue, IsEmpty (match m_queue with [] => true | _ => false end))
  end.

(** Calls of any threads, in the order in which they hold the mutex. *)
Fixpoint queue_run (m_queue : list T) (calls : list queue_call) : list T * list queue_answer :=
  match calls with
  | [] => (m_queue, [])
  | c :: calls =>
    let '(m_queue, a) := queue_step m_queue c in
    let '(m_queue, l) := queue_run m_queue calls in
    (m_queue, a :: l)
  end.

Definition all_pushed (calls : list queue_call) : list T := omap (fun c => match c with Push v => Some v | _ => None end) calls.
Definition all_popped (answers : list queue_answer) : list T := omap (fun a => match a with Popped v => Some v | _ => None end) answers.

(** Nothing is lost, doubled or overtaken, also when calls time out. *)
Theorem blocking_queue_fifo m_queue calls : let '(rest, answers) := queue_run m_queue calls in
  all_popped answers ++ rest = m_queue ++ all_pushed calls.
Proof using.
  revert m_queue. induction calls as [|c calls IH]; intros m_queue; cbn [queue_run]; [cbn; by rewrite app_nil_r|].
  destruct c as [v|timeout|]; cbn [queue_step].
  - specialize (IH (m_queue ++ [v])). destruct (queue_run _ calls) as [rest l]. cbn.
    etrans; [exact IH|]. by rewrite <- app_assoc.
  - destruct m_queue as [|v m_queue].
    + specialize (IH []). destruct (queue_run _ calls) as [rest l]. by destruct timeout.
    + specialize (IH m_queue). destruct (queue_run _ calls) as [rest l]. cbn. f_equal. exact IH.
  - specialize (IH m_queue). destruct (queue_run _ calls) as [rest l]. exact IH.
Qed.

(** A call that times out or waits found the queue empty. *)
Lemma time_out_empty m_queue timeout : (queue_step m_queue (TimedWaitAndPop timeout)).2 = (if timeout then TimedOut else Waits) <-> m_queue = [].
Proof using. destruct m_queue, timeout; done. Qed.
End BlockingQueue.

(** ** AggregateEventHandler *)

Section Aggregate.
(** A handler of the vector: whether it takes part in the life cycle, and whether a call
    of it throws. *)
Record aggregated := mk_aggregated { ILifecycleAware : bool; throws : bool }.

(** The calls made, by the places of the handlers, and whether one of them threw: an
    exception leaves the loop. *)
Fixpoint each (called : aggregated -> bool) (i : nat) (m_eventHandlers : list aggregated) : list nat * bool :=
  match m_eventHandlers with
  | [] => ([], false)
  | h :: l =>
    if called h then if h.(throws) then ([i], true) else let '(c, t) := each called (S i) l in (i :: c, t)
    else each called (S i) l
  end.
Definition aggregate_onEvent := each (fun _ => true) 0.
Definition aggregate_onStart := each ILifecycleAware 0.
Definition aggregate_onShutdown := each ILifecycleAware 0.

Lemma each_all called i l : Forall (fun h => h.(throws) = false) l ->
  each called i l = (omap (fun '(k, h) => if called h then Some k else None) (zip (seq i (length l)) l), false).
Proof using.
  intros Hl. revert i. induction Hl as [|h l Hh _ IH]; intros i; [done|]. cbn [each length seq zip zip_with omap list_omap].
  rewrite Hh, IH. by destruct (called h).
Qed.

(** Without exceptions every handler gets the event, in order. *)
Lemma aggregate_all l : Forall (fun h => h.(throws) = false) l -> aggregate_onEvent l = (seq 0 (length l), false).
Proof using.
  intros Hl. unfold aggregate_onEvent. rewrite each_all by done. f_equal. clear Hl. generalize 0%nat.
  induction l as [|h l IH]; intros i; [done|]. cbn. by rewrite IH.
Qed.

(** The handlers behind one that throws do not see the event. *)
Theorem aggregate_stops before h after : Forall (fun h => h.(throws) = false) before -> h.(throws) = true ->
  aggregate_onEvent (before ++ h :: after) = (seq 0 (S (length before)), true).
Proof using.
  intros Hb Hh. unfold aggregate_onEvent. generalize 0%nat as i. induction Hb as [|x l Hx _ IH]; intros i; cbn [app each].
  - by rewrite Hh.
  - rewrite Hx, IH. done.
Qed.
End Aggregate.

(** ** NoOpEventProcessor *)

(** SequencerFollowingSequence: the value is the cursor, and storing does nothing. *)
Inductive sequence_call := GetValue | SetValue (v : Z) | CompareAndSet (expected v : Z) | IncrementAndGet | AddAndGet (v : Z).
Inductive sequence_result := Long (v : Z) | Bool (b : bool) | Void.
Definition following (cursor : Z) (c : sequence_call) : sequence_result :=
  match c with
  | GetValue => Long cursor
  | SetValue _ => Void
  | CompareAndSet _ _ => Bool false
  | IncrementAndGet => Long 0
  | AddAndGet _ => Long 0
  end.

Definition noop_running : string := "Thread is already running".
(** run() with what m_running holds: the class does not initialise it. *)
Definition noop_run (m_running : Z) : Z * result unit := (1, if m_running =? 0 then Ok tt else Throw noop_running).
Definition noop_halt (_ : Z) : Z := 0.
Definition noop_isRunning (m_running : Z) : bool := m_running =? 1.

(** A processor that was not halted before its first run may refuse to run. *)
Theorem noop_uninitialised : exists m_running, (noop_run m_running).2 = Throw noop_running.
Proof. by exists 7. Qed.
Lemma noop_reruns m : (noop_run (noop_halt m)).2 = Ok tt.
Proof. done. Qed.

Section Gate.
Context `{SequenceUtilLaws}.
(** As the only gating sequence it never holds a single producer back that has published
    what it claimed. *)
Theorem noop_never_gates s n : sequencer_ok s [s.(m_cursor)] -> s.(m_cursor) = s.(m_nextValue) -> 1 <= n <= s.(m_bufferSize) ->
  exists gate s', following s.(m_cursor) GetValue = Long gate /\ next s [gate] n = Ok (s', Some (s.(m_nextValue) + n)).
Proof using Type*.
  intros Hok Hc Hn. exists s.(m_cursor). rewrite Hc in *. destruct (next_spec s [s.(m_nextValue)] n Hok Hn) as [[_ (s' & Hs & _)]|[Hg _]]; [by exists s'|].
  exfalso. unfold gate in Hg. cbn in Hg. lia.
Qed.
End Gate.
